(* ===== verification/_CoqProject ===== *)
-Q . S2P
Prelude.v
Kernel.v
Ring.v
Eq3Loop.v
Eq3Pipe.v
Eq3Sys.v
Eq3Files.v
RawUart.v
RawUartRx.v
RawUartTx.v
RawUartSys.v
RawUartAdmin.v
RawUartSysfs.v
HmFrame.v
FakeHmrf.v
HbRfEth.v
Bigint.v
BigintMod.v
BigintFast.v
DeviceKey.v
Effects.v
Rtc.v
RtcSpec.v
RtcAlarm.v
RtcBind.v
SocUart.v
Pl011.v
DwApb.v
Meson.v
SocBind.v
Usb.v
HbRfUsb.v
HbRfUsb2.v
UsbRx.v
UsbTx.v
UsbSys.v
UsbPins.v
UsbBind.v
DetectFrame.v
StreamParser.v
Detector.v
DetectSys.v
DetectFake.v
DetectMain.v
RfLed.v
LedTimer.v
WaitNotify.v
ModuleInit.v
EthThreads.v
