(* ===== verification/Prelude.v ===== *)
(** * piVCCU: the drivers and tools of a HomeMatic central unit

    piVCCU runs the HomeMatic central unit on single board computers.  What is
    particular to it are kernel modules that connect the software of the
    central unit with a radio module, whatever that is attached to, and a tool
    that finds out which module it is:

      multimacd and friends
        | /dev/mmd_*, /dev/eq3loop       eq3_char_loop.c   Eq3Loop, Eq3Pipe, Eq3Sys, Eq3Files
        | /dev/raw-uart, /dev/raw-uart1  generic_raw_uart.c RawUart*, DeviceKey
        |                                  (devkey.inc)    Bigint, BigintMod, BigintFast
        |    struct raw_uart_driver
        +-- pl011_raw_uart.c             SocUart, Pl011, SocBind
        +-- dw_apb_raw_uart.c            SocUart, DwApb, SocBind
        +-- meson_raw_uart.c             SocUart, Meson, SocBind
        +-- hb_rf_eth.c                  HbRfEth, EthThreads
        +-- hb_rf_usb.c                  Usb, HbRfUsb, UsbRx, UsbTx, UsbSys, UsbPins, UsbBind
        +-- hb_rf_usb_2.c                Usb, HbRfUsb2, and the same
      radio module protocol, hm.h        HmFrame
      /dev/fake_hmrf, fake_hmrf.c        FakeHmrf
      RTC of the adapter, rtc-rx8130.c   Rtc, RtcSpec, RtcAlarm, RtcBind
      its LEDs, rpi_rf_mod_led.c         RfLed
        led_trigger_timer.c              LedTimer

      detect_radio_module (on /dev/raw-uart, while nothing else has it open)
        hmframe.cpp                      DetectFrame
        streamparser.cpp                 StreamParser
        radiomoduledetector.cpp          Detector, DetectSys
        radiomoduleconnector.cpp, main.cpp  DetectSys, DetectMain
        against /dev/fake_hmrf           DetectFake
      wait_sysfs_notify                  WaitNotify

      loading and unloading of modules   ModuleInit

    The drivers are under src/kernel/, the two tools under
    src/detect_radio_module/ and src/wait_sysfs_notify/.  Functions, fields and
    constants keep their names; [sys_] and similar prefixes mark the level of a whole
    driver.

    ** How code becomes definitions

    A handler is one function from the state it may change, its arguments and
    the answers of its environment (user memory, allocations, signals, hardware)
    to its result; its guards are the conditions of the code in their order.
    Handlers under one lock are one step.  Where locks are released in the
    middle the function is cut there, and a relation [step] with its closure
    gives the interleavings.  The drivers of real hardware thread its state
    through the monad of [Effects].  Integers are [Z] with [u8], [u16], [u32]
    and [s32] where the code truncates.  Arrays are lists; [l @@ i] reads an
    entry, and reads or writes out of bounds are explicit where the code can do
    them.  Loops bounded by their data are structural; the others have fuel.

    ** Files

    - [Kernel]: error numbers, [copy_to_user] and [copy_from_user] as inputs,
      ioctl numbers, and the class [CircBuf] with the documented laws of the
      [circ_buf] macros; [Ring] gives a ring the meaning of a queue.
    - [Effects]: state monad, early return on errors, weakest preconditions and
      preservation, with their tactics.
    - [Eq3Loop]: the handlers of one channel.  [Eq3Pipe]: two bounded queues as
      the specification of a channel; the handlers refine it, sessions deliver
      complete and in order, sleepers are woken, polling agrees with what calls
      do.  [Eq3Sys]: the control device, all channels and the open files.
      [Eq3Files]: system calls of processes on files; the whole driver refines a
      device of four ports, and books kept of every channel over the life of the
      driver balance.
    - [RawUart]: state of an instance, its class [RawUartDriver] of hardware
      operations with the laws of a lawful driver; [RawUartRx] receive path,
      [RawUartTx] transmit path, [RawUartSys] the runs of all files, writers and
      interrupts, [RawUartAdmin] probe, removal and ioctl, [RawUartSysfs] the
      attributes as the texts user space reads and writes.
    - [Bigint], [BigintMod], [BigintFast], [DeviceKey]: the check of the
      signature of USB adapters, up to affine double-and-add as reference.
    - [HmFrame]: checksum, encoder, parser, escaping.  [FakeHmrf]: the device
      that answers in place of a radio module.
    - [HbRfEth]: UDP transport, sender and receiver threads, watch-dog; an
      instance of [RawUartDriver].  [EthThreads]: how the threads share the
      socket and one another, with whoever connects, disconnects and unloads.
    - [SocUart]: what the three memory-mapped drivers share: platform calls,
      the class [FifoDriver] with the laws of their hardware, the receive and
      transmit halves of an interrupt, simulated hardware, probe and removal.
      [Pl011], [DwApb], [Meson]: one driver each, instances of [RawUartDriver]
      and of [FifoDriver].  [SocBind]: their probes.
    - [Rtc]: the clock driver over the classes [Smbus], [Bcd] and [RtcLib].
      [RtcSpec]: the class [Chip] of what the device promises, a simulated chip
      that keeps the promise, and the time; [RtcAlarm]: alarms and the interrupt;
      [RtcBind]: registers touched and the probe.
    - [Usb]: the class [UsbHost] of what a USB host controller promises, the
      part both USB drivers share ([link]), devices and their match, a simulated
      host.  [HbRfUsb], [HbRfUsb2]: every function of one driver each, instances
      of [RawUartDriver].  [UsbRx]: what received transfers are taken for.
      [UsbTx]: the class [UsbDriver], proved of both drivers, and the delivery
      of writes for any instance of it.  [UsbSys]: open files, completions and
      removal in any order, the count of references.  [UsbPins]: the GPIO chips
      against an abstract state of the pins.  [UsbBind]: the probes, the
      configuration of the CP2102N, and that a bound device starts the runs of
      [UsbSys].
    - [RfLed]: three LEDs on GPIO pins, every pin asked for is given back.
      [LedTimer]: the attributes of the timer trigger, over the class [LedCore].
    - [DetectFrame]: the frames of the tool, the same format as in the kernel,
      escaped in place.  [StreamParser]: frames out of a stream of bytes, where
      it writes and what it hands on.
    - [Detector]: what a frame does to the detector in each of its states, with
      the invariant of what it has found out.  [DetectSys]: the main thread as a
      program of steps and the reader as one step per byte, in any order: safety,
      termination, and the case that never ends.  [DetectFake]: the tool in
      dialogue with [FakeHmrf].  [DetectMain]: settings of the line, the program
      and the line it prints.
    - [WaitNotify]: a program that waits for one attribute to change.
    - [ModuleInit]: what four modules hold after a load, a load that fails and
      an unload, with the order in which devices appear and are set up.

    ** Threads of the detection

    A statement of the main thread is a step, a test of a loop with the
    assignment after it is one step; a byte received by the reader, with
    everything the frame it completes leads to, is one step.  The semaphore
    orders the threads only where the code uses it.  The tear of a single
    field that both threads touch is not modelled.

    ** Threads of the network driver

    In [EthThreads] a step is one access to what the threads share (the pointer
    to the socket, the pointers to the threads, their stop flags), with the local
    work before it; the steps of the three parties come in any order.  [calm]
    names the four situations in which the code has a race; runs without them
    are safe ([threads_safe]), and each of them leads to an error of memory in a
    run from the load ([threads_race]).  A thread that is asked to stop has a
    measure that each of its steps lowers: at most five steps of the sender,
    eight of the receiver ([stopping_ends]).

    ** Bounds and fuel

    - The escaping loop of the tool has one unit more than the length before
      escaping; each round passes one byte of it.
    - 76 steps of the main thread are the value of a potential at the start of
      the detection ([detection_terminates]); the dialogue with the fake module
      has as many rounds.  In a round at most four messages are served
      (running out is an error value, so the theorem shows it is enough), and
      what is read back at once is at most the buffer of the module.
    - Numbers are printed with at most 20 digits, more than 64 bits need.
    - [tx_loop] of a transmit interrupt has fuel one more than the chunk of the
      driver: each round hands over at least one byte or ends.
    - A call of the interrupt from a write has the fuel of the bytes left.
    - The receive loops have as fuel more than the burst in the FIFO; each round
      takes one character.
    - [reduce_fuel] 8: the fast reductions are below eight times the modulus
      ([mod_mult_fast_correct] shows the loops end).  [inv_fuel] is 64 rounds per
      word, two per bit; [mod_inv_decided] shows it is enough.
    - The decoder of CP2102N transfers has one unit more than their length; each
      round moves on by at least one byte.
    - Waits for hardware ([patience]) have the number of polls after which the
      hardware is idle as a hypothesis; the write of the line control register
      gives up after 1000 tries as the code does.

    ** Not modelled

    - Registration with the kernel (device numbers, classes, sysfs and platform
      devices) except where the answers decide what is held or freed; the init
      functions that only register a platform, USB or I2C driver; scheduling
      priorities and log messages.
    - The digests of the kernel's crypto API that the signature check hashes
      with: an argument.  The kernel's BCD and calendar routines, the I2C bus
      and the register files of UARTs: classes with their documented laws, each
      with an instance.
    - Memory contents of freed objects: a use after free is an explicit event.
    - The USB core: enumeration, string descriptors and transfers are an
      argument or the class [UsbHost]; allocations whose failure the USB drivers
      do not check succeed; transfers are not started before the probe has made
      their URBs; a cancelled transfer's handler has run when the cancelling
      call returns.
    - Two writers of the connect attribute of hb_rf_eth.c at once, who would
      start two pairs of threads; the wait of the kernel for open attributes
      while a device is removed.
    - Time stamps and hexadecimal dumps in the log of the tool.
    - plat_eq3ccu2.c, a set of module parameters, and dummy_rx8130.c, whose
      functions do nothing; shell scripts, packaging, device trees, kernel
      patches. *)

(** ** This file

    Integers of the C code, arrays, and the lemmas and tactics about them that
    all components share. *)
From stdpp Require Export base tactics list numbers list_numbers gmap.
From Stdlib Require Export ZArith Lia Bool.

(** ** Scope and notations *)

Declare Scope c_scope.
Delimit Scope c_scope with C.
Global Open Scope Z_scope.

(** [l @@ i] reads entry [i] of a C array; every use is at an index the
    surrounding code keeps in range, or the operation tests the range itself. *)
Notation "l @@ i" := (l !!! Z.to_nat i) (at level 20, right associativity) : c_scope.
Global Open Scope c_scope.

(** ** Machine integers *)

Definition u8 (z : Z) : Z := z mod 2 ^ 8.
Definition u16 (z : Z) : Z := z mod 2 ^ 16.
Definition u32 (z : Z) : Z := z mod 2 ^ 32.
Definition u64 (z : Z) : Z := z mod 2 ^ 64.

(** Conversion to a 32-bit two's complement [int]. *)
Definition s32 (z : Z) : Z := (z + 2 ^ 31) mod 2 ^ 32 - 2 ^ 31.

Definition is_byte (b : Z) : Prop := 0 <= b < 2 ^ 8.
Definition bytes (l : list Z) : Prop := Forall is_byte l.
Definition is_word (w : Z) : Prop := 0 <= w < 2 ^ 32.

(** C truth values. *)
Definition b2z (b : bool) : Z := if b then 1 else 0.

(** ** Arrays *)

(** [n] entries of [l] from offset [i]. *)
Definition slice (l : list Z) (i n : Z) : list Z :=
  take (Z.to_nat n) (drop (Z.to_nat i) l).

(** [memcpy(l + i, data, length data)]. *)
Definition splice (l : list Z) (i : Z) (data : list Z) : list Z :=
  take (Z.to_nat i) l ++ data ++ drop (Z.to_nat i + length data) l.

(** Length of a list as a C size. *)
Definition zlen {A} (l : list A) : Z := Z.of_nat (length l).

(** Positive powers of two. *)
Definition pow2 (n : Z) : Prop := exists k, 0 <= k /\ n = 2 ^ k.

(** ** Reflexive transitive closure of a step relation *)

Section Reach.
Context {A : Type} (R : A -> A -> Prop).

Inductive star : A -> A -> Prop :=
| star_refl a : star a a
| star_step a b c : R a b -> star b c -> star a c.

Lemma star_one a b : R a b -> star a b.
Proof. intros; eapply star_step; [eassumption | apply star_refl]. Qed.

Lemma star_trans a b c : star a b -> star b c -> star a c.
Proof. induction 1; [done | intros; eapply star_step; eauto]. Qed.

(** An invariant of the steps is an invariant of every reachable state. *)
Lemma star_invariant (I : A -> Prop) :
  (forall a b, I a -> R a b -> I b) -> forall a b, star a b -> I a -> I b.
Proof. intros HI a b H. induction H; eauto. Qed.
End Reach.

(** ** Tactics *)

(** Split every [if] and [match] on a boolean test of the goal or of the
    hypotheses, turning the comparison into a hypothesis on [Z]. *)
Ltac cases_Z :=
  repeat match goal with
  | |- context [Z.ltb ?a ?b] => destruct (Z.ltb_spec a b)
  | |- context [Z.leb ?a ?b] => destruct (Z.leb_spec a b)
  | |- context [Z.eqb ?a ?b] => destruct (Z.eqb_spec a b)
  | H : context [Z.ltb ?a ?b] |- _ => destruct (Z.ltb_spec a b)
  | H : context [Z.leb ?a ?b] |- _ => destruct (Z.leb_spec a b)
  | H : context [Z.eqb ?a ?b] |- _ => destruct (Z.eqb_spec a b)
  end.

(** Close an arithmetic side condition that mentions [mod] and [/]. *)
Ltac zdiv_lia := Z.div_mod_to_equations; lia.

Create HintDb wrap.
Create Rewrite HintDb wrap.
Create HintDb zarr.
Create HintDb ring.

#[global] Arguments Z.testbit : simpl never.
#[global] Arguments Z.setbit : simpl never.
#[global] Arguments Z.clearbit : simpl never.
#[global] Arguments Z.land : simpl never.
#[global] Arguments Z.lor : simpl never.
#[global] Arguments Z.lxor : simpl never.
#[global] Arguments Z.ldiff : simpl never.
#[global] Arguments Z.shiftl : simpl never.
#[global] Arguments Z.shiftr : simpl never.
#[global] Arguments Z.modulo : simpl never.
#[global] Arguments Z.div : simpl never.
#[global] Arguments Z.pow : simpl never.
#[global] Arguments Z.opp : simpl nomatch.

(** ** Lemmas on machine integers *)

Lemma u8_small z : is_byte z -> u8 z = z.
Proof. unfold u8, is_byte. intros. by apply Z.mod_small. Qed.
Lemma u16_small z : 0 <= z < 2 ^ 16 -> u16 z = z.
Proof. unfold u16. intros. by apply Z.mod_small. Qed.
Lemma u32_small z : is_word z -> u32 z = z.
Proof. unfold u32, is_word. intros. by apply Z.mod_small. Qed.
Lemma u64_small z : 0 <= z < 2 ^ 64 -> u64 z = z.
Proof. unfold u64. intros. by apply Z.mod_small. Qed.
Lemma s32_small z : - 2 ^ 31 <= z < 2 ^ 31 -> s32 z = z.
Proof. unfold s32. intros. rewrite Z.mod_small; lia. Qed.

Lemma u8_byte z : is_byte (u8 z).
Proof. unfold is_byte, u8. apply Z.mod_pos_bound. lia. Qed.
Lemma u16_range z : 0 <= u16 z < 2 ^ 16.
Proof. unfold u16. apply Z.mod_pos_bound. lia. Qed.
Lemma u32_word z : is_word (u32 z).
Proof. unfold is_word, u32. apply Z.mod_pos_bound. lia. Qed.

(** Truncation commutes with the bitwise operations. *)
Ltac trunc_bits := unfold u8; rewrite <- !Z.land_ones by lia;
  apply Z.bits_inj'; intros; rewrite ?Z.land_spec, ?Z.lor_spec, ?Z.ldiff_spec, ?Z.land_spec;
  repeat match goal with |- context [Z.testbit ?a ?n] => destruct (Z.testbit a n) end; done.

Lemma u8_land a b : u8 (Z.land a b) = Z.land (u8 a) (u8 b).
Proof. trunc_bits. Qed.
Lemma u8_lor a b : u8 (Z.lor a b) = Z.lor (u8 a) (u8 b).
Proof. trunc_bits. Qed.
Lemma u8_ldiff a b : u8 (Z.ldiff a b) = Z.ldiff (u8 a) b.
Proof. trunc_bits. Qed.

#[export] Hint Rewrite u8_small u16_small u32_small u64_small s32_small
  using (unfold is_byte, is_word in *; lia) : wrap.
#[export] Hint Resolve u8_byte u16_range u32_word : wrap.

Ltac unwrap := autorewrite with wrap in *.

(** Remainders of a sum or a difference that stays within one period. *)
Lemma mod_add_cases a n s : 0 <= a < s -> 0 <= n <= s ->
  (a + n) mod s = if a + n <? s then a + n else a + n - s.
Proof.
  intros Ha Hn. cases_Z; [apply Z.mod_small; lia|].
  symmetry. apply (Z.mod_unique _ _ 1); lia.
Qed.

Lemma mod_sub_cases a b s : 0 <= a < s -> 0 <= b < s ->
  (a - b) mod s = if b <=? a then a - b else a - b + s.
Proof.
  intros Ha Hb. cases_Z; [apply Z.mod_small; lia|].
  symmetry. apply (Z.mod_unique _ _ (-1)); lia.
Qed.

Lemma land_pred_pow2 a k : 0 <= k -> Z.land a (2 ^ k - 1) = a mod 2 ^ k.
Proof. intros. rewrite <- Z.land_ones by lia. f_equal. rewrite Z.ones_equiv. lia. Qed.

Lemma lxor_range a b n : 0 <= n -> 0 <= a < 2 ^ n -> 0 <= b < 2 ^ n ->
  0 <= Z.lxor a b < 2 ^ n.
Proof.
  intros Hn Ha Hb. assert (E : Z.lxor a b = (Z.lxor a b) mod 2 ^ n).
  { apply Z.bits_inj'. intros k Hk. destruct (Z.lt_ge_cases k n).
    - by rewrite Z.mod_pow2_bits_low.
    - rewrite Z.mod_pow2_bits_high, Z.lxor_spec by lia.
      rewrite <- (Z.mod_small a (2 ^ n)), <- (Z.mod_small b (2 ^ n)) by done.
      by rewrite !Z.mod_pow2_bits_high by lia. }
  rewrite E. apply Z.mod_pos_bound. lia.
Qed.

(** [|] of numbers without a common bit. *)
Lemma lor_add a b n : 0 <= n -> 0 <= b < 2 ^ n -> Z.lor (a * 2 ^ n) b = a * 2 ^ n + b.
Proof.
  intros Hn Hb. rewrite Z.add_nocarry_lxor; [apply Z.bits_inj'; intros k Hk|]. 
  all: assert (E : forall k, 0 <= k -> Z.testbit (a * 2 ^ n) k && Z.testbit b k = false).
  1, 3: intros j Hj; destruct (Z.lt_ge_cases j n);
    [rewrite Z.mul_pow2_bits_low by lia; done |
     rewrite <- (Z.mod_small b (2 ^ n)), Z.mod_pow2_bits_high by lia; apply andb_false_r].
  - specialize (E k Hk). rewrite Z.lor_spec, Z.lxor_spec. by do 2 destruct (Z.testbit _ k).
  - apply Z.bits_inj'. intros k Hk. rewrite Z.land_spec, Z.bits_0. auto.
Qed.

Lemma lxor_cancel a b c : Z.lxor a b = Z.lxor a c -> b = c.
Proof.
  intros H. apply (f_equal (Z.lxor a)) in H.
  by rewrite <- !Z.lxor_assoc, Z.lxor_nilpotent, !Z.lxor_0_l in H.
Qed.

(** A check of all numbers below [n], for proofs by computation. *)
Definition all_below (n : Z) (P : Z -> bool) : bool :=
  (Z.iter n (fun s => (s.1 + 1, s.2 && P s.1)) (0, true)).2.

Lemma all_below_spec n P : all_below n P = true -> forall x, 0 <= x < n -> P x = true.
Proof.
  unfold all_below. destruct n as [|p|p]; [lia| |lia]. simpl Z.iter. rewrite Pos2Nat.inj_iter.
  intros H x Hx. assert (Hx' : 0 <= x < Z.of_nat (Pos.to_nat p)) by lia. clear Hx. revert H x Hx'.
  generalize (Pos.to_nat p). clear p. intros k.
  assert (E : forall k, (nat_rect (fun _ => (Z * bool)%type) (0, true)
    (fun _ s => (s.1 + 1, s.2 && P s.1)) k).1 = Z.of_nat k).
  { clear k. induction k as [|k IH]; [done|]. cbn [nat_rect fst]. rewrite IH. lia. }
  induction k as [|k IH]; [lia|]. cbn [nat_rect snd]. rewrite E. intros [H1 H2]%andb_prop x Hx.
  destruct (decide (x = Z.of_nat k)) as [->|]; [done|]. apply IH; [done|lia].
Qed.

(** ** Lemmas on arrays *)

Lemma zlen_nonneg {A} (l : list A) : 0 <= zlen l.
Proof. unfold zlen. lia. Qed.
#[export] Hint Resolve zlen_nonneg : zarr.

Lemma length_slice l i n : 0 <= i -> 0 <= n -> i + n <= zlen l ->
  length (slice l i n) = Z.to_nat n.
Proof. unfold slice, zlen. intros. rewrite length_take, length_drop. lia. Qed.

Lemma zlen_slice l i n : 0 <= i -> 0 <= n -> i + n <= zlen l -> zlen (slice l i n) = n.
Proof. intros. unfold zlen. rewrite length_slice by done. lia. Qed.

Lemma zlen_app {A} (l1 l2 : list A) : zlen (l1 ++ l2) = zlen l1 + zlen l2.
Proof. unfold zlen. rewrite length_app. lia. Qed.

Lemma zlen_nil {A} : zlen (@nil A) = 0.
Proof. done. Qed.

Lemma zlen_cons {A} (x : A) l : zlen (x :: l) = zlen l + 1.
Proof. unfold zlen. simpl. lia. Qed.

Lemma length_splice l i d : 0 <= i -> i + zlen d <= zlen l ->
  length (splice l i d) = length l.
Proof.
  unfold splice, zlen. intros.
  rewrite !length_app, length_take, length_drop. lia.
Qed.

Lemma lookup_splice l i d j : 0 <= i -> i + zlen d <= zlen l ->
  splice l i d !! j =
    if decide (Z.to_nat i <= j < Z.to_nat i + length d)%nat
    then d !! (j - Z.to_nat i)%nat else l !! j.
Proof.
  unfold splice, zlen. intros Hi Hl. case_decide as Hj.
  - rewrite lookup_app_r by (rewrite length_take; lia).
    rewrite length_take, Nat.min_l by lia. apply lookup_app_l. lia.
  - destruct (decide (j < Z.to_nat i)%nat).
    + rewrite lookup_app_l by (rewrite length_take; lia). apply lookup_take_lt. lia.
    + rewrite lookup_app_r by (rewrite length_take; lia).
      rewrite length_take, Nat.min_l by lia.
      rewrite lookup_app_r by lia. rewrite lookup_drop. f_equal. lia.
Qed.

Lemma lookup_slice l i n j : 0 <= i -> (j < Z.to_nat n)%nat ->
  slice l i n !! j = l !! (Z.to_nat i + j)%nat.
Proof. unfold slice. intros. by rewrite lookup_take_lt, lookup_drop by lia. Qed.

Lemma slice_all l : slice l 0 (zlen l) = l.
Proof. unfold slice, zlen. rewrite Nat2Z.id. by apply take_ge. Qed.

Lemma slice_0 l i : slice l i 0 = [].
Proof. reflexivity. Qed.

Lemma splice_nil l i : splice l i [] = l.
Proof. unfold splice. simpl. rewrite Nat.add_0_r. apply take_drop. Qed.

Lemma total_of_lookup (l : list Z) i x : l !! i = Some x -> l !!! i = x.
Proof. intros. by apply list_lookup_total_correct. Qed.

Lemma splice_at l i d j : 0 <= i -> i + zlen d <= zlen l -> 0 <= j ->
  (splice l i d @@ j)%C = if decide (i <= j < i + zlen d) then (d @@ (j - i))%C else (l @@ j)%C.
Proof.
  intros. rewrite !list_lookup_total_alt, lookup_splice by done. unfold zlen in *.
  repeat case_decide; try lia; do 2 f_equal; lia.
Qed.

Lemma slice_total l i n j : 0 <= i -> (j < Z.to_nat n)%nat ->
  slice l i n !!! j = l !!! (Z.to_nat i + j)%nat.
Proof. intros. by rewrite !list_lookup_total_alt, lookup_slice. Qed.

(** Two lists of the same length agree when they agree at every index in range. *)
Lemma list_eq_total (l1 l2 : list Z) : length l1 = length l2 ->
  (forall i, (i < length l1)%nat -> l1 !!! i = l2 !!! i) -> l1 = l2.
Proof.
  intros Hlen H. apply list_eq_same_length with (length l1); [done | done |].
  intros i x y Hi Hx Hy. apply total_of_lookup in Hx, Hy. rewrite <- Hx, <- Hy. auto.
Qed.

Lemma bytes_app l1 l2 : bytes (l1 ++ l2) <-> bytes l1 /\ bytes l2.
Proof. apply Forall_app. Qed.
Lemma bytes_cons b l : bytes (b :: l) <-> is_byte b /\ bytes l.
Proof. apply Forall_cons. Qed.
Lemma bytes_take n l : bytes l -> bytes (take n l).
Proof. apply Forall_take. Qed.
Lemma bytes_drop n l : bytes l -> bytes (drop n l).
Proof. apply Forall_drop. Qed.
Lemma bytes_slice l i n : bytes l -> bytes (slice l i n).
Proof. intros. by apply bytes_take, bytes_drop. Qed.
(** A list of literals is checked by computation. *)
Lemma bytes_check l : forallb (fun b => (0 <=? b) && (b <? 256)) l = true -> bytes l.
Proof.
  rewrite forallb_forall. intros H. apply Forall_forall. intros b Hb.
  apply list_elem_of_In, H, andb_prop in Hb as [? ?]. unfold is_byte. lia.
Qed.

#[export] Hint Resolve bytes_take bytes_drop bytes_slice : zarr.
