(* ===== verification/Kernel.v ===== *)
(** What the drivers take from the Linux kernel: error numbers, the outcome of
    copies from and to user memory, and the [circ_buf] macros.  None of that
    code is part of the repository, so it appears here as constants of the
    stable kernel ABI, as inputs of the operations, and as the class [CircBuf]
    of operations with the laws documented in <linux/circ_buf.h>. *)
From S2P Require Import Prelude.

(** ** Error numbers (include/uapi/asm-generic/errno-base.h, errno.h) *)

Definition EPERM : Z := 1.
Definition EIO : Z := 5.
Definition EAGAIN : Z := 11.
Definition ENOMEM : Z := 12.
Definition EFAULT : Z := 14.
Definition EBUSY : Z := 16.
Definition ENODEV : Z := 19.
Definition EINVAL : Z := 22.
Definition EMFILE : Z := 24.
Definition ENOTTY : Z := 25.
Definition ENOSYS : Z := 38.
Definition EPROTO : Z := 71.
Definition EMSGSIZE : Z := 90.
Definition ETIMEDOUT : Z := 110.
Definition ERESTARTSYS : Z := 512.
Definition ENOIOCTLCMD : Z := 515.
Definition EPROBE_DEFER : Z := 517.

(** ** Copies from user memory

    [copy_from_user] returns 0 and delivers the source, or it returns the
    number of bytes it could not copy and leaves [d] in the destination. *)
Inductive copy_in := Copied | Faulted (d : list Z).

Definition copy_failed (c : copy_in) : bool :=
  match c with Copied => false | Faulted _ => true end.

(** What the destination of a copy of [data] holds afterwards. *)
Definition landed (c : copy_in) (data : list Z) : list Z :=
  match c with
  | Copied => data
  | Faulted d => take (length data) (d ++ replicate (length data) 0)
  end.

Lemma length_landed c data : length (landed c data) = length data.
Proof. destruct c; simpl; [done|]. rewrite length_take, length_app, length_replicate. lia. Qed.

(** ** Bits

    [v & mask] as a condition, and [BIT(n)]. *)
Definition has (v mask : Z) : bool := negb (Z.land v mask =? 0).
Definition BIT (n : Z) : Z := 2 ^ n.

Lemma has_pow2 v k : 0 <= k -> has v (2 ^ k) = Z.testbit v k.
Proof.
  intros Hk. unfold has. destruct (Z.eqb_spec (Z.land v (2 ^ k)) 0) as [E|E].
  - apply (f_equal (fun x => Z.testbit x k)) in E.
    rewrite Z.land_spec, Z.bits_0, Z.pow2_bits_true, andb_true_r in E by done. by rewrite E.
  - symmetry. apply not_false_iff_true. intros F. apply E. apply Z.bits_inj'. intros n Hn.
    rewrite Z.land_spec, Z.pow2_bits_eqb, Z.bits_0 by done.
    destruct (Z.eqb_spec k n) as [->|]; [by rewrite F | apply andb_false_r].
Qed.

Lemma has_ldiff v a b : Z.land a b = 0 -> has (Z.ldiff v a) b = has v b.
Proof.
  intros E. unfold has. do 2 f_equal. apply Z.bits_inj'. intros n Hn.
  apply (f_equal (fun x => Z.testbit x n)) in E. rewrite Z.land_spec, Z.bits_0 in E.
  rewrite !Z.land_spec, Z.ldiff_spec. by destruct (Z.testbit v n), (Z.testbit a n), (Z.testbit b n).
Qed.

(** ** Outcome of one critical section of a blocking operation

    [Ret r]: the operation returned [r].  [Wait]: it released its lock and
    sleeps in [wait_event_interruptible]; it will run again when woken. *)
Inductive outcome := Ret (r : Z) | Wait.

#[export] Instance outcome_eq_dec : EqDecision outcome.
Proof. solve_decision. Defined.

(** ** The macros of <linux/circ_buf.h> *)

Class CircBuf := {
  CIRC_CNT : Z -> Z -> Z -> Z;
  CIRC_SPACE : Z -> Z -> Z -> Z;
  CIRC_CNT_TO_END : Z -> Z -> Z -> Z;
  CIRC_SPACE_TO_END : Z -> Z -> Z -> Z;

  (** "Return count in buffer." *)
  circ_cnt_law h t s : pow2 s -> 0 <= h < s -> 0 <= t < s ->
    CIRC_CNT h t s = (h - t) mod s;
  (** "Return space available, 0..size-1.  We always leave one free char as a
      completely full buffer has head == tail, which is the same as empty." *)
  circ_space_law h t s : pow2 s -> 0 <= h < s -> 0 <= t < s ->
    CIRC_SPACE h t s = s - 1 - (h - t) mod s;
  (** "Return count up to the end of the buffer." *)
  circ_cnt_to_end_law h t s : pow2 s -> 0 <= h < s -> 0 <= t < s ->
    CIRC_CNT_TO_END h t s = Z.min ((h - t) mod s) (s - t);
  (** "Return space available up to the end of the buffer." *)
  circ_space_to_end_law h t s : pow2 s -> 0 <= h < s -> 0 <= t < s ->
    CIRC_SPACE_TO_END h t s = Z.min (s - 1 - (h - t) mod s) (s - h)
}.

(** A concrete implementation of the macros, used to run the model. *)
Module LinuxCirc.
Definition cnt (h t s : Z) : Z := Z.land (h - t) (s - 1).
Definition space (h t s : Z) : Z := cnt t (h + 1) s.
Definition cnt_to_end (h t s : Z) : Z :=
  let e := s - t in
  let n := Z.land (h + e) (s - 1) in
  if n <? e then n else e.
Definition space_to_end (h t s : Z) : Z :=
  let e := s - 1 - h in
  let n := Z.land (e + t) (s - 1) in
  if n <=? e then n else e + 1.

Lemma land_size a s : pow2 s -> Z.land a (s - 1) = a mod s.
Proof. intros [k [? ->]]. by apply land_pred_pow2. Qed.

(** Periods added or removed under [mod] do not matter. *)
Lemma mod_shift a b k s : 0 < s -> b = a + k * s -> b mod s = a mod s.
Proof. intros ? ->. apply Z_mod_plus_full. Qed.

Lemma cnt_law h t s : pow2 s -> 0 <= h < s -> 0 <= t < s -> cnt h t s = (h - t) mod s.
Proof. intros. by apply land_size. Qed.

Lemma space_law h t s : pow2 s -> 0 <= h < s -> 0 <= t < s ->
  space h t s = s - 1 - (h - t) mod s.
Proof.
  intros Hs Hh Ht. unfold space, cnt. rewrite land_size by done.
  rewrite (mod_sub_cases h t s) by done. cases_Z.
  - rewrite (mod_shift (s - 1 - (h - t)) _ (-1) s) by lia. apply Z.mod_small. lia.
  - rewrite (mod_shift (t - h - 1) _ 0 s) by lia. rewrite Z.mod_small; lia.
Qed.

Lemma cnt_to_end_law h t s : pow2 s -> 0 <= h < s -> 0 <= t < s ->
  cnt_to_end h t s = Z.min ((h - t) mod s) (s - t).
Proof.
  intros Hs Hh Ht. unfold cnt_to_end. rewrite !land_size by done.
  rewrite (mod_shift (h - t) _ 1 s) by lia.
  rewrite !mod_sub_cases by done. cases_Z; lia.
Qed.

Lemma space_to_end_law h t s : pow2 s -> 0 <= h < s -> 0 <= t < s ->
  space_to_end h t s = Z.min (s - 1 - (h - t) mod s) (s - h).
Proof.
  intros Hs Hh Ht. unfold space_to_end. rewrite !land_size by done.
  assert (E : (s - 1 - h + t) mod s = s - 1 - (h - t) mod s).
  { rewrite <- (space_law h t s) by done. unfold space, cnt.
    rewrite land_size by done. apply (mod_shift _ _ 1); lia. }
  rewrite !E, !mod_sub_cases by done. cases_Z; lia.
Qed.
End LinuxCirc.

(** Not declared as an instance: theorems quantify over [CircBuf], and only
    witnesses pick this implementation. *)
Definition linux_circ : CircBuf := {|
  CIRC_CNT := LinuxCirc.cnt;
  CIRC_SPACE := LinuxCirc.space;
  CIRC_CNT_TO_END := LinuxCirc.cnt_to_end;
  CIRC_SPACE_TO_END := LinuxCirc.space_to_end;
  circ_cnt_law := LinuxCirc.cnt_law;
  circ_space_law := LinuxCirc.space_law;
  circ_cnt_to_end_law := LinuxCirc.cnt_to_end_law;
  circ_space_to_end_law := LinuxCirc.space_to_end_law
|}.

(** ** ioctl commands

    A command is either built by the [_IO*] macros, seen through its decoded
    fields, or one of the tty commands of <asm/ioctls.h>. *)
Inductive tty_cmd :=
| TCGETS | TCSETS | TCSETSW | TCSETSF
| TCGETS2 | TCSETS2 | TCSETSW2 | TCSETSF2
| TIOCINQ | TIOCOUTQ | TIOCEXCL | TCFLSH | TIOCMGET | TIOCMSET
| TIOCSERGETLSR | TIOCGICOUNT.

Inductive ioctl_cmd :=
| Ioc (dir type nr size : Z)
| Tty (c : tty_cmd).

#[export] Instance tty_cmd_eq_dec : EqDecision tty_cmd.
Proof. solve_decision. Defined.
#[export] Instance ioctl_cmd_eq_dec : EqDecision ioctl_cmd.
Proof. solve_decision. Defined.

(** Direction bits of a command. *)
Definition IOC_WRITE : Z := 1.
Definition IOC_READ : Z := 2.

(** Poll bits (include/uapi/asm-generic/poll.h). *)
Definition POLLIN : Z := 0x1.
Definition POLLPRI : Z := 0x2.
Definition POLLOUT : Z := 0x4.
Definition POLLERR : Z := 0x8.
Definition POLLRDNORM : Z := 0x40.
Definition POLLWRNORM : Z := 0x100.

(** [struct termios], as far as the drivers look into it. *)
Record termios := Termios {
  c_iflag : Z; c_oflag : Z; c_cflag : Z; c_lflag : Z; c_line : Z; c_cc : list Z
}.

(** [NCCS] of struct termios. *)
Definition NCCS : nat := 19.
Definition zero_termios : termios := Termios 0 0 0 0 0 (replicate NCCS 0).

(** Modem status and line status bits. *)
Definition TIOCM_CTS : Z := 0x20.
Definition TIOCM_CAR : Z := 0x40.
Definition TIOCM_CD : Z := TIOCM_CAR.
Definition TIOCM_DSR : Z := 0x100.
Definition TIOCSER_TEMT : Z := 1.

(** A value stored to user memory by an ioctl. *)
Inductive user_val :=
| UNone
| UInt (z : Z)
| ULong (z : Z)
| UTermios (t : termios)
| UTermios2 (t : termios) (ispeed ospeed : Z)
| UIcount (counters : list Z)
| UBytes (l : list Z).

(** Does an ioctl's access to user memory go through? *)
Record user_access := {
  ua_ok : bool;      (* access_ok *)
  ua_left : Z        (* what copy_to/from_user or __put/__get_user returns *)
}.

(** ** Runs of code that can touch memory it must not

    [NoFuel] only says that the bound given to a loop was too small. *)
Inductive exec (A : Type) :=
| Ok (a : A)
| UseAfterFree
| NullDeref
| OutOfBounds
| NoFuel.
Arguments Ok {A}.
Arguments UseAfterFree {A}.
Arguments NullDeref {A}.
Arguments OutOfBounds {A}.
Arguments NoFuel {A}.

Definition exec_bind {A B} (m : exec A) (k : A -> exec B) : exec B :=
  match m with
  | Ok a => k a
  | UseAfterFree => UseAfterFree
  | NullDeref => NullDeref
  | OutOfBounds => OutOfBounds
  | NoFuel => NoFuel
  end.

(** Access through a pointer. *)
Definition deref {A} (o : option A) : exec A :=
  match o with Some a => Ok a | None => UseAfterFree end.

(** Access to an array entry. *)
Definition entry {A} (o : option A) : exec A :=
  match o with Some a => Ok a | None => OutOfBounds end.

Notation "'let?' x := m 'in' k" := (exec_bind m (fun x => k))
  (at level 10, x pattern, m at level 100, k at level 200) : c_scope.

Lemma exec_bind_ok {A B} (m : exec A) (k : A -> exec B) b :
  exec_bind m k = Ok b -> exists a, m = Ok a /\ k a = Ok b.
Proof. destruct m; simpl; try done. eauto. Qed.

Lemma deref_ok {A} (o : option A) a : deref o = Ok a <-> o = Some a.
Proof. destruct o; simpl; split; congruence. Qed.
