(* ===== verification/Ring.v ===== *)
(** Ring buffers.

    Every character device of the repository keeps its data in a
    [struct circ_buf] whose size is a power of two and which always leaves one
    entry free.  This file abstracts a ring by the list of its contents,
    oldest byte first, and shows what each way the drivers move [head] and
    [tail] does to that list.  The drivers' own code is in the component files;
    nothing here is specific to one of them. *)
From S2P Require Import Prelude Kernel.

(** [struct circ_buf] *)
Record circ_buf := CircBuf_ { buf : list Z; head : Z; tail : Z }.

Definition set_tail (t : Z) (r : circ_buf) : circ_buf := CircBuf_ (buf r) (head r) t.
Definition set_head (h : Z) (r : circ_buf) : circ_buf := CircBuf_ (buf r) h (tail r).
Definition set_buf (b : list Z) (r : circ_buf) : circ_buf := CircBuf_ b (head r) (tail r).

(** A well-formed ring of [size] bytes. *)
Record ring_ok (size : Z) (r : circ_buf) : Prop := {
  ring_pow2 : pow2 size;
  ring_len : zlen (buf r) = size;
  ring_head : 0 <= head r < size;
  ring_tail : 0 <= tail r < size
}.

(** Number of bytes stored. *)
Definition used (size : Z) (r : circ_buf) : Z := (head r - tail r) mod size.

(** The bytes stored, oldest first. *)
Definition contents (size : Z) (r : circ_buf) : list Z :=
  (fun i => buf r @@ ((tail r + Z.of_nat i) mod size)) <$> seq 0 (Z.to_nat (used size r)).

(** Copying [n] bytes out of the ring in two runs, as a two-part
    [copy_to_user] does: to the end of the array, then from its start. *)
Definition read_runs (size n n1 : Z) (r : circ_buf) : list Z :=
  slice (buf r) (tail r) n1 ++ slice (buf r) ((tail r + n1) mod size) (n - n1).

(** Copying [d1] to [head] and [d2] after it. *)
Definition write_runs (size : Z) (d1 d2 : list Z) (r : circ_buf) : circ_buf :=
  set_buf (splice (splice (buf r) (head r) d1) ((head r + zlen d1) mod size) d2) r.

Section Ring.
Context (size : Z).

Lemma used_range r : ring_ok size r -> 0 <= used size r < size.
Proof. intros []. apply Z.mod_pos_bound. lia. Qed.

Lemma used_cases r : ring_ok size r ->
  used size r = if tail r <=? head r then head r - tail r else head r - tail r + size.
Proof. intros []. unfold used. by apply mod_sub_cases. Qed.

Lemma zlen_contents r : ring_ok size r -> zlen (contents size r) = used size r.
Proof.
  intros H. unfold zlen, contents. rewrite length_fmap, length_seq.
  pose proof (used_range r H). lia.
Qed.

Lemma length_contents r : length (contents size r) = Z.to_nat (used size r).
Proof. unfold contents. by rewrite length_fmap, length_seq. Qed.

Lemma contents_empty r : ring_ok size r -> used size r = 0 <-> contents size r = [].
Proof.
  intros H. pose proof (zlen_contents r H). unfold zlen in *. split; intros E.
  - apply nil_length_inv. lia.
  - rewrite E in *. simpl in *. lia.
Qed.

Lemma contents_lookup r i : (i < Z.to_nat (used size r))%nat ->
  contents size r !!! i = buf r @@ ((tail r + Z.of_nat i) mod size).
Proof.
  intros Hi. unfold contents. rewrite (list_lookup_total_fmap _ _ _) by (rewrite length_seq; lia).
  by rewrite lookup_total_seq_lt.
Qed.

(** Indexing the ring at a small offset. *)
Lemma ring_index r i : ring_ok size r -> 0 <= i <= size ->
  (tail r + i) mod size = if tail r + i <? size then tail r + i else tail r + i - size.
Proof. intros [] ?. by apply mod_add_cases. Qed.

Lemma set_tail_ok r t : ring_ok size r -> 0 <= t < size -> ring_ok size (set_tail t r).
Proof. intros [] ?. by split. Qed.
Lemma set_head_ok r h : ring_ok size r -> 0 <= h < size -> ring_ok size (set_head h r).
Proof. intros [] ?. by split. Qed.
Lemma set_buf_ok r b : ring_ok size r -> length b = length (buf r) ->
  ring_ok size (set_buf b r).
Proof. intros [] E. split; try done. simpl. unfold zlen in *. by rewrite E. Qed.

Lemma ring_mod_range r i : ring_ok size r -> 0 <= i mod size < size.
Proof. intros []. apply Z.mod_pos_bound. lia. Qed.
End Ring.

#[export] Hint Resolve set_tail_ok set_head_ok set_buf_ok ring_mod_range : ring.

Section Consume.
Context (size : Z).

(** Advancing [tail] by [n] drops the [n] oldest bytes. *)
Lemma contents_advance r n : ring_ok size r -> 0 <= n <= used size r ->
  contents size (set_tail ((tail r + n) mod size) r) = drop (Z.to_nat n) (contents size r).
Proof.
  intros H Hn. pose proof (used_range _ _ H). pose proof H as [_ _ Hh Ht].
  assert (H' : ring_ok size (set_tail ((tail r + n) mod size) r)) by eauto with ring.
  assert (Hu : used size (set_tail ((tail r + n) mod size) r) = used size r - n).
  { assert (0 <= n <= size) by lia.
    rewrite !used_cases by done. rewrite used_cases in Hn by done.
    simpl. rewrite !(ring_index size) by done. cases_Z; lia. }
  apply list_eq_total.
  { rewrite length_drop, !length_contents, Hu. lia. }
  intros i Hi. rewrite length_contents, Hu in Hi.
  rewrite lookup_total_drop, !contents_lookup by (rewrite ?Hu; lia).
  simpl. f_equal. f_equal. rewrite Zplus_mod_idemp_l. f_equal. lia.
Qed.

(** The two runs of a read deliver the [n] oldest bytes. *)
Lemma read_runs_spec r n : ring_ok size r -> 0 <= n <= used size r ->
  read_runs size n (Z.min n (size - tail r)) r = take (Z.to_nat n) (contents size r).
Proof.
  intros H Hn. pose proof (used_range _ _ H). pose proof H as [_ Hl Hh Ht].
  set (n1 := Z.min n (size - tail r)).
  assert (Hw : n1 < n -> (tail r + n1) mod size = 0).
  { intros. rewrite ring_index by (done || lia). cases_Z; lia. }
  assert (Hsnd : length (slice (buf r) ((tail r + n1) mod size) (n - n1)) = Z.to_nat (n - n1)).
  { destruct (decide (n1 < n)); [apply length_slice; rewrite ?Hw by done; lia|].
    replace (n - n1) with 0 by lia. done. }
  unfold read_runs. apply list_eq_total.
  { rewrite length_app, length_slice, Hsnd, length_take, length_contents by lia. lia. }
  intros i Hi. rewrite length_app, length_slice, Hsnd in Hi by lia.
  rewrite lookup_total_take_lt, contents_lookup, (ring_index size r (Z.of_nat i)) by (done || lia).
  destruct (decide (i < Z.to_nat n1)%nat).
  - rewrite lookup_total_app_l by (rewrite length_slice; lia).
    rewrite slice_total by lia. f_equal. cases_Z; lia.
  - rewrite lookup_total_app_r by (rewrite length_slice; lia).
    rewrite length_slice by lia. rewrite Hw by lia.
    rewrite slice_total by lia. f_equal. cases_Z; lia.
Qed.

(** One run, up to the end of the array. *)
Lemma read_run_spec r n : ring_ok size r -> 0 <= n <= used size r -> n <= size - tail r ->
  slice (buf r) (tail r) n = take (Z.to_nat n) (contents size r).
Proof.
  intros H Hn Ht. rewrite <- read_runs_spec by done. unfold read_runs.
  rewrite Z.min_l by lia. replace (n - n) with 0 by lia.
  by rewrite slice_0, app_nil_r.
Qed.
End Consume.

Section Produce.
Context (size : Z).

Lemma write_runs_ok r d1 d2 : ring_ok size r -> zlen d1 <= size - head r ->
  (zlen d1 + zlen d2 < size) -> (d2 = [] \/ zlen d1 = size - head r) ->
  ring_ok size (write_runs size d1 d2 r).
Proof.
  intros H Hd1 Hd2 Hw. pose proof H as [_ Hl Hh Ht]. apply set_buf_ok; [done|].
  pose proof (zlen_nonneg d1). pose proof (zlen_nonneg d2).
  destruct Hw as [-> | Hw].
  - rewrite splice_nil. by apply length_splice; lia.
  - rewrite mod_add_cases by lia. cases_Z; [lia|].
    rewrite !length_splice; unfold zlen in *; rewrite ?length_splice; unfold zlen; lia.
Qed.

(** Reading back the array after the two runs of a write. *)
Lemma write_runs_lookup r d1 d2 j : ring_ok size r -> zlen d1 <= size - head r ->
  (zlen d1 + zlen d2 < size) -> (d2 = [] \/ zlen d1 = size - head r) ->
  0 <= j < size ->
  buf (write_runs size d1 d2 r) @@ j =
    if decide (head r <= j < head r + zlen d1) then d1 @@ (j - head r)
    else if decide (j < zlen d2) then d2 @@ j else buf r @@ j.
Proof.
  intros H Hd1 Hd2 Hw Hj. pose proof H as [_ Hl Hh Ht].
  pose proof (zlen_nonneg d1). pose proof (zlen_nonneg d2).
  assert (Hl1 : zlen (splice (buf r) (head r) d1) = size).
  { unfold zlen. rewrite length_splice; unfold zlen in *; lia. }
  assert (Hs1 : splice (buf r) (head r) d1 @@ j =
    if decide (head r <= j < head r + zlen d1) then d1 @@ (j - head r) else buf r @@ j).
  { apply splice_at; lia. }
  simpl. destruct Hw as [-> | Hw].
  { rewrite splice_nil, Hs1. repeat case_decide; try done. change (zlen []) with 0 in *. lia. }
  rewrite mod_add_cases by lia. replace (head r + zlen d1) with size by lia.
  rewrite Z.ltb_irrefl, Z.sub_diag.
  rewrite splice_at, Hs1 by lia. replace (head r + zlen d1) with size by lia.
  rewrite Z.sub_0_r. repeat case_decide; done || lia.
Qed.

(** Writing [d1] and [d2] in two runs and advancing [head] appends them. *)
Lemma contents_produce r d1 d2 : ring_ok size r -> zlen d1 <= size - head r ->
  used size r + zlen d1 + zlen d2 < size -> (d2 = [] \/ zlen d1 = size - head r) ->
  contents size (set_head ((head r + zlen d1 + zlen d2) mod size) (write_runs size d1 d2 r))
    = contents size r ++ d1 ++ d2.
Proof.
  intros H Hd1 Hd2 Hw. pose proof (used_range _ _ H) as Hr. pose proof H as [_ Hl Hh Ht].
  pose proof (zlen_nonneg d1). pose proof (zlen_nonneg d2).
  set (r' := set_head _ _).
  assert (Hok : ring_ok size (write_runs size d1 d2 r)) by (apply write_runs_ok; done || lia).
  assert (Hok' : ring_ok size r') by (apply set_head_ok; [done | by eapply ring_mod_range]).
  pose proof (used_cases _ r H) as Hc.
  assert (Hu : used size r' = used size r + zlen d1 + zlen d2).
  { rewrite (used_cases _ r' Hok'). change (tail r') with (tail r).
    change (head r') with ((head r + zlen d1 + zlen d2) mod size).
    rewrite <- Z.add_assoc, mod_add_cases by lia. cases_Z; lia. }
  apply list_eq_total.
  { rewrite !length_app, !length_contents, Hu. unfold zlen in *. lia. }
  intros i Hi. rewrite length_contents, Hu in Hi.
  rewrite contents_lookup by (rewrite Hu; lia).
  change (buf r') with (buf (write_runs size d1 d2 r)). change (tail r') with (tail r).
  assert (Hri := ring_index size r (Z.of_nat i) H ltac:(lia)).
  rewrite write_runs_lookup by (done || lia || by eapply ring_mod_range).
  rewrite Hri. clearbody r'. clear Hok Hok' Hu r'.
  pose proof (length_contents size r) as Hlc.
  assert (Hw' : zlen d2 = 0 \/ zlen d1 = size - head r) by (destruct Hw as [->|]; auto).
  destruct (decide (i < length (contents size r))%nat) as [Hi1 | Hi1].
  - rewrite lookup_total_app_l, contents_lookup, Hri by lia.
    repeat case_decide; cases_Z; unfold zlen in *; try lia; done.
  - rewrite lookup_total_app_r by lia.
    destruct (decide (i - length (contents size r) < length d1)%nat) as [Hi2 | Hi2].
    + rewrite lookup_total_app_l by done.
      repeat case_decide; cases_Z; unfold zlen in *; try lia; f_equal; lia.
    + rewrite lookup_total_app_r by lia.
      repeat case_decide; cases_Z; unfold zlen in *; try lia; f_equal; lia.
Qed.

(** Until [head] moves, a write changes the free part only. *)
Lemma contents_unpublished r d1 d2 : ring_ok size r -> zlen d1 <= size - head r ->
  used size r + zlen d1 + zlen d2 < size -> (d2 = [] \/ zlen d1 = size - head r) ->
  contents size (write_runs size d1 d2 r) = contents size r.
Proof.
  intros H Hd1 Hd2 Hw. pose proof (used_range _ _ H) as Hr. pose proof H as [_ Hl Hh Ht].
  pose proof (zlen_nonneg d1). pose proof (zlen_nonneg d2).
  pose proof (used_cases _ r H) as Hc.
  assert (Hw' : zlen d2 = 0 \/ zlen d1 = size - head r) by (destruct Hw as [->|]; auto).
  apply list_eq_total; [by rewrite !length_contents|].
  intros i Hi. rewrite length_contents in Hi.
  change (used size (write_runs size d1 d2 r)) with (used size r) in Hi.
  rewrite !contents_lookup by done. change (tail (write_runs size d1 d2 r)) with (tail r).
  assert (Hri := ring_index size r (Z.of_nat i) H ltac:(lia)).
  rewrite write_runs_lookup by (done || lia || by eapply ring_mod_range).
  rewrite Hri. repeat case_decide; cases_Z; try lia; done.
Qed.

(** Storing one byte at [head] and advancing it appends that byte. *)
Lemma contents_put r c : ring_ok size r -> used size r + 1 < size ->
  contents size (CircBuf_ (<[Z.to_nat (head r) := c]> (buf r)) ((head r + 1) mod size) (tail r))
    = contents size r ++ [c].
Proof.
  intros H Hu. pose proof H as [_ Hl Hh Ht].
  assert (E : <[Z.to_nat (head r) := c]> (buf r) = splice (buf r) (head r) [c]).
  { unfold splice. rewrite insert_take_drop by (unfold zlen in *; lia). simpl.
    do 3 f_equal. lia. }
  rewrite E. pose proof (contents_produce r [c] []) as P. unfold write_runs in P.
  change (zlen [c]) with 1 in P. change (zlen []) with 0 in P.
  rewrite splice_nil, !Z.add_0_r, app_nil_r in P. apply P; [done|lia|lia|by left].
Qed.

Lemma put_ok r c h : ring_ok size r -> 0 <= h < size ->
  ring_ok size (CircBuf_ (<[Z.to_nat (head r) := c]> (buf r)) h (tail r)).
Proof.
  intros [] ?. split; try done. unfold zlen in *. simpl. by rewrite length_insert.
Qed.
End Produce.

#[export] Hint Resolve write_runs_ok put_ok : ring.

(** ** One byte at a time

    The interrupt handlers and the fake module store single bytes, test the
    space first, and wrap [head] with a comparison. *)
Section Put.
Context `{CB : CircBuf} (size : Z).

Definition ring_put (c : Z) (r : circ_buf) : circ_buf :=
  if negb (CIRC_SPACE (head r) (tail r) size =? 0) then
    CircBuf_ (<[Z.to_nat (head r) := c]> (buf r))
      (if size <=? head r + 1 then 0 else head r + 1) (tail r)
  else r.

(** The comparisons that wrap an index are remainders. *)
Lemma wrap_mod x : 0 < size -> 0 <= x <= size -> (if size <=? x then x - size else x) = x mod size.
Proof.
  intros. cases_Z; [|by rewrite Z.mod_small by lia].
  replace x with size by lia. by rewrite Z_mod_same_full, Z.sub_diag.
Qed.

Lemma wrap_head h : 0 <= h < size -> (if size <=? h + 1 then 0 else h + 1) = (h + 1) mod size.
Proof. intros. rewrite <- wrap_mod by lia. cases_Z; lia. Qed.

Lemma space_full r : ring_ok size r ->
  (CIRC_SPACE (head r) (tail r) size =? 0) = (used size r =? size - 1).
Proof. intros []. rewrite circ_space_law by done. unfold used. cases_Z; lia. Qed.

Lemma ring_put_ok c r : ring_ok size r -> ring_ok size (ring_put c r).
Proof.
  intros H. unfold ring_put. destruct (negb _); [|done]. pose proof H as [_ _ Hh _].
  rewrite wrap_head by done. apply put_ok; [done|]. by eapply ring_mod_range.
Qed.

Lemma ring_put_contents c r : ring_ok size r ->
  contents size (ring_put c r) =
    if used size r =? size - 1 then contents size r else contents size r ++ [c].
Proof.
  intros H. unfold ring_put. rewrite space_full by done. pose proof (used_range size r H).
  destruct (Z.eqb_spec (used size r) (size - 1)); cbn [negb]; [done|].
  pose proof H as [_ _ Hh _]. rewrite wrap_head by done. apply contents_put; [done|lia].
Qed.
End Put.

(** ** Rings of larger entries

    A queue of structures filled and emptied one entry at a time. *)
Section Slots.
Local Ltac mod_by q := first [apply (Z.mod_unique _ _ q); lia | symmetry; apply (Z.mod_unique _ _ q); lia].
Context {A : Type} `{Inhabited A} (size : Z).

(** The entries between [t] and [h], oldest first. *)
Definition slots (l : list A) (h t : Z) : list A :=
  (fun k => l !!! Z.to_nat ((t + Z.of_nat k) mod size)) <$> seq 0 (Z.to_nat ((h - t) mod size)).

Lemma length_slots l h t : length (slots l h t) = Z.to_nat ((h - t) mod size).
Proof. unfold slots. by rewrite length_fmap, length_seq. Qed.

Lemma slots_put l h t x : length l = Z.to_nat size -> 0 <= h < size -> 0 <= t < size ->
  (h - t) mod size + 1 < size ->
  slots (<[Z.to_nat h := x]> l) ((h + 1) mod size) t = slots l h t ++ [x].
Proof.
  intros Hl Hh Ht Hu. pose proof (Z.mod_pos_bound (h - t) size ltac:(lia)) as Hb.
  unfold slots. replace (((h + 1) mod size - t) mod size) with ((h - t) mod size + 1).
  2: { rewrite (mod_sub_cases h t) in * by done. rewrite mod_add_cases by lia.
       cases_Z; solve [mod_by 0 | mod_by (-1) | mod_by 1]. }
  rewrite Z2Nat.inj_add by lia. rewrite Nat.add_1_r, seq_S, fmap_app. f_equal.
  - apply list_fmap_ext. intros i k Hk. apply lookup_seq in Hk as [-> Hk].
    rewrite list_lookup_total_insert_ne; [done|].
    rewrite (mod_add_cases t) by lia. rewrite (mod_sub_cases h t) in * by done. cases_Z; lia.
  - simpl. f_equal. rewrite Z2Nat.id by lia.
    replace ((t + (h - t) mod size) mod size) with h.
    + apply list_lookup_total_insert_eq. lia.
    + rewrite mod_add_cases by lia. rewrite mod_sub_cases by done. cases_Z; lia.
Qed.

Lemma slots_get l h t y : length l = Z.to_nat size -> 0 <= h < size -> 0 <= t < size ->
  1 <= (h - t) mod size ->
  slots l h t = l !!! Z.to_nat t :: slots (<[Z.to_nat t := y]> l) h ((t + 1) mod size).
Proof.
  intros Hl Hh Ht Hu. pose proof (Z.mod_pos_bound (h - t) size ltac:(lia)) as Hb.
  unfold slots. replace ((h - (t + 1) mod size) mod size) with ((h - t) mod size - 1).
  2: { rewrite (mod_sub_cases h t) in * by done. rewrite mod_add_cases by lia.
       cases_Z; solve [mod_by 0 | mod_by (-1) | mod_by 1]. }
  replace (Z.to_nat ((h - t) mod size)) with (S (Z.to_nat ((h - t) mod size - 1))) by lia.
  cbn [seq]. rewrite fmap_cons. rewrite Z.add_0_r, (Z.mod_small t) by lia. f_equal.
  rewrite <- fmap_S_seq, <- list_fmap_compose. apply list_fmap_ext.
  intros i k Hk. apply lookup_seq in Hk as [-> Hk]. simpl.
  replace (t + Z.of_nat (S i)) with (t + 1 + Z.of_nat i) by lia.
  rewrite Zplus_mod_idemp_l.
  rewrite list_lookup_total_insert_ne; [done|].
  rewrite <- Z.add_assoc, (mod_add_cases t) by lia. cases_Z; lia.
Qed.
End Slots.
