(* ===== verification/Eq3Loop.v ===== *)
(** The eQ-3 loopback driver, channel level (src/kernel/eq3_char_loop.c).

    A channel joins the master that created it to the slave that opens its
    device node through two rings.  Every handler runs under the channel's
    semaphore; a handler is one function from the channel to its result, and a
    blocking handler that would sleep answers [Wait] and leaves the channel as
    it is.  [wakes] lists the wait queues the handler wakes. *)
From S2P Require Import Prelude Kernel Ring.

Definition EQ3LOOP_NUMBER_OF_CHANNELS : nat := 4.
Definition EQ3LOOP_IOC_MAGIC : Z := 76. (* 'L' *)
Definition EQ3LOOP_IOCSCREATESLAVE : ioctl_cmd := Ioc IOC_WRITE EQ3LOOP_IOC_MAGIC 1 4.
Definition EQ3LOOP_IOCGEVENTS : ioctl_cmd := Ioc IOC_READ EQ3LOOP_IOC_MAGIC 2 4.
Definition EVENT_BIT_SLAVE_OPENED : Z := 0.
Definition EVENT_BIT_SLAVE_CLOSED : Z := 1.
Definition STATE_BIT_SLAVE_OPENED : Z := 15.
Definition BUFSIZE : Z := 1024.

(** [struct eq3loop_channel_data] *)
Record channel := Channel {
  master2slave_buf : circ_buf;
  slave2master_buf : circ_buf;
  pending_events : Z;
  slave_open_count : Z;
  created : Z;
  devnode : Z;
  name : list Z;
  ch_termios : termios
}.

Inductive waitq := master2slaveq | slave2masterq.
#[export] Instance waitq_eq_dec : EqDecision waitq.
Proof. solve_decision. Defined.

Definition set_m2s (r : circ_buf) (c : channel) : channel :=
  Channel r (slave2master_buf c) (pending_events c) (slave_open_count c) (created c)
    (devnode c) (name c) (ch_termios c).
Definition set_s2m (r : circ_buf) (c : channel) : channel :=
  Channel (master2slave_buf c) r (pending_events c) (slave_open_count c) (created c)
    (devnode c) (name c) (ch_termios c).
Definition set_events (e : Z) (c : channel) : channel :=
  Channel (master2slave_buf c) (slave2master_buf c) e (slave_open_count c) (created c)
    (devnode c) (name c) (ch_termios c).
Definition set_open_count (n : Z) (c : channel) : channel :=
  Channel (master2slave_buf c) (slave2master_buf c) (pending_events c) n (created c)
    (devnode c) (name c) (ch_termios c).
Definition set_created (n : Z) (c : channel) : channel :=
  Channel (master2slave_buf c) (slave2master_buf c) (pending_events c) (slave_open_count c) n
    (devnode c) (name c) (ch_termios c).
Definition set_termios (t : termios) (c : channel) : channel :=
  Channel (master2slave_buf c) (slave2master_buf c) (pending_events c) (slave_open_count c)
    (created c) (devnode c) (name c) t.

(** The state of a zeroed channel structure. *)
Definition zero_ring : circ_buf := CircBuf_ (replicate 1024 0) 0 0.
Definition zero_channel : channel := Channel zero_ring zero_ring 0 0 0 0 [] zero_termios.

(** What happens around a read: [down_interruptible] or the sleep is
    interrupted, [O_NONBLOCK] is set, a [copy_to_user] faults. *)
Record read_env := { r_intr : bool; r_nonblock : bool; r_fault1 : bool; r_fault2 : bool }.
(** The same around a write. *)
Record write_env := { w_intr : bool; w_nonblock : bool; w_copy1 : copy_in; w_copy2 : copy_in }.

(** Result of a handler: what it returned, the bytes it delivered to the user,
    the channel, the queues woken. *)
Record result := Result {
  out : outcome; user : list Z; chan : channel; wakes : list waitq
}.

Section Handlers.
Context `{CB : CircBuf}.

Definition cnt (r : circ_buf) : Z := CIRC_CNT (head r) (tail r) BUFSIZE.
Definition space (r : circ_buf) : Z := CIRC_SPACE (head r) (tail r) BUFSIZE.
Definition cnt_to_end (r : circ_buf) (t : Z) : Z := CIRC_CNT_TO_END (head r) t BUFSIZE.
Definition space_to_end (r : circ_buf) (h : Z) : Z := CIRC_SPACE_TO_END h (tail r) BUFSIZE.

(** The conditions the handlers sleep on, and the queue they sleep in. *)
Definition read_slave_cond (c : channel) : bool :=
  (created c =? 0) || negb (cnt (master2slave_buf c) =? 0).
Definition read_master_cond (c : channel) : bool :=
  (slave_open_count c =? 0) || negb (cnt (slave2master_buf c) =? 0).
Definition write_slave_cond (c : channel) : bool :=
  (created c =? 0) || negb (space (slave2master_buf c) =? 0).
Definition write_master_cond (c : channel) : bool :=
  (slave_open_count c =? 0) || negb (space (master2slave_buf c) =? 0).

(** The copy out of a ring that [eq3loop_read_slave] and
    [eq3loop_read_master] share: [None] when a copy faults, otherwise the
    bytes delivered, the count and the ring with its new [tail]. *)
Definition ring_copy_out (e : read_env) (count : Z) (r : circ_buf)
    : option (list Z * Z * circ_buf) :=
  let tail0 := tail r in
  let count := u64 (Z.min (s32 count) (CIRC_CNT (head r) tail0 BUFSIZE)) in
  let count_to_end := Z.min (s32 count) (cnt_to_end r tail0) in
  if r_fault1 e then None else
  let d1 := slice (buf r) tail0 count_to_end in
  let tail1 := Z.land (tail0 + count_to_end) (BUFSIZE - 1) in
  if r_fault2 e then None else
  let d2 := slice (buf r) tail1 (count - count_to_end) in
  let tail2 := Z.land (tail1 + (count - count_to_end)) (BUFSIZE - 1) in
  Some (d1 ++ d2, count, set_tail tail2 r).

Definition eq3loop_read_slave (e : read_env) (count : Z) (c : channel) : result :=
  let finish ret u c' :=
    Result (Ret ret) u c' (if 0 <? ret then [master2slaveq] else []) in
  if r_intr e then Result (Ret (- ERESTARTSYS)) [] c [] else
  if created c =? 0 then finish (- ENODEV) [] c else
  if negb (created c =? 0) && (cnt (master2slave_buf c) =? 0)
  then Result (if r_nonblock e then Ret (- EAGAIN) else Wait) [] c [] else
  if created c =? 0 then finish (- ENODEV) [] c else
  match ring_copy_out e count (master2slave_buf c) with
  | None => finish (- EFAULT) [] c
  | Some (d, n, r) => finish n d (set_m2s r c)
  end.

Definition eq3loop_read_master (e : read_env) (count : Z) (c : channel) : result :=
  let finish ret u c' :=
    Result (Ret ret) u c' (if 0 <? ret then [slave2masterq] else []) in
  if r_intr e then Result (Ret (- ERESTARTSYS)) [] c [] else
  if negb (slave_open_count c =? 0) && (cnt (slave2master_buf c) =? 0)
  then Result (if r_nonblock e then Ret (- EAGAIN) else Wait) [] c [] else
  if slave_open_count c =? 0 then finish 0 [] c else
  match ring_copy_out e count (slave2master_buf c) with
  | None => finish (- EFAULT) [] c
  | Some (d, n, r) => finish n d (set_s2m r c)
  end.

(** The copy into a ring that the two write handlers share: the return
    value, and the ring it leaves ([head] moves only when both copies
    succeed). *)
Definition ring_copy_in (e : write_env) (data : list Z) (r : circ_buf) : Z * circ_buf :=
  let count := zlen data in
  let head0 := head r in
  let count_to_end := Z.min (s32 count) (space_to_end r head0) in
  let d1 := slice data 0 count_to_end in
  let r1 := set_buf (splice (buf r) head0 (landed (w_copy1 e) d1)) r in
  if copy_failed (w_copy1 e) then (- EFAULT, r1) else
  let head1 := Z.land (head0 + count_to_end) (BUFSIZE - 1) in
  let d2 := slice data count_to_end (count - count_to_end) in
  let r2 := set_buf (splice (buf r1) head1 (landed (w_copy2 e) d2)) r1 in
  if copy_failed (w_copy2 e) then (- EFAULT, r2) else
  let head2 := Z.land (head1 + (count - count_to_end)) (BUFSIZE - 1) in
  (count, set_head head2 r2).

Definition eq3loop_write_slave (e : write_env) (data : list Z) (c : channel) : result :=
  let finish ret c' :=
    Result (Ret ret) [] c' (if 0 <? ret then [slave2masterq] else []) in
  if w_intr e then Result (Ret (- ERESTARTSYS)) [] c [] else
  if space (slave2master_buf c) =? 0
  then Result (if w_nonblock e then Ret (- EAGAIN) else Wait) [] c [] else
  if created c =? 0 then finish (- ENODEV) c else
  if space (slave2master_buf c) <? zlen data then finish (- EFAULT) c else
  let (ret, r) := ring_copy_in e data (slave2master_buf c) in
  finish ret (set_s2m r c).

Definition eq3loop_write_master (e : write_env) (data : list Z) (c : channel) : result :=
  let finish ret c' :=
    Result (Ret ret) [] c'
      (if (0 <? ret) || negb (cnt (master2slave_buf c') =? 0) then [master2slaveq] else []) in
  if w_intr e then Result (Ret (- ERESTARTSYS)) [] c [] else
  if space (master2slave_buf c) =? 0
  then Result (if w_nonblock e then Ret (- EAGAIN) else Wait) [] c [] else
  if space (master2slave_buf c) <? zlen data then finish (- EFAULT) c else
  let (ret, r) := ring_copy_in e data (master2slave_buf c) in
  finish ret (set_m2s r c).

(** [intr]: [down_interruptible] on the channel is interrupted;
    [oom]: [kzalloc] fails. *)
Definition eq3loop_open_slave (intr oom : bool) (c : channel) : result :=
  if intr then Result (Ret (- ERESTARTSYS)) [] c [] else
  if created c =? 0 then Result (Ret (- ENODEV)) [] c [] else
  if negb (slave_open_count c =? 0) then Result (Ret (- EBUSY)) [] c [] else
  if oom then Result (Ret (- ENOMEM)) [] c [] else
  let c := set_open_count (slave_open_count c + 1) c in
  let c := set_events (Z.setbit (pending_events c) EVENT_BIT_SLAVE_OPENED) c in
  let c := set_events (Z.setbit (pending_events c) STATE_BIT_SLAVE_OPENED) c in
  let c := set_m2s (CircBuf_ (buf (master2slave_buf c)) 0 0) c in
  Result (Ret 0) [] c [slave2masterq].

(** The second component tells whether the device node is destroyed. *)
Definition eq3loop_close_slave (intr : bool) (c : channel) : result * bool :=
  if intr then (Result (Ret (- ERESTARTSYS)) [] c [], false) else
  let c := if negb (slave_open_count c =? 0)
           then set_open_count (slave_open_count c - 1) c else c in
  let c := set_events (Z.setbit (pending_events c) EVENT_BIT_SLAVE_CLOSED) c in
  let c := set_events (Z.clearbit (pending_events c) STATE_BIT_SLAVE_OPENED) c in
  (Result (Ret 0) [] c [slave2masterq], created c =? 0).

(** [intr2]: [down_interruptible] on the control structure is interrupted. *)
Definition eq3loop_close_master (intr intr2 : bool) (c : channel) : result * bool :=
  if intr then (Result (Ret (- ERESTARTSYS)) [] c [], false) else
  if intr2 then (Result (Ret (- ERESTARTSYS)) [] c [master2slaveq], false) else
  let c := set_created 0 c in
  (Result (Ret 0) [] c [master2slaveq], slave_open_count c =? 0).

(** [EQ3LOOP_IOCGEVENTS] and the guards before it. *)
Definition eq3loop_ioctl_master (ua : user_access) (cmd : ioctl_cmd) (c : channel)
    : Z * user_val * channel :=
  match cmd with
  | Tty _ => (- ENOTTY, UNone, c)
  | Ioc dir type nr size =>
    if negb (type =? EQ3LOOP_IOC_MAGIC) then (- ENOTTY, UNone, c) else
    let bad_access :=
      if negb (Z.land dir IOC_READ =? 0) then negb (ua_ok ua)
      else if negb (Z.land dir IOC_WRITE =? 0) then negb (ua_ok ua) else false in
    if bad_access then (- EFAULT, UNone, c) else
    if negb (bool_decide (cmd = EQ3LOOP_IOCGEVENTS)) then (- ENOTTY, UNone, c) else
    let temp := 0 in
    let temp := if Z.testbit (pending_events c) EVENT_BIT_SLAVE_OPENED
                then Z.lor temp (Z.shiftl 1 EVENT_BIT_SLAVE_OPENED) else temp in
    let c := set_events (Z.clearbit (pending_events c) EVENT_BIT_SLAVE_OPENED) c in
    let temp := if Z.testbit (pending_events c) EVENT_BIT_SLAVE_CLOSED
                then Z.lor temp (Z.shiftl 1 EVENT_BIT_SLAVE_CLOSED) else temp in
    let c := set_events (Z.clearbit (pending_events c) EVENT_BIT_SLAVE_CLOSED) c in
    let temp := if Z.testbit (pending_events c) STATE_BIT_SLAVE_OPENED
                then Z.lor temp (Z.shiftl 1 STATE_BIT_SLAVE_OPENED) else temp in
    let ret := ua_left ua in
    if negb (ret =? 0) then (ret, UNone, set_events temp c) else (ret, ULong temp, c)
  end.

Definition termios2_to_termios (t : termios) (t2 : termios) : termios :=
  Termios (c_iflag t2) (c_oflag t2) (c_cflag t2) (c_lflag t2) (c_line t2)
    (splice (c_cc t) 0 (take NCCS (c_cc t2))).

(** [arg] is the structure user memory holds at [arg]; [landed_t] is what a
    faulting [copy_from_user] leaves in [channel->termios]. *)
Definition eq3loop_ioctl_slave (intr : bool) (ua : user_access) (cmd : ioctl_cmd)
    (arg landed_t : termios) (c : channel) : Z * user_val * channel :=
  let put v := (ua_left ua, if ua_left ua =? 0 then v else UNone, c) in
  let checked r := if ua_ok ua then r else (- EFAULT, UNone, c) in
  if intr then (- ERESTARTSYS, UNone, c) else
  match cmd with
  | Tty TCGETS => checked (put (UTermios (ch_termios c)))
  | Tty TCSETS | Tty TCSETSW | Tty TCSETSF =>
    checked (ua_left ua, UNone, set_termios (if ua_left ua =? 0 then arg else landed_t) c)
  | Tty TCGETS2 => checked (put (UTermios2 (ch_termios c) 0 0))
  | Tty TCSETS2 | Tty TCSETSW2 | Tty TCSETSF2 =>
    checked (ua_left ua, UNone,
      if ua_left ua =? 0 then set_termios (termios2_to_termios (ch_termios c) arg) c else c)
  | Tty TIOCINQ => put (UInt (cnt (master2slave_buf c)))
  | Tty TIOCOUTQ => put (UInt (cnt (slave2master_buf c)))
  | Tty TIOCEXCL | Tty TCFLSH | Tty TIOCMSET => (0, UNone, c)
  | Tty TIOCMGET => put (UInt (Z.lor (Z.lor TIOCM_DSR TIOCM_CD) TIOCM_CTS))
  | Tty TIOCSERGETLSR => put (UInt TIOCSER_TEMT)
  | Tty TIOCGICOUNT => checked (put (UIcount (replicate 20 0)))
  | Ioc _ _ _ _ => (- ENOTTY, UNone, c)
  end.

Definition eq3loop_poll_master (intr : bool) (c : channel) : Z :=
  if intr then u32 (- ERESTARTSYS) else
  let mask := 0 in
  let mask :=
    if negb (slave_open_count c =? 0) then
      let mask := if negb (space (master2slave_buf c) =? 0)
                  then Z.lor mask (Z.lor POLLOUT POLLWRNORM) else mask in
      if negb (cnt (slave2master_buf c) =? 0)
      then Z.lor mask (Z.lor POLLIN POLLRDNORM) else mask
    else mask in
  if Z.testbit (pending_events c) EVENT_BIT_SLAVE_OPENED
     || Z.testbit (pending_events c) EVENT_BIT_SLAVE_CLOSED
  then Z.lor mask POLLPRI else mask.

Definition eq3loop_poll_slave (intr : bool) (c : channel) : Z :=
  if intr then u32 (- ERESTARTSYS) else
  let mask := 0 in
  let mask := if negb (cnt (master2slave_buf c) =? 0)
              then Z.lor mask (Z.lor POLLIN POLLRDNORM) else mask in
  let mask := if negb (space (slave2master_buf c) =? 0)
              then Z.lor mask (Z.lor POLLOUT POLLWRNORM) else mask in
  if created c =? 0 then Z.lor mask POLLERR else mask.
End Handlers.

(** ** Well-formed channels *)

Record chan_ok (c : channel) : Prop := {
  m2s_ok : ring_ok BUFSIZE (master2slave_buf c);
  s2m_ok : ring_ok BUFSIZE (slave2master_buf c)
}.

(** The bytes in flight in each direction. *)
Abbreviation to_slave c := (contents BUFSIZE (master2slave_buf c)).
Abbreviation to_master c := (contents BUFSIZE (slave2master_buf c)).

(** A count as the VFS passes it: at most [MAX_RW_COUNT]. *)
Definition vfs_count (n : Z) : Prop := 0 <= n < 2 ^ 31.

Section Rings.
Context `{CB : CircBuf}.

Lemma bufsize_pow2 : pow2 BUFSIZE.
Proof. exists 10. split; [lia | reflexivity]. Qed.

Lemma cnt_used r : ring_ok BUFSIZE r -> cnt r = used BUFSIZE r.
Proof. intros []. by apply circ_cnt_law. Qed.
Lemma space_used r : ring_ok BUFSIZE r -> space r = BUFSIZE - 1 - used BUFSIZE r.
Proof. intros []. by apply circ_space_law. Qed.

Lemma mask_mod i : Z.land i (BUFSIZE - 1) = i mod BUFSIZE.
Proof. by apply (land_pred_pow2 i 10). Qed.

Lemma bufsize_used r : ring_ok BUFSIZE r -> 0 <= used BUFSIZE r < 1024.
Proof. apply used_range. Qed.

(** A read delivers the oldest bytes and removes exactly those. *)
Lemma ring_copy_out_spec e count r : ring_ok BUFSIZE r -> vfs_count count ->
  ring_copy_out e count r =
    if r_fault1 e || r_fault2 e then None else
    let n := Z.min count (used BUFSIZE r) in
    Some (take (Z.to_nat n) (contents BUFSIZE r), n,
          set_tail ((tail r + n) mod BUFSIZE) r).
Proof.
  intros H Hc. unfold vfs_count in Hc. pose proof (bufsize_used r H) as Hu.
  pose proof H as [Hp Hl Hh Ht]. unfold ring_copy_out, cnt_to_end.
  rewrite circ_cnt_law by done. change ((head r - tail r) mod BUFSIZE) with (used BUFSIZE r).
  rewrite (s32_small count) by lia. set (n := Z.min count (used BUFSIZE r)).
  rewrite (u64_small n), (s32_small n) by lia.
  rewrite circ_cnt_to_end_law by done. change ((head r - tail r) mod BUFSIZE) with (used BUFSIZE r).
  replace (Z.min n _) with (Z.min n (BUFSIZE - tail r)) by lia.
  rewrite !mask_mod. destruct (r_fault1 e); [done|]. destruct (r_fault2 e); [done|]. simpl.
  f_equal. f_equal; [f_equal|].
  - apply (read_runs_spec BUFSIZE r n H). lia.
  - f_equal. rewrite Zplus_mod_idemp_l. f_equal. lia.
Qed.

(** What the write handlers need to know of the two runs they copy. *)
Lemma write_split r data : ring_ok BUFSIZE r -> zlen data <= space r ->
  let n1 := Z.min (s32 (zlen data)) (space_to_end r (head r)) in
  let d1 := slice data 0 n1 in
  let d2 := slice data n1 (zlen data - n1) in
  zlen d1 = n1 /\ d1 ++ d2 = data /\ n1 <= BUFSIZE - head r /\
  used BUFSIZE r + zlen d1 + zlen d2 < BUFSIZE /\ (d2 = [] \/ zlen d1 = BUFSIZE - head r).
Proof.
  intros H Hd. pose proof (bufsize_used r H) as Hu. pose proof H as [Hp Hl Hh Ht].
  rewrite space_used in Hd by done. pose proof (zlen_nonneg data).
  change BUFSIZE with 1024 in *.
  rewrite s32_small by lia. unfold space_to_end. rewrite circ_space_to_end_law by done.
  change ((head r - tail r) mod BUFSIZE) with (used 1024 r). change BUFSIZE with 1024.
  set (n1 := Z.min _ _). cbv zeta.
  assert (Hn1 : 0 <= n1 <= zlen data) by lia.
  assert (L1 : zlen (slice data 0 n1) = n1) by (apply zlen_slice; lia).
  assert (L2 : zlen (slice data n1 (zlen data - n1)) = zlen data - n1)
    by (apply zlen_slice; lia).
  rewrite L1, L2. repeat split; try lia.
  - unfold slice. simpl.
    rewrite (take_ge (drop (Z.to_nat n1) data)) by (rewrite length_drop; unfold zlen in *; lia).
    apply take_drop.
  - destruct (decide (n1 = zlen data)) as [->|]; [left|right; lia].
    by rewrite Z.sub_diag, slice_0.
Qed.

Lemma ring_copy_in_spec e data r : ring_ok BUFSIZE r -> zlen data <= space r ->
  let '(ret, r') := ring_copy_in e data r in
  ring_ok BUFSIZE r' /\
  if copy_failed (w_copy1 e) || copy_failed (w_copy2 e)
  then ret = - EFAULT /\ contents BUFSIZE r' = contents BUFSIZE r
  else ret = zlen data /\ contents BUFSIZE r' = contents BUFSIZE r ++ data.
Proof.
  intros H Hd. pose proof (bufsize_used r H) as Hu. pose proof H as [Hp Hl Hh Ht].
  destruct (write_split r data H Hd) as (L1 & Hcat & Hn & Hfit & Hw).
  unfold ring_copy_in. set (n1 := Z.min _ _) in *.
  set (d1 := slice data 0 n1) in *. set (d2 := slice data n1 _) in *.
  pose proof (zlen_nonneg d1). pose proof (zlen_nonneg d2).
  set (l1 := landed (w_copy1 e) d1). set (l2 := landed (w_copy2 e) d2).
  assert (E1 : zlen l1 = zlen d1) by (unfold zlen, l1; by rewrite length_landed).
  assert (E2 : zlen l2 = zlen d2) by (unfold zlen, l2; by rewrite length_landed).
  assert (Hw1 : l2 = [] \/ zlen l1 = BUFSIZE - head r).
  { rewrite E1. destruct Hw as [W|]; [left|by right]. apply nil_length_inv.
    unfold zlen in E2. rewrite W in E2. simpl in E2. lia. }
  assert (Hone : set_buf (splice (buf r) (head r) l1) r = write_runs BUFSIZE l1 [] r)
    by (unfold write_runs; by rewrite splice_nil).
  pose proof (zlen_nonneg (@nil Z)). change (zlen []) with 0 in *.
  destruct (copy_failed (w_copy1 e)) eqn:F1; cbn [orb].
  { rewrite Hone. split; [apply write_runs_ok|split; [done|apply contents_unpublished]];
      try done; change (zlen []) with 0; try lia; by left. }
  assert (Htwo : set_buf (splice (buf (set_buf (splice (buf r) (head r) l1) r))
      (Z.land (head r + n1) (BUFSIZE - 1)) l2) (set_buf (splice (buf r) (head r) l1) r)
      = write_runs BUFSIZE l1 l2 r).
  { unfold write_runs. rewrite mask_mod, E1, L1. done. }
  fold l1 l2. rewrite Htwo.
  destruct (copy_failed (w_copy2 e)) eqn:F2; cbn [orb].
  { split; [apply write_runs_ok|split; [done|apply contents_unpublished]];
      try done; lia. }
  assert (El1 : l1 = d1) by (unfold l1; by destruct (w_copy1 e)).
  assert (El2 : l2 = d2) by (unfold l2; by destruct (w_copy2 e)).
  rewrite El1, El2 in *. rewrite !mask_mod. split.
  { apply set_head_ok; [apply write_runs_ok; done || lia | by eapply ring_mod_range]. }
  split; [done|]. rewrite <- Hcat. rewrite <- contents_produce by (done || lia).
  do 2 f_equal. rewrite Zplus_mod_idemp_l, Hcat. f_equal.
  assert (zlen data = zlen d1 + zlen d2) by (by rewrite <- Hcat, zlen_app).
  lia.
Qed.
End Rings.
