(* ===== verification/Eq3Pipe.v ===== *)
(** The eQ-3 loopback driver: what a channel promises.

    [pipe] is the abstract channel: two bounded byte queues and who is
    attached.  [spec] says what each operation does to it, on every branch.
    The handlers of [Eq3Loop] implement it ([eq3loop_refines_pipe]), the bytes
    of a session arrive complete and in order, and every wake-up a sleeper in
    a read or a write needs is sent by the reads and the writes. *)
From S2P Require Import Prelude Kernel Ring Eq3Loop.

(** ** The abstract channel *)

Record pipe := Pipe {
  down : list Z;       (* written by the master, not yet read by the slave *)
  up : list Z;         (* written by the slave, not yet read by the master *)
  p_created : bool;    (* the master is attached *)
  p_open : Z           (* number of slaves attached *)
}.

(** One free byte is always left. *)
Definition capacity : Z := BUFSIZE - 1.

(** The operations on a channel, with what their environment does. *)
Inductive op :=
| ReadSlave (e : read_env) (count : Z)
| ReadMaster (e : read_env) (count : Z)
| WriteSlave (e : write_env) (data : list Z)
| WriteMaster (e : write_env) (data : list Z)
| OpenSlave (intr oom : bool)
| CloseSlave (intr : bool)
| CloseMaster (intr intr2 : bool).

Definition exec `{CB : CircBuf} (o : op) (c : channel) : result :=
  match o with
  | ReadSlave e n => eq3loop_read_slave e n c
  | ReadMaster e n => eq3loop_read_master e n c
  | WriteSlave e d => eq3loop_write_slave e d c
  | WriteMaster e d => eq3loop_write_master e d c
  | OpenSlave i oom => eq3loop_open_slave i oom c
  | CloseSlave i => fst (eq3loop_close_slave i c)
  | CloseMaster i i2 => fst (eq3loop_close_master i i2 c)
  end.

(** Blocking: an empty or full queue makes the caller sleep or give up. *)
Definition block (nonblock : bool) : outcome := if nonblock then Ret (- EAGAIN) else Wait.

(** Reading a queue: [(return value, bytes delivered, what remains)]. *)
Definition dequeue (e : read_env) (count : Z) (q : list Z) : outcome * list Z * list Z :=
  if r_fault1 e || r_fault2 e then (Ret (- EFAULT), [], q) else
  let n := Z.min count (zlen q) in
  (Ret n, take (Z.to_nat n) q, drop (Z.to_nat n) q).

(** Writing is all or nothing. *)
Definition enqueue (e : write_env) (data q : list Z) : outcome * list Z :=
  if capacity <? zlen q + zlen data then (Ret (- EFAULT), q) else
  if copy_failed (w_copy1 e) || copy_failed (w_copy2 e) then (Ret (- EFAULT), q) else
  (Ret (zlen data), q ++ data).

Definition spec (o : op) (p : pipe) : outcome * list Z * pipe :=
  match o with
  | ReadSlave e n =>
    if r_intr e then (Ret (- ERESTARTSYS), [], p) else
    if negb (p_created p) then (Ret (- ENODEV), [], p) else
    if bool_decide (down p = []) then (block (r_nonblock e), [], p) else
    let '(o, u, q) := dequeue e n (down p) in (o, u, Pipe q (up p) (p_created p) (p_open p))
  | ReadMaster e n =>
    if r_intr e then (Ret (- ERESTARTSYS), [], p) else
    if p_open p =? 0 then (Ret 0, [], p) else
    if bool_decide (up p = []) then (block (r_nonblock e), [], p) else
    let '(o, u, q) := dequeue e n (up p) in (o, u, Pipe (down p) q (p_created p) (p_open p))
  | WriteSlave e d =>
    if w_intr e then (Ret (- ERESTARTSYS), [], p) else
    if zlen (up p) =? capacity then (block (w_nonblock e), [], p) else
    if negb (p_created p) then (Ret (- ENODEV), [], p) else
    let '(o, q) := enqueue e d (up p) in (o, [], Pipe (down p) q (p_created p) (p_open p))
  | WriteMaster e d =>
    if w_intr e then (Ret (- ERESTARTSYS), [], p) else
    if zlen (down p) =? capacity then (block (w_nonblock e), [], p) else
    let '(o, q) := enqueue e d (down p) in (o, [], Pipe q (up p) (p_created p) (p_open p))
  | OpenSlave intr oom =>
    if intr then (Ret (- ERESTARTSYS), [], p) else
    if negb (p_created p) then (Ret (- ENODEV), [], p) else
    if negb (p_open p =? 0) then (Ret (- EBUSY), [], p) else
    if oom then (Ret (- ENOMEM), [], p) else
    (Ret 0, [], Pipe [] (up p) true 1)
  | CloseSlave intr =>
    if intr then (Ret (- ERESTARTSYS), [], p) else
    (Ret 0, [], Pipe (down p) (up p) (p_created p) (if p_open p =? 0 then 0 else p_open p - 1))
  | CloseMaster intr intr2 =>
    if intr || intr2 then (Ret (- ERESTARTSYS), [], p) else
    (Ret 0, [], Pipe (down p) (up p) false (p_open p))
  end.

Definition view (c : channel) : pipe :=
  Pipe (to_slave c) (to_master c) (negb (created c =? 0)) (slave_open_count c).

(** Operations as the VFS can issue them. *)
Definition op_ok (o : op) : Prop :=
  match o with
  | ReadSlave _ n | ReadMaster _ n => vfs_count n
  | _ => True
  end.

(** ** Sessions: the bytes accepted from and delivered to each side *)

Record log := Log { sent_down : list Z; got_down : list Z; sent_up : list Z; got_up : list Z }.

Definition accepted (o : outcome) (d : list Z) : list Z :=
  match o with Ret n => if 0 <? n then take (Z.to_nat n) d else [] | Wait => [] end.

Definition record (o : op) (r : result) (l : log) : log :=
  match o with
  | WriteMaster _ d => Log (sent_down l ++ accepted (out r) d) (got_down l) (sent_up l) (got_up l)
  | ReadSlave _ _ => Log (sent_down l) (got_down l ++ user r) (sent_up l) (got_up l)
  | WriteSlave _ d => Log (sent_down l) (got_down l) (sent_up l ++ accepted (out r) d) (got_up l)
  | ReadMaster _ _ => Log (sent_down l) (got_down l) (sent_up l) (got_up l ++ user r)
  | _ => l
  end.

Fixpoint run `{CB : CircBuf} (ops : list op) (c : channel) (l : log) : channel * log :=
  match ops with
  | [] => (c, l)
  | o :: ops => let r := exec o c in run ops (chan r) (record o r l)
  end.

(** A session contains no successful open: that empties the ring to the slave. *)
Definition no_open (o : op) : Prop := match o with OpenSlave _ _ => False | _ => True end.

(** What a sequence of operations answers: return values and delivered bytes. *)
Fixpoint outputs `{CB : CircBuf} (ops : list op) (c : channel) : list (outcome * list Z) :=
  match ops with
  | [] => []
  | o :: ops => let r := exec o c in (out r, user r) :: outputs ops (chan r)
  end.

Fixpoint spec_outputs (ops : list op) (p : pipe) : list (outcome * list Z) :=
  match ops with
  | [] => []
  | o :: ops => let '(ret, u, p') := spec o p in (ret, u) :: spec_outputs ops p'
  end.

(** ** Sleeping and waking *)

(** A blocking call: a handler that answers [Wait] goes to
    [wait_event_interruptible], which returns at once when the condition holds;
    the handler then runs again.  [None]: still running after [fuel] rounds. *)
Inductive progress := Finished (r : result) | Asleep (c : channel).

Fixpoint call (h : channel -> result) (cond : channel -> bool) (fuel : nat) (c : channel)
    : option progress :=
  let r := h c in
  match out r with
  | Ret _ => Some (Finished r)
  | Wait =>
    if cond (chan r) then
      match fuel with O => None | S fuel => call h cond fuel (chan r) end
    else Some (Asleep (chan r))
  end.

(** The four places a caller may sleep at. *)
Inductive sleeper := SlaveReader | MasterReader | SlaveWriter | MasterWriter.

Definition wait_cond `{CB : CircBuf} (s : sleeper) : channel -> bool :=
  match s with
  | SlaveReader => read_slave_cond
  | MasterReader => read_master_cond
  | SlaveWriter => write_slave_cond
  | MasterWriter => write_master_cond
  end.

Definition wait_queue (s : sleeper) : waitq :=
  match s with
  | SlaveReader | MasterWriter => master2slaveq
  | MasterReader | SlaveWriter => slave2masterq
  end.

(** The queue of the ring an operation works on. *)
Definition op_queue (o : op) : waitq :=
  match o with
  | ReadSlave _ _ | WriteMaster _ _ => master2slaveq
  | _ => slave2masterq
  end.

(** Channels used by the concrete instances of the theorems. *)
Definition fresh_channel : channel := set_created 1 zero_channel.
Definition full_ring : circ_buf := CircBuf_ (replicate 1024 7) 1023 0.
Definition full_channel (cr op : Z) : channel :=
  set_open_count op (set_created cr (set_m2s full_ring (set_s2m full_ring zero_channel))).
Definition calm_read : read_env :=
  {| r_intr := false; r_nonblock := false; r_fault1 := false; r_fault2 := false |}.
Definition calm_write : write_env :=
  {| w_intr := false; w_nonblock := false; w_copy1 := Copied; w_copy2 := Copied |}.
Definition good_access : user_access := {| ua_ok := true; ua_left := 0 |}.

(** Data transfers, as opposed to attaching and detaching. *)
Definition is_transfer (o : op) : Prop :=
  match o with
  | ReadSlave _ _ | ReadMaster _ _ | WriteSlave _ _ | WriteMaster _ _ => True
  | _ => False
  end.

Section Refinement.
Context `{CB : CircBuf}.

Lemma cnt_empty r : ring_ok BUFSIZE r ->
  (cnt r =? 0) = bool_decide (contents BUFSIZE r = []).
Proof.
  intros H. rewrite cnt_used by done. pose proof (contents_empty BUFSIZE r H).
  case_bool_decide; cases_Z; intuition congruence.
Qed.

Lemma chan_space_full r : ring_ok BUFSIZE r ->
  (space r =? 0) = (zlen (contents BUFSIZE r) =? capacity).
Proof.
  intros H. rewrite space_used, (zlen_contents BUFSIZE) by done. unfold capacity. cases_Z; lia.
Qed.

Lemma space_fits r (d : list Z) : ring_ok BUFSIZE r ->
  (space r <? zlen d) = (capacity <? zlen (contents BUFSIZE r) + zlen d).
Proof.
  intros H. rewrite space_used, (zlen_contents BUFSIZE) by done. unfold capacity. cases_Z; lia.
Qed.

(** One lemma per direction serves the two reads and the two writes. *)
Lemma dequeue_spec e n r : ring_ok BUFSIZE r -> vfs_count n ->
  match ring_copy_out e n r with
  | None => dequeue e n (contents BUFSIZE r) = (Ret (- EFAULT), [], contents BUFSIZE r)
  | Some (d, m, r') => ring_ok BUFSIZE r' /\
      dequeue e n (contents BUFSIZE r) = (Ret m, d, contents BUFSIZE r')
  end.
Proof.
  intros H Hn. unfold vfs_count in Hn. pose proof (bufsize_used r H).
  rewrite ring_copy_out_spec by done. unfold dequeue.
  destruct (r_fault1 e || r_fault2 e); [done|]. rewrite (zlen_contents BUFSIZE) by done.
  split; [by eauto with ring|]. rewrite contents_advance by (done || lia). done.
Qed.

Lemma enqueue_spec e d r ret r' : ring_ok BUFSIZE r -> (space r <? zlen d) = false ->
  ring_copy_in e d r = (ret, r') ->
  ring_ok BUFSIZE r' /\ enqueue e d (contents BUFSIZE r) = (Ret ret, contents BUFSIZE r').
Proof.
  intros H Hs E. pose proof (ring_copy_in_spec e d r H) as P. rewrite E in P.
  unfold enqueue. rewrite <- space_fits, Hs by done.
  destruct P as [? P]; [by apply Z.ltb_ge|]. split; [done|].
  destruct (copy_failed (w_copy1 e) || copy_failed (w_copy2 e)); by destruct P as [-> ->].
Qed.

Lemma enqueue_refuses e d r : ring_ok BUFSIZE r -> (space r <? zlen d) = true ->
  enqueue e d (contents BUFSIZE r) = (Ret (- EFAULT), contents BUFSIZE r).
Proof. intros H Hs. unfold enqueue. by rewrite <- space_fits, Hs. Qed.

Lemma empty_ring_contents l : contents BUFSIZE (CircBuf_ l 0 0) = [].
Proof. reflexivity. Qed.

Lemma exec_refines o c : chan_ok c -> op_ok o ->
  chan_ok (chan (exec o c)) /\
  spec o (view c) = (out (exec o c), user (exec o c), view (chan (exec o c))).
Proof.
  intros [H1 H2] Ho. destruct o; simpl in *.
  - unfold eq3loop_read_slave. rewrite cnt_empty by done.
    destruct (r_intr e); [done|]. destruct (created c =? 0) eqn:Ec; [done|].
    simpl. destruct (bool_decide _) eqn:Eb; [by destruct (r_nonblock e)|].
    pose proof (dequeue_spec e count _ H1 Ho) as P.
    destruct (ring_copy_out _ _ _) as [[[d n] r]|].
    + destruct P as [P1 ->]. simpl. unfold view. simpl. rewrite Ec. split; [by split|done].
    + rewrite P. simpl. unfold view. rewrite Ec. split; [by split|done].
  - unfold eq3loop_read_master. rewrite cnt_empty by done.
    destruct (r_intr e); [done|]. destruct (slave_open_count c =? 0) eqn:Ec; [done|].
    simpl. destruct (bool_decide _) eqn:Eb; [by destruct (r_nonblock e)|].
    pose proof (dequeue_spec e count _ H2 Ho) as P.
    destruct (ring_copy_out _ _ _) as [[[d n] r]|].
    + destruct P as [P1 ->]. split; [by split|done].
    + rewrite P. split; [by split|done].
  - unfold eq3loop_write_slave. rewrite chan_space_full by done.
    destruct (w_intr e); [done|]. destruct (_ =? capacity); [by destruct (w_nonblock e)|].
    destruct (created c =? 0) eqn:Ec; [done|]. simpl.
    destruct (_ <? _) eqn:Es.
    + rewrite enqueue_refuses by done. unfold view. simpl. rewrite Ec. split; [by split|done].
    + destruct (ring_copy_in _ _ _) as [ret r] eqn:Er.
      destruct (enqueue_spec _ _ _ _ _ H2 Es Er) as [P ->].
      unfold view. simpl. rewrite Ec. split; [by split|done].
  - unfold eq3loop_write_master. rewrite chan_space_full by done.
    destruct (w_intr e); [done|]. destruct (_ =? capacity); [by destruct (w_nonblock e)|].
    destruct (_ <? _) eqn:Es.
    + rewrite enqueue_refuses by done. split; [by split|done].
    + destruct (ring_copy_in _ _ _) as [ret r] eqn:Er.
      destruct (enqueue_spec _ _ _ _ _ H1 Es Er) as [P ->]. split; [by split|done].
  - unfold eq3loop_open_slave. destruct intr; [done|].
    destruct (created c =? 0) eqn:Ec; [done|]. simpl.
    destruct (slave_open_count c =? 0) eqn:Eo; [|done]. simpl.
    destruct oom; [done|]. apply Z.eqb_eq in Eo.
    unfold view. simpl. rewrite Ec, Eo, empty_ring_contents. split; [|done].
    split; [|done]. destruct H1. by split.
  - unfold eq3loop_close_slave. destruct intr; [done|].
    destruct (slave_open_count c =? 0) eqn:Eo; simpl; unfold view; simpl; rewrite ?Eo;
      split; try (by split); try done. apply Z.eqb_eq in Eo. by rewrite Eo.
  - unfold eq3loop_close_master. destruct intr; [done|]. destruct intr2; [done|]. done.
Qed.
End Refinement.

Section Sessions.
Context `{CB : CircBuf}.

Lemma outputs_refine ops c : chan_ok c -> Forall op_ok ops ->
  outputs ops c = spec_outputs ops (view c).
Proof.
  revert c. induction ops as [|o ops IH]; intros c Hc Ho; [done|]. simpl.
  inversion Ho; subst. destruct (exec_refines o c) as [Hc' Hs]; [done..|].
  rewrite Hs. f_equal. by apply IH.
Qed.

Lemma dequeue_log e n q o u q' : vfs_count n -> dequeue e n q = (o, u, q') -> q = u ++ q'.
Proof.
  unfold dequeue. intros Hn E. destruct (_ || _); simplify_eq; [done|].
  by rewrite take_drop.
Qed.

Lemma enqueue_log e d q o q' : enqueue e d q = (o, q') -> q' = q ++ accepted o d.
Proof.
  unfold enqueue. intros E. destruct (_ <? _); [by simplify_eq; rewrite app_nil_r|].
  destruct (_ || _); simplify_eq; simpl; [by rewrite app_nil_r|].
  pose proof (zlen_nonneg d). destruct (Z.ltb_spec 0 (zlen d)).
  - unfold zlen. by rewrite Nat2Z.id, firstn_all.
  - assert (d = []) as -> by (apply nil_length_inv; unfold zlen in *; lia).
    by rewrite app_nil_r.
Qed.

Lemma accepted_block b d : accepted (block b) d = [].
Proof. by destruct b. Qed.

(** What one step moves: a read takes from the front, a write adds at the
    back, everything else leaves both queues alone. *)
Lemma spec_moves o p ret u p' : spec o p = (ret, u, p') -> no_open o -> op_ok o ->
  match o with
  | ReadSlave _ _ => down p = u ++ down p' /\ up p' = up p
  | ReadMaster _ _ => up p = u ++ up p' /\ down p' = down p
  | WriteSlave _ d => up p' = up p ++ accepted ret d /\ down p' = down p
  | WriteMaster _ d => down p' = down p ++ accepted ret d /\ up p' = up p
  | _ => down p' = down p /\ up p' = up p
  end.
Proof.
  intros E Hn Ho. destruct o; simpl in *; try done;
    repeat (case_match; [by simplify_eq; rewrite ?accepted_block, ?app_nil_r|]).
  all: try (destruct (dequeue _ _ _) as [[o u0] q] eqn:Eq; apply dequeue_log in Eq; [|done]).
  all: try (destruct (enqueue _ _ _) as [o q] eqn:Eq; apply enqueue_log in Eq).
  all: by simplify_eq.
Qed.

Definition balanced (c : channel) (l : log) : Prop :=
  got_down l ++ to_slave c = sent_down l /\ got_up l ++ to_master c = sent_up l.

Lemma step_balanced o c l : chan_ok c -> op_ok o -> no_open o -> balanced c l ->
  balanced (chan (exec o c)) (record o (exec o c) l).
Proof.
  intros Hc Ho Hn [Hd Hu]. destruct (exec_refines o c Hc Ho) as [_ Hs].
  apply spec_moves in Hs; [|done..]. simpl in Hs. unfold balanced.
  destruct o; simpl in *; try done; destruct Hs as [E1 E2];
    rewrite ?E1, ?E2 in *; rewrite <- ?Hd, <- ?Hu, <- ?app_assoc; done.
Qed.

Lemma run_balanced ops c l : chan_ok c -> Forall op_ok ops -> Forall no_open ops ->
  balanced c l -> let '(c', l') := run ops c l in chan_ok c' /\ balanced c' l'.
Proof.
  revert c l. induction ops as [|o ops IH]; intros c l Hc Ho Hn Hb; [done|].
  inversion Ho; subst. inversion Hn; subst. simpl. apply IH; try done.
  - by apply exec_refines.
  - by apply step_balanced.
Qed.
End Sessions.

Section Waiting.
Context `{CB : CircBuf}.

(** Which operations can make each condition true: the peer's transfer in
    the same direction, attaching and detaching. *)
Lemma cond_of_view s c : chan_ok c ->
  wait_cond s c = match s with
    | SlaveReader => (created c =? 0) || negb (bool_decide (to_slave c = []))
    | MasterReader => (slave_open_count c =? 0) || negb (bool_decide (to_master c = []))
    | SlaveWriter => (created c =? 0) || negb (zlen (to_master c) =? capacity)
    | MasterWriter => (slave_open_count c =? 0) || negb (zlen (to_slave c) =? capacity)
    end.
Proof.
  intros [H1 H2]. destruct s; simpl; unfold read_slave_cond, read_master_cond,
    write_slave_cond, write_master_cond; by rewrite ?cnt_empty, ?chan_space_full.
Qed.

(** A transfer that moves no byte changes nothing. *)
Lemma spec_idle o p ret u p' : spec o p = (ret, u, p') -> is_transfer o -> op_ok o ->
  (forall n, ret = Ret n -> n <= 0) -> p' = p.
Proof.
  intros E Ht Ho Hn. destruct p as [dn up0 cr op0].
  destruct o; simpl in *; try done;
    repeat (case_match; [by simplify_eq|]); unfold dequeue, enqueue in *.
  1, 2: destruct (_ || _); [by simplify_eq|].
  3, 4: destruct (_ <? _); [by simplify_eq|]; destruct (_ || _); [by simplify_eq|].
  all: simplify_eq; specialize (Hn _ eq_refl).
  1, 2: by replace (Z.to_nat _) with 0%nat by lia.
  1, 2: assert (data = []) as -> by (apply nil_length_inv; unfold zlen in *; lia);
    by rewrite app_nil_r.
Qed.

Lemma exec_wakes o c : is_transfer o ->
  wakes (exec o c) = [op_queue o] \/
  wakes (exec o c) = [] /\ forall n, out (exec o c) = Ret n -> n <= 0.
Proof.
  destruct o; simpl; try done; intros _;
    unfold eq3loop_read_slave, eq3loop_read_master, eq3loop_write_slave, eq3loop_write_master;
    repeat case_match; simpl; try (by left); right; (split; [done|]); intros n' E;
    simplify_eq; unfold ERESTARTSYS, ENODEV, EAGAIN, EFAULT in *; cases_Z; try done; try lia.
Qed.

(** The ring an operation does not work on. *)
Lemma transfer_other o c : is_transfer o ->
  match op_queue o with
  | master2slaveq => slave2master_buf (chan (exec o c)) = slave2master_buf c
  | slave2masterq => master2slave_buf (chan (exec o c)) = master2slave_buf c
  end.
Proof.
  destruct o; simpl; try done; intros _;
    unfold eq3loop_read_slave, eq3loop_read_master, eq3loop_write_slave, eq3loop_write_master;
    repeat case_match; done.
Qed.

Lemma transfer_frame o c : is_transfer o ->
  created (chan (exec o c)) = created c /\
  slave_open_count (chan (exec o c)) = slave_open_count c.
Proof.
  destruct o; simpl; try done; intros _;
    unfold eq3loop_read_slave, eq3loop_read_master, eq3loop_write_slave, eq3loop_write_master;
    repeat case_match; done.
Qed.

Lemma wakeups_complete o s c : chan_ok c -> op_ok o -> is_transfer o ->
  wait_cond s c = false -> wait_cond s (chan (exec o c)) = true ->
  wait_queue s ∈ wakes (exec o c).
Proof.
  intros Hc Ho Ht Hf Hn. destruct (exec_refines o c Hc Ho) as [Hc' Hs].
  destruct (transfer_frame o c Ht) as [Fc Fo].
  destruct (exec_wakes o c Ht) as [-> | [_ Hidle]].
  - pose proof (transfer_other o c Ht) as Hoth. rewrite cond_of_view in Hf, Hn by done.
    rewrite Fc, Fo in Hn. apply list_elem_of_singleton.
    destruct o; try done; destruct s; try done; simpl in *; rewrite ?Hoth in Hn; congruence.
  - apply (spec_idle _ _ _ _ _ Hs) in Hidle; [|done..].
    rewrite cond_of_view in Hf, Hn by done. rewrite Fc, Fo in Hn.
    pose proof (f_equal down Hidle) as E1. pose proof (f_equal up Hidle) as E2.
    simpl in E1, E2. rewrite E1, E2 in Hn. destruct s; congruence.
Qed.

(** Handlers answer [Wait] only without a change. *)
Lemma wait_unchanged o c : out (exec o c) = Wait -> chan (exec o c) = c.
Proof.
  destruct o; simpl; unfold eq3loop_read_slave, eq3loop_read_master, eq3loop_write_slave,
    eq3loop_write_master, eq3loop_open_slave, eq3loop_close_slave, eq3loop_close_master;
    repeat case_match; simpl; intros; simplify_eq; done.
Qed.

End Waiting.

Lemma zero_ring_ok : ring_ok BUFSIZE zero_ring.
Proof. split; [apply bufsize_pow2 | reflexivity | done | done]. Qed.
Lemma full_ring_ok : ring_ok BUFSIZE full_ring.
Proof. split; [apply bufsize_pow2 | reflexivity | done | done]. Qed.
Lemma fresh_channel_ok : chan_ok fresh_channel.
Proof. split; apply zero_ring_ok. Qed.
Lemma full_channel_ok cr op : chan_ok (full_channel cr op).
Proof. split; apply full_ring_ok. Qed.
#[export] Hint Resolve zero_ring_ok full_ring_ok fresh_channel_ok full_channel_ok : ring.

Section CallFacts.
Context `{CB : CircBuf}.

Lemma call_spins h cond c : out (h c) = Wait -> chan (h c) = c -> cond c = true ->
  forall fuel, call h cond fuel c = None.
Proof.
  intros Hw Hc Ht fuel. induction fuel; simpl; rewrite Hw, Hc, Ht; done.
Qed.

Lemma call_settles h cond c :
  (out (h c) = Wait -> cond (chan (h c)) = false) -> exists p, call h cond 0 c = Some p.
Proof.
  intros H. simpl. destruct (out (h c)); [by eexists|]. rewrite H by done. by eexists.
Qed.

(** A handler that answers [Wait] has seen an empty, or a full, ring. *)
Lemma wait_reason o c : chan_ok c -> op_ok o -> out (exec o c) = Wait ->
  match o with
  | ReadSlave _ _ => created c <> 0 /\ to_slave c = []
  | ReadMaster _ _ => slave_open_count c <> 0 /\ to_master c = []
  | WriteSlave _ _ => zlen (to_master c) = capacity
  | WriteMaster _ _ => zlen (to_slave c) = capacity
  | _ => False
  end.
Proof.
  intros Hc Ho Hw. destruct (exec_refines o c Hc Ho) as [_ Hs]. rewrite Hw in Hs.
  destruct o; simpl in Hs; unfold dequeue, enqueue in Hs;
    repeat match goal with
    | H : context [if ?b then _ else _] |- _ => destruct b eqn:?; simplify_eq; simpl in *
    end; try (by cases_Z).
  - split; [|by eapply bool_decide_eq_true_1]. by destruct (Z.eqb_spec (created c) 0).
  - split; [|by eapply bool_decide_eq_true_1]. by cases_Z.
Qed.
End CallFacts.

Section Bits.
Lemma testbit_set a n m : 0 <= n -> Z.testbit (Z.setbit a n) m = (n =? m) || Z.testbit a m.
Proof. intros. by apply Z.setbit_eqb. Qed.
Lemma testbit_clear a n m : Z.testbit (Z.clearbit a n) m = Z.testbit a m && negb (n =? m).
Proof. apply Z.clearbit_eqb. Qed.

(** The three bits the master can be told about. *)
Lemma event_bits i : Z.testbit 0x8003 i = (0 =? i) || (1 =? i) || (15 =? i).
Proof.
  change 0x8003 with (Z.setbit (Z.setbit (Z.setbit 0 0) 1) 15).
  rewrite !testbit_set, Z.testbit_0_l by lia. rewrite !orb_false_r.
  cases_Z; try lia; done.
Qed.

Lemma report_land p :
  Z.lor (Z.lor (if Z.testbit p 0 then 1 else 0) (if Z.testbit p 1 then 2 else 0))
    (if Z.testbit p 15 then 0x8000 else 0) = Z.land p 0x8003.
Proof.
  apply Z.bits_inj'. intros i Hi. rewrite Z.land_spec, event_bits, !Z.lor_spec.
  assert (B : forall (b : bool) n, 0 <= n ->
    Z.testbit (if b then 2 ^ n else 0) i = b && (n =? i)).
  { intros [] n ?; [|by rewrite Z.testbit_0_l]. rewrite Z.pow2_bits_eqb by lia. done. }
  rewrite (B _ 0), (B _ 1), (B _ 15) by lia.
  destruct (Z.eqb_spec 0 i) as [<-|]; [by rewrite !andb_false_r, !andb_true_r, !orb_false_r|].
  destruct (Z.eqb_spec 1 i) as [<-|]; [by rewrite !andb_false_r, !andb_true_r, !orb_false_r|].
  destruct (Z.eqb_spec 15 i) as [<-|]; by rewrite ?andb_false_r, ?andb_true_r.
Qed.

Lemma clear_two p : Z.clearbit (Z.clearbit p 0) 1 = Z.ldiff p 3.
Proof.
  apply Z.bits_inj'. intros i Hi. rewrite !testbit_clear, Z.ldiff_spec.
  change 3 with (Z.setbit (Z.setbit 0 0) 1). rewrite !testbit_set, Z.testbit_0_l by lia.
  destruct (Z.testbit p i); [|done]. cases_Z; done || lia.
Qed.
End Bits.

(** ** Properties *)

Section Properties.
Context `{CB : CircBuf}.

(** On a well-formed channel, whatever sequence of reads,
    writes, opens and closes is run, with whatever interruptions and faults,
    the return values and the delivered bytes are those of the abstract pair
    of bounded queues: the handlers implement [spec]. *)
Theorem eq3loop_refines_pipe ops c : chan_ok c -> Forall op_ok ops ->
  outputs ops c = spec_outputs ops (view c).
Proof. apply outputs_refine. Qed.

(** Within a session every channel stays well formed, and in
    each direction the bytes accepted from the writer are exactly the bytes
    delivered to the reader followed by the bytes still in the ring: nothing
    is lost, duplicated or reordered across the wrap-around. *)
Theorem session_fifo ops c : chan_ok c -> Forall op_ok ops -> Forall no_open ops ->
  to_slave c = [] -> to_master c = [] ->
  let '(c', l) := run ops c (Log [] [] [] []) in
  chan_ok c' /\
  sent_down l = got_down l ++ to_slave c' /\ sent_up l = got_up l ++ to_master c'.
Proof.
  intros Hc Ho Hn Hd Hu. pose proof (run_balanced ops c (Log [] [] [] []) Hc Ho Hn) as P.
  destruct (run ops c _) as [c' l]. destruct P as [P1 [P2 P3]]; [|auto].
  unfold balanced. simpl. by rewrite Hd, Hu.
Qed.

(** C3 (safety). No wake-up is lost by a transfer: when a read or a write
    makes the condition of some sleeping reader or writer true, it wakes the
    queue that sleeper waits in. *)
Theorem transfers_wake_sleepers o s c : chan_ok c -> op_ok o -> is_transfer o ->
  wait_cond s c = false -> wait_cond s (chan (exec o c)) = true ->
  wait_queue s ∈ wakes (exec o c).
Proof. apply wakeups_complete. Qed.

(** Detaching does lose wake-ups: closing the only slave makes
    the condition of a master sleeping in a write true but wakes only the
    other queue, and closing the master does the same to a slave sleeping in
    a write. *)
Theorem close_misses_writers c : chan_ok c ->
  (zlen (to_slave c) = capacity -> slave_open_count c = 1 ->
    let r := exec (CloseSlave false) c in
    wait_cond MasterWriter c = false /\ wait_cond MasterWriter (chan r) = true /\
    wait_queue MasterWriter ∉ wakes r) /\
  (zlen (to_master c) = capacity -> created c = 1 ->
    let r := exec (CloseMaster false false) c in
    wait_cond SlaveWriter c = false /\ wait_cond SlaveWriter (chan r) = true /\
    wait_queue SlaveWriter ∉ wakes r).
Proof.
  intros Hc. split; intros Hf H1; cbv zeta;
    (split; [rewrite cond_of_view by done; by rewrite Hf, H1, Z.eqb_refl|]).
  - simpl. unfold eq3loop_close_slave. rewrite H1. simpl. rewrite list_elem_of_singleton.
    unfold write_master_cond. simpl. by rewrite ?H1.
  - simpl. by rewrite list_elem_of_singleton.
Qed.

(** C4 (termination). A blocking read completes or goes to sleep after one
    pass of its loop, and so does a write whose peer is attached: the
    condition it sleeps on is false whenever the handler asks to wait. *)
Theorem blocking_calls_settle c : chan_ok c ->
  (forall e n, vfs_count n -> exists p, call (exec (ReadSlave e n)) (wait_cond SlaveReader) 0 c = Some p) /\
  (forall e n, vfs_count n -> exists p, call (exec (ReadMaster e n)) (wait_cond MasterReader) 0 c = Some p) /\
  (forall e d, created c <> 0 ->
     exists p, call (exec (WriteSlave e d)) (wait_cond SlaveWriter) 0 c = Some p) /\
  (forall e d, slave_open_count c <> 0 ->
     exists p, call (exec (WriteMaster e d)) (wait_cond MasterWriter) 0 c = Some p).
Proof.
  intros Hc. repeat split; intros; apply call_settles; intros Hw;
    rewrite (wait_unchanged _ _ Hw), cond_of_view by done.
  - apply wait_reason in Hw as [? ->]; [|done..]. by cases_Z.
  - apply wait_reason in Hw as [? ->]; [|done..]. by cases_Z.
  - apply wait_reason in Hw as ->; [|done..]. rewrite Z.eqb_refl. by cases_Z.
  - apply wait_reason in Hw as ->; [|done..]. rewrite Z.eqb_refl. by cases_Z.
Qed.

(** A blocking write to a full ring whose peer is
    gone never returns and never sleeps: the condition it waits for holds
    because the peer is gone, but its loop only asks for space, so it runs
    for ever, whatever number of rounds it is given. *)
Theorem orphaned_writer_spins e d c : chan_ok c ->
  w_intr e = false -> w_nonblock e = false ->
  (created c = 0 -> zlen (to_master c) = capacity -> forall fuel,
     call (exec (WriteSlave e d)) (wait_cond SlaveWriter) fuel c = None) /\
  (slave_open_count c = 0 -> zlen (to_slave c) = capacity -> forall fuel,
     call (exec (WriteMaster e d)) (wait_cond MasterWriter) fuel c = None).
Proof.
  intros Hc Hi Hb. pose proof Hc as [H1 H2].
  split; intros Hp Hf; apply call_spins; try (rewrite cond_of_view, Hp by done; done);
    simpl; unfold eq3loop_write_slave, eq3loop_write_master;
    rewrite Hi, chan_space_full, Hf, Hb by done; done.
Qed.

(** The bits of [pending_events] the ioctl reports, and the two it clears. *)
Definition REPORTED_BITS : Z := 0x8003.
Definition CLEARED_BITS : Z := 3.

(** [EQ3LOOP_IOCGEVENTS] reports the two event bits and the
    state bit, and clears the two event bits; when the result cannot be
    stored to user memory the three bits stay pending for the next call. *)
Theorem getevents_reports ua c : ua_ok ua = true ->
  eq3loop_ioctl_master ua EQ3LOOP_IOCGEVENTS c =
    if ua_left ua =? 0
    then (0, ULong (Z.land (pending_events c) REPORTED_BITS),
          set_events (Z.ldiff (pending_events c) CLEARED_BITS) c)
    else (ua_left ua, UNone, set_events (Z.land (pending_events c) REPORTED_BITS) c).
Proof.
  intros Ha. unfold eq3loop_ioctl_master, REPORTED_BITS, CLEARED_BITS. simpl. rewrite Ha.
  unfold EVENT_BIT_SLAVE_OPENED, EVENT_BIT_SLAVE_CLOSED, STATE_BIT_SLAVE_OPENED.
  rewrite !testbit_clear. simpl. rewrite !andb_true_r, clear_two.
  assert (E : forall a b c0 : bool,
    (if c0 then Z.lor (if b then Z.lor (if a then 1 else 0) 2 else if a then 1 else 0) 0x8000
     else if b then Z.lor (if a then 1 else 0) 2 else if a then 1 else 0)
    = Z.lor (Z.lor (if a then 1 else 0) (if b then 2 else 0)) (if c0 then 0x8000 else 0))
    by (by intros [] [] []).
  change (Z.shiftl 1 0) with 1. change (Z.shiftl 1 1) with 2.
  change (Z.shiftl 1 15) with 0x8000.
  change (Z.lor 0 1) with 1. rewrite E, report_land.
  destruct (Z.eqb_spec (ua_left ua) 0) as [->|]; done.
Qed.


(** The emulated tty keeps what it is given: a [TCGETS] after
    a successful [TCSETS] returns the same structure, a [TCGETS2] after a
    [TCSETS2] returns the same settings with zero speeds, and [TIOCINQ]
    returns the number of bytes a read could deliver; none of them touches the
    data in flight. *)
Theorem slave_tty_roundtrip t c : chan_ok c ->
  length (c_cc (ch_termios c)) = NCCS -> length (c_cc t) = NCCS ->
  let get cmd c := fst (eq3loop_ioctl_slave false good_access (Tty cmd) t t c) in
  let set cmd c := snd (eq3loop_ioctl_slave false good_access (Tty cmd) t t c) in
  get TCGETS (set TCSETS c) = (0, UTermios t) /\
  get TCGETS2 (set TCSETS2 c) = (0, UTermios2 t 0 0) /\
  get TIOCINQ c = (0, UInt (zlen (to_slave c))) /\
  view (set TCSETS c) = view c /\ view (set TCSETS2 c) = view c.
Proof.
  intros [H1 H2] L1 L2. cbv zeta. unfold eq3loop_ioctl_slave. simpl.
  rewrite cnt_used, zlen_contents by done. repeat split.
  unfold termios2_to_termios, splice. simpl. destruct t as [a b c0 d e cc]. simpl in *.
  rewrite firstn_all2, drop_ge, app_nil_r by lia. done.
Qed.
End Properties.

(** ** Concrete instances *)

Lemma eq3loop_refines_pipe_witness :
  outputs (CB := linux_circ)
    [OpenSlave false false; WriteMaster calm_write [1; 2; 3]; ReadSlave calm_read 2;
     WriteSlave calm_write [9]; ReadMaster calm_read 100; ReadSlave calm_read 5;
     ReadSlave calm_read 5; CloseMaster false false; ReadSlave calm_read 5] fresh_channel
  = [(Ret 0, []); (Ret 3, []); (Ret 2, [1; 2]); (Ret 1, []); (Ret 1, [9]); (Ret 1, [3]);
     (Wait, []); (Ret 0, []); (Ret (- ENODEV), [])].
Proof.
  etransitivity; [apply (eq3loop_refines_pipe (CB := linux_circ))|].
  - auto with ring.
  - repeat constructor; done.
  - vm_compute. reflexivity.
Defined.

Lemma session_fifo_witness :
  let '(c', l) := run (CB := linux_circ)
    [WriteMaster calm_write [1; 2; 3]; ReadSlave calm_read 2] fresh_channel (Log [] [] [] []) in
  chan_ok c' /\ sent_down l = got_down l ++ to_slave c' /\ sent_up l = got_up l ++ to_master c'.
Proof.
  apply (session_fifo (CB := linux_circ)
    [WriteMaster calm_write [1; 2; 3]; ReadSlave calm_read 2] fresh_channel).
  - auto with ring.
  - repeat constructor; done.
  - repeat constructor.
  - reflexivity.
  - reflexivity.
Defined.

Lemma transfers_wake_sleepers_witness :
  wait_queue SlaveReader ∈
    wakes (exec (CB := linux_circ) (WriteMaster calm_write [5]) fresh_channel).
Proof.
  apply (transfers_wake_sleepers (CB := linux_circ) (WriteMaster calm_write [5]) SlaveReader fresh_channel);
    [auto with ring | exact I | exact I | vm_compute; reflexivity | vm_compute; reflexivity].
Defined.

Lemma close_misses_writers_witness :
  wait_queue MasterWriter ∉
    wakes (exec (CB := linux_circ) (CloseSlave false) (full_channel 1 1)).
Proof.
  apply (proj1 (close_misses_writers (CB := linux_circ) (full_channel 1 1)
    (full_channel_ok 1 1))); vm_compute; reflexivity.
Defined.

Lemma blocking_calls_settle_witness :
  exists p, call (exec (CB := linux_circ) (ReadSlave calm_read 8))
    (wait_cond (CB := linux_circ) SlaveReader) 0 fresh_channel = Some p.
Proof.
  apply (proj1 (blocking_calls_settle (CB := linux_circ) fresh_channel fresh_channel_ok)).
  done.
Defined.

Lemma orphaned_writer_spins_witness : ~ exists fuel,
  call (exec (CB := linux_circ) (WriteMaster calm_write [1]))
    (wait_cond (CB := linux_circ) MasterWriter) fuel (full_channel 1 0) <> None.
Proof.
  intros [fuel H]. apply H. apply (proj2 (orphaned_writer_spins (CB := linux_circ) calm_write [1] (full_channel 1 0)
    (full_channel_ok 1 0) eq_refl eq_refl)); vm_compute; reflexivity.
Defined.

Lemma getevents_reports_witness :
  eq3loop_ioctl_master good_access EQ3LOOP_IOCGEVENTS (set_events 0x8001 fresh_channel)
  = (0, ULong 0x8001, set_events 0x8000 fresh_channel).
Proof.
  etransitivity; [apply (getevents_reports good_access); reflexivity | vm_compute; reflexivity].
Defined.


Lemma slave_tty_roundtrip_witness :
  let t := Termios 1 2 3 4 5 (replicate NCCS 7) in
  fst (eq3loop_ioctl_slave (CB := linux_circ) false good_access (Tty TCGETS) t t
    (snd (eq3loop_ioctl_slave (CB := linux_circ) false good_access (Tty TCSETS) t t fresh_channel)))
  = (0, UTermios t).
Proof.
  cbv zeta.
  apply (slave_tty_roundtrip (CB := linux_circ) (Termios 1 2 3 4 5 (replicate NCCS 7))
    fresh_channel fresh_channel_ok); reflexivity.
Defined.
