(* ===== verification/Eq3Sys.v ===== *)
(** The eQ-3 loopback driver, whole driver (src/kernel/eq3_char_loop.c).

    [sys] is the control structure with its four channels and the open files;
    [step] is the relation of everything a process can do to it.  As long as a
    channel is only created again after its last slave has left, every channel
    has at most one master and one slave ([attachments_exclusive]); the code
    does not wait for that, and a second slave can join ([channel_reused]). *)
From S2P Require Import Prelude Kernel Ring Eq3Loop Eq3Pipe.

(** [filp->private_data]: none for the control device, otherwise a connection
    to a channel. *)
Inductive conn := Ctrl | Master (i : nat) | Slave (i : nat).

#[export] Instance conn_eq_dec : EqDecision conn.
Proof. solve_decision. Defined.

Record sys := Sys {
  channels : list channel;        (* control_data->channels *)
  files : gmap nat conn;          (* open files of the driver *)
  nodes : list Z                  (* minors of the device nodes created *)
}.

Definition sys_init : sys := Sys (replicate EQ3LOOP_NUMBER_OF_CHANNELS zero_channel) ∅ [0].

(** What [device_create] answers: a device, [NULL], or an [ERR_PTR]. *)
Inductive dev_result := DevOk | DevNull | DevErr.

(** The [while] loop over [created]. *)
Fixpoint first_free (cs : list channel) (channel_index : nat) : nat :=
  match cs with
  | [] => channel_index
  | c :: cs => if created c =? 0 then channel_index else first_free cs (S channel_index)
  end.

(** The channel after the [memset], with its node number and name. *)
Definition cleared_channel (i : nat) (nm : list Z) : channel :=
  Channel zero_ring zero_ring 0 0 0 (Z.of_nat i + 1) (take 31 nm) zero_termios.

Definition remove_node (n : Z) (l : list Z) : list Z := filter (fun m => m <> n) l.

(** [intr]: taking the control semaphore is interrupted; [oom]: [kzalloc]
    fails.  The connection becomes [filp->private_data] on success. *)
Definition eq3loop_create_slave_dev (intr : bool) (d : dev_result) (oom : bool)
    (nm : list Z) (s : sys) : Z * option conn * sys :=
  if intr then (- ERESTARTSYS, None, s) else
  let channel_index := first_free (channels s) 0 in
  if (EQ3LOOP_NUMBER_OF_CHANNELS <=? channel_index)%nat then (- EINVAL, None, s) else
  let ch := cleared_channel channel_index nm in
  let upd c nds := Sys (<[channel_index := c]> (channels s)) (files s) nds in
  match d with
  | DevNull => (- EBUSY, None, upd ch (nodes s))
  | DevOk | DevErr =>
    let nds := match d with DevOk => devnode ch :: nodes s | _ => nodes s end in
    if oom then (- ENOMEM, None, upd ch nds) else
    (0, Some (Master channel_index), upd (set_created 1 ch) nds)
  end.

(** The string in a buffer, [None] when no NUL ends it inside the buffer. *)
Fixpoint cstring (b : list Z) : option (list Z) :=
  match b with
  | [] => None
  | x :: b => if x =? 0 then Some [] else (cons x) <$> cstring b
  end.

Inductive ctrl_result := Overrun | CtrlRet (ret : Z) (c : option conn) (s : sys).

(** [ret] and [buffer]: what [strncpy_from_user] returned and left in the
    64-byte buffer, which is then read as a string. *)
Definition eq3loop_ioctl_ctrl (cmd : ioctl_cmd) (ret : Z) (buffer : list Z)
    (intr : bool) (d : dev_result) (oom : bool) (s : sys) : ctrl_result :=
  match cmd with
  | Tty _ => CtrlRet (- ENOTTY) None s
  | Ioc _ type _ _ =>
    if negb (type =? EQ3LOOP_IOC_MAGIC) then CtrlRet (- ENOTTY) None s else
    if bool_decide (cmd = EQ3LOOP_IOCSCREATESLAVE) then
      if ret <=? 0 then CtrlRet (- EFAULT) None s else
      match cstring buffer with
      | None => Overrun
      | Some nm =>
        let '(r, c, s') := eq3loop_create_slave_dev intr d oom nm s in CtrlRet r c s'
      end
    else CtrlRet (- ENOTTY) None s
  end.

(** [strncpy_from_user] as documented: the length of the string, which is
    copied with its NUL when it fits, otherwise [n] bytes and no NUL. *)
Definition strncpy_doc (n : nat) (src : list Z) (ret : Z) (b : list Z) : Prop :=
  length b = n /\
  if decide (length src < n)%nat
  then ret = zlen src /\ exists rest, b = src ++ 0 :: rest
  else ret = Z.of_nat n /\ b = take n src.

(** [eq3loop_open]: [minor] is relative to the control device. *)
Definition eq3loop_open (minor : Z) (intr oom : bool) (fd : nat) (s : sys) : Z * sys :=
  if minor =? 0 then (0, Sys (channels s) (<[fd := Ctrl]> (files s)) (nodes s)) else
  let channel_index := u32 (minor - 1) in
  if Z.of_nat EQ3LOOP_NUMBER_OF_CHANNELS <=? channel_index then (- ENODEV, s) else
  let i := Z.to_nat channel_index in
  match channels s !! i with
  | None => (- ENODEV, s)
  | Some c =>
    let r := eq3loop_open_slave intr oom c in
    match out r with
    | Ret 0 => (0, Sys (<[i := chan r]> (channels s)) (<[fd := Slave i]> (files s)) (nodes s))
    | Ret n => (n, s)
    | Wait => (0, s)
    end
  end.

(** [eq3loop_close]: the file is gone whatever the handler returns. *)
Definition eq3loop_close (intr intr2 : bool) (fd : nat) (s : sys) : sys :=
  let files' := delete fd (files s) in
  let finish i (rd : result * bool) :=
    let node := Z.of_nat i + 1 in
    Sys (<[i := chan (fst rd)]> (channels s)) files'
        (if snd rd then remove_node node (nodes s) else nodes s) in
  match files s !! fd with
  | Some (Slave i) =>
    match channels s !! i with
    | Some c => finish i (eq3loop_close_slave intr c) | None => s end
  | Some (Master i) =>
    match channels s !! i with
    | Some c => finish i (eq3loop_close_master intr intr2 c) | None => s end
  | _ => Sys (channels s) files' (nodes s)
  end.

(** Reads and writes through a file: [conn->read] and [conn->write]. *)
Definition eq3loop_read `{CB : CircBuf} (e : read_env) (count : Z) (fd : nat) (s : sys)
    : option result :=
  match files s !! fd with
  | Some (Slave i) => eq3loop_read_slave e count <$> channels s !! i
  | Some (Master i) => eq3loop_read_master e count <$> channels s !! i
  | _ => None
  end.
Definition eq3loop_write `{CB : CircBuf} (e : write_env) (data : list Z) (fd : nat) (s : sys)
    : option result :=
  match files s !! fd with
  | Some (Slave i) => eq3loop_write_slave e data <$> channels s !! i
  | Some (Master i) => eq3loop_write_master e data <$> channels s !! i
  | _ => None
  end.

Definition conn_channel (c : conn) : option nat :=
  match c with Ctrl => None | Master i | Slave i => Some i end.

Definition set_chan (i : nat) (c : channel) (s : sys) : sys :=
  Sys (<[i := c]> (channels s)) (files s) (nodes s).

Section Steps.
Context `{CB : CircBuf}.

Inductive step : sys -> sys -> Prop :=
| step_open s fd minor intr oom :
    files s !! fd = None -> step s (snd (eq3loop_open minor intr oom fd s))
| step_create s fd intr d oom nm r c s' :
    files s !! fd = Some Ctrl ->
    eq3loop_create_slave_dev intr d oom nm s = (r, c, s') ->
    step s (match c with
            | Some k => Sys (channels s') (<[fd := k]> (files s')) (nodes s')
            | None => s' end)
| step_read s fd e n r i k : vfs_count n ->
    files s !! fd = Some k -> conn_channel k = Some i ->
    eq3loop_read e n fd s = Some r -> step s (set_chan i (chan r) s)
| step_write s fd e d r i k :
    files s !! fd = Some k -> conn_channel k = Some i ->
    eq3loop_write e d fd s = Some r -> step s (set_chan i (chan r) s)
| step_close s fd intr intr2 :
    is_Some (files s !! fd) -> step s (eq3loop_close intr intr2 fd s).

(** The steps in which a channel is only reused when no slave holds it. *)
Definition waits_for_slave (s : sys) : Prop :=
  forall c, channels s !! first_free (channels s) 0 = Some c -> slave_open_count c = 0.
Inductive careful_step : sys -> sys -> Prop :=
| careful s s' : step s s' -> waits_for_slave s -> careful_step s s'.
End Steps.

(** One channel and the files attached to it. *)
Record attached (fs : gmap nat conn) (i : nat) (c : channel) : Prop := {
  att_ok : chan_ok c;
  att_created : created c = 0 \/ created c = 1;
  att_open : slave_open_count c = 0 \/ slave_open_count c = 1;
  att_slave fd : fs !! fd = Some (Slave i) -> slave_open_count c = 1;
  att_master fd : fs !! fd = Some (Master i) -> created c = 1;
  att_one_slave fd1 fd2 : fs !! fd1 = Some (Slave i) -> fs !! fd2 = Some (Slave i) -> fd1 = fd2;
  att_one_master fd1 fd2 :
    fs !! fd1 = Some (Master i) -> fs !! fd2 = Some (Master i) -> fd1 = fd2
}.

Definition sys_ok (s : sys) : Prop :=
  length (channels s) = EQ3LOOP_NUMBER_OF_CHANNELS /\
  forall i c, channels s !! i = Some c -> attached (files s) i c.

(** ** Preservation *)

Section Preservation.
Context `{CB : CircBuf}.

(** Only the files of a channel matter to it. *)
Lemma attached_ext fs fs' i c :
  (forall fd k, conn_channel k = Some i -> fs' !! fd = Some k -> fs !! fd = Some k) ->
  attached fs i c -> attached fs' i c.
Proof.
  intros E [A1 A2 A3 A4 A5 A6 A7]. split; try done.
  - intros fd H. apply (A4 fd), E; done.
  - intros fd H. apply (A5 fd), E; done.
  - intros f1 f2 H1 H2. apply A6; by apply E.
  - intros f1 f2 H1 H2. apply A7; by apply E.
Qed.

(** A step that rewrites one channel and some files attached to it. *)
Lemma sys_ok_update s i c' fs' nds : sys_ok s ->
  (forall fd k j, j <> i -> conn_channel k = Some j ->
     fs' !! fd = Some k -> files s !! fd = Some k) ->
  attached fs' i c' -> sys_ok (Sys (<[i := c']> (channels s)) fs' nds).
Proof.
  intros [Hl Ha] Hfs Hc. split; simpl; [by rewrite length_insert|]. intros j c Hj.
  destruct (decide (j = i)) as [->|].
  - apply list_lookup_insert_Some in Hj as [(_ & -> & _)|[? _]]; done.
  - rewrite list_lookup_insert_ne in Hj by done.
    apply (attached_ext (files s)); [|by apply Ha]. intros. by apply (Hfs fd k j).
Qed.

Lemma attached_transfer fs i c o : is_transfer o -> op_ok o ->
  attached fs i c -> attached fs i (chan (exec o c)).
Proof.
  intros Ht Ho [A1 A2 A3 A4 A5 A6 A7]. destruct (transfer_frame o c Ht) as [E1 E2].
  split; rewrite ?E1, ?E2; try done. by apply exec_refines.
Qed.

(** No file is attached to a channel that is neither created nor opened. *)
Lemma detached fs i c : attached fs i c -> created c = 0 -> slave_open_count c = 0 ->
  forall fd k, conn_channel k = Some i -> fs !! fd <> Some k.
Proof.
  intros [] Hc Ho fd [|j|j] Hk Hf; simplify_eq/=.
  - specialize (att_master0 fd Hf). lia.
  - specialize (att_slave0 fd Hf). lia.
Qed.

Lemma attached_fresh fs i c : chan_ok c -> slave_open_count c = 0 -> created c = 0 ->
  (forall fd k, conn_channel k = Some i -> fs !! fd <> Some k) -> attached fs i c.
Proof.
  intros Hok Ho Hc Hf. split; auto; intros; (exfalso; eapply Hf; [|eassumption]; done).
Qed.

Lemma first_free_ge cs k : (k <= first_free cs k)%nat.
Proof.
  revert k. induction cs as [|x cs IH]; intros k; simpl; [lia|].
  destruct (_ =? 0); [lia|]. specialize (IH (S k)). lia.
Qed.

Lemma first_free_lookup cs k c : cs !! (first_free cs k - k)%nat = Some c -> created c = 0.
Proof.
  revert k. induction cs as [|x cs IH]; intros k; simpl; [done|].
  destruct (Z.eqb_spec (created x) 0).
  - rewrite Nat.sub_diag. by intros [= <-].
  - pose proof (first_free_ge cs (S k)).
    replace (first_free cs (S k) - k)%nat with (S (first_free cs (S k) - S k)) by lia.
    apply IH.
Qed.

Lemma cleared_channel_ok i nm : chan_ok (cleared_channel i nm).
Proof. split; apply zero_ring_ok. Qed.

Lemma create_ok s fd intr d oom nm r k s' : sys_ok s -> waits_for_slave s ->
  files s !! fd = Some Ctrl ->
  eq3loop_create_slave_dev intr d oom nm s = (r, k, s') ->
  sys_ok (match k with
          | Some k => Sys (channels s') (<[fd := k]> (files s')) (nodes s')
          | None => s' end).
Proof.
  intros Hs Hw Hfd E. unfold eq3loop_create_slave_dev in E.
  destruct intr; [by simplify_eq|]. case_match eqn:Hn; [by simplify_eq|].
  set (i := first_free (channels s) 0) in *. pose proof Hs as [Hl Ha].
  destruct (lookup_lt_is_Some_2 (channels s) i) as [c0 Hc0].
  { rewrite Hl. apply Nat.leb_gt in Hn. done. }
  assert (H0 : created c0 = 0).
  { apply (first_free_lookup (channels s) 0). by rewrite Nat.sub_0_r. }
  pose proof (detached _ _ _ (Ha _ _ Hc0) H0 (Hw _ Hc0)) as Hdet.
  assert (Hidle : attached (files s) i (cleared_channel i nm))
    by (apply attached_fresh; [apply cleared_channel_ok|done..]).
  destruct d, oom; simplify_eq; try (by apply sys_ok_update).
  all: apply sys_ok_update; [done| |].
  all: try (intros fd' k' j Hj Hk Hf; simpl in Hf; destruct (decide (fd' = fd)) as [->|];
    [rewrite lookup_insert_eq in Hf; by simplify_eq/= | by rewrite lookup_insert_ne in Hf]).
  all: split; simpl; auto; try (by split; apply zero_ring_ok).
  all: intros f1 *; rewrite ?lookup_insert; repeat case_decide; simplify_eq; try done;
    intros; (exfalso; eapply Hdet; [|eassumption]; done).
Qed.
End Preservation.

Section Reachable.
Context `{CB : CircBuf}.

Lemma files_insert_fresh (fs : gmap nat conn) fd k i :
  conn_channel k <> Some i -> fs !! fd = None ->
  forall fd' k', conn_channel k' = Some i -> <[fd := k]> fs !! fd' = Some k' ->
    fs !! fd' = Some k'.
Proof.
  intros Hk Hn fd' k' Hc H. rewrite lookup_insert in H. case_decide; by simplify_eq.
Qed.

Lemma files_delete (fs : gmap nat conn) fd fd' k' :
  delete fd fs !! fd' = Some k' -> fs !! fd' = Some k'.
Proof. rewrite lookup_delete_Some. tauto. Qed.

Lemma open_slave_ok fs fd i c intr oom : attached fs i c -> fs !! fd = None ->
  out (eq3loop_open_slave intr oom c) = Ret 0 ->
  attached (<[fd := Slave i]> fs) i (chan (eq3loop_open_slave intr oom c)).
Proof.
  intros A Hn Ho. pose proof (exec_refines (OpenSlave intr oom) c (att_ok _ _ _ A) I) as [Hok _].
  simpl in Hok. unfold eq3loop_open_slave in *.
  destruct intr; [done|]. destruct (Z.eqb_spec (created c) 0); [done|].
  destruct (Z.eqb_spec (slave_open_count c) 0) as [E|]; [|done]. simpl in *.
  destruct oom; [done|]. destruct A as [A1 A2 A3 A4 A5 A6 A7].
  assert (Hno : forall fd', fs !! fd' <> Some (Slave i)) by (intros ? H; apply A4 in H; lia).
  split; simpl; auto; try (intros; lia).
  - intros f1 f2. rewrite !lookup_insert. repeat case_decide; intros; simplify_eq; try done;
      exfalso; by eapply Hno.
  - intros f1 f2 H1 H2. apply A7; rewrite lookup_insert in *; by repeat case_decide; simplify_eq.
Qed.

Lemma open_ok s fd minor intr oom : sys_ok s -> files s !! fd = None ->
  sys_ok (snd (eq3loop_open minor intr oom fd s)).
Proof.
  intros Hs Hn. pose proof Hs as [Hl Ha]. unfold eq3loop_open.
  destruct (minor =? 0).
  { split; [done|]. simpl. intros i c Hc. apply (attached_ext (files s)); [|by apply Ha].
    intros fd1 k1 Hk1. apply files_insert_fresh with (i := i); done. }
  destruct (_ <=? _); [done|]. destruct (channels s !! _) as [c|] eqn:Hc; [|done].
  destruct (out _) as [r|] eqn:Ho; [|done]. destruct (decide (r = 0)) as [->|Hr].
  - simpl. apply sys_ok_update; [done| |by apply open_slave_ok; auto].
    intros fd' k j Hj. apply files_insert_fresh; [|done]. intros [=]. done.
  - by destruct r.
Qed.

(** When the only file of one kind goes, the count it stood for is free. *)
Lemma attached_drop_slave fs fd i c c' : attached fs i c -> fs !! fd = Some (Slave i) ->
  chan_ok c' -> created c' = created c -> slave_open_count c' = 0 \/ slave_open_count c' = 1 ->
  attached (delete fd fs) i c'.
Proof.
  intros [A1 A2 A3 A4 A5 A6 A7] Hf Hok Hc Ho. split; rewrite ?Hc; auto.
  - intros f [Hne H]%lookup_delete_Some. destruct Hne. by eapply A6.
  - intros f H%files_delete. by eapply A5.
  - intros f1 f2 H1%files_delete H2%files_delete. by eapply A6.
  - intros f1 f2 H1%files_delete H2%files_delete. by eapply A7.
Qed.

Lemma attached_drop_master fs fd i c c' : attached fs i c -> fs !! fd = Some (Master i) ->
  chan_ok c' -> slave_open_count c' = slave_open_count c -> created c' = 0 \/ created c' = 1 ->
  attached (delete fd fs) i c'.
Proof.
  intros [A1 A2 A3 A4 A5 A6 A7] Hf Hok Hc Ho. split; rewrite ?Hc; auto.
  - intros f H%files_delete. by eapply A4.
  - intros f [Hne H]%lookup_delete_Some. destruct Hne. by eapply A7.
  - intros f1 f2 H1%files_delete H2%files_delete. by eapply A6.
  - intros f1 f2 H1%files_delete H2%files_delete. by eapply A7.
Qed.

Lemma close_ok s fd intr intr2 : sys_ok s -> sys_ok (eq3loop_close intr intr2 fd s).
Proof.
  intros Hs. pose proof Hs as [Hl Ha]. unfold eq3loop_close.
  assert (Hdel : forall nds, sys_ok (Sys (channels s) (delete fd (files s)) nds)).
  { split; [done|]. simpl. intros i c Hc. apply (attached_ext (files s)); [|by apply Ha].
    intros fd' k _. apply files_delete. }
  destruct (files s !! fd) as [[|i|i]|] eqn:Hf; [done| | |done];
    destruct (channels s !! i) as [c|] eqn:Hc; try done;
    (apply sys_ok_update; [done | intros fd' k j _ _; apply files_delete |]);
    pose proof (Ha _ _ Hc) as A.
  - eapply attached_drop_master; try done.
    + by apply (exec_refines (CloseMaster intr intr2)); [eapply att_ok|].
    + by destruct intr, intr2.
    + destruct intr, intr2; simpl; eauto using att_created.
  - eapply attached_drop_slave; try done.
    + by apply (exec_refines (CloseSlave intr)); [eapply att_ok|].
    + unfold eq3loop_close_slave. destruct intr; [done|]. by destruct (slave_open_count c =? 0).
    + unfold eq3loop_close_slave. destruct A. destruct intr; [done|].
      destruct (Z.eqb_spec (slave_open_count c) 0); simpl; lia.
Qed.

Lemma transfer_ok s i k r o c : sys_ok s -> is_transfer o -> op_ok o ->
  channels s !! i = Some c -> conn_channel k = Some i -> r = exec o c ->
  sys_ok (set_chan i (chan r) s).
Proof.
  intros Hs Ht Ho Hc Hk ->. apply sys_ok_update; [done|done|].
  apply attached_transfer; try done. by apply Hs.
Qed.

Lemma careful_step_ok s s' : sys_ok s -> careful_step s s' -> sys_ok s'.
Proof.
  intros Hs Hcare. destruct Hcare as [s s' Hstep Hw]. destruct Hstep.
  - by apply open_ok.
  - by eapply create_ok.
  - unfold eq3loop_read in *. destruct (files s !! fd) as [[|j|j]|]; simplify_eq/=;
      destruct (channels s !! i) as [c|] eqn:Hc; simplify_eq/=;
      [by apply (transfer_ok s i (Master i) _ (ReadMaster e n) c)
      | by apply (transfer_ok s i (Slave i) _ (ReadSlave e n) c)].
  - unfold eq3loop_write in *. destruct (files s !! fd) as [[|j|j]|]; simplify_eq/=;
      destruct (channels s !! i) as [c|] eqn:Hc; simplify_eq/=;
      [by apply (transfer_ok s i (Master i) _ (WriteMaster e d) c)
      | by apply (transfer_ok s i (Slave i) _ (WriteSlave e d) c)].
  - by apply close_ok.
Qed.

Lemma sys_init_ok : sys_ok sys_init.
Proof.
  split; [done|]. intros i c Hc.
  change (channels sys_init) with (replicate 4 zero_channel) in Hc.
  apply lookup_replicate in Hc as [-> _].
  apply attached_fresh; [split; apply zero_ring_ok|done|done|]. intros fd k _. apply lookup_empty_Some.
Qed.

(** If a channel is only created again once no slave holds
    it, then in every state the driver can reach all rings are well formed
    and every channel has at most one master file and at most one slave file,
    and a file is attached only to a channel that counts it. *)
Theorem attachments_exclusive s i : star careful_step sys_init s ->
  (i < EQ3LOOP_NUMBER_OF_CHANNELS)%nat ->
  sys_ok s /\
  (forall fd1 fd2, files s !! fd1 = Some (Slave i) -> files s !! fd2 = Some (Slave i) ->
     fd1 = fd2) /\
  (forall fd1 fd2, files s !! fd1 = Some (Master i) -> files s !! fd2 = Some (Master i) ->
     fd1 = fd2).
Proof.
  intros Hr Hi. assert (Hs : sys_ok s).
  { eapply (star_invariant careful_step sys_ok careful_step_ok); eauto using sys_init_ok. }
  split; [done|]. destruct Hs as [Hl Ha]. rewrite <- Hl in Hi.
  destruct (lookup_lt_is_Some_2 _ _ Hi) as [c Hc]. destruct (Ha _ _ Hc). eauto.
Qed.

Definition run_open (minor : Z) (fd : nat) (s : sys) : sys :=
  snd (eq3loop_open minor false false fd s).
Definition run_create (fd : nat) (s : sys) : sys :=
  match eq3loop_create_slave_dev false DevOk false [109] s with
  | (_, Some k, s') => Sys (channels s') (<[fd := k]> (files s')) (nodes s')
  | (_, None, s') => s'
  end.

Lemma star_open minor fd s s' : files s !! fd = None ->
  star step (run_open minor fd s) s' -> star step s s'.
Proof. intros. eapply star_step; [by apply step_open|done]. Qed.
Lemma star_create fd s s' : files s !! fd = Some Ctrl ->
  star step (run_create fd s) s' -> star step s s'.
Proof.
  intros Hf Hs. destruct (eq3loop_create_slave_dev false DevOk false [109] s) as [[r k] s1] eqn:E.
  eapply star_step; [by eapply step_create|]. unfold run_create in Hs. rewrite E in Hs.
  by destruct k.
Qed.
Lemma star_close fd s s' : is_Some (files s !! fd) ->
  star step (eq3loop_close false false fd s) s' -> star step s s'.
Proof. intros. eapply star_step; [by apply step_close|done]. Qed.

(** Creation does not wait for the last slave: with
    the steps the driver allows, a process that holds a slave of a channel
    whose master has gone ends up sharing the next session of that channel
    with a second slave, although an open of a channel in use is meant to
    answer [-EBUSY]. *)
Theorem channel_reused : exists s fd1 fd2,
  star step sys_init s /\ fd1 <> fd2 /\
  files s !! fd1 = Some (Slave 0) /\ files s !! fd2 = Some (Slave 0).
Proof.
  eexists _, 2%nat, 4%nat. split; [|split; [done|]].
  - apply (star_open 0 1); [done|]. apply (star_create 1); [done|].
    apply (star_open 1 2); [done|]. apply (star_close 1); [by eexists|].
    apply (star_open 0 3); [done|]. apply (star_create 3); [done|].
    apply (star_open 1 4); [done|]. apply star_refl.
  - split; vm_compute; reflexivity.
Qed.
End Reachable.

(** ** Creating a channel *)

Lemma first_free_spec cs k j c : (k <= j < first_free cs k)%nat -> cs !! (j - k)%nat = Some c ->
  created c <> 0.
Proof.
  revert k. induction cs as [|x cs IH]; intros k Hj; simpl in *; [lia|].
  destruct (Z.eqb_spec (created x) 0) as [E|E]; [lia|].
  destruct (decide (j = k)) as [->|].
  - rewrite Nat.sub_diag. by intros [= <-].
  - replace (j - k)%nat with (S (j - S k)) by lia. apply IH. lia.
Qed.

Lemma cstring_terminated src rest : Forall (fun x => x <> 0) src ->
  cstring (src ++ 0 :: rest) = Some src.
Proof.
  induction src as [|x src IH]; intros H; [done|]. inversion H; subst. simpl.
  destruct (Z.eqb_spec x 0); [done|]. by rewrite IH.
Qed.

Lemma cstring_unterminated b : Forall (fun x => x <> 0) b -> cstring b = None.
Proof.
  induction b as [|x b IH]; intros H; [done|]. inversion H; subst. simpl.
  destruct (Z.eqb_spec x 0); [done|]. by rewrite IH.
Qed.

(** Creating a slave device takes the first channel that is
    not in use, touches no other channel, and fails with [-EINVAL] exactly when
    all four are in use; an [ERR_PTR] from [device_create] is not noticed, and
    the channel is then handed out without a device node. *)
Theorem create_takes_first_free d nm s : length (channels s) = EQ3LOOP_NUMBER_OF_CHANNELS ->
  let '(r, k, s') := eq3loop_create_slave_dev false d false nm s in
  (r = - EINVAL /\ s' = s /\ (forall i c, channels s !! i = Some c -> created c <> 0)) \/
  exists i old new,
    channels s !! i = Some old /\ created old = 0 /\
    (forall j c, (j < i)%nat -> channels s !! j = Some c -> created c <> 0) /\
    channels s' = <[i := new]> (channels s) /\ files s' = files s /\
    match d with
    | DevNull => r = - EBUSY /\ k = None /\ created new = 0
    | DevOk => r = 0 /\ k = Some (Master i) /\ created new = 1 /\
               nodes s' = (Z.of_nat i + 1) :: nodes s
    | DevErr => r = 0 /\ k = Some (Master i) /\ created new = 1 /\ nodes s' = nodes s
    end.
Proof.
  intros Hl. unfold eq3loop_create_slave_dev. destruct (_ <=? _)%nat eqn:E.
  - left. split; [done|]. split; [done|]. intros i c Hc.
    apply (first_free_spec (channels s) 0 i); [|by rewrite Nat.sub_0_r].
    apply Nat.leb_le in E. apply lookup_lt_Some in Hc. lia.
  - apply Nat.leb_gt in E. rewrite <- Hl in E.
    destruct (lookup_lt_is_Some_2 _ _ E) as [old Hold].
    assert (H0 : created old = 0)
      by (apply (first_free_lookup (channels s) 0); by rewrite Nat.sub_0_r).
    assert (Hlow : forall j c, (j < first_free (channels s) 0)%nat ->
      channels s !! j = Some c -> created c <> 0).
    { intros j c Hj Hc. apply (first_free_spec (channels s) 0 j); [lia|by rewrite Nat.sub_0_r]. }
    destruct d; right; eexists _, old, _; done.
Qed.

(** The control ioctl reads its 64-byte name buffer as a
    string: for a name of 64 bytes or more, which [strncpy_from_user] leaves
    without a NUL, it reads past the buffer; for a shorter name it creates the
    slave with exactly that name. *)
Theorem ctrl_name_overrun src ret b intr d oom s :
  strncpy_doc 64 src ret b -> Forall (fun x => x <> 0) src -> src <> [] ->
  eq3loop_ioctl_ctrl EQ3LOOP_IOCSCREATESLAVE ret b intr d oom s =
    if decide (length src < 64)%nat
    then let '(r, c, s') := eq3loop_create_slave_dev intr d oom src s in CtrlRet r c s'
    else Overrun.
Proof.
  intros [Hlb Hdoc] Hz Hne. unfold eq3loop_ioctl_ctrl, EQ3LOOP_IOCSCREATESLAVE.
  rewrite Z.eqb_refl. simpl negb. cbv iota. rewrite bool_decide_true by done.
  assert (Hpos : (0 < length src)%nat) by (destruct src; simpl; [done|lia]).
  case_decide.
  - destruct Hdoc as [-> [rest ->]]. rewrite cstring_terminated by done.
    destruct (Z.leb_spec (zlen src) 0); [unfold zlen in *; lia|done].
  - destruct Hdoc as [-> ->]. rewrite cstring_unterminated by (by apply Forall_take). done.
Qed.

(** ** Concrete instances *)

Lemma attachments_exclusive_witness :
  let s := run_open 1 2 (run_create 1 (run_open 0 1 sys_init)) in
  files s !! 2%nat = Some (Slave 0) /\ sys_ok s.
Proof.
  cbv zeta. split; [vm_compute; reflexivity|].
  apply (attachments_exclusive (CB := linux_circ) _ 0); [|vm_compute; lia].
  eapply star_step; [split; [apply (step_open (CB := linux_circ) sys_init 1 0 false false); done|]|].
  { intros c H. vm_compute in H. by simplify_eq. }
  eapply star_step.
  { split; [eapply (step_create (CB := linux_circ) _ 1 false DevOk false [109]); vm_compute; reflexivity|].
    intros c H. vm_compute in H. by simplify_eq. }
  eapply star_step; [split; [apply (step_open (CB := linux_circ) _ 2 1 false false); done|]|apply star_refl].
  intros c H. vm_compute in H. by simplify_eq.
Defined.

Lemma create_takes_first_free_witness :
  let '(r, k, s') := eq3loop_create_slave_dev false DevErr false [109] sys_init in
  r = 0 /\ k = Some (Master 0) /\ nodes s' = nodes sys_init.
Proof.
  destruct (create_takes_first_free DevErr [109] sys_init eq_refl)
    as [(H & _) | (i & o & n & _ & _ & _ & _ & _ & H & Hk & _ & Hn)].
  - discriminate H.
  - repeat split; done.
Defined.

Lemma ctrl_name_overrun_witness :
  eq3loop_ioctl_ctrl EQ3LOOP_IOCSCREATESLAVE 64 (replicate 64 65) false DevOk false sys_init
  = Overrun.
Proof.
  apply (ctrl_name_overrun (replicate 64 65)).
  - split; [reflexivity|]. simpl. split; reflexivity.
  - apply Forall_replicate. done.
  - done.
Defined.
