(* ===== verification/Eq3Files.v ===== *)
(** The eQ-3 loopback driver as processes see it (src/kernel/eq3_char_loop.c).

    [sys_call] runs one system call on one open file through the dispatchers of
    the driver.  [device] is what the driver promises: four ports, each a pair
    of bounded queues with who is attached, and a table of files; [device_call]
    says what a system call does to it.  Any sequence of calls of any processes
    is answered as the device answers it ([driver_refines_device]), and over the
    whole life of the driver every byte that was accepted is delivered once and
    in order ([driver_fifo]). *)
From stdpp Require Import functions.
From S2P Require Import Prelude Kernel Ring Eq3Loop Eq3Pipe Eq3Sys.

(** ** System calls *)

(** What surrounds an ioctl: interruption of the lock, access to user memory,
    the termios structure there, what [strncpy_from_user] returns and leaves in
    the buffer, the answers of [device_create] and [kzalloc]. *)
Record ioctl_env := {
  i_intr : bool; i_user : user_access; i_arg : termios; i_landed : termios;
  i_name_ret : Z; i_name : list Z; i_dev : dev_result; i_oom : bool
}.

Inductive syscall :=
| Open (fd : nat) (minor : Z) (intr oom : bool)
| Read (fd : nat) (e : read_env) (count : Z)
| Write (fd : nat) (e : write_env) (data : list Z)
| Ioctl (fd : nat) (cmd : ioctl_cmd) (e : ioctl_env)
| Poll (fd : nat) (intr : bool)
| Close (fd : nat) (intr intr2 : bool).

(** [Overran]: a handler has read behind the end of its buffer. *)
Inductive reply := Reply (o : outcome) (u : list Z) (v : user_val) | Overran.

Definition returns (r : Z) : reply := Reply (Ret r) [] UNone.

Definition attach (fd : nat) (k : option conn) (s : sys) : sys :=
  match k with Some k => Sys (channels s) (<[fd := k]> (files s)) (nodes s) | None => s end.

Section Calls.
Context `{CB : CircBuf}.

(** Without a connection, [eq3loop_ioctl_ctrl]; otherwise [conn->ioctl]. *)
Definition eq3loop_ioctl (cmd : ioctl_cmd) (e : ioctl_env) (fd : nat) (s : sys) : reply * sys :=
  let on i (h : channel -> Z * user_val * channel) :=
    match channels s !! i with
    | Some c => let '(r, v, c') := h c in (Reply (Ret r) [] v, set_chan i c' s)
    | None => (returns (- EFAULT), s)
    end in
  match files s !! fd with
  | Some Ctrl =>
    match eq3loop_ioctl_ctrl cmd (i_name_ret e) (i_name e) (i_intr e) (i_dev e) (i_oom e) s with
    | Overrun => (Overran, s)
    | CtrlRet r k s' => (returns r, attach fd k s')
    end
  | Some (Master i) => on i (eq3loop_ioctl_master (i_user e) cmd)
  | Some (Slave i) => on i (eq3loop_ioctl_slave (i_intr e) (i_user e) cmd (i_arg e) (i_landed e))
  | None => (returns (- EFAULT), s)
  end.

Definition eq3loop_poll (intr : bool) (fd : nat) (s : sys) : Z :=
  match files s !! fd with
  | Some (Master i) => default (u32 (- EINVAL)) (eq3loop_poll_master intr <$> channels s !! i)
  | Some (Slave i) => default (u32 (- EINVAL)) (eq3loop_poll_slave intr <$> channels s !! i)
  | _ => u32 (- EINVAL)
  end.

(** A read or a write that no handler takes returns [-EFAULT]. *)
Definition transfer (fd : nat) (r : option result) (s : sys) : reply * sys :=
  match files s !! fd ≫= conn_channel, r with
  | Some i, Some r => (Reply (out r) (user r) UNone, set_chan i (chan r) s)
  | _, _ => (returns (- EFAULT), s)
  end.

(** [None]: the kernel does not call the driver, since the number is not a file
    of it, or is taken.  What [release] returns is ignored by its caller. *)
Definition sys_call (o : syscall) (s : sys) : option (reply * sys) :=
  let on fd (r : reply * sys) := if decide (is_Some (files s !! fd)) then Some r else None in
  match o with
  | Open fd minor intr oom =>
    if decide (is_Some (files s !! fd)) then None else
    let (r, s') := eq3loop_open minor intr oom fd s in Some (returns r, s')
  | Read fd e n => on fd (transfer fd (eq3loop_read e n fd s) s)
  | Write fd e d => on fd (transfer fd (eq3loop_write e d fd s) s)
  | Ioctl fd cmd e => on fd (eq3loop_ioctl cmd e fd s)
  | Poll fd intr => on fd (returns (eq3loop_poll intr fd s), s)
  | Close fd intr intr2 => on fd (returns 0, eq3loop_close intr intr2 fd s)
  end.
End Calls.

(** ** What the driver promises *)

Record device := Device { ports : list pipe; table : gmap nat conn }.

Definition look (s : sys) : device := Device (view <$> channels s) (files s).

Fixpoint first_unused (ps : list pipe) (i : nat) : nat :=
  match ps with
  | [] => i
  | p :: ps => if p_created p then first_unused ps (S i) else i
  end.

(** What a call is about: an operation on one port, a new session on a port, an
    answer that is known, or a question that leaves the ports alone. *)
Inductive effect :=
| OnPort (i : nat) (o : op)
| NewSession (i : nat)
| Answers (r : Z)
| Question.

Definition on_file (fd : nat) (d : device) (master slave : op) (r : Z) : effect :=
  match table d !! fd with
  | Some (Master i) => OnPort i master
  | Some (Slave i) => OnPort i slave
  | _ => Answers r
  end.

Definition effect_of (o : syscall) (d : device) : effect :=
  match o with
  | Open fd minor intr oom =>
    if minor =? 0 then Answers 0 else
    if Z.of_nat EQ3LOOP_NUMBER_OF_CHANNELS <=? u32 (minor - 1) then Answers (- ENODEV)
    else OnPort (Z.to_nat (u32 (minor - 1))) (OpenSlave intr oom)
  | Read fd e n => on_file fd d (ReadMaster e n) (ReadSlave e n) (- EFAULT)
  | Write fd e x => on_file fd d (WriteMaster e x) (WriteSlave e x) (- EFAULT)
  | Close fd intr intr2 => on_file fd d (CloseMaster intr intr2) (CloseSlave intr) 0
  | Poll _ _ => Question
  | Ioctl fd cmd e =>
    if bool_decide (table d !! fd <> Some Ctrl) then Question else
    if bool_decide (cmd <> EQ3LOOP_IOCSCREATESLAVE) then Answers (- ENOTTY) else
    if i_name_ret e <=? 0 then Answers (- EFAULT) else
    if i_intr e then Answers (- ERESTARTSYS) else
    let i := first_unused (ports d) 0 in
    if (EQ3LOOP_NUMBER_OF_CHANNELS <=? i)%nat then Answers (- EINVAL) else NewSession i
  end.

(** The answer to a creation, and whether it gives a session. *)
Definition creation (d : dev_result) (oom : bool) : Z :=
  match d with DevNull => - EBUSY | _ => if oom then - ENOMEM else 0 end.

Definition create_answer (o : syscall) : Z :=
  match o with Ioctl _ _ e => creation (i_dev e) (i_oom e) | _ => 0 end.

(** The answer and the bytes it delivers; none is promised for questions. *)
Definition promise := option (outcome * list Z).

(** The files after a call with that effect and that answer. *)
Definition next_table (o : syscall) (f : effect) (a : promise) (t : gmap nat conn) : gmap nat conn :=
  match o, f with
  | Open fd _ _ _, Answers 0 => <[fd := Ctrl]> t
  | Open fd _ _ _, OnPort i _ => if bool_decide (fst <$> a = Some (Ret 0)) then <[fd := Slave i]> t else t
  | Ioctl fd _ _, NewSession i => if create_answer o =? 0 then <[fd := Master i]> t else t
  | Close fd _ _, _ => delete fd t
  | _, _ => t
  end.

Definition admitted (o : syscall) (t : gmap nat conn) : bool :=
  match o with
  | Open fd _ _ _ => bool_decide (t !! fd = None)
  | Read fd _ _ | Write fd _ _ | Ioctl fd _ _ | Poll fd _ | Close fd _ _ => bool_decide (is_Some (t !! fd))
  end.

(** The return value of a close is not passed on. *)
Definition passed_on (o : syscall) (a : outcome * list Z) : outcome * list Z :=
  match o with Close _ _ _ => (Ret 0, []) | _ => a end.

Definition device_call (o : syscall) (d : device) : option (promise * device) :=
  if negb (admitted o (table d)) then None else
  let f := effect_of o d in
  let finish a ps := Some (a, Device ps (next_table o f a (table d))) in
  match f with
  | OnPort i x =>
    match ports d !! i with
    | Some p => let '(r, u, p') := spec x p in finish (Some (passed_on o (r, u))) (<[i := p']> (ports d))
    | None => None
    end
  | NewSession i =>
    finish (Some (Ret (create_answer o), [])) (<[i := Pipe [] [] (create_answer o =? 0) 0]> (ports d))
  | Answers r => finish (Some (Ret r, [])) (ports d)
  | Question => finish None (ports d)
  end.

(** ** Runs *)

(** What a process is told, as far as the device promises it. *)
Definition heard (o : syscall) (s : sys) (r : reply) : promise :=
  match effect_of o (look s), r with
  | Question, _ | _, Overran => None
  | _, Reply x u _ => Some (x, u)
  end.

Fixpoint answers `{CB : CircBuf} (l : list syscall) (s : sys) : list promise :=
  match l with
  | [] => []
  | o :: l =>
    match sys_call o s with
    | None => answers l s
    | Some (r, s') => heard o s r :: answers l s'
    end
  end.

Fixpoint promised (l : list syscall) (d : device) : list promise :=
  match l with
  | [] => []
  | o :: l =>
    match device_call o d with
    | None => promised l d
    | Some (a, d') => a :: promised l d'
    end
  end.

(** Calls as the VFS issues them, with a name that ends in its buffer. *)
Definition call_ok (o : syscall) : Prop :=
  match o with
  | Read _ _ n => vfs_count n
  | Ioctl _ _ e => is_Some (cstring (i_name e))
  | _ => True
  end.

(** The books of the ports: a new session starts them, an open empties the
    ring to the slave. *)
Definition note (o : op) (a : outcome * list Z) (l : log) : log :=
  match o with
  | WriteMaster _ d => Log (sent_down l ++ accepted (fst a) d) (got_down l) (sent_up l) (got_up l)
  | ReadSlave _ _ => Log (sent_down l) (got_down l ++ snd a) (sent_up l) (got_up l)
  | WriteSlave _ d => Log (sent_down l) (got_down l) (sent_up l ++ accepted (fst a) d) (got_up l)
  | ReadMaster _ _ => Log (sent_down l) (got_down l) (sent_up l) (got_up l ++ snd a)
  | OpenSlave _ _ => if bool_decide (fst a = Ret 0) then Log [] [] (sent_up l) (got_up l) else l
  | _ => l
  end.

Definition empty_log : log := Log [] [] [] [].

Definition book (f : effect) (a : promise) (g : nat -> log) : nat -> log :=
  match f, a with
  | OnPort i x, Some a => <[i := note x a (g i)]> g
  | NewSession i, _ => <[i := empty_log]> g
  | _, _ => g
  end.

Fixpoint life `{CB : CircBuf} (l : list syscall) (s : sys) (g : nat -> log) : sys * (nat -> log) :=
  match l with
  | [] => (s, g)
  | o :: l =>
    match sys_call o s with
    | None => life l s g
    | Some (r, s') => life l s' (book (effect_of o (look s)) (heard o s r) g)
    end
  end.

(** ** The driver keeps the promise *)

Record sys_sound (s : sys) : Prop := {
  sound_channels : length (channels s) = EQ3LOOP_NUMBER_OF_CHANNELS;
  sound_rings i c : channels s !! i = Some c -> chan_ok c;
  sound_files fd k i : files s !! fd = Some k -> conn_channel k = Some i -> (i < EQ3LOOP_NUMBER_OF_CHANNELS)%nat
}.

Section Refinement.
Context `{CB : CircBuf}.

Lemma sound_channel s i : sys_sound s -> (i < EQ3LOOP_NUMBER_OF_CHANNELS)%nat ->
  exists c, channels s !! i = Some c /\ chan_ok c.
Proof.
  intros Hs Hi. rewrite <- (sound_channels s Hs) in Hi. destruct (lookup_lt_is_Some_2 _ _ Hi) as [c Hc].
  exists c. split; [done|]. by eapply sound_rings.
Qed.

Lemma file_channel s fd k i : sys_sound s -> files s !! fd = Some k -> conn_channel k = Some i ->
  exists c, channels s !! i = Some c /\ chan_ok c.
Proof. intros Hs Hf Hk. apply sound_channel; [done|]. by eapply sound_files. Qed.

(** A state with one channel changed and some files added or removed. *)
Lemma sound_update s i c fs nds : sys_sound s -> chan_ok c ->
  (forall fd k, fs !! fd = Some k -> files s !! fd = Some k \/ (forall j, conn_channel k = Some j -> (j < EQ3LOOP_NUMBER_OF_CHANNELS)%nat)) ->
  sys_sound (Sys (<[i := c]> (channels s)) fs nds).
Proof.
  intros Hs Hc Hf. split; cbn.
  - rewrite length_insert. by apply sound_channels.
  - intros j c' [(_ & -> & _)|[_ H]]%list_lookup_insert_Some; [done|]. by eapply sound_rings.
  - intros fd k j H Hk. destruct (Hf fd k H) as [H1|H1]; [by eapply sound_files | by apply H1].
Qed.

Lemma sound_insert s fd k fd' k' : <[fd := k]> (files s) !! fd' = Some k' ->
  (forall j, conn_channel k = Some j -> (j < EQ3LOOP_NUMBER_OF_CHANNELS)%nat) ->
  files s !! fd' = Some k' \/ (forall j, conn_channel k' = Some j -> (j < EQ3LOOP_NUMBER_OF_CHANNELS)%nat).
Proof. intros [[_ <-]|[_ H]]%lookup_insert_Some Hk; [by right | by left]. Qed.

Lemma sound_set_chan s i c : sys_sound s -> chan_ok c -> sys_sound (set_chan i c s).
Proof. intros. apply sound_update; try done. by left. Qed.

Lemma look_update s i c fs nds : look (Sys (<[i := c]> (channels s)) fs nds) = Device (<[i := view c]> (ports (look s))) fs.
Proof. unfold look. cbn. by rewrite list_fmap_insert. Qed.

Lemma look_port s i c : channels s !! i = Some c -> ports (look s) !! i = Some (view c).
Proof. intros H. cbn. by rewrite list_lookup_fmap, H. Qed.

(** A question leaves what a port promises as it is. *)
Lemma look_question s i c c' : channels s !! i = Some c -> view c' = view c -> look (set_chan i c' s) = look s.
Proof.
  intros H E. unfold set_chan. rewrite look_update. unfold look. f_equal. cbn. rewrite E.
  apply list_insert_id. by rewrite list_lookup_fmap, H.
Qed.

Lemma first_unused_look cs i : first_unused (view <$> cs) i = first_free cs i.
Proof.
  revert i. induction cs as [|c cs IH]; intros i; [done|]. cbn. by destruct (created c =? 0); cbn.
Qed.

Lemma ioctl_master_view ua cmd c : let '(_, _, c') := eq3loop_ioctl_master ua cmd c in
  view c' = view c /\ (chan_ok c -> chan_ok c').
Proof.
  unfold eq3loop_ioctl_master. destruct cmd; [|done]. cbv zeta.
  destruct (negb (type =? _)); [done|]. destruct (if negb (Z.land dir _ =? 0) then _ else _); [done|].
  destruct (negb (bool_decide _)); [done|]. destruct (negb (ua_left ua =? 0)); (split; [done|]); intros [H1 H2]; by split.
Qed.

Lemma ioctl_slave_view intr ua cmd arg t c : let '(_, _, c') := eq3loop_ioctl_slave intr ua cmd arg t c in
  view c' = view c /\ (chan_ok c -> chan_ok c').
Proof.
  unfold eq3loop_ioctl_slave. cbv zeta. destruct intr; [done|]. destruct cmd as [|t0]; [done|].
  destruct t0; try done; destruct (ua_ok ua); try done; destruct (ua_left ua =? 0); (split; [done|]); intros [H1 H2]; by split.
Qed.

(** One call does what the device does. *)
Definition keeps (o : syscall) (s : sys) : Prop :=
  match sys_call o s with
  | None => device_call o (look s) = None
  | Some (r, s') => sys_sound s' /\ device_call o (look s) = Some (heard o s r, look s')
  end.

Lemma open_slave_answers intr oom c : exists r, out (eq3loop_open_slave intr oom c) = Ret r /\ user (eq3loop_open_slave intr oom c) = [].
Proof. unfold eq3loop_open_slave. repeat case_match; eauto. Qed.

Lemma open_keeps s fd minor intr oom : sys_sound s -> keeps (Open fd minor intr oom) s.
Proof.
  intros Hs. unfold keeps, sys_call, device_call, heard. cbn [admitted effect_of look table].
  destruct (decide _) as [[k Hk]|Hn]; [by rewrite Hk|]. apply eq_None_not_Some in Hn as Hf.
  rewrite Hf, bool_decide_true by done. cbn [negb]. unfold eq3loop_open.
  destruct (minor =? 0); [|destruct (_ <=? u32 _) eqn:Ei; [done|]].
  { split; [|done]. split; cbn; [by apply sound_channels | by apply sound_rings |]. intros fd' k i H Hk.
    destruct (sound_insert s fd Ctrl fd' k H) as [H1|H1]; [done | by eapply sound_files | by apply H1]. }
  set (i := Z.to_nat _) in *. assert (Hi : (i < EQ3LOOP_NUMBER_OF_CHANNELS)%nat) by (apply Z.leb_gt in Ei; unfold i, EQ3LOOP_NUMBER_OF_CHANNELS in *; lia).
  destruct (sound_channel s i Hs Hi) as (c & Hc & Hok). rewrite Hc, (look_port s i c Hc).
  destruct (exec_refines (OpenSlave intr oom) c Hok I) as [Hok' E]. cbn [exec] in *. rewrite E.
  destruct (open_slave_answers intr oom c) as (r & Er & Eu). rewrite Er, Eu in *.
  assert (Hsame : r <> 0 -> chan (eq3loop_open_slave intr oom c) = c).
  { revert Er. unfold eq3loop_open_slave. repeat case_match; try done. by intros [= <-]. }
  destruct (decide (r = 0)) as [->|N].
  - split; [|by rewrite look_update]. apply sound_update; [done..|]. intros fd' k H.
    apply (sound_insert s fd (Slave i) fd' k H). by intros j [= <-].
  - assert (Hid : <[i := view c]> (ports (look s)) = ports (look s)) by (apply list_insert_id; by apply look_port).
    rewrite Hsame, Hid by done. destruct r; [done|..]; split; done.
Qed.

(** Reads and writes. *)
Lemma transfer_keeps s fd k i x r : sys_sound s -> files s !! fd = Some k -> conn_channel k = Some i -> op_ok x ->
  r = exec x <$> channels s !! i ->
  exists c, channels s !! i = Some c /\ transfer fd r s = (Reply (out (exec x c)) (user (exec x c)) UNone, set_chan i (chan (exec x c)) s) /\
    sys_sound (set_chan i (chan (exec x c)) s) /\
    spec x (view c) = (out (exec x c), user (exec x c), view (chan (exec x c))).
Proof.
  intros Hs Hf Hk Hx ->. destruct (file_channel s fd k i Hs Hf Hk) as (c & Hc & Hok). exists c.
  destruct (exec_refines x c Hok Hx) as [Hok' E]. unfold transfer. rewrite Hf, Hc. cbn. rewrite Hk.
  split_and!; try done. by apply sound_set_chan.
Qed.

Ltac on_file_keeps s fd k i x h Hs Hf :=
  destruct (transfer_keeps s fd k i x (h <$> channels s !! i) Hs Hf eq_refl ltac:(done) eq_refl) as (c & Hc & T & S & E);
  rewrite T; split; [exact S|]; rewrite (look_port s i c Hc), E; unfold set_chan; by rewrite look_update.

Lemma read_call_keeps s fd e n : sys_sound s -> vfs_count n -> keeps (Read fd e n) s.
Proof.
  intros Hs Hn. unfold keeps, sys_call, device_call, heard, on_file. cbn [admitted effect_of look table].
  unfold on_file. cbn [table look]. destruct (decide _) as [[k Hf]|N]; [|by rewrite bool_decide_false]. rewrite Hf.
  rewrite bool_decide_true by done. cbn [negb]. unfold eq3loop_read. rewrite Hf. destruct k as [|i|i].
  - unfold transfer. by rewrite Hf.
  - on_file_keeps s fd (Master i) i (ReadMaster e n) (eq3loop_read_master e n) Hs Hf.
  - on_file_keeps s fd (Slave i) i (ReadSlave e n) (eq3loop_read_slave e n) Hs Hf.
Qed.

Lemma write_call_keeps s fd e d : sys_sound s -> keeps (Write fd e d) s.
Proof.
  intros Hs. unfold keeps, sys_call, device_call, heard, on_file. cbn [admitted effect_of look table].
  unfold on_file. cbn [table look]. destruct (decide _) as [[k Hf]|N]; [|by rewrite bool_decide_false]. rewrite Hf.
  rewrite bool_decide_true by done. cbn [negb]. unfold eq3loop_write. rewrite Hf. destruct k as [|i|i].
  - unfold transfer. by rewrite Hf.
  - on_file_keeps s fd (Master i) i (WriteMaster e d) (eq3loop_write_master e d) Hs Hf.
  - on_file_keeps s fd (Slave i) i (WriteSlave e d) (eq3loop_write_slave e d) Hs Hf.
Qed.

Lemma close_port s fd k i x nds : sys_sound s -> files s !! fd = Some k -> conn_channel k = Some i -> op_ok x ->
  exists c, channels s !! i = Some c /\ ports (look s) !! i = Some (view c) /\
    spec x (view c) = (out (exec x c), user (exec x c), view (chan (exec x c))) /\
    sys_sound (Sys (<[i := chan (exec x c)]> (channels s)) (delete fd (files s)) nds).
Proof.
  intros Hs Hf Hk Hx. destruct (file_channel s fd k i Hs Hf Hk) as (c & Hc & Hok). exists c.
  destruct (exec_refines x c Hok Hx) as [Hok' E]. split_and!; try done; [by apply look_port|].
  apply sound_update; [done..|]. intros fd' k' H%files_delete. by left.
Qed.

Lemma close_keeps s fd intr intr2 : sys_sound s -> keeps (Close fd intr intr2) s.
Proof.
  intros Hs. unfold keeps, sys_call, device_call, heard. cbn [admitted effect_of look table]. unfold on_file. cbn [table look].
  destruct (decide _) as [[k Hf]|N]; [|by rewrite bool_decide_false]. rewrite Hf, bool_decide_true by done. cbn [negb].
  unfold eq3loop_close. rewrite Hf. destruct k as [|i|i].
  - split; [|done]. split; cbn; [by apply sound_channels | by apply sound_rings |].
    intros fd' k i H%files_delete Hk. by eapply sound_files.
  - destruct (close_port s fd (Master i) i (CloseMaster intr intr2)
      (if snd (eq3loop_close_master intr intr2 (default zero_channel (channels s !! i))) then remove_node (Z.of_nat i + 1) (nodes s) else nodes s)
      Hs Hf eq_refl I) as (c & Hc & Hp & E & S).
    rewrite Hc in *. rewrite Hp, E. split; [exact S | by rewrite look_update].
  - destruct (close_port s fd (Slave i) i (CloseSlave intr)
      (if snd (eq3loop_close_slave intr (default zero_channel (channels s !! i))) then remove_node (Z.of_nat i + 1) (nodes s) else nodes s)
      Hs Hf eq_refl I) as (c & Hc & Hp & E & S).
    rewrite Hc in *. rewrite Hp, E. split; [exact S | by rewrite look_update].
Qed.

Lemma poll_keeps s fd intr : sys_sound s -> keeps (Poll fd intr) s.
Proof.
  intros Hs. unfold keeps, sys_call, device_call, heard. cbn [admitted effect_of look table].
  destruct (decide _) as [Hf|N]; [by rewrite bool_decide_true | by rewrite bool_decide_false].
Qed.

(** The control device. *)
Lemma create_keeps s fd nm intr d oom : sys_sound s ->
  let '(r, k, s') := eq3loop_create_slave_dev intr d oom nm s in
  sys_sound (attach fd k s') /\
  if intr then r = - ERESTARTSYS /\ attach fd k s' = s else
  let i := first_unused (ports (look s)) 0 in
  if (EQ3LOOP_NUMBER_OF_CHANNELS <=? i)%nat then r = - EINVAL /\ attach fd k s' = s else
  r = creation d oom /\
  look (attach fd k s') = Device (<[i := Pipe [] [] (r =? 0) 0]> (ports (look s)))
    (if r =? 0 then <[fd := Master i]> (files s) else files s).
Proof.
  intros Hs. unfold eq3loop_create_slave_dev. destruct intr; [done|]. cbv zeta. cbn [look ports].
  rewrite first_unused_look. set (i := first_free _ _). destruct (_ <=? i)%nat eqn:Ei; [done|].
  apply Nat.leb_gt in Ei.
  assert (P : forall c k nds, chan_ok c -> k = None \/ k = Some (Master i) ->
    sys_sound (attach fd k (Sys (<[i := c]> (channels s)) (files s) nds))).
  { intros c k nds Hc [->| ->]; apply sound_update; try done; [by left|]. intros fd' k' H.
    apply (sound_insert s fd (Master i) fd' k' H). by intros j [= <-]. }
  destruct d, oom; (split; [apply P; [split; apply zero_ring_ok | by auto]|]);
    (split; [done|]); cbn [attach channels files nodes]; by rewrite look_update.
Qed.

Lemma ioctl_keeps s fd cmd e : sys_sound s -> is_Some (cstring (i_name e)) -> keeps (Ioctl fd cmd e) s.
Proof.
  intros Hs [nm Hnm]. unfold keeps, sys_call, device_call, heard. cbn [admitted effect_of look table].
  destruct (decide _) as [[k Hf]|N]; [|by rewrite bool_decide_false]. rewrite Hf, bool_decide_true by done. cbn [negb].
  unfold eq3loop_ioctl. rewrite Hf. destruct k as [|i|i].
  - rewrite bool_decide_false by (intros H; by apply H). destruct (decide (cmd = EQ3LOOP_IOCSCREATESLAVE)) as [->|N].
    + rewrite bool_decide_false by (intros H; by apply H). cbn [eq3loop_ioctl_ctrl EQ3LOOP_IOCSCREATESLAVE].
      rewrite Z.eqb_refl, bool_decide_true by done. cbn [negb]. destruct (i_name_ret e <=? 0); [done|]. rewrite Hnm.
      pose proof (create_keeps s fd nm (i_intr e) (i_dev e) (i_oom e) Hs) as P.
      destruct (eq3loop_create_slave_dev _ _ _ _ _) as [[r k] s']. cbv zeta in P. destruct P as [P1 P2]. split; [done|].
      destruct (i_intr e); [by destruct P2 as [-> ->]|]. destruct (_ <=? first_unused _ _)%nat; [by destruct P2 as [-> ->]|].
      destruct P2 as [-> ->]. cbn. reflexivity.
    + rewrite bool_decide_true by done.
      assert (E : eq3loop_ioctl_ctrl cmd (i_name_ret e) (i_name e) (i_intr e) (i_dev e) (i_oom e) s = CtrlRet (- ENOTTY) None s).
      { unfold eq3loop_ioctl_ctrl. destruct cmd; [|done]. destruct (negb _); [done|]. by rewrite bool_decide_false. }
      rewrite E. by split.
  - destruct (file_channel s fd _ i Hs Hf eq_refl) as (c & Hc & Hok). rewrite Hc, bool_decide_true by done.
    pose proof (ioctl_master_view (i_user e) cmd c) as V. destruct (eq3loop_ioctl_master _ _ _) as [[r v] c'].
    destruct V as [V1 V2]. split; [by apply sound_set_chan, V2|]. by rewrite (look_question s i c c' Hc V1).
  - destruct (file_channel s fd _ i Hs Hf eq_refl) as (c & Hc & Hok). rewrite Hc, bool_decide_true by done.
    pose proof (ioctl_slave_view (i_intr e) (i_user e) cmd (i_arg e) (i_landed e) c) as V.
    destruct (eq3loop_ioctl_slave _ _ _ _ _ _) as [[r v] c'].
    destruct V as [V1 V2]. split; [by apply sound_set_chan, V2|]. by rewrite (look_question s i c c' Hc V1).
Qed.

Lemma call_keeps o s : sys_sound s -> call_ok o -> keeps o s.
Proof.
  destruct o as [fd minor intr oom|fd e n|fd e d|fd cmd e|fd intr|fd intr intr2]; intros Hs Ho.
  - by apply open_keeps.
  - by apply read_call_keeps.
  - by apply write_call_keeps.
  - by apply ioctl_keeps.
  - by apply poll_keeps.
  - by apply close_keeps.
Qed.

Lemma sys_init_sound : sys_sound sys_init.
Proof.
  split; [done| |].
  - intros i c H. change (channels sys_init) with (replicate 4 zero_channel) in H.
    apply lookup_replicate in H as [-> _]. split; apply zero_ring_ok.
  - intros fd k i H. cbn in H. by rewrite lookup_empty in H.
Qed.

End Refinement.

(** ** Every byte once and in order *)

Section Books.
Context `{CB : CircBuf}.

Definition books_balance (d : device) (g : nat -> log) : Prop :=
  forall i p, ports d !! i = Some p ->
    sent_down (g i) = got_down (g i) ++ down p /\ sent_up (g i) = got_up (g i) ++ up p.

Lemma note_balances x p r u p' l : spec x p = (r, u, p') -> op_ok x ->
  sent_down l = got_down l ++ down p -> sent_up l = got_up l ++ up p ->
  sent_down (note x (r, u) l) = got_down (note x (r, u) l) ++ down p' /\
  sent_up (note x (r, u) l) = got_up (note x (r, u) l) ++ up p'.
Proof.
  intros E Hx Hd Hu. assert (no_open x \/ ~ no_open x) as [N|N] by (destruct x; cbn; tauto).
  - pose proof (spec_moves x p r u p' E N Hx) as M.
    destruct x; cbn in *; try done; destruct M as [M1 M2]; rewrite ?M1, ?M2 in *; split;
      rewrite ?Hd, ?Hu, <- ?app_assoc; done.
  - destruct x; try (exfalso; by apply N). cbn in E |- *.
    repeat case_match; simplify_eq; cbn; try done; by rewrite ?bool_decide_true.
Qed.

Lemma effect_op_ok o d i x : call_ok o -> effect_of o d = OnPort i x -> op_ok x.
Proof.
  destruct o; cbn; unfold on_file; intros Ho E; repeat case_match; simplify_eq; done.
Qed.

Lemma close_notes o d i x p r u p' l : effect_of o d = OnPort i x -> spec x p = (r, u, p') ->
  note x (passed_on o (r, u)) l = note x (r, u) l.
Proof.
  destruct o; try done. cbn. unfold on_file. intros E _. by repeat case_match; simplify_eq.
Qed.

Lemma device_balances o d a d' g : call_ok o -> device_call o d = Some (a, d') -> books_balance d g ->
  books_balance d' (book (effect_of o d) a g).
Proof.
  intros Ho E Hb. unfold device_call in E. destruct (negb _); [done|]. destruct (effect_of o d) as [i x|i|r|] eqn:F.
  - destruct (ports d !! i) as [p|] eqn:Hp; [|done]. destruct (spec x p) as [[r u] p'] eqn:S. injection E as <- <-.
    intros j q [(-> & -> & _)|[N Hq]]%list_lookup_insert_Some; cbn [book ports].
    + rewrite fn_lookup_insert, (close_notes o d j x p r u q (g j) F S).
      destruct (Hb j p Hp) as [H1 H2]. apply (note_balances x p); try done. by eapply effect_op_ok.
    + rewrite fn_lookup_insert_ne by done. by apply Hb.
  - injection E as <- <-. intros j q [(-> & <- & _)|[N Hq]]%list_lookup_insert_Some; cbn [book].
    + by rewrite fn_lookup_insert.
    + rewrite fn_lookup_insert_ne by done. by apply Hb.
  - by injection E as <- <-.
  - by injection E as <- <-.
Qed.

Lemma life_balances l s g : sys_sound s -> Forall call_ok l -> books_balance (look s) g ->
  let '(s', g') := life l s g in sys_sound s' /\ books_balance (look s') g'.
Proof.
  intros Hs Hl. revert s g Hs. induction Hl as [|o l Ho Hl IH]; intros s g Hs Hb; [done|]. cbn [life].
  pose proof (call_keeps o s Hs Ho) as K. unfold keeps in K. destruct (sys_call o s) as [[r s']|]; [|by apply IH].
  destruct K as [S D]. apply IH; [done|]. by apply (device_balances o (look s) (heard o s r)).
Qed.

(** C2 (invariant). Over the whole life of the driver, from its load and
    through any system calls of any processes, for each channel and at every
    moment: the bytes the masters' writes were told to be accepted since the
    slave was opened are the bytes the slave's reads have delivered followed by
    those in the ring, and the bytes accepted from slaves since the channel was
    created are the bytes delivered to the master followed by those in the
    ring.  Nothing is lost, doubled, reordered or mixed with the bytes of
    another channel or of an earlier session. *)
Theorem driver_fifo (l : list syscall) (i : nat) (c : channel) : Forall call_ok l ->
  let '(s, g) := life l sys_init (fun _ => empty_log) in
  channels s !! i = Some c ->
  chan_ok c /\
  sent_down (g i) = got_down (g i) ++ to_slave c /\ sent_up (g i) = got_up (g i) ++ to_master c.
Proof.
  intros Hl. pose proof (life_balances l sys_init (fun _ => empty_log) sys_init_sound Hl) as B.
  destruct (life l sys_init _) as [s g]. destruct B as [S B].
  { intros j p Hp. apply list_lookup_fmap_Some in Hp as (c0 & -> & E).
    change (channels sys_init) with (replicate 4 zero_channel) in E. by apply lookup_replicate in E as [-> _]. }
  intros Hc. split; [by eapply sound_rings|]. apply (B i (view c)). by apply look_port.
Qed.
End Books.

(** ** Two masters and two slaves *)

Module FileSamples.

Definition create_env : ioctl_env :=
  {| i_intr := false; i_user := good_access; i_arg := zero_termios; i_landed := zero_termios;
     i_name_ret := 1; i_name := [109; 0]; i_dev := DevOk; i_oom := false |}.

(** Files 1 and 3 create channels, files 2 and 4 are their slaves; a second
    slave is refused; one master is busy while the other channel is used. *)
Definition demo : list syscall :=
  [Open 1 0 false false; Ioctl 1 EQ3LOOP_IOCSCREATESLAVE create_env; Open 2 1 false false;
   Open 3 0 false false; Ioctl 3 EQ3LOOP_IOCSCREATESLAVE create_env; Open 4 2 false false; Open 5 1 false false;
   Write 1 calm_write [10; 11; 12]; Write 3 calm_write [20]; Read 2 calm_read 2; Write 4 calm_write [30; 31];
   Ioctl 2 (Tty TIOCINQ) create_env; Poll 1 false; Read 4 calm_read 100; Read 3 calm_read 100; Read 2 calm_read 100;
   Close 2 false false; Close 1 false false; Read 1 calm_read 1].

Lemma demo_ok : Forall call_ok demo.
Proof. repeat constructor; cbn; try (by eexists); unfold vfs_count; lia. Qed.


(** The state when file 2 has read two of its three bytes. *)
Definition halfway : list syscall := take 10 demo.
Definition there : sys * (nat -> log) := life (CB := linux_circ) halfway sys_init (fun _ => empty_log).

Lemma there_reached : (exists c, channels (fst there) !! 0%nat = Some c) /\
  sent_down (snd there 0%nat) = [10; 11; 12] /\ got_down (snd there 0%nat) = [10; 11].
Proof. by split; [eexists; vm_compute; reflexivity | vm_compute]. Qed.

Lemma driver_fifo_witness : exists c, channels (fst there) !! 0%nat = Some c /\ chan_ok c /\
  [10; 11; 12] = [10; 11] ++ to_slave c.
Proof.
  destruct there_reached as ([c Hc] & Hs & Hg). exists c. split; [exact Hc|].
  pose proof (driver_fifo (CB := linux_circ) halfway 0 c ltac:(apply Forall_take, demo_ok)) as P.
  fold there in P. rewrite (surjective_pairing there) in P. destruct (P Hc) as (P1 & P2 & _).
  rewrite Hs, Hg in P2. by split.
Defined.
End FileSamples.
