(* ===== verification/RawUart.v ===== *)
(** The generic raw UART driver, state and operations
    (src/kernel/generic_raw_uart.c, generic_raw_uart.h).

    One instance serves up to [MAX_CONNECTIONS] open files.  Received
    characters go through a ring to the readers; each file has a transmit
    buffer, and at most one of them, [tx_connection], is being sent.  The
    hardware below is the class [RawUartDriver], the model of
    [struct raw_uart_driver].  Pointers to connections are keys of [conns]; an
    access through a pointer whose connection has been freed is [None]. *)
From S2P Require Import Prelude Kernel Ring.

Definition MAX_DEVICES : nat := 5.
Definition CIRCBUF_SIZE : Z := 1024.
Definition CON_DATA_TX_BUF_SIZE : Z := 4096.
Definition MAX_CONNECTIONS : Z := 3.
Definition MAX_DEVICE_TYPE_LEN : Z := 64.
Definition IOCTL_MAGIC : Z := 117. (* 'u' *)
Definition IOCTL_IOCSPRIORITY : ioctl_cmd := Ioc IOC_WRITE IOCTL_MAGIC 1 4.
Definition IOCTL_IOCGPRIORITY : ioctl_cmd := Ioc IOC_READ IOCTL_MAGIC 2 4.
Definition IOCTL_IOCRESET_RADIO_MODULE : ioctl_cmd := Ioc 0 IOCTL_MAGIC 0x81 0.
Definition IOCTL_IOCGDEVINFO : ioctl_cmd := Ioc IOC_WRITE IOCTL_MAGIC 0x82 MAX_DEVICE_TYPE_LEN.

(** [enum generic_raw_uart_rx_flags] *)
Definition RX_STATE_NONE : Z := 0.
Definition RX_STATE_BREAK : Z := 1.
Definition RX_STATE_PARITY : Z := 2.
Definition RX_STATE_FRAME : Z := 4.
Definition RX_STATE_OVERRUN : Z := 8.

(** [enum generic_raw_uart_led] *)
Inductive generic_raw_uart_led := LED_RED | LED_GREEN | LED_BLUE.

(** [struct raw_uart_driver]: the operations of a hardware driver on its own
    state [D]; an absent function pointer is [None]. *)
Class RawUartDriver (D : Type) := {
  drv_owner : bool;
  start_connection : D -> Z * D;
  stop_connection : D -> D;
  init_tx : D -> D;
  isready_for_tx : D -> bool * D;
  tx_chars : D -> list Z -> Z -> Z -> D;
  stop_tx : D -> D;
  get_led_gpio_index : option (D -> generic_raw_uart_led -> Z);
  reset_radio_module : option (D -> Z * D);
  tx_chunk_size : Z;
  tx_bulktransfer_size : Z;
  get_device_type : option (D -> Z * list Z)
}.

(** [struct generic_raw_uart_instance], without its locks and kernel handles *)
Record instance := Instance_ {
  rxbuf : circ_buf;
  open_count : Z;
  connection_state : bool;
  tx_connection : option nat;
  inst_termios : termios;
  reset_pin : Z;
  red_pin : Z;
  green_pin : Z;
  blue_pin : Z;
  count_tx : Z;
  count_rx : Z;
  count_brk : Z;
  count_parity : Z;
  count_frame : Z;
  count_overrun : Z;
  count_buf_overrun : Z;
  dump_traffic : bool;
  dump_rxbuf_pos : Z;
  dump_rxbuf : list Z
}.

Definition set_rxbuf (r : circ_buf) (i : instance) : instance :=
    Instance_ r (open_count i) (connection_state i) (tx_connection i) (inst_termios i)
    (reset_pin i) (red_pin i) (green_pin i) (blue_pin i) (count_tx i) (count_rx i)
    (count_brk i) (count_parity i) (count_frame i) (count_overrun i) (count_buf_overrun
    i) (dump_traffic i) (dump_rxbuf_pos i) (dump_rxbuf i).
Definition set_open_count (n : Z) (i : instance) : instance :=
    Instance_ (rxbuf i) n (connection_state i) (tx_connection i) (inst_termios i)
    (reset_pin i) (red_pin i) (green_pin i) (blue_pin i) (count_tx i) (count_rx i)
    (count_brk i) (count_parity i) (count_frame i) (count_overrun i) (count_buf_overrun
    i) (dump_traffic i) (dump_rxbuf_pos i) (dump_rxbuf i).
Definition set_connection_state (b : bool) (i : instance) : instance :=
    Instance_ (rxbuf i) (open_count i) b (tx_connection i) (inst_termios i) (reset_pin
    i) (red_pin i) (green_pin i) (blue_pin i) (count_tx i) (count_rx i) (count_brk i)
    (count_parity i) (count_frame i) (count_overrun i) (count_buf_overrun i)
    (dump_traffic i) (dump_rxbuf_pos i) (dump_rxbuf i).
Definition set_tx_connection (c : option nat) (i : instance) : instance :=
    Instance_ (rxbuf i) (open_count i) (connection_state i) c (inst_termios i)
    (reset_pin i) (red_pin i) (green_pin i) (blue_pin i) (count_tx i) (count_rx i)
    (count_brk i) (count_parity i) (count_frame i) (count_overrun i) (count_buf_overrun
    i) (dump_traffic i) (dump_rxbuf_pos i) (dump_rxbuf i).
Definition set_inst_termios (t : termios) (i : instance) : instance :=
    Instance_ (rxbuf i) (open_count i) (connection_state i) (tx_connection i) t
    (reset_pin i) (red_pin i) (green_pin i) (blue_pin i) (count_tx i) (count_rx i)
    (count_brk i) (count_parity i) (count_frame i) (count_overrun i) (count_buf_overrun
    i) (dump_traffic i) (dump_rxbuf_pos i) (dump_rxbuf i).
Definition set_reset_pin (p : Z) (i : instance) : instance :=
    Instance_ (rxbuf i) (open_count i) (connection_state i) (tx_connection i)
    (inst_termios i) p (red_pin i) (green_pin i) (blue_pin i) (count_tx i) (count_rx i)
    (count_brk i) (count_parity i) (count_frame i) (count_overrun i) (count_buf_overrun
    i) (dump_traffic i) (dump_rxbuf_pos i) (dump_rxbuf i).
Definition set_led_pins (r g b : Z) (i : instance) : instance :=
    Instance_ (rxbuf i) (open_count i) (connection_state i) (tx_connection i)
    (inst_termios i) (reset_pin i) r g b (count_tx i) (count_rx i) (count_brk i)
    (count_parity i) (count_frame i) (count_overrun i) (count_buf_overrun i)
    (dump_traffic i) (dump_rxbuf_pos i) (dump_rxbuf i).
Definition set_count_tx (n : Z) (i : instance) : instance :=
    Instance_ (rxbuf i) (open_count i) (connection_state i) (tx_connection i)
    (inst_termios i) (reset_pin i) (red_pin i) (green_pin i) (blue_pin i) n (count_rx i)
    (count_brk i) (count_parity i) (count_frame i) (count_overrun i) (count_buf_overrun
    i) (dump_traffic i) (dump_rxbuf_pos i) (dump_rxbuf i).
Definition set_count_rx (n : Z) (i : instance) : instance :=
    Instance_ (rxbuf i) (open_count i) (connection_state i) (tx_connection i)
    (inst_termios i) (reset_pin i) (red_pin i) (green_pin i) (blue_pin i) (count_tx i) n
    (count_brk i) (count_parity i) (count_frame i) (count_overrun i) (count_buf_overrun
    i) (dump_traffic i) (dump_rxbuf_pos i) (dump_rxbuf i).
Definition set_count_brk (n : Z) (i : instance) : instance :=
    Instance_ (rxbuf i) (open_count i) (connection_state i) (tx_connection i)
    (inst_termios i) (reset_pin i) (red_pin i) (green_pin i) (blue_pin i) (count_tx i)
    (count_rx i) n (count_parity i) (count_frame i) (count_overrun i) (count_buf_overrun
    i) (dump_traffic i) (dump_rxbuf_pos i) (dump_rxbuf i).
Definition set_count_parity (n : Z) (i : instance) : instance :=
    Instance_ (rxbuf i) (open_count i) (connection_state i) (tx_connection i)
    (inst_termios i) (reset_pin i) (red_pin i) (green_pin i) (blue_pin i) (count_tx i)
    (count_rx i) (count_brk i) n (count_frame i) (count_overrun i) (count_buf_overrun i)
    (dump_traffic i) (dump_rxbuf_pos i) (dump_rxbuf i).
Definition set_count_frame (n : Z) (i : instance) : instance :=
    Instance_ (rxbuf i) (open_count i) (connection_state i) (tx_connection i)
    (inst_termios i) (reset_pin i) (red_pin i) (green_pin i) (blue_pin i) (count_tx i)
    (count_rx i) (count_brk i) (count_parity i) n (count_overrun i) (count_buf_overrun
    i) (dump_traffic i) (dump_rxbuf_pos i) (dump_rxbuf i).
Definition set_count_overrun (n : Z) (i : instance) : instance :=
    Instance_ (rxbuf i) (open_count i) (connection_state i) (tx_connection i)
    (inst_termios i) (reset_pin i) (red_pin i) (green_pin i) (blue_pin i) (count_tx i)
    (count_rx i) (count_brk i) (count_parity i) (count_frame i) n (count_buf_overrun i)
    (dump_traffic i) (dump_rxbuf_pos i) (dump_rxbuf i).
Definition set_dump_traffic (b : bool) (i : instance) : instance :=
    Instance_ (rxbuf i) (open_count i) (connection_state i) (tx_connection i)
    (inst_termios i) (reset_pin i) (red_pin i) (green_pin i) (blue_pin i) (count_tx i)
    (count_rx i) (count_brk i) (count_parity i) (count_frame i) (count_overrun i)
    (count_buf_overrun i) b (dump_rxbuf_pos i) (dump_rxbuf i).
Definition set_dump_rxbuf (pos : Z) (l : list Z) (i : instance) : instance :=
    Instance_ (rxbuf i) (open_count i) (connection_state i) (tx_connection i)
    (inst_termios i) (reset_pin i) (red_pin i) (green_pin i) (blue_pin i) (count_tx i)
    (count_rx i) (count_brk i) (count_parity i) (count_frame i) (count_overrun i)
    (count_buf_overrun i) (dump_traffic i) pos l.

(** [struct per_connection_data] *)
Record conn := Conn {
  txbuf : list Z;
  tx_buf_length : Z;
  tx_buf_index : Z;
  priority : Z
}.

Definition set_txbuf (b : list Z) (c : conn) : conn :=
  Conn b (tx_buf_length c) (tx_buf_index c) (priority c).
Definition set_tx_index (n : Z) (c : conn) : conn :=
  Conn (txbuf c) (tx_buf_length c) n (priority c).
Definition set_priority (p : Z) (c : conn) : conn :=
  Conn (txbuf c) (tx_buf_length c) (tx_buf_index c) p.
Definition new_conn : conn := Conn (replicate (Z.to_nat CON_DATA_TX_BUF_SIZE) 0) 0 0 0.

(** An instance with its connections, its hardware driver, and the reference
    count of the module that owns the driver. *)
Record uart (D : Type) := Uart {
  inst : instance;
  conns : gmap nat conn;
  drv : D;
  module_refs : Z
}.
Arguments Uart {D}.
Arguments inst {D}.
Arguments conns {D}.
Arguments drv {D}.
Arguments module_refs {D}.

Definition on_inst {D} (f : instance -> instance) (u : uart D) : uart D :=
  Uart (f (inst u)) (conns u) (drv u) (module_refs u).
Definition with_drv {D} (d : D) (u : uart D) : uart D :=
  Uart (inst u) (conns u) d (module_refs u).
Definition with_conns {D} (cs : gmap nat conn) (u : uart D) : uart D :=
  Uart (inst u) cs (drv u) (module_refs u).
Definition with_refs {D} (n : Z) (u : uart D) : uart D :=
  Uart (inst u) (conns u) (drv u) n.

(** Actions on the reset pin. *)
Inductive gpio_action := DirOut (v : Z) | SetValue (v : Z) | DirIn | Sleep (ms : Z).

Section Operations.
Context `{CB : CircBuf} {D : Type} `{DR : RawUartDriver D}.

(** ** Receiving *)

Definition generic_raw_uart_handle_rx_char (flags data : Z) (i : instance) : instance :=
  let i := set_count_rx (s32 (count_rx i + 1)) i in
  if negb (Z.land flags RX_STATE_BREAK =? 0) then set_count_brk (s32 (count_brk i + 1)) i else
  let i := if negb (Z.land flags RX_STATE_PARITY =? 0)
           then set_count_parity (s32 (count_parity i + 1)) i else i in
  let i := if negb (Z.land flags RX_STATE_FRAME =? 0)
           then set_count_frame (s32 (count_frame i + 1)) i else i in
  let i := if negb (Z.land flags RX_STATE_OVERRUN =? 0)
           then set_count_overrun (s32 (count_overrun i + 1)) i else i in
  let i := if dump_traffic i then
             let l := <[Z.to_nat (dump_rxbuf_pos i) := data]> (dump_rxbuf i) in
             let pos := dump_rxbuf_pos i + 1 in
             set_dump_rxbuf (if pos =? 32 then 0 else pos) l i
           else i in
  let r := rxbuf i in
  if negb (CIRC_SPACE (head r) (tail r) CIRCBUF_SIZE =? 0) then
    let b := <[Z.to_nat (head r) := data]> (buf r) in
    let h := head r + 1 in
    set_rxbuf (CircBuf_ b (if CIRCBUF_SIZE <=? h then 0 else h) (tail r)) i
  else i.

Definition generic_raw_uart_rx_completed (i : instance) : instance :=
  if dump_traffic i then set_dump_rxbuf 0 (dump_rxbuf i) i else i.

(** One pass of the read handler under the semaphore. *)
Definition generic_raw_uart_read (intr nonblock fault : bool) (count : Z) (i : instance)
    : outcome * list Z * instance :=
  if intr then (Ret (- ERESTARTSYS), [], i) else
  let r := rxbuf i in
  if CIRC_CNT (head r) (tail r) CIRCBUF_SIZE =? 0
  then (if nonblock then Ret (- EAGAIN) else Wait, [], i) else
  let count := u64 (Z.min (s32 count) (CIRC_CNT_TO_END (head r) (tail r) CIRCBUF_SIZE)) in
  if fault then (Ret (- EFAULT), [], i) else
  let d := slice (buf r) (tail r) count in
  let t := tail r + count in
  let t := if CIRCBUF_SIZE <=? t then t - CIRCBUF_SIZE else t in
  (Ret count, d, set_rxbuf (set_tail t r) i).

(** ** Transmitting *)

(** The loop of [generic_raw_uart_tx_queued_unlocked]. *)
Fixpoint tx_loop (fuel : nat) (tx_count : Z) (u : uart D) : exec (uart D) :=
  match fuel with
  | O => NoFuel
  | S fuel =>
    if negb (tx_count <? tx_chunk_size) then Ok u else
    let (ready, d) := isready_for_tx (drv u) in
    let u := with_drv d u in
    if negb ready then Ok u else
    match tx_connection (inst u) with
    | None => Ok u
    | Some p =>
      let? c := deref (conns u !! p) in
      if tx_buf_index c <? tx_buf_length c then
        let bulksize := Z.min tx_bulktransfer_size (s32 (tx_buf_length c - tx_buf_index c)) in
        let d := tx_chars (drv u) (txbuf c) (tx_buf_index c) bulksize in
        let c' := set_tx_index (u64 (tx_buf_index c + bulksize)) c in
        let i' := set_count_tx (s32 (count_tx (inst u) + bulksize)) (inst u) in
        tx_loop fuel (tx_count + bulksize)
          (Uart i' (<[p := c']> (conns u)) d (module_refs u))
      else Ok u
    end
  end.

(** The result says whether [writeq] is woken. *)
Definition generic_raw_uart_tx_queued_unlocked (u : uart D) : exec (bool * uart D) :=
  let? u := tx_loop (S (Z.to_nat tx_chunk_size)) 0 u in
  match tx_connection (inst u) with
  | None => Ok (false, u)
  | Some p =>
    let? c := deref (conns u !! p) in
    if tx_buf_length c <=? tx_buf_index c then
      Ok (true, on_inst (set_tx_connection None) (with_drv (stop_tx (drv u)) u))
    else Ok (false, u)
  end.

Definition generic_raw_uart_tx_queued (u : uart D) : exec (bool * uart D) :=
  generic_raw_uart_tx_queued_unlocked u.

(** [(ret, writeq woken, state)] *)
Definition generic_raw_uart_acquire_sender (p : nat) (u : uart D)
    : exec (Z * bool * uart D) :=
  match tx_connection (inst u) with
  | None =>
    let u := on_inst (set_tx_connection (Some p)) u in
    let u := with_drv (init_tx (drv u)) u in
    let? (w, u) := generic_raw_uart_tx_queued_unlocked u in
    Ok (1, w, u)
  | Some q =>
    let? cq := deref (conns u !! q) in
    let? c := deref (conns u !! p) in
    if priority cq <? priority c
    then Ok (1, true, on_inst (set_tx_connection (Some p)) u)
    else Ok (0, false, u)
  end.

Definition generic_raw_uart_send_completed (p : nat) (u : uart D) : bool :=
  negb (bool_decide (tx_connection (inst u) = Some p)).

(** The write handler up to its first wait: the value it returns early, or
    nothing when it goes on to wait for the sender. *)
Definition write_begin (intr : bool) (copy : copy_in) (data : list Z) (p : nat) (u : uart D)
    : exec (option Z * uart D) :=
  let? c := deref (conns u !! p) in
  if intr then Ok (Some (- ERESTARTSYS), u) else
  if CON_DATA_TX_BUF_SIZE <? zlen data then Ok (Some (- EMSGSIZE), u) else
  let c' := set_txbuf (splice (txbuf c) 0 (landed copy data)) c in
  if copy_failed copy then Ok (Some (- EFAULT), with_conns (<[p := c']> (conns u)) u) else
  let c'' := Conn (txbuf c') (zlen data) 0 (priority c') in
  Ok (None, with_conns (<[p := c'']> (conns u)) u).

(** What it returns after its second wait. *)
Definition write_finish (p : nat) (u : uart D) : exec Z :=
  let? c := deref (conns u !! p) in Ok (s32 (tx_buf_index c)).

(** ** Opening, closing, resetting *)

(** [mod_ok]: [try_module_get] succeeds; [oom]: [kmalloc] returns [NULL]. *)
Definition generic_raw_uart_open (mod_ok intr oom : bool) (p : nat) (u : uart D)
    : exec (Z * uart D) :=
  if drv_owner && negb mod_ok then Ok (- ENODEV, u) else
  let u := if drv_owner then with_refs (module_refs u + 1) u else u in
  if intr then Ok (- ERESTARTSYS, u) else
  if MAX_CONNECTIONS <=? open_count (inst u) then Ok (- EMFILE, u) else
  if negb (connection_state (inst u)) then Ok (- ENODEV, u) else
  let attach u :=
    let u := on_inst (set_open_count (open_count (inst u) + 1)) u in
    if oom then NullDeref else
    Ok (0, with_conns (<[p := new_conn]> (conns u)) u) in
  if open_count (inst u) =? 0 then
    let (ret, d) := start_connection (drv u) in
    let u := with_drv d u in
    if negb (ret =? 0) then Ok (ret, u) else
    attach (on_inst (fun i => set_rxbuf (CircBuf_ (buf (rxbuf i)) 0 0) i) u)
  else attach u.

(** [intr1]: the connection's semaphore, [intr2]: the instance's. *)
Definition generic_raw_uart_close (intr1 intr2 : bool) (p : nat) (u : uart D)
    : exec (Z * uart D) :=
  let? c := deref (conns u !! p) in
  if intr1 then Ok (- ERESTARTSYS, u) else
  let u := with_conns (delete p (conns u)) u in
  if intr2 then Ok (- ERESTARTSYS, u) else
  let u := if negb (open_count (inst u) =? 0)
           then on_inst (set_open_count (open_count (inst u) - 1)) u else u in
  let u := if open_count (inst u) =? 0 then with_drv (stop_connection (drv u)) u else u in
  Ok (0, if drv_owner then with_refs (module_refs u - 1) u else u).

Definition reset_sequence : list gpio_action :=
  [DirOut 0; SetValue 0; Sleep 50; SetValue 1; Sleep 50; DirIn; Sleep 50].

Definition generic_raw_uart_reset_radio_module (intr : bool) (max_open_count : Z) (u : uart D)
    : Z * list gpio_action * uart D :=
  if intr then (- ERESTARTSYS, [], u) else
  if max_open_count <? open_count (inst u) then (- EBUSY, [], u) else
  match reset_radio_module with
  | None =>
    if negb (reset_pin (inst u) =? 0) then (0, reset_sequence, u) else (- ENOSYS, [], u)
  | Some reset => let (ret, d) := reset (drv u) in (ret, [], with_drv d u)
  end.

Definition generic_raw_uart_poll (p : nat) (u : uart D) : exec Z :=
  let? mask :=
    match tx_connection (inst u) with
    | None => Ok (Z.lor POLLOUT POLLWRNORM)
    | Some q =>
      let? cq := deref (conns u !! q) in
      let? c := deref (conns u !! p) in
      Ok (if priority cq <? priority c then Z.lor POLLOUT POLLWRNORM else 0)
    end in
  let r := rxbuf (inst u) in
  Ok (if 0 <? CIRC_CNT (head r) (tail r) CIRCBUF_SIZE
      then Z.lor mask (Z.lor POLLIN POLLRDNORM) else mask).

(** [generic_raw_uart_get_device_type]: the driver's own description, or the
    result of [snprintf] for the parent's name. *)
Definition generic_raw_uart_get_device_type (parent : Z * list Z) (u : uart D) : Z * list Z :=
  match get_device_type with
  | None => parent
  | Some f => f (drv u)
  end.

(** [intr2]: the instance's semaphore is interrupted inside the command;
    [arg]: the value user memory holds for the commands that read it;
    [stale]: what the [kmalloc]ed description buffer holds before it is
    filled.  That buffer is copied to the user as a whole. *)
Definition generic_raw_uart_ioctl (intr intr2 oom : bool) (ua : user_access) (cmd : ioctl_cmd)
    (arg : Z) (t landed_t : termios) (stale : list Z) (parent : Z * list Z) (p : nat)
    (u : uart D)
    : exec (Z * user_val * uart D) :=
  let? c := deref (conns u !! p) in
  if intr then Ok (- ERESTARTSYS, UNone, u) else
  let checked (r : Z * user_val * uart D) := if ua_ok ua then r else (- EFAULT, UNone, u) in
  let put v := (ua_left ua, if ua_left ua =? 0 then v else UNone, u) in
  let locked (r : Z * user_val * uart D) := if intr2 then (- ERESTARTSYS, UNone, u) else r in
  Ok (
    if bool_decide (cmd = IOCTL_IOCSPRIORITY) then
      checked (ua_left ua, UNone,
        if ua_left ua =? 0 then with_conns (<[p := set_priority arg c]> (conns u)) u else u)
    else if bool_decide (cmd = IOCTL_IOCGPRIORITY) then checked (put (ULong (priority c)))
    else if bool_decide (cmd = IOCTL_IOCRESET_RADIO_MODULE) then
      let '(ret, _, u') := generic_raw_uart_reset_radio_module intr2 1 u in (ret, UNone, u')
    else if bool_decide (cmd = IOCTL_IOCGDEVINFO) then
      checked (if oom then (- ENOMEM, UNone, u) else
        let (ret, text) := generic_raw_uart_get_device_type parent u in
        if 0 <? ret then put (UBytes (splice stale 0 (text ++ [0]))) else (ret, UNone, u))
    else match cmd with
    | Tty TCGETS => checked (locked (put (UTermios (inst_termios (inst u)))))
    | Tty TCSETS => checked (locked (ua_left ua, UNone,
        on_inst (set_inst_termios (if ua_left ua =? 0 then t else landed_t)) u))
    | Tty TIOCINQ => checked (locked (put (UInt
        (CIRC_CNT (head (rxbuf (inst u))) (tail (rxbuf (inst u))) CIRCBUF_SIZE))))
    | Tty TIOCOUTQ => checked (put (UInt 0))
    | Tty TIOCMGET => checked (put (UInt (Z.lor (Z.lor TIOCM_DSR TIOCM_CD) TIOCM_CTS)))
    | Tty TIOCEXCL | Tty TCFLSH | Tty TIOCMSET => (0, UNone, u)
    | _ => (- ENOTTY, UNone, u)
    end).

(** ** Attributes *)

(** [val]: what [kstrtobool] makes of the text, if anything. *)
Definition reset_radio_module_store (val : option bool) (intr : bool) (count : Z) (u : uart D)
    : Z * list gpio_action * uart D :=
  match val with
  | Some true =>
    let '(ret, acts, u') := generic_raw_uart_reset_radio_module intr 0 u in
    (if ret =? 0 then count else ret, acts, u')
  | _ => (- EINVAL, [], u)
  end.

Definition dump_traffic_store (val : option bool) (count : Z) (i : instance) : Z * instance :=
  match val with
  | Some b => (count, set_dump_traffic b i)
  | None => (- EINVAL, i)
  end.

Definition device_type_show (parent : Z * list Z) (u : uart D) : Z * list Z :=
  let (ret, text) := generic_raw_uart_get_device_type parent u in
  if 0 <? ret then (ret + 1, take (Z.to_nat ret) text ++ [10; 0]) else (ret, text).

Definition generic_raw_uart_set_connection_state (state : bool) (u : uart D) : uart D :=
  on_inst (set_connection_state state) u.

(** The values printed in the proc file, in order. *)
Definition generic_raw_uart_proc_show (i : instance) : list Z :=
  [open_count i; count_tx i; count_rx i; count_brk i; count_parity i; count_frame i;
   count_overrun i; CIRC_CNT (head (rxbuf i)) (tail (rxbuf i)) CIRCBUF_SIZE;
   head (rxbuf i); tail (rxbuf i)].
End Operations.

(** ** Registering devices *)

(** [active_devices], and the receive buffers allocated and not freed. *)
Record registry := Registry { active_devices : list bool; rx_allocs : Z }.

(** What the lookup of the RTC node finds, in the order the code asks. *)
Record rtc_env := {
  rtc_configured : bool;      (* CONFIG_OF, a node, and a pivccu,rtc phandle *)
  rtc_adapter : bool;         (* the I2C adapter is there *)
  rtc_client : bool;          (* the I2C client is there *)
  rtc_has_driver : bool;      (* the client has a driver *)
  rtc_reloaded_driver : bool  (* the client made anew has one *)
}.

(** [(err, *rtc_detected)] *)
Definition generic_raw_uart_probe_rtc_device (e : rtc_env) : Z * bool :=
  if negb (rtc_configured e) then (0, false) else
  if negb (rtc_adapter e) then (- EPROBE_DEFER, false) else
  if negb (rtc_client e) then (- EPROBE_DEFER, false) else
  let has_driver := if negb (rtc_has_driver e) then rtc_reloaded_driver e else true in
  (0, has_driver).

(** The first slot that is not active, and the table with it taken. *)
Fixpoint take_slot (l : list bool) (i : nat) : option nat * list bool :=
  match l with
  | [] => (None, [])
  | b :: l =>
    if b then let (r, l') := take_slot l (S i) in (r, b :: l') else (Some i, true :: l)
  end.

Section Probe.
Context `{CB : CircBuf} {D : Type} `{DR : RawUartDriver D}.

(** [gpio con_id idx]: the GPIO number of a named pin of the device, 0 when
    there is none ([generic_raw_uart_get_gpio_index]). *)
Context (gpio_reset : Z -> Z) (gpio_led : Z -> Z).

Definition led_index (led : generic_raw_uart_led) : Z :=
  match led with LED_RED => 0 | LED_GREEN => 1 | LED_BLUE => 2 end.

Definition generic_raw_uart_get_led_gpio_index (d : D) (led : generic_raw_uart_led) : Z :=
  match get_led_gpio_index with
  | None => gpio_led (led_index led)
  | Some f => f d led
  end.

Definition new_instance : instance :=
  Instance_ (CircBuf_ (replicate (Z.to_nat CIRCBUF_SIZE) 0) 0 0) 0 false None zero_termios
    0 0 0 0 0 0 0 0 0 0 0 false 0 (replicate 32 0).

Inductive probe_result := ProbeErr (err : Z) | Probed (dev_no : nat) (u : uart D).

(** [oom]: [kzalloc] fails; [cdev_err], [dev_err]: errors of [cdev_add] and
    [device_create], 0 when they succeed. *)
Definition generic_raw_uart_probe (rtc : rtc_env) (oom : bool) (cdev_err dev_err : Z)
    (intr : bool) (refs : Z) (d : D) (g : registry) : probe_result * registry :=
  let (err, use_alt_reset_pin) := generic_raw_uart_probe_rtc_device rtc in
  if negb (err =? 0) then (ProbeErr err, g) else
  let (slot, active) := take_slot (active_devices g) 0 in
  match slot with
  | None => (ProbeErr (- EFAULT), g)
  | Some dev_no =>
    let g := Registry active (rx_allocs g) in
    if oom then (ProbeErr (- ENOMEM), g) else
    if negb (cdev_err =? 0) then (ProbeErr cdev_err, g) else
    if negb (dev_err =? 0) then (ProbeErr dev_err, g) else
    let i := new_instance in
    let i := match reset_radio_module (D := D) with
             | None => set_reset_pin (gpio_reset (b2z use_alt_reset_pin)) i
             | Some _ => i end in
    let i := set_led_pins (generic_raw_uart_get_led_gpio_index d LED_RED)
               (generic_raw_uart_get_led_gpio_index d LED_GREEN)
               (generic_raw_uart_get_led_gpio_index d LED_BLUE) i in
    let g := Registry active (rx_allocs g + 1) in
    let u := Uart i ∅ d refs in
    let '(_, _, u) := generic_raw_uart_reset_radio_module intr 0 u in
    (Probed dev_no (on_inst (set_connection_state true) u), g)
  end.

(** The instance is freed; its receive buffer is not. *)
Definition generic_raw_uart_remove (dev_no : nat) (g : registry) : registry :=
  Registry (<[dev_no := false]> (active_devices g)) (rx_allocs g).
End Probe.
