(* ===== verification/RawUartRx.v ===== *)
(** The generic raw UART driver: the receive path.

    Characters enter the ring in interrupt context and leave it through reads;
    the theorems say which characters are kept, what every counter counts, and
    that readers get the kept characters complete and in order. *)
From S2P Require Import Prelude Kernel Ring RawUart.

(** The state the receive path keeps in order. *)
Record rx_ok (i : instance) : Prop := {
  rx_ring : ring_ok CIRCBUF_SIZE (rxbuf i);
  rx_dump_pos : 0 <= dump_rxbuf_pos i < 32;
  rx_dump_len : length (dump_rxbuf i) = 32%nat
}.

(** Characters waiting for a reader. *)
Abbreviation pending i := (contents CIRCBUF_SIZE (rxbuf i)).
Definition rx_capacity : Z := CIRCBUF_SIZE - 1.

(** Is bit [b] of the flags set? *)
Definition flagged (flags b : Z) : bool := negb (Z.land flags b =? 0).

(** What becomes of the waiting characters when one arrives. *)
Definition keep (flags data : Z) (q : list Z) : list Z :=
  if flagged flags RX_STATE_BREAK then q
  else if zlen q =? rx_capacity then q else q ++ [data].

Definition bump (b : bool) (n : Z) : Z := if b then s32 (n + 1) else n.

(** Events of the receive path and their effect; the log keeps the characters
    accepted into the ring and those delivered to readers. *)
Inductive rx_event :=
| RxChar (flags data : Z)
| RxCompleted
| RxRead (intr nonblock fault : bool) (count : Z).

Definition rx_step `{CB : CircBuf} (ev : rx_event) (s : instance * list Z * list Z)
    : instance * list Z * list Z :=
  let '(i, accepted, delivered) := s in
  match ev with
  | RxChar f d =>
    let i' := generic_raw_uart_handle_rx_char f d i in
    (i', if flagged f RX_STATE_BREAK || (zlen (pending i) =? rx_capacity)
         then accepted else accepted ++ [d], delivered)
  | RxCompleted => (generic_raw_uart_rx_completed i, accepted, delivered)
  | RxRead intr nb fl n =>
    let '(_, d, i') := generic_raw_uart_read intr nb fl n i in (i', accepted, delivered ++ d)
  end.

Definition rx_event_ok (ev : rx_event) : Prop :=
  match ev with RxRead _ _ _ n => 0 <= n < 2 ^ 31 | _ => True end.

Section Rx.
Context `{CB : CircBuf}.

Lemma pending_bound i : rx_ok i -> 0 <= zlen (pending i) <= rx_capacity.
Proof.
  intros []. pose proof (used_range _ _ rx_ring0). rewrite (zlen_contents CIRCBUF_SIZE) by done.
  unfold rx_capacity. lia.
Qed.

Lemma rx_space_full i : rx_ok i ->
  (CIRC_SPACE (head (rxbuf i)) (tail (rxbuf i)) CIRCBUF_SIZE =? 0)
    = (zlen (pending i) =? rx_capacity).
Proof.
  intros []. rewrite (space_full CIRCBUF_SIZE), (zlen_contents CIRCBUF_SIZE) by done. done.
Qed.

Lemma rx_cnt_empty i : rx_ok i ->
  (CIRC_CNT (head (rxbuf i)) (tail (rxbuf i)) CIRCBUF_SIZE =? 0) = bool_decide (pending i = []).
Proof.
  intros []. pose proof rx_ring0 as []. rewrite circ_cnt_law by done.
  pose proof (contents_empty CIRCBUF_SIZE _ rx_ring0) as E. unfold used in E.
  case_bool_decide; cases_Z; intuition congruence.
Qed.

(** The state before the ring is touched, in one equation per field. *)
Lemma handle_rx_char_fields f d i : rx_ok i ->
  let i' := generic_raw_uart_handle_rx_char f d i in
  let brk := flagged f RX_STATE_BREAK in
  count_rx i' = s32 (count_rx i + 1) /\
  count_brk i' = bump brk (count_brk i) /\
  count_parity i' = bump (negb brk && flagged f RX_STATE_PARITY) (count_parity i) /\
  count_frame i' = bump (negb brk && flagged f RX_STATE_FRAME) (count_frame i) /\
  count_overrun i' = bump (negb brk && flagged f RX_STATE_OVERRUN) (count_overrun i) /\
  count_buf_overrun i' = count_buf_overrun i /\
  rxbuf i' = (if brk || (zlen (pending i) =? rx_capacity) then rxbuf i
              else CircBuf_ (<[Z.to_nat (head (rxbuf i)) := d]> (buf (rxbuf i)))
                     ((head (rxbuf i) + 1) mod CIRCBUF_SIZE) (tail (rxbuf i))) /\
  0 <= dump_rxbuf_pos i' < 32 /\ length (dump_rxbuf i') = 32%nat.
Proof.
  intros H. cbv zeta. rewrite <- rx_space_full by done.
  rewrite <- (wrap_head CIRCBUF_SIZE (head (rxbuf i))) by apply H. destruct H as [_ Hp Hl].
  unfold generic_raw_uart_handle_rx_char. fold (flagged f RX_STATE_BREAK).
  fold (flagged f RX_STATE_PARITY) (flagged f RX_STATE_FRAME) (flagged f RX_STATE_OVERRUN).
  destruct (flagged f RX_STATE_BREAK); [by repeat split; simpl; try apply Hp|].
  destruct (flagged f RX_STATE_PARITY), (flagged f RX_STATE_FRAME),
    (flagged f RX_STATE_OVERRUN); simpl;
    destruct (dump_traffic i); simpl; destruct (CIRC_SPACE _ _ _ =? 0); simpl;
    repeat split; rewrite ?length_insert; try done; cases_Z; lia.
Qed.

Lemma handle_rx_char_ok f d i : rx_ok i -> rx_ok (generic_raw_uart_handle_rx_char f d i).
Proof.
  intros H. pose proof (handle_rx_char_fields f d i H) as (_ & _ & _ & _ & _ & _ & Hr & Hp & Hl).
  split; [rewrite Hr|done|done]. destruct H as [H _ _]. destruct (_ || _); [done|].
  eapply put_ok; [done|]. by eapply ring_mod_range.
Qed.

Lemma handle_rx_char_pending f d i : rx_ok i ->
  pending (generic_raw_uart_handle_rx_char f d i) = keep f d (pending i).
Proof.
  intros H. pose proof (handle_rx_char_fields f d i H) as (_ & _ & _ & _ & _ & _ & -> & _ & _).
  unfold keep. destruct (flagged f RX_STATE_BREAK); [done|]. simpl.
  destruct (Z.eqb_spec (zlen (pending i)) rx_capacity); [done|].
  pose proof (pending_bound i H). destruct H as [H _ _]. apply contents_put; [done|].
  rewrite <- (zlen_contents CIRCBUF_SIZE) by done. unfold rx_capacity in *. lia.
Qed.

Lemma rx_completed_ok i : rx_ok i -> rx_ok (generic_raw_uart_rx_completed i).
Proof.
  intros []. unfold generic_raw_uart_rx_completed. destruct (dump_traffic i); by split.
Qed.
Lemma rx_completed_pending i : pending (generic_raw_uart_rx_completed i) = pending i.
Proof. unfold generic_raw_uart_rx_completed. by destruct (dump_traffic i). Qed.

(** How much one read takes: it stops at the end of the array. *)
Definition read_size (count : Z) (i : instance) : Z :=
  Z.min count (Z.min (zlen (pending i)) (CIRCBUF_SIZE - tail (rxbuf i))).

Lemma read_spec intr nb fl count i : rx_ok i -> 0 <= count < 2 ^ 31 ->
  generic_raw_uart_read intr nb fl count i =
    if intr then (Ret (- ERESTARTSYS), [], i) else
    if bool_decide (pending i = []) then (if nb then Ret (- EAGAIN) else Wait, [], i) else
    if fl then (Ret (- EFAULT), [], i) else
    let n := read_size count i in
    (Ret n, take (Z.to_nat n) (pending i),
     set_rxbuf (set_tail ((tail (rxbuf i) + n) mod CIRCBUF_SIZE) (rxbuf i)) i).
Proof.
  intros H Hc. pose proof (pending_bound i H) as Hb. unfold rx_capacity in Hb.
  unfold generic_raw_uart_read. rewrite rx_cnt_empty by done. destruct intr; [done|].
  destruct (bool_decide _); [done|]. pose proof H as [Hr _ _]. pose proof Hr as [Hp Hl Hh Ht].
  rewrite circ_cnt_to_end_law by done.
  change ((head (rxbuf i) - tail (rxbuf i)) mod CIRCBUF_SIZE) with (used CIRCBUF_SIZE (rxbuf i)).
  rewrite <- (zlen_contents CIRCBUF_SIZE) by done. fold (read_size count i).
  rewrite (s32_small count) by lia. fold (read_size count i).
  assert (Hn : 0 <= read_size count i <= zlen (pending i)) by (unfold read_size; lia).
  assert (Hn' : read_size count i <= CIRCBUF_SIZE - tail (rxbuf i)) by (unfold read_size; lia).
  assert (Hs : CIRCBUF_SIZE = 1024) by done. rewrite u64_small by lia.
  destruct fl; [done|]. cbv zeta. rewrite (wrap_mod CIRCBUF_SIZE) by lia. f_equal. f_equal.
  apply read_run_spec; [done| |done]. by rewrite <- (zlen_contents CIRCBUF_SIZE).
Qed.

Lemma read_size_bounds count i : rx_ok i -> 0 <= count ->
  0 <= read_size count i <= zlen (pending i).
Proof.
  intros H Hc. pose proof (pending_bound i H). destruct H as [[] _ _]. unfold read_size. lia.
Qed.

Lemma read_keeps intr nb fl count i : rx_ok i -> 0 <= count < 2 ^ 31 ->
  let '(_, d, i') := generic_raw_uart_read intr nb fl count i in
  rx_ok i' /\ pending i = d ++ pending i'.
Proof.
  intros H Hc. rewrite read_spec by done. destruct intr; [done|].
  case_bool_decide; [done|]. destruct fl; [done|]. cbv zeta.
  pose proof (read_size_bounds count i H ltac:(lia)) as Hn. destruct H as [Hr Hp Hl]. split.
  - split; [|done..]. apply set_tail_ok; [done|]. by eapply ring_mod_range.
  - simpl. rewrite contents_advance by (try done; by rewrite <- (zlen_contents CIRCBUF_SIZE)).
    by rewrite take_drop.
Qed.

Lemma rx_step_balanced ev i a d : rx_ok i -> rx_event_ok ev -> a = d ++ pending i ->
  let '(i', a', d') := rx_step ev (i, a, d) in rx_ok i' /\ a' = d' ++ pending i'.
Proof.
  intros H He Hb. destruct ev as [f c| |intr nb fl n]; simpl in *.
  - split; [by apply handle_rx_char_ok|]. rewrite handle_rx_char_pending by done. unfold keep.
    destruct (flagged f RX_STATE_BREAK); [done|]. simpl.
    destruct (_ =? rx_capacity); [done|]. by rewrite Hb, app_assoc.
  - split; [by apply rx_completed_ok|]. by rewrite rx_completed_pending.
  - pose proof (read_keeps intr nb fl n i H He) as P.
    destruct (generic_raw_uart_read _ _ _ _ _) as [[o u] i']. destruct P as [P1 P2].
    split; [done|]. by rewrite Hb, P2, app_assoc.
Qed.

(** ** Bursts of characters *)

Definition rx_burst (l : list (Z * Z)) (i : instance) : instance :=
  fold_left (fun i c => generic_raw_uart_handle_rx_char c.1 c.2 i) l i.

(** The counters hold values of a C [int]. *)
Definition counters_ok (i : instance) : Prop :=
  Forall (fun n => s32 n = n)
    [count_rx i; count_brk i; count_parity i; count_frame i; count_overrun i].

(** How often a burst bumps a counter. *)
Definition tally (P : Z -> bool) (l : list (Z * Z)) : Z :=
  zlen (List.filter (fun c => P c.1) l).
Definition is_break (f : Z) : bool := flagged f RX_STATE_BREAK.
Definition is_error (bit f : Z) : bool := negb (is_break f) && flagged f bit.

(** The characters of a burst that are not breaks. *)
Definition good_chars (l : list (Z * Z)) : list Z :=
  map snd (List.filter (fun c => negb (is_break c.1)) l).

Lemma bump_s32 b n : bump b (s32 n) = s32 (n + b2z b).
Proof.
  destruct b; simpl; [|by rewrite Z.add_0_r]. unfold s32.
  replace ((n + 2 ^ 31) mod 2 ^ 32 - 2 ^ 31 + 1 + 2 ^ 31)
    with ((n + 2 ^ 31) mod 2 ^ 32 + 1) by lia.
  rewrite Zplus_mod_idemp_l. do 2 f_equal. lia.
Qed.

Lemma tally_cons P c l : tally P (c :: l) = b2z (P c.1) + tally P l.
Proof. unfold tally. simpl. destruct (P c.1); unfold zlen; simpl; lia. Qed.

(** Counters of a burst, with the initial values wrapped. *)
Lemma rx_burst_counts l i : rx_ok i ->
  let i' := rx_burst l i in
  s32 (count_rx i') = s32 (count_rx i + zlen l) /\
  s32 (count_brk i') = s32 (count_brk i + tally is_break l) /\
  s32 (count_parity i') = s32 (count_parity i + tally (is_error RX_STATE_PARITY) l) /\
  s32 (count_frame i') = s32 (count_frame i + tally (is_error RX_STATE_FRAME) l) /\
  s32 (count_overrun i') = s32 (count_overrun i + tally (is_error RX_STATE_OVERRUN) l) /\
  count_buf_overrun i' = count_buf_overrun i.
Proof.
  cbv zeta. revert i. induction l as [|[f d] l IH]; intros i H.
  { unfold tally, zlen. simpl. by rewrite !Z.add_0_r. }
  pose proof (handle_rx_char_ok f d i H) as H'.
  pose proof (handle_rx_char_fields f d i H) as (F1 & F2 & F3 & F4 & F5 & F6 & _).
  specialize (IH _ H'). rewrite F1, F2, F3, F4, F5, F6 in IH.
  rewrite !tally_cons. simpl. unfold zlen in *. simpl.
  assert (A : forall b n m, s32 (bump b n + m) = s32 (n + (b2z b + m))).
  { intros [] n m; simpl; [|done]. pose proof (bump_s32 true n) as B. unfold s32 in *.
    replace ((n + 1 + 2 ^ 31) mod 2 ^ 32 - 2 ^ 31 + m + 2 ^ 31)
      with ((n + 1 + 2 ^ 31) mod 2 ^ 32 + m) by lia.
    rewrite Zplus_mod_idemp_l. do 2 f_equal. lia. }
  pose proof (A true) as A1. simpl in A1. rewrite A1, !A in IH.
  destruct IH as (-> & -> & -> & -> & -> & ->). repeat split; f_equal; lia.
Qed.

Lemma rx_burst_ok l i : rx_ok i -> rx_ok (rx_burst l i).
Proof.
  revert i. induction l as [|[f d] l IH]; intros i H; [done|].
  simpl. by apply IH, handle_rx_char_ok.
Qed.

Lemma counters_ok_step f d i : rx_ok i -> counters_ok i ->
  counters_ok (generic_raw_uart_handle_rx_char f d i).
Proof.
  intros H C. pose proof (handle_rx_char_fields f d i H) as (F1 & F2 & F3 & F4 & F5 & _).
  unfold counters_ok in *. rewrite F1, F2, F3, F4, F5.
  assert (S : forall n, s32 (s32 n) = s32 n).
  { intros. apply s32_small. unfold s32. pose proof (Z.mod_pos_bound (n + 2 ^ 31) (2 ^ 32)). lia. }
  inversion_clear C as [|? ? C1 D1]. inversion_clear D1 as [|? ? C2 D2].
  inversion_clear D2 as [|? ? C3 D3]. inversion_clear D3 as [|? ? C4 D4].
  inversion_clear D4 as [|? ? C5 D5].
  assert (B : forall b n, s32 n = n -> s32 (bump b n) = bump b n) by (intros [] ? ?; simpl; auto).
  repeat (apply Forall_cons; split; auto).
Qed.

Lemma counters_ok_burst l i : rx_ok i -> counters_ok i -> counters_ok (rx_burst l i).
Proof.
  revert i. induction l as [|[f d] l IH]; intros i H C; [done|]. simpl.
  apply IH; [by apply handle_rx_char_ok | by apply counters_ok_step].
Qed.

(** The ring takes characters until it is full. *)
Lemma rx_burst_pending l i : rx_ok i ->
  pending (rx_burst l i) =
    pending i ++ take (Z.to_nat (rx_capacity - zlen (pending i))) (good_chars l).
Proof.
  revert i. induction l as [|[f d] l IH]; intros i H.
  { unfold good_chars. simpl. by rewrite take_nil, app_nil_r. }
  simpl. rewrite IH by (by apply handle_rx_char_ok).
  rewrite handle_rx_char_pending by done. unfold keep, good_chars, is_break. simpl.
  destruct (flagged f RX_STATE_BREAK); simpl; [done|].
  pose proof (pending_bound i H) as Hb.
  destruct (Z.eqb_spec (zlen (pending i)) rx_capacity) as [E|E].
  - rewrite E, Z.sub_diag. by rewrite !take_0.
  - rewrite zlen_app, <- app_assoc. f_equal. change (zlen [d]) with 1.
    replace (Z.to_nat (rx_capacity - zlen (pending i)))
      with (S (Z.to_nat (rx_capacity - (zlen (pending i) + 1)))) by lia.
    done.
Qed.

(** C6 (functional). A burst of received characters: the ring takes the
    characters that are not breaks until it is full and drops the rest, the
    ones it already held stay; every character is counted as received, breaks
    and the three kinds of errors are counted by their flags, all modulo the
    width of [int]; characters dropped because the ring is full leave no
    trace in any counter, [count_buf_overrun] never changes. *)
Theorem rx_burst_accounted (l : list (Z * Z)) (i : instance) :
  rx_ok i -> counters_ok i ->
  let i' := rx_burst l i in
  rx_ok i' /\ counters_ok i' /\
  pending i' = pending i ++ take (Z.to_nat (rx_capacity - zlen (pending i))) (good_chars l) /\
  count_rx i' = s32 (count_rx i + zlen l) /\
  count_brk i' = s32 (count_brk i + tally is_break l) /\
  count_parity i' = s32 (count_parity i + tally (is_error RX_STATE_PARITY) l) /\
  count_frame i' = s32 (count_frame i + tally (is_error RX_STATE_FRAME) l) /\
  count_overrun i' = s32 (count_overrun i + tally (is_error RX_STATE_OVERRUN) l) /\
  count_buf_overrun i' = count_buf_overrun i.
Proof.
  intros H C. pose proof (counters_ok_burst l i H C) as C'.
  pose proof (rx_burst_counts l i H) as (E1 & E2 & E3 & E4 & E5 & E6). cbv zeta.
  split; [by apply rx_burst_ok|]. split; [done|]. split; [by apply rx_burst_pending|].
  unfold counters_ok in C'. rewrite !Forall_cons in C'.
  destruct C' as (R1 & R2 & R3 & R4 & R5 & _). rewrite R1, R2, R3, R4, R5 in *. done.
Qed.

(** ** Sessions *)

Definition rx_run (evs : list rx_event) (i : instance) : instance * list Z * list Z :=
  fold_left (fun s ev => rx_step ev s) evs (i, pending i, []).

Lemma rx_run_balanced evs i a d : rx_ok i -> Forall rx_event_ok evs -> a = d ++ pending i ->
  let '(i', a', d') := fold_left (fun s ev => rx_step ev s) evs (i, a, d) in
  rx_ok i' /\ a' = d' ++ pending i'.
Proof.
  revert i a d. induction evs as [|ev evs IH]; intros i a d H He Hb; [done|].
  inversion_clear He as [|? ? He1 He2]. cbn [fold_left].
  pose proof (rx_step_balanced ev i a d H He1 Hb) as P.
  destruct (rx_step ev (i, a, d)) as [[i' a'] d']. destruct P. by apply IH.
Qed.

(** C7 (invariant). However receptions and reads of any kind interleave,
    the readers together have got, complete, in order and without
    duplicates, the characters the ring accepted, except those it still
    holds. *)
Theorem rx_session_fifo (evs : list rx_event) (i : instance) :
  rx_ok i -> Forall rx_event_ok evs ->
  let '(i', accepted, delivered) := rx_run evs i in
  rx_ok i' /\ accepted = delivered ++ pending i'.
Proof. intros. by apply rx_run_balanced. Qed.

(** A reader that asks for at least a ring's worth gets
    everything that waits in at most two reads: the first returns what lies
    before the end of the array, the second what wrapped around. *)
Theorem two_reads_drain (nb : bool) (count : Z) (i : instance) :
  rx_ok i -> rx_capacity <= count < 2 ^ 31 -> pending i <> [] ->
  exists d1 i1, generic_raw_uart_read false nb false count i = (Ret (zlen d1), d1, i1) /\
    d1 <> [] /\
    ((d1 = pending i /\ pending i1 = []) \/
     exists d2 i2, generic_raw_uart_read false nb false count i1 = (Ret (zlen d2), d2, i2) /\
       d1 ++ d2 = pending i /\ pending i2 = []).
Proof.
  intros H Hc Hne. assert (Hs : rx_capacity = 1023) by done.
  assert (Hs' : CIRCBUF_SIZE = 1024) by done.
  pose proof (pending_bound i H) as Hb. pose proof H as [[_ _ Hh Ht] _ _].
  assert (Hpos : 0 < zlen (pending i)) by (destruct (pending i); [done|unfold zlen; simpl; lia]).
  pose proof (read_keeps false nb false count i H ltac:(lia)) as K.
  rewrite read_spec in * by (done || lia). rewrite bool_decide_false in * by done.
  cbv zeta in *. set (n := read_size count i) in *. set (i1 := set_rxbuf _ i) in *.
  destruct K as [H1 K].
  assert (Hn : n = Z.min (zlen (pending i)) (CIRCBUF_SIZE - tail (rxbuf i)))
    by (unfold n, read_size; lia).
  assert (Hz : zlen (take (Z.to_nat n) (pending i)) = n)
    by (unfold zlen in *; rewrite length_take; lia).
  exists (take (Z.to_nat n) (pending i)), i1. rewrite Hz. split; [done|].
  split. { intros E. rewrite E in Hz. unfold zlen in Hz. simpl in Hz. lia. }
  destruct (decide (n = zlen (pending i))) as [E|E].
  - left. rewrite E in *. unfold zlen in *. rewrite Nat2Z.id, take_ge in * by lia.
    split; [done|]. apply (f_equal length) in K. rewrite length_app in K.
    destruct (pending i1); [done|simpl in K; lia].
  - right. assert (Hlen : zlen (pending i) = n + zlen (pending i1)).
    { apply (f_equal zlen) in K. by rewrite zlen_app, Hz in K. }
    assert (Ht1 : tail (rxbuf i1) = 0).
    { simpl. replace (tail (rxbuf i) + n) with CIRCBUF_SIZE by lia. by rewrite Z_mod_same_full. }
    pose proof (read_keeps false nb false count i1 H1 ltac:(lia)) as K2.
    rewrite read_spec in * by (done || lia).
    rewrite bool_decide_false in * by (intros E2; rewrite E2 in Hlen; change (zlen []) with 0 in Hlen; lia).
    cbv zeta in *. set (i2 := set_rxbuf _ i1) in *. destruct K2 as [_ K2].
    assert (Hn2 : read_size count i1 = zlen (pending i1)) by (unfold read_size; lia).
    rewrite Hn2 in *. unfold zlen in K2. rewrite Nat2Z.id, take_ge in K2 by lia.
    exists (pending i1), i2. split.
    { unfold zlen. by rewrite Nat2Z.id, take_ge by lia. }
    split; [done|]. apply (f_equal length) in K2. rewrite length_app in K2.
    destruct (pending i2); [done|simpl in K2; lia].
Qed.
End Rx.

(** ** The theorems on concrete receptions *)

Lemma new_instance_rx_ok : rx_ok new_instance.
Proof. by split; [split; [exists 10|..]|..]. Defined.

(** One receive ring at the end of its array: two characters are dropped. *)
Definition wrapped_instance : instance :=
  set_rxbuf (CircBuf_ (replicate 1024 7) 1019 1021) new_instance.

Lemma wrapped_instance_rx_ok : rx_ok wrapped_instance.
Proof. by split; [split; [exists 10|..]|..]. Defined.

Lemma rx_burst_accounted_witness :
  let i' := rx_burst (CB := linux_circ) [(0, 65); (1, 0); (2, 66); (12, 67)] wrapped_instance in
  rx_ok i' /\ count_rx i' = 4 /\ count_brk i' = 1 /\ count_parity i' = 1 /\
  zlen (contents CIRCBUF_SIZE (rxbuf i')) = 1023 /\ count_buf_overrun i' = 0.
Proof.
  destruct (rx_burst_accounted (CB := linux_circ) [(0, 65); (1, 0); (2, 66); (12, 67)]
    wrapped_instance wrapped_instance_rx_ok ltac:(repeat constructor))
    as (H1 & _ & H2 & H3 & H4 & H5 & _ & _ & H6).
  repeat split; try apply H1; done.
Defined.

Definition mixed_session : list rx_event :=
  [RxChar 0 1; RxChar 0 2; RxRead false true false 1; RxCompleted; RxChar 1 0; RxChar 0 3;
   RxRead false true false 1].

Lemma rx_session_fifo_witness :
  let '(i', accepted, delivered) := rx_run (CB := linux_circ) mixed_session new_instance in
  delivered = [1; 2] /\ accepted = delivered ++ pending i'.
Proof.
  pose proof (rx_session_fifo (CB := linux_circ) mixed_session new_instance new_instance_rx_ok
    ltac:(repeat constructor; lia)) as H.
  destruct (rx_run mixed_session new_instance) as [[i' a] d] eqn:E. destruct H as [_ H].
  split; [|exact H]. vm_compute in E. by injection E as <- <- <-.
Defined.

Lemma two_reads_drain_witness :
  exists d1 i1, generic_raw_uart_read (CB := linux_circ) false true false 4096 wrapped_instance
    = (Ret (zlen d1), d1, i1) /\ d1 <> [].
Proof.
  destruct (two_reads_drain (CB := linux_circ) true 4096 wrapped_instance wrapped_instance_rx_ok)
    as (d1 & i1 & H & Hd & _); [split; [by vm_compute|lia] | by vm_compute |].
  by exists d1, i1.
Defined.
