(* ===== verification/RawUartTx.v ===== *)
(** The generic raw UART driver: the transmit path.

    What the generic code expects of a hardware driver is the class
    [RawUartDriverOk]; against it the theorems say that a message reaches the
    hardware complete and in order, when the sender is passed on and to whom,
    and that the transmit loop ends. *)
From S2P Require Import Prelude Kernel Ring RawUart.

(** What a hardware driver promises: [sent] is everything the hardware was
    given since the driver was loaded. *)
Class RawUartDriverOk (D : Type) `{DR : RawUartDriver D} := {
  sent : D -> list Z;
  isready_sent d : sent (isready_for_tx d).2 = sent d;
  init_tx_sent d : sent (init_tx d) = sent d;
  stop_tx_sent d : sent (stop_tx d) = sent d;
  start_sent d : sent (start_connection d).2 = sent d;
  stop_sent d : sent (stop_connection d) = sent d;
  reset_sent f d : reset_radio_module = Some f -> sent (f d).2 = sent d;
  tx_chars_sent d l i n : 0 <= i -> 0 < n <= tx_bulktransfer_size -> i + n <= zlen l ->
    sent (tx_chars d l i n) = sent d ++ slice l i n;
  chunk_size_range : 0 < tx_chunk_size < 2 ^ 31;
  bulk_size_range : 0 < tx_bulktransfer_size < 2 ^ 31
}.

Record conn_ok (c : conn) : Prop := {
  conn_txbuf : zlen (txbuf c) = CON_DATA_TX_BUF_SIZE;
  conn_index : 0 <= tx_buf_index c <= tx_buf_length c;
  conn_length : tx_buf_length c <= CON_DATA_TX_BUF_SIZE
}.

(** Every connection is well formed and the sender is one of them. *)
Record uart_ok {D} (u : uart D) : Prop := {
  uart_conns : map_Forall (fun _ c => conn_ok c) (conns u);
  uart_sender : forall p, tx_connection (inst u) = Some p -> is_Some (conns u !! p)
}.

(** What a connection has yet to send. *)
Definition unsent (c : conn) : Z := tx_buf_length c - tx_buf_index c.

(** The next [n] bytes of connection [c] have been sent. *)
Record advanced {D} `{DO : RawUartDriverOk D} (p : nat) (c : conn) (n : Z) (u u' : uart D)
    : Prop := {
  adv_range : 0 <= n <= unsent c;
  adv_inst : exists k, inst u' = set_count_tx k (inst u);
  adv_conns : conns u' = <[p := set_tx_index (tx_buf_index c + n) c]> (conns u);
  adv_sent : sent (drv u') = sent (drv u) ++ slice (txbuf c) (tx_buf_index c) n;
  adv_refs : module_refs u' = module_refs u
}.

Lemma slice_slice_app l i n m : 0 <= i -> 0 <= n -> 0 <= m ->
  slice l i n ++ slice l (i + n) m = slice l i (n + m).
Proof.
  intros. unfold slice. rewrite !Z2Nat.inj_add by lia.
  rewrite <- drop_drop. apply take_take_drop.
Qed.

Section Tx.
Context {D : Type} `{DO : RawUartDriverOk D}.

Lemma advanced_refl p c u d : conn_ok c -> conns u !! p = Some c -> sent d = sent (drv u) ->
  advanced p c 0 u (with_drv d u).
Proof.
  intros [_ H _] Hp Hd. split; simpl; try done.
  - unfold unsent. lia.
  - exists (count_tx (inst u)). by destruct (inst u).
  - rewrite Z.add_0_r. rewrite insert_id; [done|]. rewrite Hp. by destruct c.
  - by rewrite slice_0, app_nil_r.
Qed.

Lemma advanced_trans p c n m u u' u'' : conn_ok c ->
  advanced p c n u u' -> advanced p (set_tx_index (tx_buf_index c + n) c) m u' u'' ->
  advanced p c (n + m) u u''.
Proof.
  intros [_ H _] [R1 [k1 I1] C1 S1 M1] [R2 [k2 I2] C2 S2 M2].
  unfold unsent in *. simpl in *. split.
  - unfold unsent. lia.
  - exists k2. by rewrite I2, I1.
  - rewrite C2, C1, insert_insert_eq. unfold set_tx_index. simpl. do 2 f_equal. lia.
  - rewrite S2, S1, <- app_assoc, slice_slice_app by lia. done.
  - congruence.
Qed.

Lemma set_tx_index_ok c n : conn_ok c -> 0 <= n <= unsent c ->
  conn_ok (set_tx_index (tx_buf_index c + n) c).
Proof. intros [] H. unfold unsent in H. split; simpl; lia. Qed.

Lemma advanced_ok p c n u u' : uart_ok u -> conns u !! p = Some c -> advanced p c n u u' ->
  uart_ok u'.
Proof.
  intros [HC HS] Hp [R [k I] C _ _]. split; rewrite C.
  - apply map_Forall_insert_2; [|done]. apply set_tx_index_ok; [by eapply HC|done].
  - intros q Hq. rewrite I in Hq. destruct (decide (q = p)) as [->|].
    + by rewrite lookup_insert_eq.
    + rewrite lookup_insert_ne by done. by apply HS.
Qed.

(** One bulk transfer. *)
Lemma bulk_advances p c u d : uart_ok u -> conns u !! p = Some c ->
  sent d = sent (drv u) -> 0 < unsent c ->
  let n := Z.min tx_bulktransfer_size (unsent c) in
  advanced p c n u
    (Uart (set_count_tx (s32 (count_tx (inst u) + n)) (inst u))
          (<[p := set_tx_index (u64 (tx_buf_index c + n)) c]> (conns u))
          (tx_chars d (txbuf c) (tx_buf_index c) n) (module_refs u)).
Proof.
  intros Hu Hp Hd Hpos. cbv zeta. pose proof bulk_size_range.
  destruct (uart_conns _ Hu _ _ Hp) as [H1 H2 H3]. unfold unsent, CON_DATA_TX_BUF_SIZE in *.
  split; simpl; try done.
  - unfold unsent. lia.
  - eauto.
  - by rewrite u64_small by lia.
  - rewrite tx_chars_sent by lia. by rewrite Hd.
Qed.

(** The transmit loop ends, having sent a prefix of what was unsent; it
    leaves something unsent only when the chunk is full or the hardware is
    not ready. *)
Lemma tx_loop_sends fuel cnt u p c : uart_ok u -> tx_connection (inst u) = Some p ->
  conns u !! p = Some c -> 0 <= cnt -> Z.max 0 (tx_chunk_size - cnt) < Z.of_nat fuel ->
  exists n u', tx_loop fuel cnt u = Ok u' /\ advanced p c n u u' /\
    ((forall d : D, (isready_for_tx d).1 = true) -> n = unsent c \/ tx_chunk_size <= cnt + n).
Proof.
  pose proof bulk_size_range as Hbulk.
  revert cnt u c. induction fuel as [|fuel IH]; intros cnt u c Hu Ht Hp Hc Hf; [lia|].
  pose proof (uart_conns _ Hu _ _ Hp) as Hco. cbn [tx_loop].
  destruct (Z.ltb_spec cnt tx_chunk_size); simpl.
  2: { exists 0, u. split; [done|]. split; [|intros; right; lia].
       pose proof (advanced_refl p c u (drv u) Hco Hp eq_refl) as A. by destruct u. }
  pose proof (isready_sent (drv u)) as Hd.
  destruct (isready_for_tx (drv u)) as [ready d] eqn:Er. simpl in Hd.
  destruct ready; simpl.
  2: { exists 0, (with_drv d u). split; [done|]. split; [by apply advanced_refl|].
       intros Hr. specialize (Hr (drv u)). by rewrite Er in Hr. }
  rewrite Ht, Hp. simpl. pose proof Hco as [_ Hi Hl].
  assert (HC : CON_DATA_TX_BUF_SIZE = 4096) by done.
  destruct (Z.ltb_spec (tx_buf_index c) (tx_buf_length c)) as [Hlt|Hge].
  2: { exists 0, (with_drv d u). split; [done|]. split; [by apply advanced_refl|].
       intros _. left. unfold unsent. lia. }
  rewrite s32_small by lia. fold (unsent c).
  pose proof (bulk_advances p c u d Hu Hp Hd ltac:(unfold unsent; lia)) as Hadv. cbv zeta in Hadv.
  set (n := Z.min tx_bulktransfer_size (unsent c)) in *. set (u1 := Uart _ _ _ _) in *.
  assert (Hn : 0 < n <= unsent c) by (unfold n, unsent; lia).
  destruct (IH (cnt + n) u1 (set_tx_index (tx_buf_index c + n) c))
    as (m & u' & E & Ha & Hr); [by eapply advanced_ok|done| |lia|lia|].
  { rewrite (adv_conns _ _ _ _ _ Hadv). by rewrite lookup_insert_eq. }
  exists (n + m), u'. split; [done|]. split; [by eapply advanced_trans|].
  intros R. destruct (Hr R) as [->|]; [left|right; lia]. unfold unsent. simpl. lia.
Qed.

(** ** The interrupt handler *)

(** The sender after [n] of its bytes were sent: dropped when it is done. *)
Record tx_result (p : nat) (c : conn) (n : Z) (woken : bool) (u u' : uart D) : Prop := {
  txr_range : 0 <= n <= unsent c;
  txr_conns : conns u' = <[p := set_tx_index (tx_buf_index c + n) c]> (conns u);
  txr_sent : sent (drv u') = sent (drv u) ++ slice (txbuf c) (tx_buf_index c) n;
  txr_woken : woken = bool_decide (n = unsent c);
  txr_sender : tx_connection (inst u') = if woken then None else Some p;
  txr_refs : module_refs u' = module_refs u;
  txr_inst : exists k, inst u' = set_count_tx k (set_tx_connection (tx_connection (inst u')) (inst u))
}.

Lemma tx_queued_result u p c : uart_ok u -> tx_connection (inst u) = Some p ->
  conns u !! p = Some c ->
  exists n w u', generic_raw_uart_tx_queued_unlocked u = Ok (w, u') /\ uart_ok u' /\
    tx_result p c n w u u' /\
    ((forall d : D, (isready_for_tx d).1 = true) -> n = unsent c \/ tx_chunk_size <= n).
Proof.
  intros Hu Ht Hp. pose proof chunk_size_range.
  destruct (tx_loop_sends (S (Z.to_nat tx_chunk_size)) 0 u p c Hu Ht Hp) as (n & u1 & E & A & R);
    [lia|lia|].
  unfold generic_raw_uart_tx_queued_unlocked. rewrite E. cbn [exec_bind].
  pose proof (advanced_ok _ _ _ _ _ Hu Hp A) as Hu1. pose proof A as [Ar [k Ai] Ac As Am].
  assert (Ht1 : tx_connection (inst u1) = Some p) by (by rewrite Ai).
  rewrite Ht1, Ac, lookup_insert_eq. cbn [deref exec_bind set_tx_index tx_buf_length tx_buf_index].
  unfold unsent in Ar. destruct (Z.leb_spec (tx_buf_length c) (tx_buf_index c + n)).
  - exists n, true. eexists. split; [done|]. split.
    { destruct Hu1 as [Hc _]. by split. }
    split; [|done]. split; simpl; try done.
    + by rewrite stop_tx_sent.
    + rewrite bool_decide_true; [done|]. unfold unsent. lia.
    + exists k. rewrite Ai. done.
  - exists n, false, u1. split; [done|]. split; [done|]. split; [|done]. split; try done.
    + rewrite bool_decide_false; [done|]. unfold unsent. lia.
    + exists k. rewrite Ht1, Ai. destruct (inst u). simpl in *. by subst.
Qed.

Lemma tx_queued_idle u : tx_connection (inst u) = None ->
  exists u', generic_raw_uart_tx_queued_unlocked u = Ok (false, u') /\ inst u' = inst u /\
    conns u' = conns u /\ module_refs u' = module_refs u /\ sent (drv u') = sent (drv u).
Proof.
  intros Ht. unfold generic_raw_uart_tx_queued_unlocked. cbn [tx_loop].
  destruct (negb _); [cbn; rewrite Ht; by eexists|].
  pose proof (isready_sent (drv u)) as Hd. destruct (isready_for_tx (drv u)) as [[] d];
    cbn; rewrite Ht; cbn; rewrite ?Ht; by eexists.
Qed.

(** C8 (safety). The transmit interrupt on a well-formed instance always
    comes to an end without touching a freed connection.  When there is no
    sender it does nothing.  Otherwise it hands the hardware the next bytes
    of the sender's message, advances the sender's index by as many, and
    drops the sender and wakes the writers exactly when the message is
    complete; the other connections do not change. *)
Theorem tx_queued_advances (u : uart D) : uart_ok u ->
  exists woken u', generic_raw_uart_tx_queued u = Ok (woken, u') /\ uart_ok u' /\
    match tx_connection (inst u) with
    | None => woken = false /\ inst u' = inst u /\ conns u' = conns u /\
              sent (drv u') = sent (drv u)
    | Some p => exists c n, conns u !! p = Some c /\ tx_result p c n woken u u'
    end.
Proof.
  intros Hu. unfold generic_raw_uart_tx_queued. destruct (tx_connection (inst u)) as [p|] eqn:Ht.
  - destruct (uart_sender _ Hu _ Ht) as [c Hp].
    destruct (tx_queued_result u p c Hu Ht Hp) as (n & w & u' & E & Hu' & R & _). eauto 10.
  - destruct (tx_queued_idle u Ht) as (u' & E & Hi & Hc & Hm & Hs).
    exists false, u'. split; [done|]. split; [|done]. destruct Hu as [H1 H2].
    split; [by rewrite Hc|]. intros p. rewrite Hi, Ht. done.
Qed.

(** ** Draining a message *)

Fixpoint tx_interrupts (n : nat) (u : uart D) : exec (uart D) :=
  match n with
  | O => Ok u
  | S n => let? (_, u) := generic_raw_uart_tx_queued u in tx_interrupts n u
  end.

Lemma tx_interrupts_idle n u : tx_connection (inst u) = None ->
  exists u', tx_interrupts n u = Ok u' /\ inst u' = inst u /\ conns u' = conns u /\
    sent (drv u') = sent (drv u).
Proof.
  revert u. induction n as [|n IH]; intros u Ht; [by exists u|]. simpl.
  destruct (tx_queued_idle u Ht) as (u1 & E & Hi & Hc & _ & Hs).
  unfold generic_raw_uart_tx_queued. rewrite E. simpl.
  destruct (IH u1) as (u' & E' & Hi' & Hc' & Hs'); [by rewrite Hi|].
  exists u'. split; [done|]. by rewrite Hi', Hc', Hs'.
Qed.

Lemma tx_interrupts_drain n u p c : uart_ok u -> tx_connection (inst u) = Some p ->
  conns u !! p = Some c -> (forall d : D, (isready_for_tx d).1 = true) ->
  unsent c <= Z.of_nat n * tx_chunk_size -> (0 < n)%nat ->
  exists u', tx_interrupts n u = Ok u' /\ tx_connection (inst u') = None /\
    conns u' = <[p := set_tx_index (tx_buf_length c) c]> (conns u) /\
    sent (drv u') = sent (drv u) ++ slice (txbuf c) (tx_buf_index c) (unsent c).
Proof.
  intros Hu Ht Hp Hr. revert u c Hu Ht Hp. induction n as [|n IH]; intros u c Hu Ht Hp Hn Hpos; [lia|].
  simpl. unfold generic_raw_uart_tx_queued.
  destruct (tx_queued_result u p c Hu Ht Hp) as (m & w & u1 & E & Hu1 & [R1 R2 R3 R4 R5 _ _] & L).
  rewrite E. simpl. specialize (L Hr).
  destruct (decide (m = unsent c)) as [->|Hm].
  - rewrite bool_decide_true in R4 by done. subst w.
    destruct (tx_interrupts_idle n u1 R5) as (u' & E' & Hi & Hc & Hs).
    exists u'. split; [done|]. rewrite Hi, Hc, Hs. split; [done|]. split; [|done].
    rewrite R2. unfold unsent, set_tx_index. do 2 f_equal. lia.
  - rewrite bool_decide_false in R4 by done. subst w.
    assert (Hm' : tx_chunk_size <= m) by lia.
    assert (Hp1 : conns u1 !! p = Some (set_tx_index (tx_buf_index c + m) c))
      by (by rewrite R2, lookup_insert_eq).
    assert (Hu2 : unsent (set_tx_index (tx_buf_index c + m) c) = unsent c - m)
      by (unfold unsent; simpl; lia).
    destruct (IH u1 _ Hu1 R5 Hp1) as (u' & E' & Hi & Hc & Hs);
      [rewrite Nat2Z.inj_succ in Hn; lia | destruct n; [simpl in Hn; lia|lia] |].
    exists u'. split; [done|]. split; [done|]. split.
    + rewrite Hc, R2, insert_insert_eq. done.
    + rewrite Hs, R3, Hu2, <- app_assoc. simpl.
      destruct (uart_conns _ Hu _ _ Hp) as [_ [? ?] _].
      rewrite slice_slice_app by lia. do 2 f_equal. lia.
Qed.

(** ** Writing *)

Lemma write_begin_ok p c (u : uart D) data : uart_ok u -> conns u !! p = Some c ->
  zlen data <= CON_DATA_TX_BUF_SIZE ->
  exists c' (u' : uart D), write_begin false Copied data p u = Ok (None, u') /\ uart_ok u' /\
    u' = with_conns (<[p := c']> (conns u)) u /\ conn_ok c' /\
    tx_buf_index c' = 0 /\ tx_buf_length c' = zlen data /\ priority c' = priority c /\
    slice (txbuf c') 0 (zlen data) = data.
Proof.
  intros Hu Hp Hd. destruct (uart_conns _ Hu _ _ Hp) as [Hb _ _].
  unfold write_begin. rewrite Hp. cbn [deref exec_bind].
  destruct (Z.ltb_spec CON_DATA_TX_BUF_SIZE (zlen data)); [lia|].
  cbn [copy_failed landed set_txbuf txbuf priority].
  set (c' := Conn _ _ _ _).
  assert (Hl : zlen (splice (txbuf c) 0 data) = CON_DATA_TX_BUF_SIZE)
    by (unfold zlen in *; rewrite length_splice; unfold zlen; lia).
  assert (Hc' : conn_ok c').
  { pose proof (zlen_nonneg data). by split; simpl. }
  exists c'. eexists. split; [done|]. split; [|split; [done|split; [done|]]].
  - destruct Hu as [H1 H2]. split; simpl; [by apply map_Forall_insert_2|].
    intros q Hq. destruct (decide (q = p)) as [->|]; [by rewrite lookup_insert_eq|].
    rewrite lookup_insert_ne by done. by apply H2.
  - split; [done|]. split; [done|]. split; [done|]. simpl.
    unfold slice, splice, zlen. rewrite Nat2Z.id. apply (take_app_length data).
Qed.

(** A writer that finds the line idle becomes the sender and starts. *)
Lemma acquire_idle p c u : uart_ok u -> tx_connection (inst u) = None -> conns u !! p = Some c ->
  exists n w u', generic_raw_uart_acquire_sender p u = Ok (1, w, u') /\ uart_ok u' /\
    tx_result p c n w u u' /\
    ((forall d : D, (isready_for_tx d).1 = true) -> n = unsent c \/ tx_chunk_size <= n).
Proof.
  intros Hu Ht Hp. unfold generic_raw_uart_acquire_sender. rewrite Ht.
  set (u1 := with_drv _ _).
  assert (Hu1 : uart_ok u1).
  { destruct Hu as [H1 H2]. split; [done|]. intros q [= <-]. by exists c. }
  destruct (tx_queued_result u1 p c Hu1 eq_refl Hp)
    as (n & w & u' & E & Hu' & [R1 R2 R3 R4 R5 R6 [k R7]] & L).
  rewrite E. cbn [exec_bind]. exists n, w, u'. split; [done|]. split; [done|]. split; [|done].
  split; try done.
  - rewrite R3. simpl. by rewrite init_tx_sent.
  - exists k. rewrite R7. simpl. by destruct (inst u).
Qed.

(** C9 (liveness). A message written to an idle line whose hardware is
    always ready is handed over completely, after at most one transmit
    interrupt per chunk; the write then completes and returns the length of
    the message. *)
Theorem write_delivers (p : nat) (c : conn) (data : list Z) (n : nat) (u : uart D) :
  uart_ok u -> tx_connection (inst u) = None -> conns u !! p = Some c ->
  zlen data <= CON_DATA_TX_BUF_SIZE -> (forall d : D, (isready_for_tx d).1 = true) ->
  zlen data <= Z.of_nat (S n) * tx_chunk_size ->
  exists u1 w u2 u3,
    write_begin false Copied data p u = Ok (None, u1) /\
    generic_raw_uart_acquire_sender p u1 = Ok (1, w, u2) /\
    tx_interrupts n u2 = Ok u3 /\
    generic_raw_uart_send_completed p u3 = true /\
    write_finish p u3 = Ok (zlen data) /\
    sent (drv u3) = sent (drv u) ++ data.
Proof.
  intros Hu Ht Hp Hd Hr Hn.
  destruct (write_begin_ok p c u data Hu Hp Hd)
    as (c' & u1 & E1 & Hu1 & -> & [Hb [Hi Hi'] Hl] & Hx & Hlen & _ & Hsl).
  set (u1 := with_conns _ u) in *.
  assert (Hp1 : conns u1 !! p = Some c') by (simpl; by rewrite lookup_insert_eq).
  destruct (acquire_idle p c' u1 Hu1 Ht Hp1)
    as (m & w & u2 & E2 & Hu2 & [R1 R2 R3 R4 R5 _ _] & L).
  specialize (L Hr). assert (Hun : unsent c' = zlen data) by (unfold unsent; lia).
  assert (Hp2 : conns u2 !! p = Some (set_tx_index (tx_buf_index c' + m) c'))
    by (by rewrite R2, lookup_insert_eq).
  assert (HC : CON_DATA_TX_BUF_SIZE = 4096) by done.
  assert (Hfin : forall u3 : uart D, tx_connection (inst u3) = None ->
    conns u3 !! p = Some (set_tx_index (zlen data) c') ->
    generic_raw_uart_send_completed p u3 = true /\ write_finish p u3 = Ok (zlen data)).
  { intros u3 T C. unfold generic_raw_uart_send_completed, write_finish. rewrite T, C.
    split; [done|]. simpl. pose proof (zlen_nonneg data). by rewrite s32_small by lia. }
  rewrite Hx in *. rewrite Z.add_0_l in *. exists u1, w, u2.
  destruct (decide (m = unsent c')) as [E|E].
  - rewrite bool_decide_true in R4 by done. subst w.
    destruct (tx_interrupts_idle n u2 R5) as (u3 & E3 & Hi3 & Hc3 & Hs3).
    exists u3. split; [done|]. split; [done|]. split; [done|].
    destruct (Hfin u3) as [F1 F2]; [by rewrite Hi3|by rewrite Hc3, Hp2, E, Hun|].
    split; [done|]. split; [done|]. rewrite Hs3, R3, E, Hun, Hsl. done.
  - rewrite bool_decide_false in R4 by done. subst w.
    assert (Hn' : 0 < Z.of_nat n) by (destruct n; [rewrite Z.mul_1_l in Hn; lia|lia]).
    destruct (tx_interrupts_drain n u2 p _ Hu2 R5 Hp2 Hr) as (u3 & E3 & Hi3 & Hc3 & Hs3).
    { unfold unsent. simpl. rewrite Nat2Z.inj_succ in Hn. lia. }
    { lia. }
    exists u3. split; [done|]. split; [done|]. split; [done|].
    destruct (Hfin u3) as [F1 F2]; [done| |].
    { rewrite Hc3, lookup_insert_eq. simpl. by rewrite Hlen. }
    split; [done|]. split; [done|]. rewrite Hs3, R3, <- app_assoc. unfold unsent. simpl.
    rewrite Hlen. f_equal. transitivity (slice (txbuf c') 0 (zlen data)); [|done].
    pose proof (slice_slice_app (txbuf c') 0 m (zlen data - m)) as J.
    rewrite Z.add_0_l in J. rewrite J by lia. f_equal. lia.
Qed.
End Tx.

(** ** A driver to run the model with

    Hardware that takes every byte at once, sixteen per transfer. *)
Definition log_driver : RawUartDriver (list Z) := {|
  drv_owner := true;
  start_connection d := (0, d);
  stop_connection d := d;
  init_tx d := d;
  isready_for_tx d := (true, d);
  tx_chars d l i n := d ++ slice l i n;
  stop_tx d := d;
  get_led_gpio_index := None;
  reset_radio_module := None;
  tx_chunk_size := 32;
  tx_bulktransfer_size := 16;
  get_device_type := None
|}.

Definition log_driver_ok : RawUartDriverOk (list Z) (DR := log_driver).
Proof. by refine {| sent (d : list Z) := d : list Z |}. Defined.

(** One open file on an idle line. *)
Definition one_file : uart (list Z) :=
  Uart (set_open_count 1 new_instance) {[1%nat := new_conn]} [] 1.

Lemma new_conn_ok : conn_ok new_conn.
Proof. by split. Qed.

Lemma one_file_ok : uart_ok one_file.
Proof. split; [|done]. apply map_Forall_singleton, new_conn_ok. Qed.

Lemma tx_queued_advances_witness :
  exists w u', generic_raw_uart_tx_queued (DR := log_driver) one_file = Ok (w, u').
Proof.
  destruct (tx_queued_advances (DO := log_driver_ok) one_file one_file_ok) as (w & u' & E & _).
  by exists w, u'.
Defined.

Lemma write_delivers_witness :
  exists u3 : uart (list Z), drv u3 = replicate 40 85 /\ write_finish 1 u3 = Ok 40.
Proof.
  destruct (write_delivers (DO := log_driver_ok) 1 new_conn (replicate 40 85) 1 one_file
    one_file_ok eq_refl eq_refl) as (u1 & w & u2 & u3 & _ & _ & _ & _ & H1 & H2);
    [done..|]. by exists u3.
Defined.
