(* ===== verification/RawUartSys.v ===== *)
(** The generic raw UART driver as a whole: files, writers, interrupts.

    A write sleeps twice, first until it becomes the sender, then until it no
    longer is; between its steps other files, interrupts and signals act.  The
    steps of the system are these critical sections; a run is any sequence of
    them. *)
From S2P Require Import Prelude Kernel Ring RawUart RawUartRx RawUartTx.

(** Where the process that uses a file is.  [PAcquire] and [PSending] are the
    two waits of [generic_raw_uart_write]; the ghost arguments are the message
    and what the hardware got of it since this write started. *)
Inductive pc := PIdle | PAcquire (msg : list Z) | PSending (msg got : list Z).

(** A completed write: file, return value, message, bytes given to the hardware. *)
Record write_record := WriteRecord {
  wr_file : nat; wr_ret : Z; wr_msg : list Z; wr_got : list Z
}.

Record sys (D : Type) := Sys {
  su : uart D;
  pcs : gmap nat pc;
  writes : list write_record
}.
Arguments Sys {D}.
Arguments su {D}.
Arguments pcs {D}.
Arguments writes {D}.

Inductive action :=
| AOpen (mod_ok intr oom : bool) (p : nat)
| AClose (intr1 intr2 : bool) (p : nat)
| AWrite (intr : bool) (copy : copy_in) (data : list Z) (p : nat)
| AAcquire (p : nat)
| ADone (p : nat)
| ASignalAcquire (p : nat)
| ASignalSending (p : nat)
| APriority (prio : Z) (p : nat)
| ATxQueued
| ARxChar (flags data : Z)
| ARead (intr nonblock fault : bool) (count : Z)
| AReset (intr : bool) (max_open_count : Z)
| AConnection (state : bool).

Section Sys.
Context `{CB : CircBuf} {D : Type} `{DO : RawUartDriverOk D}.

Definition with_su (u : uart D) (s : sys D) : sys D := Sys u (pcs s) (writes s).
Definition goto (p : nat) (c : pc) (u : uart D) (s : sys D) : sys D :=
  Sys u (<[p := c]> (pcs s)) (writes s).

(** What the hardware got between two states. *)
Definition newly_sent (u u' : uart D) : list Z :=
  drop (length (sent (drv u))) (sent (drv u')).

(** Credit it to the write that was the sender. *)
Definition credit (u u' : uart D) (o : option nat) (m : gmap nat pc) : gmap nat pc :=
  match o with
  | Some p =>
    match m !! p with
    | Some (PSending msg got) => <[p := PSending msg (got ++ newly_sent u u')]> m
    | _ => m
    end
  | None => m
  end.

(** One action.  An action that is not enabled changes nothing: a file is
    used by one process at a time, which holds its semaphore. *)
Definition perform (a : action) (s : sys D) : exec (sys D) :=
  let u := su s in
  match a with
  | AOpen mod_ok intr oom p =>
    match conns u !! p with
    | Some _ => Ok s
    | None =>
      let? (r, u') := generic_raw_uart_open mod_ok intr oom p u in
      Ok (if r =? 0 then goto p PIdle u' s else with_su u' s)
    end
  | AClose i1 i2 p =>
    match pcs s !! p with
    | Some PIdle =>
      let? (_, u') := generic_raw_uart_close i1 i2 p u in
      Ok (Sys u' (delete p (pcs s)) (writes s))
    | _ => Ok s
    end
  | AWrite intr copy data p =>
    match pcs s !! p with
    | Some PIdle =>
      let? (r, u') := write_begin intr copy data p u in
      Ok (match r with None => goto p (PAcquire data) u' s | Some _ => with_su u' s end)
    | _ => Ok s
    end
  | AAcquire p =>
    match pcs s !! p with
    | Some (PAcquire msg) =>
      let? (r, _, u') := generic_raw_uart_acquire_sender p u in
      Ok (if r =? 1 then goto p (PSending msg (newly_sent u u')) u' s else with_su u' s)
    | _ => Ok s
    end
  | ADone p =>
    match pcs s !! p with
    | Some (PSending msg got) =>
      if generic_raw_uart_send_completed p u then
        let? r := write_finish p u in
        Ok (Sys u (<[p := PIdle]> (pcs s)) (WriteRecord p r msg got :: writes s))
      else Ok s
    | _ => Ok s
    end
  | ASignalAcquire p =>
    match pcs s !! p with Some (PAcquire _) => Ok (goto p PIdle u s) | _ => Ok s end
  | ASignalSending p =>
    match pcs s !! p with Some (PSending _ _) => Ok (goto p PIdle u s) | _ => Ok s end
  | APriority prio p =>
    match pcs s !! p with
    | Some PIdle =>
      let? c := deref (conns u !! p) in
      Ok (with_su (with_conns (<[p := set_priority prio c]> (conns u)) u) s)
    | _ => Ok s
    end
  | ATxQueued =>
    let? (_, u') := generic_raw_uart_tx_queued u in
    Ok (Sys u' (credit u u' (tx_connection (inst u)) (pcs s)) (writes s))
  | ARxChar f d => Ok (with_su (on_inst (generic_raw_uart_handle_rx_char f d) u) s)
  | ARead intr nb fl n =>
    let '(_, _, i) := generic_raw_uart_read intr nb fl n (inst u) in
    Ok (with_su (on_inst (fun _ => i) u) s)
  | AReset intr max =>
    let '(_, _, u') := generic_raw_uart_reset_radio_module intr max u in
    Ok (with_su u' s)
  | AConnection b => Ok (with_su (generic_raw_uart_set_connection_state b u) s)
  end.

Fixpoint perform_all (l : list action) (s : sys D) : exec (sys D) :=
  match l with
  | [] => Ok s
  | a :: l => let? s := perform a s in perform_all l s
  end.

Definition start (d : D) (refs : Z) : sys D := Sys (Uart new_instance ∅ d refs) ∅ [].

(** ** The invariant *)

Definition thread_ok (u : uart D) (p : nat) (t : pc) (c : conn) : Prop :=
  match t with
  | PIdle => tx_connection (inst u) <> Some p
  | PAcquire msg => tx_connection (inst u) <> Some p /\ tx_buf_index c = 0 /\
      tx_buf_length c = zlen msg /\ slice (txbuf c) 0 (zlen msg) = msg
  | PSending msg got => tx_buf_index c = zlen got /\ tx_buf_length c = zlen msg /\
      slice (txbuf c) 0 (zlen msg) = msg /\ got = slice (txbuf c) 0 (zlen got)
  end.

(** A completed write returned the number of bytes the hardware got, and
    they are the beginning of its message. *)
Definition record_ok (r : write_record) : Prop :=
  wr_ret r = zlen (wr_got r) /\ wr_got r = take (length (wr_got r)) (wr_msg r).

Record inv (s : sys D) : Prop := {
  inv_uart : uart_ok (su s);
  inv_threads : forall p t, pcs s !! p = Some t ->
    exists c, conns (su s) !! p = Some c /\ thread_ok (su s) p t c;
  inv_sender : forall p, tx_connection (inst (su s)) = Some p -> is_Some (pcs s !! p);
  inv_writes : Forall record_ok (writes s)
}.

(** The actions that keep it: all but a signal that interrupts a sender,
    and a failing allocation in open. *)
Definition orderly (a : action) : Prop :=
  match a with
  | AOpen _ _ oom _ => oom = false
  | ASignalSending _ => False
  | _ => True
  end.

(** A change that keeps the connections and the sender keeps the invariant. *)
Lemma inv_frame s u : inv s -> conns u = conns (su s) ->
  tx_connection (inst u) = tx_connection (inst (su s)) -> inv (with_su u s).
Proof.
  intros [[U1 U2] T S W] Hc Ht. split; simpl; try done.
  - split; [by rewrite Hc|]. intros p. rewrite Ht, Hc. apply U2.
  - intros p t Hp. destruct (T p t Hp) as (c & Hp' & Hk). exists c. rewrite Hc.
    split; [done|]. unfold thread_ok in *. destruct t; rewrite ?Ht; done.
  - intros p. rewrite Ht. apply S.
Qed.

Lemma inv_sender_conn s p : inv s -> tx_connection (inst (su s)) = Some p ->
  exists msg got c, pcs s !! p = Some (PSending msg got) /\ conns (su s) !! p = Some c /\
    thread_ok (su s) p (PSending msg got) c.
Proof.
  intros H Ht. destruct (inv_sender _ H _ Ht) as [t Hp].
  destruct (inv_threads _ H _ _ Hp) as (c & Hc & Hk). destruct t; simpl in Hk; [done|by destruct Hk|].
  eauto 10.
Qed.

(** ** What opening and closing do to the connections *)

Lemma open_spec mod_ok intr p u : exists r u',
  generic_raw_uart_open mod_ok intr false p u = Ok (r, u') /\
  tx_connection (inst u') = tx_connection (inst u) /\
  conns u' = (if r =? 0 then <[p := new_conn]> (conns u) else conns u) /\
  open_count (inst u') = (if r =? 0 then open_count (inst u) + 1 else open_count (inst u)) /\
  (r = 0 -> open_count (inst u) < MAX_CONNECTIONS) /\
  module_refs u' = module_refs u + b2z (drv_owner && (mod_ok || (r =? 0))).
Proof.
  unfold generic_raw_uart_open.
  destruct (drv_owner && negb mod_ok) eqn:E1.
  { eexists _, u. split; [done|]. simpl. apply andb_prop in E1 as [-> E1].
    destruct mod_ok; [done|]. simpl. rewrite Z.add_0_r. done. }
  assert (E : drv_owner && (mod_ok || true) = drv_owner /\
              drv_owner && (mod_ok || false) = drv_owner)
    by (by destruct drv_owner, mod_ok).
  destruct E as [Ea Eb].
  set (u0 := if drv_owner then with_refs (module_refs u + 1) u else u).
  assert (H0 : inst u0 = inst u /\ conns u0 = conns u /\ drv u0 = drv u /\
               module_refs u0 = module_refs u + b2z drv_owner).
  { unfold u0. destruct drv_owner; simpl; rewrite ?Z.add_0_r; done. }
  destruct H0 as (Hi & Hc & Hd & Hm). clearbody u0. rewrite Hi.
  destruct intr; [eexists _, u0; split; [done|]; simpl; by rewrite Hi, Hc, Hm, Eb|].
  destruct (Z.leb_spec MAX_CONNECTIONS (open_count (inst u)));
    [eexists _, u0; split; [done|]; simpl; by rewrite Hi, Hc, Hm, Eb|].
  destruct (connection_state (inst u)); simpl;
    [|eexists _, u0; split; [done|]; simpl; by rewrite Hi, Hc, Hm, Eb].
  destruct (open_count (inst u) =? 0).
  - destruct (start_connection (drv u0)) as [r d]. destruct (Z.eqb_spec r 0) as [->|Hr]; simpl.
    + eexists 0, _. split; [done|]. simpl. by rewrite Hi, Hc, Hm, Ea.
    + eexists r, _. split; [done|]. simpl. apply Z.eqb_neq in Hr. rewrite Hr, Hi, Hc, Hm, Eb.
      repeat split. intros ->. done.
  - eexists 0, _. split; [done|]. simpl. by rewrite Hi, Hc, Hm, Ea.
Qed.

Lemma close_spec i1 i2 p c u : conns u !! p = Some c -> exists r u',
  generic_raw_uart_close i1 i2 p u = Ok (r, u') /\
  tx_connection (inst u') = tx_connection (inst u) /\
  conns u' = (if i1 then conns u else delete p (conns u)) /\
  open_count (inst u') = (if i1 || i2 || (open_count (inst u) =? 0) then open_count (inst u)
                          else open_count (inst u) - 1) /\
  module_refs u' = module_refs u - b2z (negb (i1 || i2) && drv_owner).
Proof.
  intros Hp. unfold generic_raw_uart_close. rewrite Hp. cbn [deref exec_bind].
  destruct i1; [eexists _, u; split; [done|]; simpl; by rewrite Z.sub_0_r|].
  destruct i2; [eexists _, _; split; [done|]; simpl; by rewrite Z.sub_0_r|].
  simpl. destruct (open_count (inst u) =? 0) eqn:E0; simpl; rewrite ?E0;
    [|destruct (open_count (inst u) - 1 =? 0)];
    eexists _, _; (split; [done|]); simpl; destruct drv_owner; simpl; rewrite ?Z.sub_0_r; done.
Qed.

Lemma perform_open mod_ok intr p s : inv s ->
  exists s', perform (AOpen mod_ok intr false p) s = Ok s' /\ inv s'.
Proof.
  intros H. cbn [perform]. destruct (conns (su s) !! p) as [c|] eqn:Hp; [by exists s|].
  destruct (open_spec mod_ok intr p (su s)) as (r & u' & E & Ht & Hc & _). rewrite E.
  cbn [exec_bind]. destruct (r =? 0); eexists; (split; [done|]); [|by apply inv_frame].
  destruct H as [[U1 U2] T S W].
  assert (Hs : tx_connection (inst (su s)) <> Some p)
    by (intros Hs; apply U2 in Hs as [? Hs]; congruence).
  split; simpl; try done.
  - split; rewrite Hc.
    + apply map_Forall_insert_2; [apply new_conn_ok|done].
    + intros q. rewrite Ht. intros Hq. rewrite lookup_insert_ne by congruence. by apply U2.
  - intros q t. destruct (decide (q = p)) as [->|Hq].
    + rewrite lookup_insert_eq. intros [= <-]. exists new_conn.
      by rewrite Hc, lookup_insert_eq, <- Ht in *.
    + rewrite lookup_insert_ne by done. intros Hq'. destruct (T q t Hq') as (c & Hc' & Hk).
      exists c. rewrite Hc, lookup_insert_ne by done. split; [done|].
      unfold thread_ok in *. destruct t; by rewrite ?Ht.
  - intros q. rewrite Ht. intros Hq. rewrite lookup_insert_ne by congruence. by apply S.
Qed.

Lemma perform_close i1 i2 p s : inv s ->
  exists s', perform (AClose i1 i2 p) s = Ok s' /\ inv s'.
Proof.
  intros H. cbn [perform]. destruct (pcs s !! p) as [[]|] eqn:Hp; try by exists s.
  pose proof H as [[U1 U2] T S W]. destruct (T _ _ Hp) as (c & Hc & Hk). simpl in Hk.
  destruct (close_spec i1 i2 p c (su s) Hc) as (r & u' & E & Ht & Hc' & _). rewrite E.
  cbn [exec_bind]. eexists. split; [done|].
  assert (Hlook : forall q, q <> p -> conns u' !! q = conns (su s) !! q).
  { intros q Hq. rewrite Hc'. destruct i1; [done|]. by rewrite lookup_delete_ne. }
  split; simpl; try done.
  - split.
    + rewrite Hc'. destruct i1; [done|]. by apply map_Forall_delete.
    + intros q. rewrite Ht. intros Hq. rewrite Hlook by congruence. by apply U2.
  - intros q t. intros [Hq Hq']%lookup_delete_Some.
    destruct (T q t Hq') as (cq & Hcq & Hkq). exists cq. rewrite Hlook by done. split; [done|].
    unfold thread_ok in *. destruct t; by rewrite ?Ht.
  - intros q. rewrite Ht. intros Hq. rewrite lookup_delete_ne by congruence. by apply S.
Qed.

(** Writing a connection's own record does not disturb the others. *)
Lemma inv_update_conn p t t' c c' s : inv s -> conns (su s) !! p = Some c -> conn_ok c' ->
  pcs s !! p = Some t ->
  thread_ok (su s) p t' c' ->
  inv (goto p t' (with_conns (<[p := c']> (conns (su s))) (su s)) s).
Proof.
  intros [[U1 U2] T S W] Hc Hc' Hp Hk. split; simpl; try done.
  - split; simpl; [by apply map_Forall_insert_2|].
    intros q Hq. destruct (decide (q = p)) as [->|]; [by rewrite lookup_insert_eq|].
    rewrite lookup_insert_ne by done. by apply U2.
  - intros q tq. destruct (decide (q = p)) as [->|Hq].
    + rewrite lookup_insert_eq. intros [= <-]. exists c'. by rewrite lookup_insert_eq.
    + rewrite !lookup_insert_ne by done. apply T.
  - intros q Hq. destruct (decide (q = p)) as [->|]; [by rewrite lookup_insert_eq|].
    rewrite lookup_insert_ne by done. by apply S.
Qed.

Lemma perform_write intr copy data p s : inv s ->
  exists s', perform (AWrite intr copy data p) s = Ok s' /\ inv s'.
Proof.
  intros H. cbn [perform]. destruct (pcs s !! p) as [[]|] eqn:Hp; try by exists s.
  destruct (inv_threads _ H _ _ Hp) as (c & Hc & Hk). simpl in Hk.
  pose proof (inv_uart _ H) as Hu.
  destruct (decide (zlen data <= CON_DATA_TX_BUF_SIZE)) as [Hd|Hd].
  - destruct intr.
    { unfold write_begin. rewrite Hc. eexists. split; [done|]. by apply inv_frame. }
    destruct copy as [|d].
    + destruct (write_begin_ok p c (su s) data Hu Hc Hd)
        as (c' & u' & E & _ & -> & Hc' & Hi & Hl & _ & Hs).
      rewrite E. eexists. split; [done|]. by eapply inv_update_conn.
    + unfold write_begin. rewrite Hc. cbn [deref exec_bind].
      destruct (Z.ltb_spec CON_DATA_TX_BUF_SIZE (zlen data)); [lia|]. cbn [copy_failed].
      eexists. split; [done|].
      set (c' := set_txbuf _ c).
      assert (Hc' : conn_ok c').
      { destruct (uart_conns _ Hu _ _ Hc) as [B1 B2 B3]. split; try done.
        cbn [c' set_txbuf txbuf]. unfold zlen in *. rewrite length_splice by (unfold zlen; rewrite ?length_landed; lia). done. }
      pose proof (inv_update_conn p PIdle PIdle c c' s H Hc Hc' Hp Hk) as I.
      unfold goto in I. rewrite (insert_id (pcs s)) in I by done. exact I.
  - unfold write_begin. rewrite Hc. cbn [deref exec_bind]. destruct intr.
    { eexists. split; [done|]. by apply inv_frame. }
    destruct (Z.ltb_spec CON_DATA_TX_BUF_SIZE (zlen data)); [|lia].
    eexists. split; [done|]. by apply inv_frame.
Qed.

Lemma perform_priority prio p s : inv s ->
  exists s', perform (APriority prio p) s = Ok s' /\ inv s'.
Proof.
  intros H. cbn [perform]. destruct (pcs s !! p) as [[]|] eqn:Hp; try by exists s.
  destruct (inv_threads _ H _ _ Hp) as (c & Hc & Hk). rewrite Hc. eexists. split; [done|].
  assert (Hc' : conn_ok (set_priority prio c))
    by (destruct (uart_conns _ (inv_uart _ H) _ _ Hc); by split).
  pose proof (inv_update_conn p PIdle PIdle c _ s H Hc Hc' Hp Hk) as I.
  unfold goto in I. rewrite (insert_id (pcs s)) in I by done. exact I.
Qed.

Lemma perform_done p s : inv s -> exists s', perform (ADone p) s = Ok s' /\ inv s'.
Proof.
  intros H. cbn [perform]. destruct (pcs s !! p) as [[| |msg got]|] eqn:Hp; try by exists s.
  destruct (inv_threads _ H _ _ Hp) as (c & Hc & Hk1 & Hk2 & Hk3 & Hk4).
  unfold generic_raw_uart_send_completed. case_bool_decide as Ht; simpl; [by exists s|].
  unfold write_finish. rewrite Hc. cbn [deref exec_bind]. eexists. split; [done|].
  pose proof H as [[U1 U2] T S W]. destruct (U1 _ _ Hc) as [B1 B2 B3].
  assert (HC : CON_DATA_TX_BUF_SIZE = 4096) by done. split; simpl; try done.
  - intros q tq. destruct (decide (q = p)) as [->|Hq].
    + rewrite lookup_insert_eq. intros [= <-]. by exists c.
    + rewrite lookup_insert_ne by done. apply T.
  - intros q Hq. rewrite lookup_insert_ne by congruence. by apply S.
  - apply Forall_cons. split; [|done]. split; simpl.
    + rewrite Hk1. apply s32_small. lia.
    + rewrite Hk4 at 1. rewrite <- Hk3. unfold slice. simpl. rewrite !drop_0, take_take.
      f_equal. unfold zlen in *. lia.
Qed.

Lemma perform_signal_acquire p s : inv s ->
  exists s', perform (ASignalAcquire p) s = Ok s' /\ inv s'.
Proof.
  intros H. cbn [perform]. destruct (pcs s !! p) as [[|msg|]|] eqn:Hp; try by exists s.
  destruct (inv_threads _ H _ _ Hp) as (c & Hc & Hk1 & _).
  eexists. split; [done|]. pose proof H as [[U1 U2] T S W]. split; simpl; try done.
  - intros q tq. destruct (decide (q = p)) as [->|Hq].
    + rewrite lookup_insert_eq. intros [= <-]. by exists c.
    + rewrite lookup_insert_ne by done. apply T.
  - intros q Hq. rewrite lookup_insert_ne by congruence. by apply S.
Qed.

Lemma newly_sent_eq u u' l : sent (drv u') = sent (drv u) ++ l -> newly_sent u u' = l.
Proof. unfold newly_sent. intros ->. by rewrite drop_app_length. Qed.

(** The thread of the sender after [n] more of its bytes were sent. *)
Lemma thread_sent p c n w u u' msg got : conn_ok c -> tx_result p c n w u u' ->
  thread_ok u p (PSending msg got) c ->
  thread_ok u' p (PSending msg (got ++ newly_sent u u')) (set_tx_index (tx_buf_index c + n) c).
Proof.
  intros [B1 B2 B3] [R1 R2 R3 _ _ _ _] (K1 & K2 & K3 & K4).
  rewrite (newly_sent_eq _ _ _ R3). unfold unsent in R1.
  assert (Hz : zlen (slice (txbuf c) (tx_buf_index c) n) = n) by (apply zlen_slice; lia).
  simpl. rewrite zlen_app, Hz, <- K1. split; [done|]. split; [done|]. split; [done|].
  rewrite K4 at 1. rewrite K1.
  pose proof (slice_slice_app (txbuf c) 0 (zlen got) n) as J. rewrite Z.add_0_l in J.
  apply J; lia.
Qed.

(** The sender's state after a transfer keeps the invariant. *)
Lemma inv_after_tx p c n w u u' s msg got : inv s ->
  conns (su s) !! p = Some c -> uart_ok u' ->
  conns u = conns (su s) -> (forall q, q <> p -> tx_connection (inst (su s)) <> Some q) ->
  tx_result p c n w u u' -> thread_ok u p (PSending msg got) c ->
  inv (goto p (PSending msg (got ++ newly_sent u u')) u' s).
Proof.
  intros H Hc Hu' Hcu Hoth R Hk. pose proof H as [[U1 U2] T S W].
  pose proof R as [_ R2 _ _ R5 _ _]. rewrite Hcu in R2. split; simpl; try done.
  - intros q t. destruct (decide (q = p)) as [->|Hq].
    + rewrite lookup_insert_eq. intros [= <-].
      exists (set_tx_index (tx_buf_index c + n) c). rewrite R2, lookup_insert_eq.
      split; [done|]. eapply thread_sent; [by eapply U1|done|done].
    + rewrite lookup_insert_ne by done. intros Hq'. destruct (T q t Hq') as (cq & Hcq & Hkq).
      exists cq. rewrite R2, lookup_insert_ne by done. split; [done|].
      assert (Hnq : tx_connection (inst u') <> Some q)
        by (rewrite R5; destruct w; congruence).
      unfold thread_ok in *. destruct t; [done|by destruct Hkq|done].
  - intros q. rewrite R5. destruct w; [done|]. intros [= <-]. by rewrite lookup_insert_eq.
Qed.

Lemma perform_tx s : inv s -> exists s', perform ATxQueued s = Ok s' /\ inv s'.
Proof.
  intros H. cbn [perform]. unfold generic_raw_uart_tx_queued.
  pose proof (inv_uart _ H) as Hu.
  destruct (tx_connection (inst (su s))) as [p|] eqn:Ht.
  - destruct (inv_sender_conn s p H Ht) as (msg & got & c & Hp & Hc & Hk).
    destruct (tx_queued_result (su s) p c Hu Ht Hc) as (n & w & u' & E & Hu' & R & _).
    rewrite E. cbn [exec_bind credit]. rewrite Hp. eexists. split; [done|].
    eapply (inv_after_tx p c n w (su s)); try done. intros q Hq. congruence.
  - destruct (tx_queued_idle (su s) Ht) as (u' & E & Hi & Hc & _ & _). rewrite E.
    cbn [exec_bind credit]. eexists. split; [done|]. apply inv_frame; [done..|by rewrite Hi].
Qed.

Lemma perform_acquire p s : inv s -> exists s', perform (AAcquire p) s = Ok s' /\ inv s'.
Proof.
  intros H. cbn [perform]. destruct (pcs s !! p) as [[|msg|]|] eqn:Hp; try by exists s.
  destruct (inv_threads _ H _ _ Hp) as (c & Hc & Hk1 & Hk2 & Hk3 & Hk4).
  pose proof (inv_uart _ H) as Hu.
  destruct (tx_connection (inst (su s))) as [q|] eqn:Ht.
  - destruct (inv_sender_conn s q H Ht) as (qmsg & qgot & cq & Hpq & Hcq & Hkq).
    unfold generic_raw_uart_acquire_sender. rewrite Ht, Hcq, Hc. cbn [deref exec_bind].
    destruct (priority cq <? priority c); cbn [exec_bind]; eexists; (split; [done|]);
      [|by apply inv_frame].
    unfold newly_sent. cbn [on_inst drv inst]. rewrite drop_all.
    pose proof H as [[U1 U2] T S W]. split; simpl; try done.
    + split; simpl; [done|]. intros q' [= <-]. by exists c.
    + intros q' t. destruct (decide (q' = p)) as [->|Hq].
      * rewrite lookup_insert_eq. intros [= <-]. exists c. split; [done|]. split; [by rewrite Hk2|]. done.
      * rewrite lookup_insert_ne by done. intros Hq'. destruct (T q' t Hq') as (c' & Hc' & Hk').
        exists c'. split; [done|]. unfold thread_ok in *. simpl.
        destruct t; [congruence| |done]. destruct Hk' as [_ Hk']. by split; [congruence|].
    + intros q' [= <-]. by rewrite lookup_insert_eq.
  - destruct (acquire_idle p c (su s) Hu Ht Hc) as (n & w & u' & E & Hu' & R & _).
    rewrite E. cbn [exec_bind]. rewrite Z.eqb_refl. eexists. split; [done|].
    apply (inv_after_tx p c n w (su s) u' s msg []); try done.
    intros q _. by rewrite Ht.
Qed.

Lemma reset_keeps intr m u :
  let '(_, _, u') := generic_raw_uart_reset_radio_module intr m u in
  conns u' = conns u /\ inst u' = inst u.
Proof.
  unfold generic_raw_uart_reset_radio_module. destruct intr; [done|].
  destruct (m <? _); [done|]. destruct reset_radio_module as [f|].
  - by destruct (f (drv u)).
  - by destruct (negb _).
Qed.

Lemma perform_reset intr m s : inv s -> exists s', perform (AReset intr m) s = Ok s' /\ inv s'.
Proof.
  intros H. cbn [perform].
  pose proof (reset_keeps intr m (su s)) as R.
  destruct (generic_raw_uart_reset_radio_module intr m (su s)) as [[r acts] u'].
  destruct R as [R1 R2]. eexists. split; [done|]. apply inv_frame; [done..|by rewrite R2].
Qed.

Lemma handle_rx_char_sender f d i :
  tx_connection (generic_raw_uart_handle_rx_char f d i) = tx_connection i.
Proof. unfold generic_raw_uart_handle_rx_char. repeat case_match; done. Qed.

Lemma read_sender intr nb fl n i :
  tx_connection (generic_raw_uart_read intr nb fl n i).2 = tx_connection i.
Proof. unfold generic_raw_uart_read. repeat case_match; by simplify_eq. Qed.

Lemma perform_inv a s : orderly a -> inv s -> exists s', perform a s = Ok s' /\ inv s'.
Proof.
  intros Ho H. destruct a; simpl in Ho; try done.
  - subst. by apply perform_open.
  - by apply perform_close.
  - by apply perform_write.
  - by apply perform_acquire.
  - by apply perform_done.
  - by apply perform_signal_acquire.
  - by apply perform_priority.
  - by apply perform_tx.
  - eexists. split; [done|]. apply inv_frame; [done..|]. apply handle_rx_char_sender.
  - cbn [perform]. pose proof (read_sender intr nonblock fault count (inst (su s))) as R.
    destruct (generic_raw_uart_read _ _ _ _ _) as [[o d] i]. eexists. split; [done|].
    by apply inv_frame.
  - by apply perform_reset.
  - eexists. split; [done|]. by apply inv_frame.
Qed.

Lemma start_inv d refs : inv (start d refs).
Proof. by split. Qed.

Lemma perform_all_inv l s : Forall orderly l -> inv s ->
  exists s', perform_all l s = Ok s' /\ inv s'.
Proof.
  revert s. induction l as [|a l IH]; intros s Hl H; [by exists s|].
  inversion_clear Hl as [|? ? Ha Hl']. cbn [perform_all].
  destruct (perform_inv a s Ha H) as (s1 & -> & H1). cbn [exec_bind]. by apply IH.
Qed.

(** C10 (safety). As long as no signal interrupts a process that waits for
    its own transmission, files can be opened, closed, written, given
    priorities, preempt each other and be interrupted in any order, with
    transmit and receive interrupts in between: freed connections are never
    touched, and every write returns the number of bytes of its message that
    the hardware was given, which are the beginning of the message, also
    when a file of higher priority takes the line before the end. *)
Theorem writes_report_what_was_sent (l : list action) (d : D) (refs : Z) :
  Forall orderly l -> exists s, perform_all l (start d refs) = Ok s /\
    forall r, r ∈ writes s -> wr_ret r = zlen (wr_got r) /\ exists rest, wr_msg r = wr_got r ++ rest.
Proof.
  intros Hl. destruct (perform_all_inv l _ Hl (start_inv d refs)) as (s & E & H).
  exists s. split; [done|]. intros r Hr. pose proof (inv_writes _ H) as W.
  rewrite Forall_forall in W. destruct (W r Hr) as [W1 W2]. split; [done|].
  exists (drop (length (wr_got r)) (wr_msg r)). rewrite W2 at 1. by rewrite take_drop.
Qed.

(** The signal excluded above: when a process is interrupted
    while it waits for its transmission and then closes the file, the
    instance still refers to the freed connection, and the next transmit
    interrupt uses it. *)
Theorem interrupted_sender_used_after_free (p : nat) (s : sys D) :
  inv s -> tx_connection (inst (su s)) = Some p ->
  perform_all [ASignalSending p; AClose false false p; ATxQueued] s = UseAfterFree.
Proof.
  intros H Ht. destruct (inv_sender_conn s p H Ht) as (msg & got & c & Hp & Hc & _).
  cbn [perform_all perform]. rewrite Hp. cbn [exec_bind goto pcs su]. rewrite lookup_insert_eq.
  destruct (close_spec false false p c (su s) Hc) as (r & u' & E & Ht' & Hc' & _).
  rewrite E. cbn [exec_bind su]. rewrite Ht in Ht'. simpl in Hc'.
  assert (Hp' : conns u' !! p = None) by (by rewrite Hc', lookup_delete_eq).
  unfold generic_raw_uart_tx_queued, generic_raw_uart_tx_queued_unlocked. cbn [tx_loop].
  destruct (negb _); [cbn; by rewrite Ht', Hp'|].
  destruct (isready_for_tx (drv u')) as [[] d']; cbn; by rewrite Ht', Hp'.
Qed.

(** ** Who gets the line *)

Inductive handover (s s' : sys D) (q : nat) : Prop :=
| KeepsLine : tx_connection (inst (su s')) = Some q -> handover s s' q
| Preempted p cq c : tx_connection (inst (su s')) = Some p ->
    conns (su s) !! q = Some cq -> conns (su s) !! p = Some c -> priority cq < priority c ->
    handover s s' q
| Finished c : tx_connection (inst (su s')) = None ->
    conns (su s') !! q = Some c -> unsent c = 0 -> handover s s' q.

Lemma acquire_handover p s s' q : inv s -> tx_connection (inst (su s)) = Some q ->
  perform (AAcquire p) s = Ok s' -> handover s s' q.
Proof.
  intros H Ht. cbn [perform]. destruct (pcs s !! p) as [[|msg|]|] eqn:Hp;
    try (intros [= <-]; by apply KeepsLine).
  destruct (inv_threads _ H _ _ Hp) as (c & Hc & _).
  destruct (inv_sender_conn s q H Ht) as (qm & qg & cq & _ & Hcq & _).
  unfold generic_raw_uart_acquire_sender. rewrite Ht, Hcq, Hc. cbn [deref exec_bind].
  destruct (Z.ltb_spec (priority cq) (priority c)) as [Hlt|Hge]; cbn [exec_bind].
  - rewrite Z.eqb_refl. intros [= <-]. by eapply (Preempted _ _ _ p cq c).
  - change (0 =? 1) with false. intros [= <-]. by apply KeepsLine.
Qed.

Lemma tx_handover s s' q : inv s -> tx_connection (inst (su s)) = Some q ->
  perform ATxQueued s = Ok s' -> handover s s' q.
Proof.
  intros H Ht. cbn [perform]. unfold generic_raw_uart_tx_queued.
  destruct (inv_sender_conn s q H Ht) as (qm & qg & cq & _ & Hcq & _).
  destruct (tx_queued_result (su s) q cq (inv_uart _ H) Ht Hcq)
    as (n & w & u' & -> & _ & [R1 R2 R3 R4 R5 _ _] & _).
  cbn [exec_bind]. intros [= <-]. rewrite R4 in R5. case_bool_decide as Hn.
  - eapply Finished; cbn [su]; [done|by rewrite R2, lookup_insert_eq|].
    unfold unsent in *. simpl. lia.
  - by apply KeepsLine.
Qed.

(** C11 (safety). The line changes hands in two ways only: the sender's
    message is complete, or a waiting file whose priority is strictly higher
    takes it over.  Whatever else happens, opening and closing of other
    files included, the sender keeps it. *)
Theorem line_handover (a : action) (s s' : sys D) (q : nat) :
  inv s -> orderly a -> tx_connection (inst (su s)) = Some q ->
  perform a s = Ok s' -> handover s s' q.
Proof.
  intros H Ho Ht E. destruct a; simpl in Ho; try done.
  - subst oom. cbn [perform] in E. destruct (conns (su s) !! p); [injection E as <-; by apply KeepsLine|].
    destruct (open_spec mod_ok intr p (su s)) as (r & u' & E' & Ht' & _). rewrite E' in E.
    cbn [exec_bind] in E. injection E as <-. apply KeepsLine. rewrite <- Ht, <- Ht'. by destruct (r =? 0).
  - cbn [perform] in E. destruct (pcs s !! p) as [[]|] eqn:Hp; try (injection E as <-; by apply KeepsLine).
    destruct (inv_threads _ H _ _ Hp) as (c & Hc & _).
    destruct (close_spec intr1 intr2 p c (su s) Hc) as (r & u' & E' & Ht' & _). rewrite E' in E.
    cbn [exec_bind] in E. injection E as <-. apply KeepsLine. by rewrite <- Ht, <- Ht'.
  - cbn [perform] in E. destruct (pcs s !! p) as [[]|] eqn:Hp; try (injection E as <-; by apply KeepsLine).
    apply exec_bind_ok in E as ([r u'] & E1 & E2). injection E2 as <-. apply KeepsLine.
    assert (Hi : inst u' = inst (su s)).
    { unfold write_begin in E1. apply exec_bind_ok in E1 as (c & _ & E1).
      repeat case_match; by simplify_eq. }
    rewrite <- Ht, <- Hi. by destruct r.
  - by eapply acquire_handover.
  - cbn [perform] in E. destruct (pcs s !! p) as [[]|] eqn:Hp; try (injection E as <-; by apply KeepsLine).
    destruct (generic_raw_uart_send_completed p (su s)); [|injection E as <-; by apply KeepsLine].
    apply exec_bind_ok in E as (r & _ & E). injection E as <-. by apply KeepsLine.
  - cbn [perform] in E. destruct (pcs s !! p) as [[]|]; injection E as <-; by apply KeepsLine.
  - cbn [perform] in E. destruct (pcs s !! p) as [[]|]; try (injection E as <-; by apply KeepsLine).
    apply exec_bind_ok in E as (c & _ & E). injection E as <-. by apply KeepsLine.
  - by eapply tx_handover.
  - injection E as <-. apply KeepsLine. rewrite <- Ht. apply handle_rx_char_sender.
  - cbn [perform] in E. pose proof (read_sender intr nonblock fault count (inst (su s))) as R.
    destruct (generic_raw_uart_read _ _ _ _ _) as [[o d] i]. injection E as <-.
    apply KeepsLine. by rewrite <- Ht, <- R.
  - cbn [perform] in E. pose proof (reset_keeps intr max_open_count (su s)) as R.
    destruct (generic_raw_uart_reset_radio_module _ _ _) as [[r acts] u']. injection E as <-.
    destruct R as [_ R]. apply KeepsLine. cbn [with_su su]. by rewrite R.
  - injection E as <-. by apply KeepsLine.
Qed.

(** ** How many files are open *)

(** The operations on open files neither create nor free connections. *)
Definition same_files (u u' : uart D) : Prop :=
  dom (conns u') = dom (conns u) /\ open_count (inst u') = open_count (inst u).

Lemma same_files_trans u1 u2 u3 : same_files u1 u2 -> same_files u2 u3 -> same_files u1 u3.
Proof. unfold same_files. intros [-> ->] [-> ->]. done. Qed.

Lemma dom_update (m : gmap nat conn) p c c' : m !! p = Some c -> dom (<[p := c']> m) = dom m.
Proof. intros H. apply dom_insert_lookup_L. by exists c. Qed.

Lemma tx_loop_files fuel cnt u u' : tx_loop fuel cnt u = Ok u' -> same_files u u'.
Proof.
  revert cnt u. induction fuel as [|fuel IH]; intros cnt u; [done|]. cbn [tx_loop].
  destruct (negb _); [by intros [= <-]|].
  destruct (isready_for_tx (drv u)) as [[] d]; [|by intros [= <-]]. cbn [negb].
  destruct (tx_connection _) as [p|]; [|by intros [= <-]].
  intros (c & Hc & E)%exec_bind_ok. apply deref_ok in Hc.
  destruct (_ <? _); [|by injection E as <-].
  eapply same_files_trans; [|by eapply IH]. split; [by apply (dom_update _ _ c)|done].
Qed.

Lemma tx_queued_files u w u' : generic_raw_uart_tx_queued_unlocked u = Ok (w, u') ->
  same_files u u'.
Proof.
  intros (u1 & E & E')%exec_bind_ok. apply tx_loop_files in E.
  destruct (tx_connection (inst u1)) as [p|]; [|by injection E' as <- <-].
  apply exec_bind_ok in E' as (c & _ & E').
  destruct (_ <=? _); injection E' as <- <-; [|done]. by eapply same_files_trans.
Qed.

Lemma acquire_files p u r w u' : generic_raw_uart_acquire_sender p u = Ok (r, w, u') ->
  same_files u u'.
Proof.
  unfold generic_raw_uart_acquire_sender. destruct (tx_connection (inst u)) as [q|].
  - intros (cq & _ & (c & _ & E)%exec_bind_ok)%exec_bind_ok.
    by destruct (priority cq <? priority c); injection E as <- <- <-.
  - intros ([w' u1] & E & [= <- <- <-])%exec_bind_ok. apply tx_queued_files in E.
    by eapply same_files_trans.
Qed.

Lemma write_begin_files intr copy data p u r u' : write_begin intr copy data p u = Ok (r, u') ->
  same_files u u'.
Proof.
  intros (c & Hc & E)%exec_bind_ok. apply deref_ok in Hc.
  cbv zeta in E. repeat case_match; simplify_eq; split; try done; by apply (dom_update _ _ c).
Qed.

Lemma handle_rx_char_count f d i :
  open_count (generic_raw_uart_handle_rx_char f d i) = open_count i.
Proof. unfold generic_raw_uart_handle_rx_char. repeat case_match; done. Qed.
Lemma read_count intr nb fl n i :
  open_count (generic_raw_uart_read intr nb fl n i).2 = open_count i.
Proof. unfold generic_raw_uart_read. repeat case_match; by simplify_eq. Qed.

Definition files_ok (u : uart D) : Prop :=
  Z.of_nat (size (dom (conns u))) <= open_count (inst u) <= MAX_CONNECTIONS.

Lemma same_files_ok u u' : same_files u u' -> files_ok u -> files_ok u'.
Proof. unfold files_ok. by intros [-> ->]. Qed.

Lemma open_files mod_ok intr oom p u r u' : conns u !! p = None -> files_ok u ->
  generic_raw_uart_open mod_ok intr oom p u = Ok (r, u') -> files_ok u'.
Proof.
  intros Hp H E. assert (Ho : oom = true -> same_files u u').
  { intros ->. unfold generic_raw_uart_open in E.
    repeat case_match; simpl in *; simplify_eq; done. }
  destruct oom; [by eapply same_files_ok; [apply Ho|]|].
  destruct (open_spec mod_ok intr p u) as (r' & u1 & E' & _ & Hc & Hn & Hm & _).
  rewrite E' in E. injection E as -> ->. unfold files_ok in *. rewrite Hc, Hn.
  destruct (Z.eqb_spec r 0) as [->|]; [|done]. specialize (Hm eq_refl).
  rewrite dom_insert_L, size_union by (apply disjoint_singleton_l, not_elem_of_dom; done).
  rewrite size_singleton. lia.
Qed.

Lemma close_files i1 i2 p u r u' : files_ok u ->
  generic_raw_uart_close i1 i2 p u = Ok (r, u') -> files_ok u'.
Proof.
  intros H E. assert (Hc : is_Some (conns u !! p)).
  { unfold generic_raw_uart_close in E. apply exec_bind_ok in E as (c & Hc & _).
    apply deref_ok in Hc. by exists c. }
  destruct Hc as [c Hc]. destruct (close_spec i1 i2 p c u Hc) as (r' & u1 & E' & _ & Hd & Hn & _).
  rewrite E' in E. injection E as -> ->. unfold files_ok in *. rewrite Hd, Hn.
  destruct i1; simpl; [done|].
  assert (Hs : size (dom (delete p (conns u))) = pred (size (dom (conns u)))).
  { rewrite dom_delete_L, size_difference by
      (apply singleton_subseteq_l, elem_of_dom; by exists c). rewrite size_singleton. lia. }
  assert (Hpos : size (dom (conns u)) <> 0%nat).
  { intros He%size_empty_inv. apply (not_elem_of_empty (C := gset nat) p).
    apply He, elem_of_dom. by exists c. }
  rewrite Hs. destruct i2; simpl; [lia|]. destruct (open_count (inst u) =? 0); lia.
Qed.

Lemma perform_files a s s' : files_ok (su s) -> perform a s = Ok s' -> files_ok (su s').
Proof.
  intros H E. destruct a; cbn [perform] in E.
  - destruct (conns (su s) !! p) eqn:Hp; [by injection E as <-|].
    apply exec_bind_ok in E as ([r u'] & E1 & E2). injection E2 as <-.
    assert (files_ok u') by (by eapply open_files). by destruct (r =? 0).
  - destruct (pcs s !! p) as [[]|]; try by injection E as <-.
    apply exec_bind_ok in E as ([r u'] & E1 & E2). injection E2 as <-. by eapply close_files.
  - destruct (pcs s !! p) as [[]|]; try by injection E as <-.
    apply exec_bind_ok in E as ([r u'] & E1 & E2). injection E2 as <-.
    apply write_begin_files in E1. assert (files_ok u') by (by eapply same_files_ok). by destruct r.
  - destruct (pcs s !! p) as [[]|]; try by injection E as <-.
    apply exec_bind_ok in E as ([[r w] u'] & E1 & E2). injection E2 as <-.
    apply acquire_files in E1. assert (files_ok u') by (by eapply same_files_ok). by destruct (r =? 1).
  - destruct (pcs s !! p) as [[]|]; try by injection E as <-.
    destruct (generic_raw_uart_send_completed p (su s)); [|by injection E as <-].
    apply exec_bind_ok in E as (r & _ & E). by injection E as <-.
  - destruct (pcs s !! p) as [[]|]; by injection E as <-.
  - destruct (pcs s !! p) as [[]|]; by injection E as <-.
  - destruct (pcs s !! p) as [[]|]; try by injection E as <-.
    apply exec_bind_ok in E as (c & Hc & E). apply deref_ok in Hc. injection E as <-.
    eapply same_files_ok; [|done]. split; [by apply (dom_update _ _ c)|done].
  - apply exec_bind_ok in E as ([w u'] & E1 & E2). injection E2 as <-.
    apply tx_queued_files in E1. by eapply same_files_ok.
  - injection E as <-. eapply same_files_ok; [|done]. split; [done|]. apply handle_rx_char_count.
  - pose proof (read_count intr nonblock fault count (inst (su s))) as R.
    destruct (generic_raw_uart_read _ _ _ _ _) as [[o d] i]. injection E as <-.
    eapply same_files_ok; [|done]. by split.
  - pose proof (reset_keeps intr max_open_count (su s)) as R.
    destruct (generic_raw_uart_reset_radio_module _ _ _) as [[r acts] u']. injection E as <-.
    destruct R as [R1 R2]. eapply same_files_ok; [|done]. cbn [with_su su].
    split; [by rewrite R1|by rewrite R2].
  - by injection E as <-.
Qed.

(** Whatever is done to a device, interrupted calls and
    failing allocations included: as long as it survives, it has at most
    [MAX_CONNECTIONS] connections, and [open_count] is never less than their
    number. *)
Theorem connections_bounded (l : list action) (d : D) (refs : Z) (s : sys D) :
  perform_all l (start d refs) = Ok s ->
  Z.of_nat (size (dom (conns (su s)))) <= open_count (inst (su s)) <= MAX_CONNECTIONS.
Proof.
  assert (H : files_ok (su (start d refs))) by (unfold files_ok; simpl; rewrite dom_empty_L; done).
  revert H. generalize (start d refs). induction l as [|a l IH]; intros s0 H E.
  - by injection E as <-.
  - apply exec_bind_ok in E as (s1 & E1 & E2). eapply IH; [|done]. by eapply perform_files.
Qed.

(** ** References to the driver's module *)

Lemma failed_open p u : conns u !! p = None -> connection_state (inst u) = false ->
  drv_owner = true ->
  exists r, generic_raw_uart_open true false false p u
    = Ok (r, with_refs (module_refs u + 1) u) /\ r < 0.
Proof.
  intros Hp Hs Ho. unfold generic_raw_uart_open. rewrite Ho. cbn [andb negb inst with_refs].
  destruct (_ <=? _); [by eexists|]. rewrite Hs. by eexists.
Qed.

(** An open that fails does not give back the reference to the
    driver's module it has taken: while the device is disconnected, every
    attempt to open it adds one, and neither a file nor a connection exists
    whose closing would drop it. *)
Theorem failed_opens_pin_module (n : nat) (p : nat) (s : sys D) :
  conns (su s) !! p = None -> connection_state (inst (su s)) = false -> drv_owner = true ->
  perform_all (replicate n (AOpen true false false p)) s
    = Ok (with_su (with_refs (module_refs (su s) + Z.of_nat n) (su s)) s).
Proof.
  intros Hp Hs Ho. revert s Hp Hs. induction n as [|n IH]; intros s Hp Hs.
  { simpl. rewrite Z.add_0_r. by destruct s as [[] ? ?]. }
  cbn [replicate perform_all perform]. rewrite Hp.
  destruct (failed_open p (su s) Hp Hs Ho) as (r & E & Hr). rewrite E. cbn [exec_bind].
  destruct (Z.eqb_spec r 0); [lia|]. rewrite IH by done.
  unfold with_su, with_refs. simpl. do 3 f_equal. lia.
Qed.
End Sys.

(** ** The theorems on a concrete session *)

(** File 2 has the higher priority and takes the line from file 1. *)
Definition slow_driver : RawUartDriver (list Z) := {|
  drv_owner := true;
  start_connection d := (0, d);
  stop_connection d := d;
  init_tx d := d;
  isready_for_tx d := (true, d);
  tx_chars d l i n := d ++ slice l i n;
  stop_tx d := d;
  get_led_gpio_index := None;
  reset_radio_module := None;
  tx_chunk_size := 2;
  tx_bulktransfer_size := 1;
  get_device_type := None
|}.

Definition slow_driver_ok : RawUartDriverOk (list Z) (DR := slow_driver).
Proof. by refine {| sent (d : list Z) := d : list Z |}. Defined.

Definition two_files : list action :=
  [AConnection true; AOpen true false false 1; AOpen true false false 2; APriority 5 2;
   AWrite false Copied [1; 2; 3; 4] 1; AAcquire 1].
Definition preemption : list action :=
  two_files ++ [AWrite false Copied [9] 2; AAcquire 2; ADone 1; ATxQueued; ADone 2].

Definition session (l : list action) : exec (sys (list Z)) :=
  perform_all (CB := linux_circ) (DO := slow_driver_ok) l (start [] 0).

Definition sending_state : sys (list Z) :=
  match session two_files with Ok s => s | _ => start [] 0 end.

Lemma two_files_orderly : Forall orderly two_files.
Proof. by repeat constructor. Qed.

Lemma sending_state_inv : inv sending_state.
Proof.
  destruct (perform_all_inv (CB := linux_circ) (DO := slow_driver_ok) two_files (start [] 0)
    two_files_orderly (start_inv [] 0)) as (s & E & H).
  unfold sending_state, session. by rewrite E.
Qed.

Lemma writes_report_what_was_sent_witness :
  exists s, session preemption = Ok s /\
    writes s = [WriteRecord 2 1 [9] [9]; WriteRecord 1 2 [1; 2; 3; 4] [1; 2]] /\
    forall r, r ∈ writes s -> wr_ret r = zlen (wr_got r).
Proof.
  destruct (writes_report_what_was_sent (CB := linux_circ) (DO := slow_driver_ok) preemption [] 0)
    as (s & E & H); [by repeat constructor|].
  exists s. split; [done|]. split; [|intros r Hr; by apply H].
  vm_compute in E. by injection E as <-.
Defined.

Lemma interrupted_sender_used_after_free_witness :
  tx_connection (inst (su sending_state)) = Some 1%nat /\
  perform_all (CB := linux_circ) (DO := slow_driver_ok)
    [ASignalSending 1; AClose false false 1; ATxQueued] sending_state = UseAfterFree.
Proof.
  split; [by vm_compute|].
  apply (interrupted_sender_used_after_free (CB := linux_circ) (DO := slow_driver_ok) 1
    sending_state sending_state_inv). by vm_compute.
Defined.

Lemma line_handover_witness :
  exists s', perform (CB := linux_circ) (DO := slow_driver_ok) (APriority 7 2) sending_state = Ok s' /\
    handover sending_state s' 1.
Proof.
  destruct (perform (CB := linux_circ) (DO := slow_driver_ok) (APriority 7 2) sending_state)
    as [s'| | | |] eqn:E; [|by vm_compute in E..].
  exists s'. split; [done|].
  apply (line_handover (CB := linux_circ) (DO := slow_driver_ok) (APriority 7 2) sending_state s' 1
    sending_state_inv I); [by vm_compute|done].
Defined.

Lemma connections_bounded_witness :
  Z.of_nat (size (dom (conns (su sending_state)))) <= open_count (inst (su sending_state)) <= 3.
Proof.
  apply (connections_bounded (CB := linux_circ) (DO := slow_driver_ok) two_files [] 0).
  by vm_compute.
Defined.

Lemma failed_opens_pin_module_witness :
  exists s, session (replicate 5 (AOpen true false false 1)) = Ok s /\ module_refs (su s) = 5.
Proof.
  unfold session.
  rewrite (failed_opens_pin_module (CB := linux_circ) (DO := slow_driver_ok) 5 1 (start [] 0)
    eq_refl eq_refl eq_refl). by eexists.
Defined.
