(* ===== verification/RawUartAdmin.v ===== *)
(** The generic raw UART driver: device numbers and the device description.

    The table [active_devices] gives every instance the lowest free number; the
    theorems follow it through probes that succeed and fail, and look at what
    the description ioctl copies to the user. *)
From S2P Require Import Prelude Kernel Ring RawUart RawUartTx.

(** Free slots of the table. *)
Definition free_slots (l : list bool) : nat := length (List.filter negb l).

Lemma take_slot_spec l k : take_slot l k =
  match list_find (fun b => b = false) l with
  | Some (i, _) => (Some (k + i)%nat, <[i := true]> l)
  | None => (None, l)
  end.
Proof.
  revert k. induction l as [|b l IH]; intros k; [done|]. simpl. destruct b; simpl.
  - rewrite IH. destruct (list_find _ l) as [[i x]|]; simpl; [|done].
    do 2 f_equal. lia.
  - by rewrite Nat.add_0_r.
Qed.

Lemma free_slots_find l : free_slots l <> 0%nat ->
  exists i, list_find (fun b => b = false) l = Some (i, false).
Proof.
  induction l as [|b l IH]; [done|]. unfold free_slots. simpl. destruct b; simpl.
  - intros H. destruct (IH H) as [i E]. exists (S i). by rewrite E.
  - by exists 0%nat.
Qed.

Lemma find_free_slots l i b : list_find (fun b => b = false) l = Some (i, b) ->
  free_slots (<[i := true]> l) = pred (free_slots l) /\ free_slots l <> 0%nat.
Proof.
  revert i. induction l as [|c l IH]; intros i; [done|]. unfold free_slots in *. simpl. destruct c; simpl.
  - destruct (list_find _ l) as [[j x]|] eqn:E; simpl; [|done]. intros [= <- <-]. simpl. by apply IH.
  - intros [= <- <-]. done.
Qed.

Lemma full_take_slot l k : free_slots l = 0%nat -> take_slot l k = (None, l).
Proof.
  intros H. rewrite take_slot_spec. destruct (list_find _ l) as [[i b]|] eqn:E; [|done].
  by apply find_free_slots in E as [_ ?].
Qed.

Section Probing.
Context `{CB : CircBuf} {D : Type} `{DR : RawUartDriver D}.
Context (gpio_reset gpio_led : Z -> Z).

Abbreviation probe := (generic_raw_uart_probe gpio_reset gpio_led).

(** The RTC lookup does not stand in the way. *)
Definition rtc_ready (e : rtc_env) : Prop := (generic_raw_uart_probe_rtc_device e).1 = 0.

(** A probe whose environment cooperates gives the device
    the lowest free number, or fails when all are taken; the instance starts
    with empty buffers, no open file, no sender and its counters at 0, and
    counts as connected.  Removing it frees the number again, but each such
    cycle leaves one more receive buffer allocated. *)
Theorem probe_then_remove (e : rtc_env) (intr : bool) (refs : Z) (d : D) (g : registry) :
  rtc_ready e ->
  match list_find (fun b => b = false) (active_devices g) with
  | None => probe e false 0 0 intr refs d g = (ProbeErr (- EFAULT), g)
  | Some (i, _) => exists u,
      probe e false 0 0 intr refs d g
        = (Probed i u, Registry (<[i := true]> (active_devices g)) (rx_allocs g + 1)) /\
      connection_state (inst u) = true /\ open_count (inst u) = 0 /\
      tx_connection (inst u) = None /\ conns u = ∅ /\
      contents CIRCBUF_SIZE (rxbuf (inst u)) = [] /\
      generic_raw_uart_remove i (probe e false 0 0 intr refs d g).2
        = Registry (active_devices g) (rx_allocs g + 1)
  end.
Proof.
  unfold rtc_ready, generic_raw_uart_probe. intros He.
  destruct (generic_raw_uart_probe_rtc_device e) as [err alt]. simpl in He. subst err.
  change (negb (0 =? 0)) with false. cbv iota beta. rewrite take_slot_spec.
  destruct (list_find _ (active_devices g)) as [[i b]|] eqn:E; [|by destruct g].
  change (negb (0 =? 0)) with false. cbv iota beta zeta. set (i0 := set_led_pins _ _ _ _).
  assert (Hi0 : open_count i0 = 0 /\ tx_connection i0 = None /\
                contents CIRCBUF_SIZE (rxbuf i0) = []) by (by unfold i0; destruct reset_radio_module).
  clearbody i0. set (u0 := Uart i0 ∅ d refs).
  assert (R : forall acts r u', generic_raw_uart_reset_radio_module intr 0 u0 = (r, acts, u') ->
    inst u' = i0 /\ conns u' = ∅).
  { intros acts r u'. unfold generic_raw_uart_reset_radio_module.
    repeat case_match; intros; by simplify_eq. }
  destruct (generic_raw_uart_reset_radio_module intr 0 u0) as [[r acts] u'].
  destruct (R _ _ _ eq_refl) as [R1 R2]. cbn [plus]. eexists. split; [done|].
  cbn [on_inst inst conns]. rewrite R1, R2. destruct Hi0 as (H1 & H2 & H3).
  split; [done|]. split; [done|]. split; [done|]. split; [done|]. split; [done|].
  unfold generic_raw_uart_remove. cbn [active_devices rx_allocs snd]. f_equal.
  rewrite list_insert_insert_eq. apply list_insert_id.
  apply list_find_Some in E as (E1 & E2 & _). by subst.
Qed.

(** A probe that fails after a number was taken. *)
Inductive probe_failure := NoMemory | CdevAdd (err : Z) | DeviceCreate (err : Z).

Definition failing_probe (f : probe_failure) (e : rtc_env) (refs : Z) (d : D) (g : registry)
    : probe_result * registry :=
  match f with
  | NoMemory => probe e true 0 0 false refs d g
  | CdevAdd err => probe e false err 0 false refs d g
  | DeviceCreate err => probe e false 0 err false refs d g
  end.

Definition failure_code (f : probe_failure) : Z :=
  match f with NoMemory => - ENOMEM | CdevAdd err | DeviceCreate err => err end.

Lemma failing_probe_spec f e refs d g : rtc_ready e -> failure_code f <> 0 ->
  (failing_probe f e refs d g).2 = Registry (take_slot (active_devices g) 0).2 (rx_allocs g).
Proof.
  unfold rtc_ready, failing_probe, generic_raw_uart_probe. intros He Hf.
  destruct (generic_raw_uart_probe_rtc_device e) as [err alt]. simpl in He. subst err.
  rewrite take_slot_spec. destruct (list_find _ _) as [[i b]|], f; simpl; try (by destruct g);
    simpl in Hf; apply Z.eqb_neq in Hf; by rewrite Hf.
Qed.

(** A probe that fails after it has taken a number keeps it:
    as many failing probes as there are free numbers, and every later probe
    fails although no device exists. *)
Theorem failed_probes_exhaust (fs : list probe_failure) (e : rtc_env) (refs : Z) (d : D)
    (intr : bool) (g : registry) :
  rtc_ready e -> Forall (fun f => failure_code f <> 0) fs ->
  (free_slots (active_devices g) <= length fs)%nat ->
  let g' := fold_left (fun g f => (failing_probe f e refs d g).2) fs g in
  probe e false 0 0 intr refs d g' = (ProbeErr (- EFAULT), g').
Proof.
  intros He Hfs Hn. cbv zeta.
  assert (Hfull : free_slots (active_devices
    (fold_left (fun g f => (failing_probe f e refs d g).2) fs g)) = 0%nat).
  { revert g Hn. induction fs as [|f fs IH]; intros g Hn; [simpl in *; lia|].
    inversion_clear Hfs as [|? ? Hf Hfs']. cbn [fold_left]. apply (IH Hfs').
    rewrite failing_probe_spec by done. cbn [active_devices].
    destruct (Nat.eq_dec (free_slots (active_devices g)) 0) as [E|E].
    - rewrite full_take_slot by done. simpl in *. lia.
    - destruct (free_slots_find _ E) as [i Ei]. rewrite take_slot_spec, Ei. simpl in *.
      destruct (find_free_slots _ _ _ Ei) as [-> _]. lia. }
  set (g' := fold_left _ _ _) in *. clearbody g'. unfold rtc_ready, generic_raw_uart_probe in *.
  destruct (generic_raw_uart_probe_rtc_device e) as [err alt]. simpl in He. subst err.
  change (negb (0 =? 0)) with false. cbv iota beta. by rewrite full_take_slot by done.
Qed.

(** The reply is the description with its terminating zero, then whatever the
    buffer held before. *)
Definition discloses (text stale reply : list Z) : Prop :=
  zlen reply = MAX_DEVICE_TYPE_LEN /\
  take (length text) reply = text /\ reply !! length text = Some 0 /\
  forall i, (length text < i)%nat -> reply !! i = stale !! i.

(** The description ioctl copies its whole buffer to the user
    and fills only the beginning: the bytes after the terminating zero are
    what the allocator left in the buffer. *)
Theorem devinfo_discloses_heap (p : nat) (c : conn) (u : uart D) (ua : user_access)
    (arg : Z) (t lt : termios) (stale : list Z) (parent : Z * list Z) :
  conns u !! p = Some c -> ua_ok ua = true -> ua_left ua = 0 ->
  zlen stale = MAX_DEVICE_TYPE_LEN ->
  let (ret, text) := generic_raw_uart_get_device_type parent u in
  0 < ret -> zlen text < MAX_DEVICE_TYPE_LEN ->
  exists reply,
    generic_raw_uart_ioctl false false false ua IOCTL_IOCGDEVINFO arg t lt stale parent p u
      = Ok (0, UBytes reply, u) /\
    discloses text stale reply.
Proof.
  intros Hp Hok Hleft Hs. destruct (generic_raw_uart_get_device_type parent u) as [ret text] eqn:Ed.
  intros Hret Htext. exists (splice stale 0 (text ++ [0])).
  assert (Hl : zlen (text ++ [0]) <= zlen stale)
    by (rewrite zlen_app; change (zlen [0]) with 1; lia).
  unfold generic_raw_uart_ioctl. rewrite Hp. cbn [deref exec_bind]. rewrite !bool_decide_false by done.
  rewrite bool_decide_true by done. rewrite Hok, Hleft, Ed, Z.eqb_refl.
  destruct (Z.ltb_spec 0 ret); [|lia]. split; [done|]. split.
  { unfold zlen. rewrite length_splice by lia. done. }
  split.
  { unfold splice. simpl. rewrite <- app_assoc. by rewrite take_app_length. }
  split.
  { rewrite lookup_splice by lia. rewrite decide_True by (rewrite length_app; simpl; lia).
    rewrite Z2Nat.inj_0, Nat.sub_0_r. by rewrite list_lookup_middle. }
  intros i Hi. rewrite lookup_splice by lia. rewrite decide_False; [done|].
  rewrite length_app. simpl. lia.
Qed.
End Probing.

(** ** The theorems on concrete devices *)

Definition no_rtc : rtc_env := Build_rtc_env false false false false false.
Definition two_taken : registry := Registry [true; false; true; false; false] 2.

Lemma probe_then_remove_witness :
  exists u, generic_raw_uart_probe (DR := log_driver) (fun _ => 17) (fun i => i) no_rtc false 0 0
      false 0 [] two_taken = (Probed 1 u, Registry [true; true; true; false; false] 3) /\
    contents CIRCBUF_SIZE (rxbuf (inst u)) = [].
Proof.
  destruct (probe_then_remove (DR := log_driver) (fun _ => 17) (fun i => i) no_rtc false 0 []
    two_taken eq_refl) as (u & H1 & _ & _ & _ & _ & H2 & _).
  by exists u.
Defined.

Lemma failed_probes_exhaust_witness :
  let g' := Registry (replicate 5 true) 2 in
  generic_raw_uart_probe (DR := log_driver) (fun _ => 17) (fun i => i) no_rtc false 0 0 false 0 []
    g' = (ProbeErr (- EFAULT), g').
Proof.
  apply (failed_probes_exhaust (DR := log_driver) (fun _ => 17) (fun i => i)
    [NoMemory; CdevAdd (- EBUSY); DeviceCreate (- ENOMEM)] no_rtc 0 [] false two_taken).
  - done.
  - by repeat constructor.
  - vm_compute. lia.
Defined.

(** What an allocation may hold from its previous use. *)
Definition secret : list Z := replicate 64 83.

Lemma devinfo_discloses_heap_witness :
  exists reply, generic_raw_uart_ioctl (CB := linux_circ) (DR := log_driver) false false false
      (Build_user_access true 0) IOCTL_IOCGDEVINFO 0 zero_termios zero_termios secret
      (3, [65; 66; 67]) 1 one_file = Ok (0, UBytes reply, one_file) /\
    reply !! 4%nat = Some 83 /\ reply !! 63%nat = Some 83.
Proof.
  destruct (devinfo_discloses_heap (CB := linux_circ) (DR := log_driver) 1 new_conn one_file
    (Build_user_access true 0) 0 zero_termios zero_termios secret (3, [65; 66; 67])
    eq_refl eq_refl eq_refl eq_refl) as (reply & H1 & _ & _ & _ & H2); [done..|].
  exists reply. split; [done|]. by rewrite !H2 by (simpl; lia).
Defined.
