(* ===== verification/RawUartSysfs.v ===== *)
(** The generic raw UART driver: what user space reads and writes in sysfs
    (the attributes of src/kernel/generic_raw_uart.c), and the look-ups of the
    probe that end in them.

    [sprintf_d] is [%d] of the kernel's [sprintf]; [KernelText] has what the
    kernel makes of texts that are written.  The attributes say what is so in
    every state a run of the device can reach ([attributes_tell_truth]). *)
From S2P Require Import Prelude Kernel Ring RawUart RawUartTx RawUartSys.

(** ** Texts *)

(** [kstrtobool] behind [strim], and [kstrtoint], as far as documented: a
    number printed with a line feed behind it is read back; "on" and
    "off" are words of a truth value. *)
Class KernelText := {
  sprintf_d : Z -> list Z;
  kstrtoint : list Z -> option Z;
  kstrtobool : list Z -> option bool;
  line_read n : 0 <= n < 2 ^ 31 -> kstrtoint (sprintf_d n ++ [10]) = Some n;
  bool_on : kstrtobool [0x6f; 0x6e] = Some true;
  bool_off : kstrtobool [0x6f; 0x66; 0x66] = Some false
}.

(** ** Look-ups *)

(** What [gpiod_get_index] answers: [NULL], an error, or a descriptor, by the
    number [desc_to_gpio] gives it. *)
Inductive gpio_answer := NoGpio | GpioErr (e : Z) | Gpio (n : Z).

(** The pin, and the descriptors that are still held. *)
Definition generic_raw_uart_get_gpio_index (a : gpio_answer) : Z * Z :=
  match a with
  | NoGpio | GpioErr _ => (0, 0)
  | Gpio n => let held := 1 in let res := n in let held := held - 1 in (res, held)
  end.

(** A device below an adapter: [None] when it is not an I2C client. *)
Definition __match_i2c_client_by_address (addr : Z) (client : option Z) : bool :=
  match client with Some a => a =? addr | None => false end.

(** [device_find_child] gives the first child that matches; the code gives the
    reference to it back before it uses it. *)
Fixpoint i2c_find_client (children : list (option Z)) (addr : Z) : option nat :=
  match children with
  | [] => None
  | c :: children => if __match_i2c_client_by_address addr c then Some 0%nat else S <$> i2c_find_client children addr
  end.

(** ** Attributes *)

Section Attributes.
Context `{CB : CircBuf} {D : Type} `{DO : RawUartDriverOk D} `{KT : KernelText}.

Definition printed (l : list Z) : Z * list Z := (zlen l, l).

Definition red_gpio_pin_show (i : instance) : Z * list Z := printed (sprintf_d (red_pin i) ++ [10]).
Definition green_gpio_pin_show (i : instance) : Z * list Z := printed (sprintf_d (green_pin i) ++ [10]).
Definition blue_gpio_pin_show (i : instance) : Z * list Z := printed (sprintf_d (blue_pin i) ++ [10]).
Definition dump_traffic_show (i : instance) : Z * list Z :=
  printed (if dump_traffic i then [0x6f; 0x6e] else [0x6f; 0x66; 0x66]).
Definition open_count_show (i : instance) : Z * list Z := printed (sprintf_d (open_count i) ++ [10]).
Definition connection_state_show (i : instance) : Z * list Z := printed (sprintf_d (b2z (connection_state i)) ++ [10]).

(** The attributes that can be read. *)
Inductive attribute := RedPin | GreenPin | BluePin | DumpTraffic | OpenCount | ConnectionState.

Definition show (a : attribute) : instance -> Z * list Z :=
  match a with
  | RedPin => red_gpio_pin_show
  | GreenPin => green_gpio_pin_show
  | BluePin => blue_gpio_pin_show
  | DumpTraffic => dump_traffic_show
  | OpenCount => open_count_show
  | ConnectionState => connection_state_show
  end.

Definition value (a : attribute) (i : instance) : Z :=
  match a with
  | RedPin => red_pin i
  | GreenPin => green_pin i
  | BluePin => blue_pin i
  | DumpTraffic => b2z (dump_traffic i)
  | OpenCount => open_count i
  | ConnectionState => b2z (connection_state i)
  end.

(** A write to an attribute; the text goes through [strim] and [kstrtobool]. *)
Inductive stored := DumpWrite (text : list Z) | ResetWrite (text : list Z) (intr : bool).

Definition store (w : stored) (u : uart D) : Z * list gpio_action * uart D :=
  match w with
  | DumpWrite text =>
    let (r, i) := dump_traffic_store (kstrtobool text) (zlen text) (inst u) in (r, [], on_inst (fun _ => i) u)
  | ResetWrite text intr => reset_radio_module_store (kstrtobool text) intr (zlen text) u
  end.

(** Reading a text back: a truth value for the dump, a number otherwise. *)
Definition reads_back (a : attribute) (text : list Z) : option Z :=
  match a with DumpTraffic => b2z <$> kstrtobool text | _ => kstrtoint text end.

Lemma dump_written text b u : kstrtobool text = Some b ->
  store (DumpWrite text) u = (zlen text, [], on_inst (set_dump_traffic b) u).
Proof. intros E. cbn. by rewrite E. Qed.

Lemma shown_reads_back a i : 0 <= value a i < 2 ^ 31 -> reads_back a (show a i).2 = Some (value a i).
Proof.
  destruct a; cbn; intros H; try by apply line_read.
  destruct (dump_traffic i); by rewrite ?bool_on, ?bool_off.
Qed.

(** In every state a run of a device can reach: each attribute
    prints a text from which its value is read back; the count of open files it
    tells is at least the number of files that are open, and at most three;
    writing back what the dump attribute shows changes nothing, and what is
    written to it is what it shows next; and a reset through sysfs is refused
    with [-EBUSY], and changes nothing, while any file is open. *)
Theorem attributes_tell_truth (l : list action) (d : D) (refs : Z) (s : sys D) (b : bool) (text : list Z) :
  perform_all l (start d refs) = Ok s -> kstrtobool text = Some b ->
  let i := inst (su s) in
  (forall a, 0 <= value a i < 2 ^ 31 -> (show a i).1 = zlen (show a i).2 /\ reads_back a (show a i).2 = Some (value a i)) /\
  (exists n, kstrtoint (open_count_show i).2 = Some n /\ Z.of_nat (size (dom (conns (su s)))) <= n <= MAX_CONNECTIONS) /\
  (store (DumpWrite (dump_traffic_show i).2) (su s)).2 = su s /\
  (store (DumpWrite text) (su s)).1 = (zlen text, []) /\
  kstrtobool (dump_traffic_show (inst (store (DumpWrite text) (su s)).2)).2 = Some b /\
  (conns (su s) <> ∅ -> kstrtobool text = Some true ->
   store (ResetWrite text false) (su s) = (- EBUSY, [], su s)).
Proof.
  intros E Hb i. pose proof (connections_bounded l d refs s E) as C. fold i in C. change MAX_CONNECTIONS with 3 in *.
  split_and!.
  - intros a Ha. split; [by destruct a|]. by apply shown_reads_back.
  - exists (open_count i). split; [|done]. apply line_read. lia.
  - rewrite (dump_written _ (dump_traffic i)) by (cbn; destruct (dump_traffic i); [apply bool_on | apply bool_off]).
    unfold i. by destruct (su s) as [[] ? ? ?].
  - by rewrite (dump_written text b).
  - rewrite (dump_written text b) by done. cbn. destruct b; [apply bool_on | apply bool_off].
  - intros Hc Ht. cbn. unfold reset_radio_module_store, generic_raw_uart_reset_radio_module. rewrite Ht.
    assert (Ho : 0 < open_count i).
    { rewrite size_dom in C. apply map_size_non_empty_iff in Hc. lia. }
    fold i. destruct (Z.ltb_spec 0 (open_count i)); [done | lia].
Qed.
End Attributes.

(** A device found below an adapter has the address, and none before it has. *)
Lemma client_found children addr k : i2c_find_client children addr = Some k ->
  children !! k = Some (Some addr) /\ forall j, (j < k)%nat -> children !! j <> Some (Some addr).
Proof.
  revert k. induction children as [|c children IH]; intros k; [done|]. cbn.
  destruct (__match_i2c_client_by_address addr c) eqn:E.
  - intros [= <-]. split; [|intros; lia]. destruct c as [a|]; [|done]. cbn in *. f_equal. f_equal. lia.
  - destruct (i2c_find_client children addr) as [k'|]; [|done]. intros [= <-]. destruct (IH k' eq_refl) as [H1 H2].
    split; [done|]. intros [|j] Hj; cbn; [|apply H2; lia]. intros [= ->]. cbn in E. lia.
Qed.

(** ** A kernel, and a device with two open files *)

Module SysfsSamples.

(** Decimal digits, at most [fuel]. *)
Fixpoint decimal (fuel : nat) (n : Z) : list Z :=
  match fuel with
  | O => []
  | S fuel => (if n / 10 =? 0 then [] else decimal fuel (n / 10)) ++ [48 + n mod 10]
  end.

(** More texts are taken for numbers than the kernel takes. *)
Definition next_digit (n c : Z) : Z := if c =? 10 then n else 10 * n + (c - 48).
Definition number (l : list Z) : Z := fold_left next_digit l 0.

Lemma number_decimal fuel n : 0 <= n < 10 ^ Z.of_nat fuel -> (0 < fuel)%nat -> number (decimal fuel n) = n.
Proof.
  revert n. induction fuel as [|fuel IH]; intros n Hn Hf; [lia|]. cbn [decimal]. unfold number in *.
  rewrite Nat2Z.inj_succ, Z.pow_succ_r in Hn by lia. rewrite fold_left_app. cbn [fold_left].
  assert (E : fold_left next_digit (if n / 10 =? 0 then [] else decimal fuel (n / 10)) 0 = n / 10).
  { destruct (Z.eqb_spec (n / 10) 0) as [->|N]; [done|]. destruct fuel as [|f].
    - change (10 ^ Z.of_nat 0) with 1 in Hn. exfalso. apply N. apply Z.div_small. lia.
    - apply IH; [|lia]. split; [apply Z.div_pos; lia | apply Z.div_lt_upper_bound; lia]. }
  rewrite E. unfold next_digit. destruct (Z.eqb_spec (48 + n mod 10) 10); zdiv_lia.
Qed.

Program Definition some_kernel : KernelText := {|
  sprintf_d := decimal 10;
  kstrtoint := fun l => Some (number l);
  kstrtobool := fun l => if bool_decide (l = [0x6f; 0x6e]) then Some true else
    if bool_decide (l = [0x6f; 0x66; 0x66]) then Some false else None
|}.
Next Obligation.
  intros n Hn. unfold number. rewrite fold_left_app. fold (number (decimal 10 n)). rewrite number_decimal; [done| |lia].
  change (10 ^ Z.of_nat 10) with 10000000000. lia.
Qed.
Next Obligation. done. Qed.
Next Obligation. done. Qed.

(** Two files are open; the dump is switched on, and a reset refused. *)
Lemma attributes_tell_truth_witness : exists s, session two_files = Ok s /\
  (open_count_show (KT := some_kernel) (inst (su s))).2 = [50; 10] /\
  (store (DR := slow_driver) (KT := some_kernel) (ResetWrite [0x6f; 0x6e] false) (su s)).1 = (- EBUSY, []) /\
  kstrtobool (KernelText := some_kernel)
    (dump_traffic_show (inst (store (DR := slow_driver) (KT := some_kernel) (DumpWrite [0x6f; 0x6e]) (su s)).2)).2 = Some true.
Proof.
  assert (H : exists s, session two_files = Ok s /\ conns (su s) <> ∅ /\
    (open_count_show (KT := some_kernel) (inst (su s))).2 = [50; 10]).
  { eexists. split; [vm_compute; reflexivity|]. split; [intros N; apply (f_equal (fun m => m !! 1%nat)) in N; by vm_compute in N | by vm_compute]. }
  destruct H as (s & E & N & O). exists s. split; [exact E|]. split; [exact O|].
  destruct (attributes_tell_truth (CB := linux_circ) (DO := slow_driver_ok) (KT := some_kernel)
    two_files [] 0 s true [0x6f; 0x6e] E eq_refl) as (_ & _ & _ & _ & D & R).
  split; [by rewrite (R N eq_refl) | exact D].
Defined.
End SysfsSamples.
