(* ===== verification/HmFrame.v ===== *)
(** Frames of the radio module protocol (src/kernel/hm.h).

    A frame is [0xfd], a 16-bit length, a destination, a counter, a command
    and a CRC; on the wire [0xfd] marks the beginning of a frame, so bytes that
    would be mistaken for it are to be escaped with [0xfc]. *)
From S2P Require Import Prelude Kernel.

(** ** The checksum *)

Definition crc_bit (crc : Z) : Z :=
  if negb (Z.land crc 0x8000 =? 0) then Z.lxor (u16 (Z.shiftl crc 1)) 0x8005
  else u16 (Z.shiftl crc 1).

Definition crc_byte (crc b : Z) : Z := Nat.iter 8 crc_bit (u16 (Z.lxor crc (Z.shiftl b 8))).

Definition hm_crc (buf : list Z) (len : Z) : Z :=
  fold_left crc_byte (slice buf 0 len) 0xd77f.

(** ** Frames *)

(** [struct hm_frame]; [cmd] is what follows the pointer [cmd] in its array. *)
Record hm_frame := HmFrame { dst : Z; cnt : Z; cmd : list Z; cmdlen : Z }.

Definition be16 (hi lo : Z) : Z := Z.lor (Z.shiftl hi 8) lo.

Definition tryParseFrame (buf : list Z) (len : Z) : option hm_frame :=
  if len <? 8 then None else
  if negb (buf @@ 0 =? 0xfd) then None else
  let cmdlen := be16 (buf @@ 1) (buf @@ 2) - 2 in
  if negb (u64 (cmdlen + 7) =? len) then None else
  let crc := u16 (be16 (buf @@ (len - 2)) (buf @@ (len - 1))) in
  if negb (crc =? hm_crc buf (len - 2)) then None else
  Some (HmFrame (buf @@ 3) (buf @@ 4) (drop 5 buf) cmdlen).

Definition put (buf : list Z) (i v : Z) : list Z := <[Z.to_nat i := v]> buf.

(** The result is a [size_t], so the error is a huge number. *)
Definition encodeFrame (buf : list Z) (len : Z) (f : hm_frame) : Z * list Z :=
  if len <? u64 (cmdlen f + 7) then (u64 (- EMSGSIZE), buf) else
  let buf := put buf 0 0xfd in
  let buf := put buf 1 (Z.land (Z.shiftr (cmdlen f + 2) 8) 0xff) in
  let buf := put buf 2 (Z.land (cmdlen f + 2) 0xff) in
  let buf := put buf 3 (dst f) in
  let buf := put buf 4 (cnt f) in
  let buf := splice buf 5 (slice (cmd f) 0 (cmdlen f)) in
  let crc := hm_crc buf (cmdlen f + 5) in
  let buf := put buf (cmdlen f + 5) (Z.land (Z.shiftr crc 8) 0xff) in
  let buf := put buf (cmdlen f + 6) (Z.land crc 0xff) in
  (u64 (cmdlen f + 7), buf).

(** ** Escaping

    Both loops read and write through pointers; [dst] is the array written to,
    [ret] the number of bytes written.  [src] holds the bytes from the read
    pointer to the end of its array, [len] the value of the counter: the loops
    read on as long as it is not 0, whether or not [src] has that many bytes. *)

Definition write_byte (dst : list Z) (ret v : Z) : exec (list Z) :=
  if ret <? zlen dst then Ok (put dst ret v) else OutOfBounds.

Fixpoint encodeFrameBuffer_loop (src : list Z) (len : Z) (dst : list Z) (ret : Z)
    : exec (Z * list Z) :=
  if len =? 0 then Ok (ret, dst) else
  let len := len - 1 in
  match src with
  | [] => OutOfBounds
  | cur :: src =>
    if (cur =? 0xfc) || (cur =? 0xfd) && (len =? 1) then
      let? dst := write_byte dst ret 0xfc in
      let? dst := write_byte dst (ret + 1) (Z.land cur 0x7f) in
      encodeFrameBuffer_loop src len dst (ret + 2)
    else
      let? dst := write_byte dst ret cur in
      encodeFrameBuffer_loop src len dst (ret + 1)
  end.

Definition encodeFrameBuffer (src dst : list Z) (len : Z) : exec (Z * list Z) :=
  encodeFrameBuffer_loop src len dst 0.

Fixpoint decodeFrameBuffer_loop (src : list Z) (len : Z) (dst : list Z) (ret : Z)
    : exec (Z * list Z) :=
  if len =? 0 then Ok (ret, dst) else
  let len := len - 1 in
  match src with
  | [] => OutOfBounds
  | cur :: src =>
    if cur =? 0xfc then
      match src with
      | [] => OutOfBounds
      | e :: src =>
        let? dst := write_byte dst ret (Z.lor e 0x80) in
        decodeFrameBuffer_loop src (u64 (len - 1)) dst (ret + 1)
      end
    else
      let? dst := write_byte dst ret cur in
      decodeFrameBuffer_loop src len dst (ret + 1)
  end.

Definition decodeFrameBuffer (src dst : list Z) (len : Z) : exec (Z * list Z) :=
  decodeFrameBuffer_loop src len dst 0.

(** ** The checksum separates frames *)

(** A step can be undone: the lowest bit tells which branch was taken. *)
Definition crc_unbit (c : Z) : Z :=
  if Z.odd c then Z.lor (Z.shiftr (Z.lxor c 0x8005) 1) 0x8000 else Z.shiftr c 1.

Lemma crc_unbit_bit c : 0 <= c < 2 ^ 16 -> crc_unbit (crc_bit c) = c.
Proof.
  intros Hc. apply Z.eqb_eq.
  assert (H : all_below (2 ^ 16) (fun c => crc_unbit (crc_bit c) =? c) = true) by (by vm_compute).
  exact (all_below_spec _ _ H c Hc).
Qed.

Lemma crc_bit_range c : 0 <= crc_bit c < 2 ^ 16.
Proof.
  unfold crc_bit. pose proof (u16_range (Z.shiftl c 1)). destruct (negb _); [|done].
  by apply lxor_range.
Qed.

Lemma crc_bits_inj n c c' : 0 <= c < 2 ^ 16 -> 0 <= c' < 2 ^ 16 ->
  Nat.iter n crc_bit c = Nat.iter n crc_bit c' -> c = c'.
Proof.
  assert (R : forall n c, 0 <= c < 2 ^ 16 -> 0 <= Nat.iter n crc_bit c < 2 ^ 16)
    by (intros [|k] ? ?; simpl; [done|apply crc_bit_range]).
  intros Hc Hc'. induction n as [|n IH]; simpl; [done|]. intros H.
  apply IH. by rewrite <- (crc_unbit_bit (Nat.iter n crc_bit c)), H, crc_unbit_bit by auto.
Qed.

Lemma shiftl_byte b : is_byte b -> 0 <= Z.shiftl b 8 < 2 ^ 16.
Proof. unfold is_byte. intros. rewrite Z.shiftl_mul_pow2 by lia. lia. Qed.

Lemma crc_in_range c b : 0 <= c < 2 ^ 16 -> is_byte b ->
  u16 (Z.lxor c (Z.shiftl b 8)) = Z.lxor c (Z.shiftl b 8) /\
  0 <= Z.lxor c (Z.shiftl b 8) < 2 ^ 16.
Proof.
  intros Hc Hb. pose proof (lxor_range c _ 16 ltac:(lia) Hc (shiftl_byte b Hb)).
  by rewrite u16_small.
Qed.

Lemma crc_byte_range c b : 0 <= crc_byte c b < 2 ^ 16.
Proof. apply crc_bit_range. Qed.

Lemma crc_byte_inj_state c c' b : 0 <= c < 2 ^ 16 -> 0 <= c' < 2 ^ 16 -> is_byte b ->
  crc_byte c b = crc_byte c' b -> c = c'.
Proof.
  intros Hc Hc' Hb H. destruct (crc_in_range c b Hc Hb) as [E R], (crc_in_range c' b Hc' Hb) as [E' R'].
  unfold crc_byte in H. rewrite E, E' in H. apply crc_bits_inj in H; [|done..].
  rewrite !(Z.lxor_comm _ (Z.shiftl b 8)) in H. by apply lxor_cancel in H.
Qed.

Lemma crc_byte_inj_byte c b b' : 0 <= c < 2 ^ 16 -> is_byte b -> is_byte b' ->
  crc_byte c b = crc_byte c b' -> b = b'.
Proof.
  intros Hc Hb Hb' H. destruct (crc_in_range c b Hc Hb) as [E R], (crc_in_range c b' Hc Hb') as [E' R'].
  unfold crc_byte in H. rewrite E, E' in H. apply crc_bits_inj in H; [|done..].
  apply lxor_cancel in H. rewrite !Z.shiftl_mul_pow2 in H by lia. lia.
Qed.

#[local] Opaque crc_byte.

Lemma crc_fold_range l c : 0 <= c < 2 ^ 16 -> 0 <= fold_left crc_byte l c < 2 ^ 16.
Proof.
  revert c. induction l as [|b l IH]; intros c Hc; [done|]. apply IH, crc_byte_range.
Qed.

Lemma crc_fold_inj l c c' : bytes l -> 0 <= c < 2 ^ 16 -> 0 <= c' < 2 ^ 16 ->
  fold_left crc_byte l c = fold_left crc_byte l c' -> c = c'.
Proof.
  revert c c'. induction l as [|b l IH]; intros c c' Hl Hc Hc' H; [done|].
  apply bytes_cons in Hl as [Hb Hl]. cbn [fold_left] in H.
  apply IH in H; [|done|apply crc_byte_range..]. by eapply crc_byte_inj_state.
Qed.

(** Changing one byte changes the checksum. *)
Lemma crc_insert l i b b' c : bytes l -> is_byte b' -> 0 <= c < 2 ^ 16 -> l !! i = Some b ->
  fold_left crc_byte (<[i := b']> l) c = fold_left crc_byte l c -> b' = b.
Proof.
  revert i c. induction l as [|a l IH]; intros i c Hl Hb' Hc Hi H; [done|].
  apply bytes_cons in Hl as [Ha Hl]. destruct i as [|i]; cbn in Hi, H.
  - injection Hi as ->. apply crc_fold_inj in H; [|done|apply crc_byte_range..].
    by eapply crc_byte_inj_byte.
  - eapply IH; [done|done|apply crc_byte_range|done|done].
Qed.

(** ** Encoding and parsing *)

Lemma put_splice l i v : 0 <= i < zlen l -> put l i v = splice l i [v].
Proof.
  unfold put, splice, zlen. intros H. rewrite insert_take_drop by lia. simpl.
  do 3 f_equal. lia.
Qed.

Lemma splice_app l i d1 d2 : 0 <= i -> i + zlen d1 + zlen d2 <= zlen l ->
  splice l i (d1 ++ d2) = splice (splice l i d1) (i + zlen d1) d2.
Proof.
  pose proof (zlen_nonneg d1). pose proof (zlen_nonneg d2). intros Hi Hl.
  assert (L1 : zlen (splice l i d1) = zlen l)
    by (unfold zlen at 1 2; rewrite length_splice by lia; done).
  apply list_eq. intros k.
  rewrite !lookup_splice by (rewrite ?zlen_app, ?L1; lia).
  rewrite length_app. unfold zlen in *.
  repeat case_decide; try lia; try done.
  - rewrite lookup_app_r by lia. f_equal. lia.
  - by rewrite lookup_app_l by lia.
Qed.

Lemma splice_cons l i v d : 0 <= i -> i + 1 + zlen d <= zlen l ->
  splice l i (v :: d) = splice (put l i v) (i + 1) d.
Proof.
  intros. pose proof (zlen_nonneg d). rewrite put_splice by lia. change (v :: d) with ([v] ++ d).
  rewrite splice_app by (change (zlen [v]) with 1; lia). done.
Qed.

Lemma zlen_put l i v : zlen (put l i v) = zlen l.
Proof. unfold zlen, put. by rewrite length_insert. Qed.

(** What a frame covers with its checksum, and all of it. *)
Definition frame_body (f : hm_frame) : list Z :=
  [0xfd; Z.land (Z.shiftr (cmdlen f + 2) 8) 0xff; Z.land (cmdlen f + 2) 0xff; dst f; cnt f]
    ++ slice (cmd f) 0 (cmdlen f).
Definition crc_of (l : list Z) : Z := fold_left crc_byte l 0xd77f.
Definition crc_bytes (c : Z) : list Z := [Z.land (Z.shiftr c 8) 0xff; Z.land c 0xff].
Definition frame_bytes (f : hm_frame) : list Z :=
  frame_body f ++ crc_bytes (crc_of (frame_body f)).

(** A frame that can be sent. *)
Record frame_ok (f : hm_frame) : Prop := {
  frame_cmdlen : 1 <= cmdlen f <= zlen (cmd f);
  frame_length : cmdlen f + 2 < 2 ^ 16;
  frame_dst : is_byte (dst f);
  frame_cnt : is_byte (cnt f);
  frame_cmd : bytes (cmd f)
}.

Lemma zlen_frame_body f : 0 <= cmdlen f <= zlen (cmd f) -> zlen (frame_body f) = cmdlen f + 5.
Proof.
  intros. unfold frame_body. rewrite zlen_app, zlen_slice by lia.
  change (zlen [_; _; _; _; _]) with 5. lia.
Qed.

Lemma zlen_frame_bytes f : 0 <= cmdlen f <= zlen (cmd f) -> zlen (frame_bytes f) = cmdlen f + 7.
Proof.
  intros. unfold frame_bytes. rewrite zlen_app, zlen_frame_body by done.
  change (zlen (crc_bytes _)) with 2. lia.
Qed.

Lemma splice_prefix l d : zlen d <= zlen l -> splice l 0 d = d ++ drop (length d) l.
Proof. reflexivity. Qed.

Lemma crc_prefix l d n : zlen d = n -> zlen d <= zlen l -> hm_crc (splice l 0 d) n = crc_of d.
Proof.
  intros <- H. unfold hm_crc, crc_of. f_equal. rewrite splice_prefix by done.
  unfold slice, zlen. rewrite Nat2Z.id. apply (take_app_length d).
Qed.

Lemma encodeFrame_ok buf len f : 1 <= cmdlen f <= zlen (cmd f) -> cmdlen f + 7 <= len ->
  len <= zlen buf -> len < 2 ^ 32 ->
  encodeFrame buf len f = (cmdlen f + 7, splice buf 0 (frame_bytes f)).
Proof.
  intros Hc Hl Hb Hs. unfold encodeFrame. rewrite u64_small by lia.
  destruct (Z.ltb_spec len (cmdlen f + 7)); [lia|]. f_equal.
  set (hi := Z.land (Z.shiftr (cmdlen f + 2) 8) 0xff). set (lo := Z.land (cmdlen f + 2) 0xff).
  set (d := slice (cmd f) 0 (cmdlen f)).
  assert (Hd : zlen d = cmdlen f) by (apply zlen_slice; lia).
  assert (E : splice (put (put (put (put (put buf 0 0xfd) 1 hi) 2 lo) 3 (dst f)) 4 (cnt f)) 5 d
            = splice buf 0 (frame_body f)).
  { unfold frame_body. fold hi lo d. cbn [app].
    repeat (rewrite splice_cons by (rewrite ?zlen_put; unfold zlen in *; simpl; lia)). done. }
  cbv zeta. rewrite E. pose proof (zlen_frame_body f ltac:(lia)) as Hbody.
  rewrite crc_prefix by lia. unfold frame_bytes.
  rewrite splice_app by (rewrite ?Hbody; change (zlen (crc_bytes _)) with 2; lia).
  rewrite Hbody, Z.add_0_l. unfold crc_bytes.
  assert (Hsp : zlen (splice buf 0 (frame_body f)) = zlen buf)
    by (unfold zlen at 1 2; rewrite length_splice by lia; done).
  rewrite splice_cons by (rewrite ?Hsp; change (zlen [_]) with 1; lia).
  rewrite <- put_splice by (rewrite ?zlen_put, ?Hsp; lia).
  f_equal. lia.
Qed.

Lemma be16_val hi lo : is_byte hi -> is_byte lo -> be16 hi lo = hi * 256 + lo.
Proof.
  intros Hhi Hlo. unfold is_byte in *.
  assert (H : all_below (2 ^ 16) (fun x => be16 (x / 256) (x mod 256) =? x) = true)
    by (by vm_compute).
  pose proof (all_below_spec _ _ H (hi * 256 + lo) ltac:(lia)) as E. clear H. apply Z.eqb_eq in E.
  replace ((hi * 256 + lo) / 256) with hi in E by zdiv_lia.
  replace ((hi * 256 + lo) mod 256) with lo in E by zdiv_lia.
  exact E.
Qed.

(** A 16-bit number is put together from its two bytes. *)
Lemma be16_split n : 0 <= n < 2 ^ 16 ->
  is_byte (Z.land (Z.shiftr n 8) 0xff) /\ is_byte (Z.land n 0xff) /\
  be16 (Z.land (Z.shiftr n 8) 0xff) (Z.land n 0xff) = n.
Proof.
  intros Hn. change 0xff with (2 ^ 8 - 1). rewrite !land_pred_pow2 by lia.
  rewrite Z.shiftr_div_pow2 by lia.
  assert (B1 : is_byte ((n / 2 ^ 8) mod 2 ^ 8)) by (apply Z.mod_pos_bound; lia).
  assert (B2 : is_byte (n mod 2 ^ 8)) by (apply Z.mod_pos_bound; lia).
  split; [done|]. split; [done|]. rewrite be16_val by done. zdiv_lia.
Qed.

(** What the parser accepts. *)
Lemma tryParseFrame_spec buf len f : len < 2 ^ 63 -> bytes (take (Z.to_nat len) buf) ->
  len <= zlen buf ->
  tryParseFrame buf len = Some f <->
    8 <= len /\ buf @@ 0 = 0xfd /\ be16 (buf @@ 1) (buf @@ 2) + 5 = len /\
    be16 (buf @@ (len - 2)) (buf @@ (len - 1)) = hm_crc buf (len - 2) /\
    f = HmFrame (buf @@ 3) (buf @@ 4) (drop 5 buf) (len - 7).
Proof.
  intros Hl Hby Hb. unfold tryParseFrame.
  destruct (Z.ltb_spec len 8); [split; [done|lia]|].
  assert (B : forall i, 0 <= i < len -> is_byte (buf @@ i)).
  { intros i Hi. rewrite list_lookup_total_alt.
    destruct (buf !! Z.to_nat i) as [b|] eqn:E; [|apply lookup_ge_None in E; unfold zlen in Hb; lia].
    apply (Forall_lookup_1 _ _ (Z.to_nat i) b Hby). by rewrite lookup_take_lt by lia. }
  assert (R : forall i j, 0 <= i < len -> 0 <= j < len -> 0 <= be16 (buf @@ i) (buf @@ j) < 2 ^ 16).
  { intros i j Hi Hj. pose proof (B i Hi) as Bi. pose proof (B j Hj) as Bj.
    rewrite be16_val by done. unfold is_byte in *. lia. }
  rewrite (u16_small (be16 _ _)) by (apply R; lia).
  pose proof (R 1 2 ltac:(lia) ltac:(lia)). rewrite u64_small by lia.
  destruct (Z.eqb_spec (buf @@ 0) 0xfd); cbn [negb]; [|split; [done|by intros (_ & ? & _)]].
  destruct (Z.eqb_spec (be16 (buf @@ 1) (buf @@ 2) - 2 + 7) len); cbn [negb];
    [|split; [done|intros; lia]].
  destruct (Z.eqb_spec (be16 (buf @@ (len - 2)) (buf @@ (len - 1))) (hm_crc buf (len - 2)));
    cbn [negb]; [|split; [done|by intros (_ & _ & _ & ? & _)]].
  replace (be16 (buf @@ 1) (buf @@ 2) - 2) with (len - 7) by lia.
  split; [intros [= <-]|intros (_ & _ & _ & _ & ->)]; repeat split; try done; lia.
Qed.

(** Entries of a frame in its buffer. *)
Lemma splice_total buf d i : zlen d <= zlen buf -> 0 <= i < zlen d ->
  splice buf 0 d @@ i = d @@ i.
Proof. intros. rewrite splice_at by lia. rewrite decide_True by lia. by rewrite Z.sub_0_r. Qed.

Lemma frame_bytes_ok f : frame_ok f -> bytes (frame_bytes f).
Proof.
  intros [Hc Hl Hd Hn Hb]. destruct (be16_split (cmdlen f + 2) ltac:(lia)) as (B1 & B2 & _).
  destruct (be16_split (crc_of (frame_body f))) as (B3 & B4 & _); [by apply crc_fold_range|].
  apply bytes_app. split.
  - apply bytes_app. split; [|by apply bytes_slice]. by repeat (apply Forall_cons; split).
  - by repeat (apply Forall_cons; split).
Qed.

(** The last two bytes are the checksum. *)
Lemma frame_bytes_crc f : 0 <= cmdlen f <= zlen (cmd f) ->
  frame_bytes f @@ (zlen (frame_bytes f) - 2) = Z.land (Z.shiftr (crc_of (frame_body f)) 8) 0xff /\
  frame_bytes f @@ (zlen (frame_bytes f) - 1) = Z.land (crc_of (frame_body f)) 0xff.
Proof.
  intros H. pose proof (zlen_frame_body f H) as Hy. rewrite (zlen_frame_bytes f H).
  unfold frame_bytes. unfold zlen in *. rewrite !lookup_total_app_r by lia.
  replace (Z.to_nat (cmdlen f + 7 - 2) - length (frame_body f))%nat with 0%nat by lia.
  by replace (Z.to_nat (cmdlen f + 7 - 1) - length (frame_body f))%nat with 1%nat by lia.
Qed.

(** Parsing what was encoded gives the frame back. *)
Lemma parse_frame_bytes buf f : frame_ok f -> zlen (frame_bytes f) <= zlen buf ->
  tryParseFrame (splice buf 0 (frame_bytes f)) (zlen (frame_bytes f))
    = Some (HmFrame (dst f) (cnt f) (drop 5 (splice buf 0 (frame_bytes f))) (cmdlen f)).
Proof.
  intros Hf Hb. pose proof Hf as [Hc Hl Hd Hn Hcmd].
  pose proof (zlen_frame_bytes f ltac:(lia)) as Hz. pose proof (zlen_frame_body f ltac:(lia)) as Hy.
  assert (Hs : zlen (splice buf 0 (frame_bytes f)) = zlen buf)
    by (unfold zlen at 1 2; rewrite length_splice by lia; done).
  destruct (be16_split (cmdlen f + 2) ltac:(lia)) as (_ & _ & E1).
  destruct (be16_split (crc_of (frame_body f))) as (_ & _ & E2); [by apply crc_fold_range|].
  apply tryParseFrame_spec; [lia| |lia|].
  { rewrite splice_prefix by done. unfold zlen. rewrite Nat2Z.id, (take_app_length (frame_bytes f)).
    by apply frame_bytes_ok. }
  rewrite !splice_total by lia.
  assert (Hcrc : hm_crc (splice buf 0 (frame_bytes f)) (zlen (frame_bytes f) - 2)
                 = crc_of (frame_body f)).
  { unfold hm_crc, crc_of. f_equal. rewrite splice_prefix by done. unfold frame_bytes, slice.
    rewrite <- app_assoc. simpl drop. replace (Z.to_nat _) with (length (frame_body f)).
    - apply (take_app_length (frame_body f)).
    - fold (frame_bytes f). unfold zlen in *. lia. }
  rewrite Hcrc. destruct (frame_bytes_crc f ltac:(lia)) as [-> ->].
  split; [lia|]. split; [done|]. split; [|split; [done|]].
  - change (be16 (Z.land (Z.shiftr (cmdlen f + 2) 8) 0xff) (Z.land (cmdlen f + 2) 0xff) + 5
            = zlen (frame_bytes f)). lia.
  - change (frame_bytes f @@ 3) with (dst f). change (frame_bytes f @@ 4) with (cnt f).
    f_equal. lia.
Qed.

(** The command follows the header. *)
Lemma frame_cmd_at buf f : exists rest,
  drop 5 (splice buf 0 (frame_bytes f)) = slice (cmd f) 0 (cmdlen f) ++ rest.
Proof. unfold splice, frame_bytes, frame_body. rewrite <- !app_assoc. by eexists. Qed.

(** ** Transmission errors *)

Lemma put_total buf i j v : 0 <= i < zlen buf -> 0 <= j ->
  put buf i v @@ j = if decide (i = j) then v else buf @@ j.
Proof.
  intros Hi Hj. unfold put, zlen in *. case_decide as E.
  - subst. apply list_lookup_total_insert_eq. lia.
  - apply list_lookup_total_insert_ne. lia.
Qed.

Lemma byte_at buf len i : bytes (take (Z.to_nat len) buf) -> len <= zlen buf -> 0 <= i < len ->
  is_byte (buf @@ i) /\ buf !! Z.to_nat i = Some (buf @@ i).
Proof.
  intros Hby Hb Hi.
  destruct (buf !! Z.to_nat i) as [b|] eqn:E; [|apply lookup_ge_None in E; unfold zlen in Hb; lia].
  rewrite (list_lookup_total_correct _ _ _ E). split; [|done].
  apply (Forall_lookup_1 _ _ (Z.to_nat i) b Hby). by rewrite lookup_take_lt by lia.
Qed.

Lemma bytes_put buf len i v : bytes (take (Z.to_nat len) buf) -> is_byte v ->
  bytes (take (Z.to_nat len) (put buf i v)).
Proof.
  intros H Hv. unfold put. destruct (decide (Z.to_nat i < Z.to_nat len)%nat).
  - rewrite take_insert_lt by lia. by apply Forall_insert.
  - by rewrite take_insert_ge by lia.
Qed.

Lemma hm_crc_put buf i v n : 0 <= n ->
  hm_crc (put buf i v) n =
    if decide (0 <= i < n) then fold_left crc_byte (<[Z.to_nat i := v]> (slice buf 0 n)) 0xd77f
    else if decide (0 <= i) then hm_crc buf n else hm_crc (put buf i v) n.
Proof.
  intros Hn. unfold hm_crc, put, slice. simpl drop. repeat case_decide; try done; f_equal.
  - apply take_insert_lt. lia.
  - apply take_insert_ge. lia.
Qed.

(** A packet whose last two bytes are the checksum of the rest. *)
Definition sealed (buf : list Z) (len : Z) : Prop :=
  be16 (buf @@ (len - 2)) (buf @@ (len - 1)) = hm_crc buf (len - 2).

#[export] Instance sealed_dec buf len : Decision (sealed buf len).
Proof. unfold sealed. apply _. Defined.

(** Another byte anywhere breaks the seal. *)
Lemma seal_broken buf len i b : 2 <= len <= zlen buf -> bytes (take (Z.to_nat len) buf) ->
  sealed buf len -> 0 <= i < len -> is_byte b -> sealed (put buf i b) len -> b = buf @@ i.
Proof.
  unfold sealed. intros [H2 Hb] Hby Hc Hi Hbyte Hc'.
  rewrite !put_total in Hc' by lia. rewrite hm_crc_put in Hc' by lia.
  assert (B : forall j, 0 <= j < len -> is_byte (buf @@ j)) by (intros j Hj; by eapply byte_at).
  pose proof (B (len - 2) ltac:(lia)) as B1. pose proof (B (len - 1) ltac:(lia)) as B2.
  destruct (decide (0 <= i < len - 2)) as [Hin|Hout].
  - rewrite (decide_False (P := i = len - 2)), (decide_False (P := i = len - 1)), Hc in Hc' by lia.
    apply (crc_insert (slice buf 0 (len - 2)) (Z.to_nat i) (buf @@ i) b 0xd77f); [|done|done| |].
    + apply (bytes_take (Z.to_nat (len - 2))) in Hby. rewrite take_take in Hby.
      unfold slice. simpl drop. by rewrite Nat.min_l in Hby by lia.
    + rewrite lookup_slice by lia. by eapply byte_at.
    + symmetry. exact Hc'.
  - rewrite (decide_True (P := 0 <= i)) in Hc' by lia. rewrite <- Hc in Hc'.
    unfold is_byte in *. repeat case_decide; subst; rewrite !be16_val in Hc' by done; lia.
Qed.

(** C14 (safety). The checksum does its job on single bytes: no byte of an
    accepted frame, be it in the header, the command or the checksum itself,
    can be replaced by another without the frame being rejected. *)
Theorem corrupted_frame_rejected (buf : list Z) (len i b : Z) (f : hm_frame) :
  len <= zlen buf -> len < 2 ^ 63 -> bytes (take (Z.to_nat len) buf) ->
  tryParseFrame buf len = Some f ->
  0 <= i < len -> is_byte b -> b <> buf @@ i ->
  tryParseFrame (put buf i b) len = None.
Proof.
  intros Hb Hl Hby Hf Hi Hbyte Hne. destruct (tryParseFrame (put buf i b) len) as [f'|] eqn:Hf'; [|done].
  exfalso. apply Hne.
  apply tryParseFrame_spec in Hf as (L8 & _ & _ & Hc & _); [|done..].
  apply tryParseFrame_spec in Hf' as (_ & _ & _ & Hc' & _);
    [|done|by apply bytes_put|by rewrite zlen_put].
  eapply seal_broken; [|done..]. lia.
Qed.

(** ** What the escaping loops compute *)

Fixpoint escape (l : list Z) : list Z :=
  match l with
  | [] => []
  | b :: l =>
    (if (b =? 0xfc) || (b =? 0xfd) && (zlen l =? 1) then [0xfc; Z.land b 0x7f] else [b])
      ++ escape l
  end.

(** Nothing when the last byte announces one that is missing. *)
Fixpoint unescape (l : list Z) : option (list Z) :=
  match l with
  | [] => Some []
  | b :: l =>
    if b =? 0xfc then
      match l with
      | [] => None
      | e :: l => (fun d => Z.lor e 0x80 :: d) <$> unescape l
      end
    else (fun d => b :: d) <$> unescape l
  end.

Lemma write_byte_ok d i v : i < zlen d -> write_byte d i v = Ok (put d i v).
Proof. unfold write_byte. intros. by destruct (Z.ltb_spec i (zlen d)); [|lia]. Qed.

Lemma encodeFrameBuffer_loop_ok l extra d ret : 0 <= ret -> ret + zlen (escape l) <= zlen d ->
  encodeFrameBuffer_loop (l ++ extra) (zlen l) d ret
    = Ok (ret + zlen (escape l), splice d ret (escape l)).
Proof.
  revert d ret. induction l as [|b l IH]; intros d ret Hr Hd.
  { destruct extra; simpl; rewrite ?Z.add_0_r, splice_nil; done. }
  pose proof (zlen_nonneg l) as Hl. pose proof (zlen_nonneg (escape l)) as He.
  assert (E1 : zlen (b :: l) = zlen l + 1) by (rewrite ?zlen_cons; lia).
  cbn [app encodeFrameBuffer_loop]. rewrite E1. destruct (Z.eqb_spec (zlen l + 1) 0); [lia|].
  replace (zlen l + 1 - 1) with (zlen l) by lia. cbn [escape] in *.
  destruct ((b =? 0xfc) || _); cbn [app] in *.
  - assert (E2 : forall x y, zlen (x :: y :: escape l) = zlen (escape l) + 2)
      by (intros; rewrite ?zlen_cons; lia).
    rewrite E2 in *. rewrite write_byte_ok by lia. cbn [exec_bind].
    rewrite write_byte_ok by (rewrite zlen_put; lia). cbn [exec_bind].
    rewrite IH by (rewrite ?zlen_put; lia).
    rewrite !splice_cons by (rewrite ?zlen_put; unfold zlen in *; simpl; lia).
    f_equal. f_equal; [lia|]. f_equal. lia.
  - assert (E2 : forall x, zlen (x :: escape l) = zlen (escape l) + 1)
      by (intros; rewrite ?zlen_cons; lia).
    rewrite E2 in *. rewrite write_byte_ok by lia. cbn [exec_bind].
    rewrite IH by (rewrite ?zlen_put; lia). rewrite splice_cons by lia.
    f_equal. f_equal. lia.
Qed.

(** Induction that follows the decoder, two bytes at a time where it does. *)
Lemma unescape_ind (P : list Z -> Prop) :
  P [] -> (forall b l, b <> 0xfc -> P l -> P (b :: l)) -> P [0xfc] ->
  (forall e l, P l -> P (0xfc :: e :: l)) -> forall l, P l.
Proof.
  intros H0 H1 H2 H3 l. assert (H : P l /\ forall b, P (b :: l)); [|apply H].
  induction l as [|a l [IH1 IH2]].
  - split; [done|]. intros b. destruct (decide (b = 0xfc)) as [->|]; auto.
  - split; [done|]. intros b. destruct (decide (b = 0xfc)) as [->|]; auto.
Qed.

Lemma decodeFrameBuffer_loop_ok l extra s d ret : unescape l = Some s -> 0 <= ret ->
  ret + zlen s <= zlen d -> zlen l < 2 ^ 63 ->
  decodeFrameBuffer_loop (l ++ extra) (zlen l) d ret = Ok (ret + zlen s, splice d ret s).
Proof.
  revert s d ret. induction l as [|b l Hb IH| |e l IH] using unescape_ind; intros s d ret Hs Hr Hd Hl.
  - injection Hs as <-. destruct extra; simpl; by rewrite Z.add_0_r, splice_nil.
  - cbn [unescape] in Hs. apply Z.eqb_neq in Hb. rewrite Hb in Hs.
    apply fmap_Some in Hs as (s' & Hs & ->).
    assert (E1 : zlen (b :: l) = zlen l + 1) by (rewrite ?zlen_cons; lia).
    assert (E2 : zlen (b :: s') = zlen s' + 1) by (rewrite ?zlen_cons; lia).
    pose proof (zlen_nonneg l). pose proof (zlen_nonneg s'). rewrite E1, E2 in *.
    cbn [app decodeFrameBuffer_loop]. destruct (Z.eqb_spec (zlen l + 1) 0); [lia|].
    rewrite Hb. rewrite write_byte_ok by lia. cbn [exec_bind].
    replace (zlen l + 1 - 1) with (zlen l) by lia. rewrite (IH s') by (rewrite ?zlen_put; done || lia).
    rewrite splice_cons by lia. f_equal. f_equal. lia.
  - done.
  - cbn [unescape] in Hs. change (0xfc =? 0xfc) with true in Hs. cbv iota in Hs.
    apply fmap_Some in Hs as (s' & Hs & ->).
    assert (E1 : zlen (0xfc :: e :: l) = zlen l + 2) by (rewrite ?zlen_cons; lia).
    assert (E2 : zlen (Z.lor e 0x80 :: s') = zlen s' + 1) by (rewrite ?zlen_cons; lia).
    pose proof (zlen_nonneg l). pose proof (zlen_nonneg s'). rewrite E1, E2 in *.
    cbn [app decodeFrameBuffer_loop]. destruct (Z.eqb_spec (zlen l + 2) 0); [lia|].
    change (0xfc =? 0xfc) with true. cbv iota. rewrite write_byte_ok by lia. cbn [exec_bind].
    replace (zlen l + 2 - 1 - 1) with (zlen l) by lia. rewrite u64_small by lia.
    rewrite (IH s') by (rewrite ?zlen_put; done || lia).
    rewrite splice_cons by lia. f_equal. f_equal. lia.
Qed.

(** Unescaping undoes escaping. *)
Lemma unescape_escape l : unescape (escape l) = Some l.
Proof.
  induction l as [|b l IH]; [done|]. cbn [escape].
  destruct (Z.eqb_spec b 0xfc) as [->|Hb]; cbn [orb].
  { cbn. by rewrite IH. }
  destruct (Z.eqb_spec b 0xfd) as [->|Hb']; cbn [andb].
  - destruct (zlen l =? 1); cbn; by rewrite IH.
  - cbn. apply Z.eqb_neq in Hb. by rewrite Hb, IH.
Qed.

Lemma zlen_escape l : zlen (escape l) <= 2 * zlen l.
Proof.
  induction l as [|b l IH]; [done|]. cbn [escape]. rewrite zlen_app.
  destruct (_ || _); unfold zlen in *; simpl; lia.
Qed.

(** C15 (roundtrip). A command sent as a frame and received again is the same
    command: encoding, escaping, unescaping and parsing, each into a buffer
    that is large enough, give back destination, counter and command bytes. *)
Theorem wire_roundtrip (f : hm_frame) (buf raw back : list Z) (len : Z) :
  frame_ok f -> cmdlen f + 7 <= len <= zlen buf -> len < 2 ^ 32 ->
  2 * (cmdlen f + 7) <= zlen raw -> cmdlen f + 7 <= zlen back ->
  exists n buf1 m raw1 k back1 rest,
    encodeFrame buf len f = (n, buf1) /\
    encodeFrameBuffer buf1 raw n = Ok (m, raw1) /\
    decodeFrameBuffer raw1 back m = Ok (k, back1) /\
    tryParseFrame back1 k = Some (HmFrame (dst f) (cnt f) rest (cmdlen f)) /\
    slice rest 0 (cmdlen f) = slice (cmd f) 0 (cmdlen f).
Proof.
  intros Hf Hl Hs Hraw Hback. pose proof Hf as [Hc Hc' _ _ _].
  pose proof (zlen_frame_bytes f ltac:(lia)) as Hz. pose proof (zlen_escape (frame_bytes f)) as Hesc.
  pose proof (zlen_frame_body f ltac:(lia)) as Hy.
  rewrite encodeFrame_ok by lia. eexists _, _.
  exists (zlen (escape (frame_bytes f))), (splice raw 0 (escape (frame_bytes f))).
  exists (zlen (frame_bytes f)), (splice back 0 (frame_bytes f)). eexists.
  split; [done|]. unfold encodeFrameBuffer, decodeFrameBuffer.
  rewrite <- Hz. rewrite !splice_prefix by lia. split.
  { rewrite encodeFrameBuffer_loop_ok by lia. by rewrite Z.add_0_l. }
  split.
  { rewrite (decodeFrameBuffer_loop_ok _ _ (frame_bytes f)); [by rewrite Z.add_0_l| |lia|lia|lia].
    apply unescape_escape. }
  rewrite <- !splice_prefix by lia. split; [apply parse_frame_bytes; [done|lia]|].
  destruct (frame_cmd_at back f) as [rest ->].
  set (d := slice (cmd f) 0 (cmdlen f)). assert (Hd : zlen d = cmdlen f) by (apply zlen_slice; lia).
  rewrite <- Hd. unfold slice at 1. unfold zlen. rewrite Nat2Z.id. apply (take_app_length d).
Qed.

(** Once the counter has wrapped around, no finite array is enough. *)
Lemma wrapped_counter_overruns x n d r : zlen x < 2 ^ 62 -> 2 ^ 62 + zlen x < n < 2 ^ 64 ->
  decodeFrameBuffer_loop x n d r = OutOfBounds.
Proof.
  revert n d r.
  induction x as [|b x Hb IH| |e x IH] using unescape_ind; intros n d r Hx Hn.
  - cbn. destruct (Z.eqb_spec n 0); [change (zlen []) with 0 in Hn; lia|done].
  - assert (E1 : zlen (b :: x) = zlen x + 1) by (rewrite ?zlen_cons; lia).
    pose proof (zlen_nonneg x). rewrite E1 in *. cbn [decodeFrameBuffer_loop].
    destruct (Z.eqb_spec n 0); [lia|]. apply Z.eqb_neq in Hb. rewrite Hb.
    unfold write_byte. destruct (r <? zlen d); [|done]. cbn [exec_bind]. apply IH; lia.
  - change (zlen [0xfc]) with 1 in Hn. cbn [decodeFrameBuffer_loop].
    destruct (Z.eqb_spec n 0); [lia|done].
  - assert (E1 : zlen (0xfc :: e :: x) = zlen x + 2) by (rewrite ?zlen_cons; lia).
    pose proof (zlen_nonneg x). rewrite E1 in *. cbn [decodeFrameBuffer_loop].
    destruct (Z.eqb_spec n 0); [lia|]. change (0xfc =? 0xfc) with true. cbv iota.
    unfold write_byte. destruct (r <? zlen d); [|done]. cbn [exec_bind].
    rewrite u64_small by lia. apply IH; lia.
Qed.

(** The decoder trusts that an escape byte is followed by
    another byte: when the last byte to decode is an unpaired escape, its
    counter wraps around and it reads or writes beyond the buffers, however
    large they are. *)
Theorem trailing_escape_overruns (l s extra dst : list Z) :
  unescape l = Some s -> zlen l + zlen extra < 2 ^ 62 ->
  decodeFrameBuffer (l ++ 0xfc :: extra) dst (zlen l + 1) = OutOfBounds.
Proof.
  intros Hs Hlen. unfold decodeFrameBuffer. generalize 0. intros ret. revert s dst ret Hs.
  induction l as [|b l Hb IH| |e l IH] using unescape_ind; intros s dst ret Hs.
  - cbn [app decodeFrameBuffer_loop]. change (zlen [] + 1) with 1. change (1 =? 0) with false.
    change (0xfc =? 0xfc) with true. cbv iota. change (zlen []) with 0 in Hlen.
    destruct extra as [|e extra]; [done|]. unfold write_byte. destruct (ret <? zlen dst); [|done].
    cbn [exec_bind]. assert (E1 : zlen (e :: extra) = zlen extra + 1) by (rewrite ?zlen_cons; lia).
    pose proof (zlen_nonneg extra). rewrite E1 in *. apply wrapped_counter_overruns; [lia|].
    change (u64 (1 - 1 - 1)) with (2 ^ 64 - 1). lia.
  - cbn [unescape] in Hs. apply Z.eqb_neq in Hb. rewrite Hb in Hs.
    apply fmap_Some in Hs as (s' & Hs & ->).
    assert (E1 : zlen (b :: l) = zlen l + 1) by (rewrite ?zlen_cons; lia).
    pose proof (zlen_nonneg l). rewrite E1 in *. cbn [app decodeFrameBuffer_loop].
    destruct (Z.eqb_spec (zlen l + 1 + 1) 0); [lia|]. rewrite Hb.
    unfold write_byte. destruct (ret <? zlen dst); [|done]. cbn [exec_bind].
    replace (zlen l + 1 + 1 - 1) with (zlen l + 1) by lia. eapply IH; [lia|done].
  - done.
  - cbn [unescape] in Hs. change (0xfc =? 0xfc) with true in Hs. cbv iota in Hs.
    apply fmap_Some in Hs as (s' & Hs & ->).
    assert (E1 : zlen (0xfc :: e :: l) = zlen l + 2) by (rewrite ?zlen_cons; lia).
    pose proof (zlen_nonneg l). pose proof (zlen_nonneg extra). rewrite E1 in *.
    cbn [app decodeFrameBuffer_loop].
    destruct (Z.eqb_spec (zlen l + 2 + 1) 0); [lia|]. change (0xfc =? 0xfc) with true. cbv iota.
    unfold write_byte. destruct (ret <? zlen dst); [|done]. cbn [exec_bind].
    replace (zlen l + 2 + 1 - 1 - 1) with (zlen l + 1) by lia. rewrite u64_small by lia.
    eapply IH; [lia|done].
Qed.

Lemma escape_split l1 l2 b : exists e1, zlen l1 <= zlen e1 /\
  escape (l1 ++ b :: l2) =
    e1 ++ (if (b =? 0xfc) || (b =? 0xfd) && (zlen l2 =? 1) then [0xfc; Z.land b 0x7f] else [b])
       ++ escape l2.
Proof.
  induction l1 as [|a l1 (e1 & He & IH)]; [by exists []|]. cbn [app escape]. rewrite IH.
  exists ((if (a =? 0xfc) || (a =? 0xfd) && (zlen (l1 ++ b :: l2) =? 1)
           then [0xfc; Z.land a 0x7f] else [a]) ++ e1). split; [|by rewrite <- app_assoc].
  rewrite zlen_app, zlen_cons. destruct ((a =? 0xfc) || _); rewrite !zlen_cons, zlen_nil; lia.
Qed.

(** The escaping does not hide the byte that marks the beginning
    of a frame: a [0xfd] is escaped only as the last but one byte, so one
    anywhere else in a frame goes out as it is, behind the first byte. *)
Theorem start_byte_unescaped (l1 l2 extra dst : list Z) :
  zlen l2 <> 1 -> 2 * (zlen l1 + 1 + zlen l2) <= zlen dst ->
  exists n dst' i,
    encodeFrameBuffer ((l1 ++ 0xfd :: l2) ++ extra) dst (zlen (l1 ++ 0xfd :: l2)) = Ok (n, dst') /\
    zlen l1 <= i < n /\ dst' @@ i = 0xfd.
Proof.
  intros Hl Hd. pose proof (zlen_escape (l1 ++ 0xfd :: l2)) as He.
  assert (Hz : zlen (l1 ++ 0xfd :: l2) = zlen l1 + 1 + zlen l2)
    by (rewrite zlen_app; unfold zlen; simpl; lia).
  unfold encodeFrameBuffer. rewrite encodeFrameBuffer_loop_ok by lia.
  destruct (escape_split l1 l2 0xfd) as (e1 & He1 & E).
  apply Z.eqb_neq in Hl. rewrite Hl in E. cbn in E.
  eexists _, _, (zlen e1). split; [done|]. rewrite E in He |- *. rewrite zlen_app in He |- *.
  assert (Hc : zlen (0xfd :: escape l2) = zlen (escape l2) + 1) by (rewrite ?zlen_cons; lia).
  pose proof (zlen_nonneg (escape l2)). pose proof (zlen_nonneg e1).
  rewrite Hc in *. split; [lia|]. rewrite splice_total by (rewrite ?zlen_app, ?Hc; lia).
  rewrite lookup_total_app_r by (unfold zlen; lia). unfold zlen.
  by rewrite Nat2Z.id, Nat.sub_diag.
Qed.

(** ** The theorems on concrete frames *)

(** The request for the version of the transceiver. *)
Definition get_version : hm_frame := HmFrame 1 7 [2] 1.
Definition get_version_bytes : list Z := [0xfd; 0; 3; 1; 7; 2; 138; 27].

Lemma corrupted_frame_rejected_witness :
  tryParseFrame (put get_version_bytes 4 8) 8 = None.
Proof.
  apply (corrupted_frame_rejected get_version_bytes 8 4 8 (HmFrame 1 7 [2; 138; 27] 1));
    [done|lia|by repeat (apply Forall_cons; split)|by vm_compute|lia|done|done].
Defined.

Lemma wire_roundtrip_witness : exists n buf1 m raw1 k back1 rest,
  encodeFrame (replicate 16 0) 16 get_version = (n, buf1) /\
  encodeFrameBuffer buf1 (replicate 16 0) n = Ok (m, raw1) /\
  decodeFrameBuffer raw1 (replicate 16 0) m = Ok (k, back1) /\
  tryParseFrame back1 k = Some (HmFrame 1 7 rest 1) /\ slice rest 0 1 = [2].
Proof.
  apply (wire_roundtrip get_version (replicate 16 0) (replicate 16 0) (replicate 16 0) 16);
    [|by vm_compute|lia|by vm_compute|by vm_compute].
  split; [by vm_compute|by vm_compute|done|done|by repeat (apply Forall_cons; split)].
Defined.

Lemma trailing_escape_overruns_witness :
  decodeFrameBuffer ([0xfd; 1] ++ 0xfc :: replicate 1021 0) (replicate 1024 0) 3 = OutOfBounds.
Proof.
  apply (trailing_escape_overruns [0xfd; 1] [0xfd; 1] (replicate 1021 0) (replicate 1024 0));
    [done|by vm_compute].
Defined.

Lemma start_byte_unescaped_witness : exists n dst' i,
  encodeFrameBuffer ([0xfd; 0xfd; 3; 4] ++ []) (replicate 8 0) 4 = Ok (n, dst') /\ 1 <= i < n /\
  dst' @@ i = 0xfd.
Proof.
  apply (start_byte_unescaped [0xfd] [3; 4] [] (replicate 8 0)); by vm_compute.
Defined.
