(* ===== verification/FakeHmrf.v ===== *)
(** The fake radio module (src/kernel/fake_hmrf.c).

    A character device that answers the requests a HomeMatic radio module
    would answer: what is written to it is decoded and parsed as a frame, the
    canned response goes through a ring to the reader.  Whether the boot loader
    runs decides about two of the requests. *)
From S2P Require Import Prelude Kernel Ring HmFrame.

Definition RX_BUF_SIZE : Z := 1024.
Definition BUF_SIZE : Z := 1024.

Definition HM_DST_SYSTEM : Z := 0x00.
Definition HM_DST_TRX : Z := 0x01.
Definition HM_DST_HMIP : Z := 0x02.
Definition HM_DST_LLMAC : Z := 0x03.
Definition HM_DST_COMMON : Z := 0xfe.
Definition HM_SYSTEM_IDENTIFY : Z := 0x00.
Definition HM_SYSTEM_START_APP : Z := 0x03.
Definition HM_TRX_GET_VERSION : Z := 0x02.
Definition HM_TRX_GET_DUTYCYCLE : Z := 0x03.
Definition HM_TRX_SET_DCUTYCYCLE_LIMIT : Z := 0x07.
Definition HM_TRX_GET_MCU_TYPE : Z := 0x09.
Definition HM_LLMAC_GET_TIMESTAMP : Z := 0x02.
Definition HM_LLMAC_RFD_INIT : Z := 0x06.
Definition HM_LLMAC_GET_SERIAL : Z := 0x07.
Definition HM_LLMAC_GET_DEFAULT_RF_ADDR : Z := 0x08.
Definition HM_COMMON_IDENTIFY : Z := 0x01.
Definition HM_COMMON_START_BL : Z := 0x02.
Definition HM_COMMON_GET_SGTIN : Z := 0x04.
Definition HM_HMIP_SET_RADIO_ADDR : Z := 0x00.
Definition HM_HMIP_GET_DEFAULT_RF_ADDR : Z := 0x01.
Definition HM_HMIP_SEND : Z := 0x03.
Definition HM_HMIP_ADD_LINK_PARTNER : Z := 0x04.
Definition HM_HMIP_GET_SECURITY_COUNTER : Z := 0x0a.
Definition HM_HMIP_SET_SECURITY_COUNTER : Z := 0x08.
Definition HM_HMIP_SET_MAX_SENT_ATTEMPS : Z := 0x0d.
Definition HM_HMIP_GET_LINK_PARTNER : Z := 0x12.
Definition HM_HMIP_GET_NWKEY : Z := 0x13.
Definition HM_HMIP_SET_NWKEY : Z := 0x14.

(** ** Responses that never change *)

Definition system_identify_response : list Z :=
  [0x04; 0x02; 0x43; 0x6F; 0x5F; 0x43; 0x50; 0x55; 0x5F; 0x42; 0x4C].
Definition system_start_app_response : list Z := [0x04; 0x01].
Definition common_identify_response : list Z :=
  [0x05; 0x01; 0x44; 0x75; 0x61; 0x6C; 0x43; 0x6F; 0x50; 0x72; 0x6F; 0x5F; 0x41; 0x70; 0x70].
Definition common_start_bl_response : list Z := [0x05; 0x01].
Definition common_get_sgtin_response : list Z :=
  [0x05; 0x01; 0x30; 0x14; 0xF7; 0x11; 0xA0; 0x61; 0xA7; 0xD5; 0x69; 0x9D; 0xAB; 0x52].
Definition trx_get_dutycycle_response : list Z := [0x04; 0x01; 0x00].
Definition trx_set_dutycycle_limit_response : list Z := [0x04; 0x01].
Definition trx_get_mcu_type_response : list Z := [0x04; 0x01; 0x03].
Definition llmac_get_timestamp_response : list Z := [0x01; 0x01; 0x2D; 0xEA].
Definition llmac_rfd_init_response : list Z := [0x01; 0x01; 0x12; 0x34].
Definition hmip_set_radio_address_response : list Z := [0x06; 0x01].
Definition hmip_get_security_counter_response : list Z := [0x06; 0x01; 0x0C; 0xFF; 0xFF; 0xFF].
Definition hmip_set_security_counter_response : list Z := [0x06; 0x01].
Definition hmip_set_max_sent_attemps_response : list Z := [0x06; 0x01].
Definition hmip_cmd19_response : list Z :=
  [0x06; 0x01; 0xE6; 0x3C; 0xD5; 0x60; 0x36; 0x4B; 0xAB; 0xEC; 0x8C; 0xC4; 0xE1; 0x2F; 0xF8;
   0x19; 0x81; 0x06; 0xE5].
Definition hmip_get_nwkey_response : list Z :=
  [0x06; 0x01; 0xC2; 0x14; 0x22; 0xF3; 0xCA; 0x9C; 0xBD; 0xA3; 0x5F; 0x71; 0x88; 0xA4; 0x73;
   0xCE; 0x6F; 0x03; 0xA7; 0xA5; 0xCA; 0x26; 0xBA; 0xE8; 0xA2; 0x2A; 0x0D; 0x3D; 0x48; 0x97;
   0xB6; 0xBA; 0x47; 0xF0; 0x1D; 0xCA; 0xA7; 0x39; 0xB8; 0x4D; 0xB3; 0xFB; 0x13; 0x47; 0x02;
   0x15; 0xE5; 0x37; 0x52; 0xB9; 0x39; 0xDC; 0xBA; 0x22; 0x89; 0x34; 0xCA; 0x66; 0x66; 0x5B;
   0xD3; 0x6F; 0xB3; 0xD5; 0x51; 0xB6; 0x67; 0x98].
Definition hmip_get_linkpartner_response : list Z := [0x06; 0x01].
Definition hmip_set_nwkey_response : list Z := [0x06; 0x01].
Definition hmip_add_linkpartner_response : list Z := [0x06; 0x01].
Definition hmip_send_response : list Z := [0x06; 0x01].

(** ** State

    The four responses that parameters change, the ring, the mode, and the
    working buffers that were allocated and not freed. *)
Record hmrf := Hmrf {
  fake_hmrf_rxbuf : circ_buf;
  is_in_bl : bool;
  trx_get_version_response : list Z;
  llmac_get_default_rf_address_response : list Z;
  llmac_get_serial_response : list Z;
  hmip_get_default_rf_address_response : list Z;
  lost_buffers : Z
}.

Definition initial_hmrf : hmrf :=
  Hmrf (CircBuf_ (replicate (Z.to_nat RX_BUF_SIZE) 0) 0 0) false
    [0x04; 0x01; 0x02; 0x08; 0x06; 0x01; 0x00; 0x03; 0x01; 0x14; 0x03]
    [0x01; 0x01; 0x4F; 0x68; 0xF1]
    [0x01; 0x01; 0x46; 0x4B; 0x45; 0x31; 0x32; 0x33; 0x34; 0x35; 0x36; 0x37]
    [0x06; 0x01; 0x4F; 0x68; 0xF1] 0.

Definition set_hmrf_rx (r : circ_buf) (s : hmrf) : hmrf :=
  Hmrf r (is_in_bl s) (trx_get_version_response s) (llmac_get_default_rf_address_response s)
    (llmac_get_serial_response s) (hmip_get_default_rf_address_response s) (lost_buffers s).
Definition set_in_bl (b : bool) (s : hmrf) : hmrf :=
  Hmrf (fake_hmrf_rxbuf s) b (trx_get_version_response s)
    (llmac_get_default_rf_address_response s) (llmac_get_serial_response s)
    (hmip_get_default_rf_address_response s) (lost_buffers s).
Definition lose_buffers (s : hmrf) : hmrf :=
  Hmrf (fake_hmrf_rxbuf s) (is_in_bl s) (trx_get_version_response s)
    (llmac_get_default_rf_address_response s) (llmac_get_serial_response s)
    (hmip_get_default_rf_address_response s) (lost_buffers s + 2).

(** ** Requests *)

(** The two nested [switch] statements: the response, if there is one, and the
    mode afterwards. *)
Definition fake_hmrf_dispatch (s : hmrf) (dst c : Z) : option (list Z) * bool :=
  let bl := is_in_bl s in
  let respond r := (Some r, bl) in
  let nothing := (None, bl) in
  if dst =? HM_DST_SYSTEM then
    if c =? HM_SYSTEM_IDENTIFY then if bl then respond system_identify_response else nothing
    else if c =? HM_SYSTEM_START_APP then (Some system_start_app_response, false)
    else nothing
  else if dst =? HM_DST_COMMON then
    if c =? HM_COMMON_IDENTIFY then if negb bl then respond common_identify_response else nothing
    else if c =? HM_COMMON_START_BL then (Some common_start_bl_response, true)
    else if c =? HM_COMMON_GET_SGTIN then respond common_get_sgtin_response
    else nothing
  else if dst =? HM_DST_TRX then
    if c =? HM_TRX_GET_VERSION then respond (trx_get_version_response s)
    else if c =? HM_TRX_GET_DUTYCYCLE then respond trx_get_dutycycle_response
    else if c =? HM_TRX_SET_DCUTYCYCLE_LIMIT then respond trx_set_dutycycle_limit_response
    else if c =? HM_TRX_GET_MCU_TYPE then respond trx_get_mcu_type_response
    else nothing
  else if dst =? HM_DST_LLMAC then
    if c =? HM_LLMAC_GET_TIMESTAMP then respond llmac_get_timestamp_response
    else if c =? HM_LLMAC_RFD_INIT then respond llmac_rfd_init_response
    else if c =? HM_LLMAC_GET_SERIAL then respond (llmac_get_serial_response s)
    else if c =? HM_LLMAC_GET_DEFAULT_RF_ADDR
         then respond (llmac_get_default_rf_address_response s)
    else nothing
  else if dst =? HM_DST_HMIP then
    if c =? HM_HMIP_SET_RADIO_ADDR then respond hmip_set_radio_address_response
    else if c =? HM_HMIP_GET_DEFAULT_RF_ADDR then respond (hmip_get_default_rf_address_response s)
    else if c =? HM_HMIP_GET_SECURITY_COUNTER then respond hmip_get_security_counter_response
    else if c =? HM_HMIP_SET_SECURITY_COUNTER then respond hmip_set_security_counter_response
    else if c =? HM_HMIP_SET_MAX_SENT_ATTEMPS then respond hmip_set_max_sent_attemps_response
    else if c =? 0x19 then respond hmip_cmd19_response
    else if c =? HM_HMIP_GET_NWKEY then respond hmip_get_nwkey_response
    else if c =? HM_HMIP_GET_LINK_PARTNER then respond hmip_get_linkpartner_response
    else if c =? HM_HMIP_SET_NWKEY then respond hmip_set_nwkey_response
    else if c =? HM_HMIP_ADD_LINK_PARTNER then respond hmip_add_linkpartner_response
    else if c =? HM_HMIP_SEND then respond hmip_send_response
    else nothing
  else nothing.

Section Operations.
Context `{CB : CircBuf}.

Fixpoint fake_hmrf_add_to_buffer (l : list Z) (r : circ_buf) : circ_buf :=
  match l with
  | [] => r
  | b :: l =>
    fake_hmrf_add_to_buffer l
      (if negb (CIRC_SPACE (head r) (tail r) RX_BUF_SIZE =? 0) then
         let h := head r + 1 in
         CircBuf_ (put (buf r) (head r) b) (if RX_BUF_SIZE <=? h then 0 else h) (tail r)
       else r)
  end.

(** [fake_hmrf_respond_to_frame] *)
Definition fake_hmrf_respond_to_frame (f : hm_frame) (response frame_buf raw_buf : list Z)
    (s : hmrf) : exec hmrf :=
  let f := HmFrame (dst f) (cnt f) response (zlen response) in
  let (wcount, frame_buf) := encodeFrame frame_buf BUF_SIZE f in
  let? (wcount, raw_buf) := encodeFrameBuffer frame_buf raw_buf wcount in
  Ok (set_hmrf_rx
        (fake_hmrf_add_to_buffer (slice raw_buf 0 wcount) (fake_hmrf_rxbuf s)) s).

(** [oom]: [kzalloc] returns [NULL], which is not checked.  The working
    buffers are freed on the error path only. *)
Definition fake_hmrf_write (oom : bool) (copy : copy_in) (data : list Z) (s : hmrf)
    : exec (Z * hmrf) :=
  let count := zlen data in
  let zeros := replicate (Z.to_nat BUF_SIZE) 0 in
  if BUF_SIZE <? count then Ok (- EMSGSIZE, s) else
  if oom && (0 <? count) then NullDeref else
  if copy_failed copy then Ok (- EFAULT, s) else
  let raw_buf := splice zeros 0 data in
  let? (raw_frame_len, frame_buf) := decodeFrameBuffer raw_buf zeros count in
  match tryParseFrame frame_buf raw_frame_len with
  | None => Ok (- EFAULT, s)
  | Some f =>
    let (response, bl) := fake_hmrf_dispatch s (dst f) (cmd f @@ 0) in
    let s := set_in_bl bl s in
    let? s := match response with
              | Some r => fake_hmrf_respond_to_frame f r frame_buf raw_buf s
              | None => Ok s
              end in
    Ok (count, lose_buffers s)
  end.

Definition fake_hmrf_read (nonblock fault : bool) (count : Z) (s : hmrf)
    : outcome * list Z * hmrf :=
  let r := fake_hmrf_rxbuf s in
  if CIRC_CNT (head r) (tail r) RX_BUF_SIZE =? 0
  then (if nonblock then Ret (- EAGAIN) else Wait, [], s) else
  let count := u64 (Z.min (s32 count) (CIRC_CNT_TO_END (head r) (tail r) RX_BUF_SIZE)) in
  if fault then (Ret (- EFAULT), [], s) else
  let d := slice (buf r) (tail r) count in
  let t := tail r + count in
  let t := if RX_BUF_SIZE <=? t then t - RX_BUF_SIZE else t in
  (Ret count, d, set_hmrf_rx (set_tail t r) s).

Definition fake_hmrf_poll (s : hmrf) : Z :=
  let mask := Z.lor POLLOUT POLLWRNORM in
  let r := fake_hmrf_rxbuf s in
  if 0 <? CIRC_CNT (head r) (tail r) RX_BUF_SIZE then Z.lor mask (Z.lor POLLIN POLLRDNORM)
  else mask.
End Operations.

(** ** Parameters *)

(** Bytes 2.. of the serial number response. *)
Definition fake_hmrf_get_serial (s : hmrf) : Z * list Z :=
  (10, slice (llmac_get_serial_response s) 2 10).

Definition fake_hmrf_set_serial (val : list Z) (s : hmrf) : Z * hmrf :=
  if negb (zlen val =? 10) then (- EINVAL, s) else
  (10, Hmrf (fake_hmrf_rxbuf s) (is_in_bl s) (trx_get_version_response s)
         (llmac_get_default_rf_address_response s)
         (splice (llmac_get_serial_response s) 2 val)
         (hmip_get_default_rf_address_response s) (lost_buffers s)).

(** A digit of [%02hhX]. *)
Definition hex_digit (n : Z) : Z := if n <? 10 then 0x30 + n else 0x41 + n - 10.
Definition hex_byte (b : Z) : list Z := [hex_digit (Z.shiftr b 4); hex_digit (Z.land b 15)].

Definition fake_hmrf_get_radio_mac (s : hmrf) : list Z :=
  let r := llmac_get_default_rf_address_response s in
  [0x30; 0x78] ++ hex_byte (r @@ 2) ++ hex_byte (r @@ 3) ++ hex_byte (r @@ 4).

Definition fake_hmrf_parse_hex_char (c : Z) : Z :=
  if (0x30 <=? c) && (c <=? 0x39) then c - 0x30 else
  if (0x41 <=? c) && (c <=? 0x46) then c - 0x41 + 10 else
  if (0x61 <=? c) && (c <=? 0x66) then c - 0x61 + 10 else - 1.

(** The loop over the three bytes; [None] stands for [-EINVAL]. *)
Fixpoint parse_mac_loop (n : nat) (val : list Z) : option (list Z) :=
  match n with
  | O => Some []
  | S n =>
    let hi := fake_hmrf_parse_hex_char (val @@ 0) in
    if hi =? - 1 then None else
    let lo := fake_hmrf_parse_hex_char (val @@ 1) in
    if lo =? - 1 then None else
    match parse_mac_loop n (drop 2 val) with
    | None => None
    | Some rest => Some (Z.lor (u8 (Z.shiftl hi 4)) lo :: rest)
    end
  end.

Definition fake_hmrf_set_radio_mac (val : list Z) (s : hmrf) : Z * hmrf :=
  if negb (zlen val =? 8) then (- EINVAL, s) else
  if negb (val @@ 0 =? 0x30) || negb (val @@ 1 =? 0x78) then (- EINVAL, s) else
  match parse_mac_loop 3 (drop 2 val) with
  | None => (- EINVAL, s)
  | Some mac =>
    (8, Hmrf (fake_hmrf_rxbuf s) (is_in_bl s) (trx_get_version_response s)
          (splice (llmac_get_default_rf_address_response s) 2 mac)
          (llmac_get_serial_response s)
          (splice (hmip_get_default_rf_address_response s) 2 mac) (lost_buffers s))
  end.

(** The tokens [strsep] cuts a string into at dots. *)
Fixpoint split_dots (l : list Z) : list (list Z) :=
  match l with
  | [] => [[]]
  | c :: l =>
    if c =? 0x2e then [] :: split_dots l else
    match split_dots l with
    | t :: ts => (c :: t) :: ts
    | [] => [[c]]
    end
  end.

Section Version.
(** [simple_strtol(token, NULL, 10)] and what [%u] prints. *)
Context (simple_strtol : list Z -> Z) (print_u : Z -> list Z).
(** Is [char] a signed type? *)
Context (char_signed : bool).

Definition promote (c : Z) : Z := if char_signed && (128 <=? c) then c - 256 else c.

Definition fake_hmrf_get_firmware_version (s : hmrf) : list Z :=
  let r := trx_get_version_response s in
  let num i := print_u (u32 (promote (r @@ i))) in
  num 2 ++ [0x2e] ++ num 3 ++ [0x2e] ++ num 4.

Fixpoint parse_version_loop (n : nat) (tokens : list (list Z)) : option (list Z * list (list Z)) :=
  match n with
  | O => Some ([], tokens)
  | S n =>
    match tokens with
    | [] => None
    | token :: tokens =>
      let v := s32 (simple_strtol token) in
      if (v <? 0) || (255 <? v) then None else
      match parse_version_loop n tokens with
      | None => None
      | Some (rest, tokens) => Some (v :: rest, tokens)
      end
    end
  end.

Definition fake_hmrf_set_firmware_version (val : list Z) (s : hmrf) : Z * hmrf :=
  if 31 <? zlen val then (- EINVAL, s) else
  match parse_version_loop 3 (split_dots val) with
  | Some (version, []) =>
    (zlen val, Hmrf (fake_hmrf_rxbuf s) (is_in_bl s)
                 (splice (trx_get_version_response s) 2 version)
                 (llmac_get_default_rf_address_response s) (llmac_get_serial_response s)
                 (hmip_get_default_rf_address_response s) (lost_buffers s))
  | _ => (- EINVAL, s)
  end.
End Version.

(** ** The invariant *)

(** A mutable response: its length never changes, its entries are bytes. *)
Definition response_ok (n : Z) (l : list Z) : Prop := zlen l = n /\ bytes l.

Record hmrf_ok (s : hmrf) : Prop := {
  hmrf_ring : ring_ok RX_BUF_SIZE (fake_hmrf_rxbuf s);
  hmrf_version : response_ok 11 (trx_get_version_response s);
  hmrf_llmac_addr : response_ok 5 (llmac_get_default_rf_address_response s);
  hmrf_serial : response_ok 12 (llmac_get_serial_response s);
  hmrf_hmip_addr : response_ok 5 (hmip_get_default_rf_address_response s)
}.

Abbreviation replies s := (contents RX_BUF_SIZE (fake_hmrf_rxbuf s)).

Lemma response_bounds n r : response_ok n r -> 1 <= n <= 68 -> 1 <= zlen r <= 68 /\ bytes r.
Proof. intros [-> ?] ?. done. Qed.

(** Every response is short. *)
Lemma dispatch_response s d c r bl : hmrf_ok s -> fake_hmrf_dispatch s d c = (Some r, bl) ->
  1 <= zlen r <= 68 /\ bytes r.
Proof.
  intros [_ H1 H2 H3 H4]. unfold fake_hmrf_dispatch.
  assert (K : forall x, (1 <=? zlen x) && (zlen x <=? 68) &&
    forallb (fun b => (0 <=? b) && (b <? 256)) x = true -> 1 <= zlen x <= 68 /\ bytes x).
  { intros x. rewrite !andb_true_iff. intros [[A B] C]. split; [lia|]. by apply bytes_check. }
  repeat case_match; intros [= <- <-]; first
    [ by apply K
    | by eapply response_bounds; [eassumption|lia] ].
Qed.

Section Properties.
Context `{CB : CircBuf}.

Lemma add_to_buffer_contents l r : ring_ok RX_BUF_SIZE r -> used RX_BUF_SIZE r + zlen l < RX_BUF_SIZE ->
  ring_ok RX_BUF_SIZE (fake_hmrf_add_to_buffer l r) /\
  contents RX_BUF_SIZE (fake_hmrf_add_to_buffer l r) = contents RX_BUF_SIZE r ++ l.
Proof.
  revert r. induction l as [|b l IH]; intros r Hr Hl; [by rewrite app_nil_r|].
  cbn [fake_hmrf_add_to_buffer]. rewrite zlen_cons in Hl. pose proof (zlen_nonneg l).
  match goal with |- context [fake_hmrf_add_to_buffer l ?x] => change x with (ring_put RX_BUF_SIZE b r) end.
  pose proof (ring_put_ok RX_BUF_SIZE b r Hr) as Hp.
  pose proof (ring_put_contents RX_BUF_SIZE b r Hr) as Hc.
  destruct (Z.eqb_spec (used RX_BUF_SIZE r) (RX_BUF_SIZE - 1)); [lia|].
  assert (Hu : used RX_BUF_SIZE (ring_put RX_BUF_SIZE b r) = used RX_BUF_SIZE r + 1).
  { rewrite <- !(zlen_contents RX_BUF_SIZE), Hc, zlen_app, zlen_cons, zlen_nil by done. lia. }
  destruct (IH _ Hp) as [H1 H2]; [lia|]. split; [done|]. by rewrite H2, Hc, <- app_assoc.
Qed.

(** A request frame as it goes over the wire, and the response to it. *)
Definition wire (f : hm_frame) : list Z := escape (frame_bytes f).
Definition answer (f : hm_frame) (r : list Z) : hm_frame := HmFrame (dst f) (cnt f) r (zlen r).

Lemma answer_ok f r : frame_ok f -> 1 <= zlen r <= 68 -> bytes r -> frame_ok (answer f r).
Proof. intros [] ? ?. split; simpl; try done; lia. Qed.

Lemma zlen_wire_answer f r : frame_ok f -> 1 <= zlen r <= 68 -> zlen (wire (answer f r)) <= 150.
Proof.
  intros [] H. unfold wire. pose proof (zlen_escape (frame_bytes (answer f r))) as E.
  rewrite zlen_frame_bytes in E by (simpl; lia). change (cmdlen (answer f r)) with (zlen r) in E. lia.
Qed.

(** What the answer depends on survives parsing: destination, counter and
    first command byte. *)
Definition same_request (f g : hm_frame) : Prop :=
  dst g = dst f /\ cnt g = cnt f /\ cmd g @@ 0 = cmd f @@ 0.

Lemma respond_ok f g r frame_buf raw_buf s : hmrf_ok s -> frame_ok f -> same_request f g ->
  1 <= zlen r <= 68 -> bytes r -> zlen frame_buf = BUF_SIZE -> zlen raw_buf = BUF_SIZE ->
  used RX_BUF_SIZE (fake_hmrf_rxbuf s) + zlen (wire (answer f r)) < RX_BUF_SIZE ->
  exists rx, fake_hmrf_respond_to_frame g r frame_buf raw_buf s = Ok (set_hmrf_rx rx s) /\
    ring_ok RX_BUF_SIZE rx /\ contents RX_BUF_SIZE rx = replies s ++ wire (answer f r).
Proof.
  intros Hs Hf (Ed & Ec & _) Hr Hb Hfb Hrb Hroom.
  assert (HB : BUF_SIZE = 1024) by done. pose proof (zlen_wire_answer f r Hf Hr) as Hw.
  unfold fake_hmrf_respond_to_frame. rewrite Ed, Ec. fold (answer f r).
  assert (Hz : zlen (frame_bytes (answer f r)) = zlen r + 7)
    by (apply zlen_frame_bytes; simpl; lia).
  rewrite encodeFrame_ok by (simpl; lia). change (cmdlen (answer f r)) with (zlen r).
  rewrite <- Hz, splice_prefix by lia. unfold encodeFrameBuffer. fold (wire (answer f r)) in *.
  rewrite encodeFrameBuffer_loop_ok by (rewrite ?Hrb; unfold wire in Hw; lia).
  fold (wire (answer f r)). cbn [exec_bind]. rewrite Z.add_0_l.
  eexists. split; [done|].
  assert (Hsl : slice (splice raw_buf 0 (wire (answer f r))) 0 (zlen (wire (answer f r)))
                = wire (answer f r)).
  { rewrite splice_prefix by lia. unfold slice, zlen. rewrite Nat2Z.id.
    apply (take_app_length (wire (answer f r))). }
  rewrite Hsl. apply add_to_buffer_contents; [apply Hs|done].
Qed.

Lemma zlen_unescape w d : unescape w = Some d -> zlen d <= zlen w.
Proof.
  revert d. induction w as [|b w Hb IH| |e w IH] using unescape_ind; intros d; cbn [unescape].
  - by intros [= <-].
  - apply Z.eqb_neq in Hb. rewrite Hb. intros (d' & Hd & ->)%fmap_Some. rewrite !zlen_cons. specialize (IH d' Hd). lia.
  - done.
  - intros (d' & Hd & ->)%fmap_Some. rewrite !zlen_cons. specialize (IH d' Hd). lia.
Qed.

(** Writing a frame, with whatever of it escaped, gets it to the dispatcher. *)
Lemma write_decodes f w s : frame_ok f -> unescape w = Some (frame_bytes f) -> zlen w <= BUF_SIZE ->
  exists raw_buf frame_buf g, zlen raw_buf = BUF_SIZE /\ zlen frame_buf = BUF_SIZE /\
    same_request f g /\
    fake_hmrf_write false Copied w s =
      let (response, bl) := fake_hmrf_dispatch s (dst f) (cmd f @@ 0) in
      let s := set_in_bl bl s in
      let? s := match response with
                | Some r => fake_hmrf_respond_to_frame g r frame_buf raw_buf s
                | None => Ok s
                end in
      Ok (zlen w, lose_buffers s).
Proof.
  intros Hf Hu Hw. pose proof Hf as [Hc Hl _ _ _].
  assert (HB : BUF_SIZE = 1024) by done. pose proof (zlen_unescape _ _ Hu) as HL.
  set (zeros := replicate (Z.to_nat BUF_SIZE) 0).
  assert (Hzeros : zlen zeros = BUF_SIZE) by (by unfold zlen, zeros; rewrite length_replicate).
  assert (Hsp : forall d, zlen d <= BUF_SIZE -> zlen (splice zeros 0 d) = BUF_SIZE).
  { intros d Hd. rewrite <- Hzeros. unfold zlen at 1 2. rewrite length_splice by lia. done. }
  exists (splice zeros 0 w), (splice zeros 0 (frame_bytes f)).
  exists (HmFrame (dst f) (cnt f) (drop 5 (splice zeros 0 (frame_bytes f))) (cmdlen f)).
  split; [apply Hsp; lia|]. split; [apply Hsp; lia|].
  assert (Hreq : drop 5 (splice zeros 0 (frame_bytes f)) @@ 0 = cmd f @@ 0).
  { destruct (frame_cmd_at zeros f) as [rest ->].
    rewrite lookup_total_app_l by (rewrite length_slice by lia; lia).
    by rewrite slice_total by lia. }
  split; [done|]. unfold fake_hmrf_write. fold zeros.
  destruct (Z.ltb_spec BUF_SIZE (zlen w)); [lia|]. cbn [andb copy_failed].
  unfold decodeFrameBuffer. rewrite (splice_prefix zeros w) by lia.
  rewrite (decodeFrameBuffer_loop_ok _ _ (frame_bytes f)) by (done || lia).
  rewrite Z.add_0_l. cbn [exec_bind].
  rewrite parse_frame_bytes by (done || lia). cbn [dst cnt cmd]. by rewrite Hreq.
Qed.

(** The state afterwards. *)
Lemma any_request_answered (f : hm_frame) (w : list Z) (s : hmrf) :
  hmrf_ok s -> frame_ok f -> unescape w = Some (frame_bytes f) -> zlen w <= BUF_SIZE ->
  used RX_BUF_SIZE (fake_hmrf_rxbuf s) + 150 < RX_BUF_SIZE ->
  let (response, bl) := fake_hmrf_dispatch s (dst f) (cmd f @@ 0) in
  exists rx, fake_hmrf_write false Copied w s = Ok (zlen w, lose_buffers (set_hmrf_rx rx (set_in_bl bl s))) /\
    ring_ok RX_BUF_SIZE rx /\
    contents RX_BUF_SIZE rx = replies s ++ match response with Some r => wire (answer f r) | None => [] end.
Proof.
  intros Hs Hf Hu Hw Hroom.
  destruct (write_decodes f w s Hf Hu Hw) as (raw & fb & g & Hraw & Hfb & Hg & ->).
  destruct (fake_hmrf_dispatch s (dst f) (cmd f @@ 0)) as [[r|] bl] eqn:E.
  - destruct (dispatch_response _ _ _ _ _ Hs E) as [Hr Hb].
    pose proof (zlen_wire_answer f r Hf Hr) as Hlen.
    assert (Hs' : hmrf_ok (set_in_bl bl s)) by (destruct Hs; by split).
    cbv beta iota zeta.
    destruct (respond_ok f g r fb raw (set_in_bl bl s)) as (rx & -> & H1 & H2);
      [done..|cbn [set_in_bl fake_hmrf_rxbuf]; lia|].
    cbn [exec_bind]. by exists rx.
  - exists (fake_hmrf_rxbuf s). cbn [exec_bind]. rewrite app_nil_r.
    split; [by destruct s|]. by split; [apply Hs|].
Qed.

(** C16 (functional). A well-formed request written to the device is
    answered when there is room for the answer: the reader gets, behind what
    already waits, the wire form of a frame with the destination and counter
    of the request and the response the dispatcher has for it; requests
    without a response add nothing.  Every such write loses its two working
    buffers. *)
Theorem request_answered (f : hm_frame) (s : hmrf) :
  hmrf_ok s -> frame_ok f -> zlen (wire f) <= BUF_SIZE ->
  used RX_BUF_SIZE (fake_hmrf_rxbuf s) + 150 < RX_BUF_SIZE ->
  exists s', fake_hmrf_write false Copied (wire f) s = Ok (zlen (wire f), s') /\ hmrf_ok s' /\
    lost_buffers s' = lost_buffers s + 2 /\
    let (response, bl) := fake_hmrf_dispatch s (dst f) (cmd f @@ 0) in
    is_in_bl s' = bl /\
    replies s' = replies s ++ match response with Some r => wire (answer f r) | None => [] end.
Proof.
  intros Hs Hf Hw Hroom.
  pose proof (any_request_answered f (wire f) s Hs Hf (unescape_escape _) Hw Hroom) as H.
  destruct (fake_hmrf_dispatch s (dst f) (cmd f @@ 0)) as [response bl]. destruct H as (rx & -> & H1 & H2).
  eexists. split; [done|]. split; [destruct Hs; by split|]. by split_and!.
Qed.

(** What is not a well-formed frame changes nothing: too many
    bytes, a fault while they are copied, or a wire form that does not parse
    are rejected, and no buffer is lost. *)
Theorem bad_request_rejected (copy : copy_in) (data d : list Z) (s : hmrf) :
  BUF_SIZE < zlen data \/
  (zlen data <= BUF_SIZE /\ (copy_failed copy = true \/
     unescape data = Some d /\ zlen d <= BUF_SIZE /\
     tryParseFrame (splice (replicate (Z.to_nat BUF_SIZE) 0) 0 d) (zlen d) = None)) ->
  exists err, (err = EMSGSIZE \/ err = EFAULT) /\
    fake_hmrf_write false copy data s = Ok (- err, s).
Proof.
  intros [H|[Hl H]]; unfold fake_hmrf_write.
  { exists EMSGSIZE. split; [by left|]. by destruct (Z.ltb_spec BUF_SIZE (zlen data)); [|lia]. }
  exists EFAULT. split; [by right|]. destruct (Z.ltb_spec BUF_SIZE (zlen data)); [lia|].
  cbn [andb]. destruct (copy_failed copy) eqn:Ec; [done|].
  destruct H as [H|(Hd & Hd' & Hp)]; [done|]. set (zeros := replicate _ 0) in *.
  assert (Hzeros : zlen zeros = BUF_SIZE) by (by unfold zlen, zeros; rewrite length_replicate).
  assert (HB : BUF_SIZE = 1024) by done.
  unfold decodeFrameBuffer. rewrite (splice_prefix zeros data) by lia.
  rewrite (decodeFrameBuffer_loop_ok _ _ d) by (done || lia). rewrite Z.add_0_l.
  cbn [exec_bind]. by rewrite Hp.
Qed.
End Properties.

(** ** The radio address parameter *)

Definition is_hex (c : Z) : bool :=
  ((0x30 <=? c) && (c <=? 0x39)) || ((0x41 <=? c) && (c <=? 0x46)) || ((0x61 <=? c) && (c <=? 0x66)).
Definition upper (c : Z) : Z := if (0x61 <=? c) && (c <=? 0x66) then c - 32 else c.

Lemma parse_hex_char_spec c :
  if is_hex c then 0 <= fake_hmrf_parse_hex_char c < 16 /\
                   hex_digit (fake_hmrf_parse_hex_char c) = upper c
  else fake_hmrf_parse_hex_char c = - 1.
Proof.
  unfold is_hex, fake_hmrf_parse_hex_char, upper, hex_digit.
  destruct (Z.leb_spec 0x30 c), (Z.leb_spec c 0x39), (Z.leb_spec 0x41 c), (Z.leb_spec c 0x46),
    (Z.leb_spec 0x61 c), (Z.leb_spec c 0x66); simpl; try lia; cases_Z; lia.
Qed.

Lemma nibbles hi lo : 0 <= hi < 16 -> 0 <= lo < 16 ->
  let b := Z.lor (u8 (Z.shiftl hi 4)) lo in
  is_byte b /\ Z.shiftr b 4 = hi /\ Z.land b 15 = lo.
Proof.
  intros Hh Hl. cbv zeta.
  pose (P := fun x => let b := Z.lor (u8 (Z.shiftl (x / 16) 4)) (x mod 16) in
    (0 <=? b) && (b <? 256) && (Z.shiftr b 4 =? x / 16) && (Z.land b 15 =? x mod 16)).
  assert (H : all_below 256 P = true) by (by vm_compute).
  pose proof (all_below_spec _ _ H (hi * 16 + lo) ltac:(lia)) as E. unfold P in E. clear P H.
  replace ((hi * 16 + lo) / 16) with hi in E by zdiv_lia.
  replace ((hi * 16 + lo) mod 16) with lo in E by zdiv_lia.
  rewrite !andb_true_iff in E. unfold is_byte. lia.
Qed.

(** The bytes of a text of [2 * n] hexadecimal digits. *)
Lemma parse_mac_loop_spec n val : length val = (2 * n)%nat ->
  match parse_mac_loop n val with
  | Some mac => forallb is_hex val = true /\ length mac = n /\ bytes mac /\
                flat_map hex_byte mac = map upper val
  | None => forallb is_hex val = false
  end.
Proof.
  revert val. induction n as [|n IH]; intros val Hv.
  { destruct val; [|done]. split; [done|]. split; [done|]. split; [constructor|done]. }
  destruct val as [|c1 [|c2 val]]; simpl in Hv; try lia.
  cbn [parse_mac_loop]. change ((c1 :: c2 :: val) @@ 0) with c1. change ((c1 :: c2 :: val) @@ 1) with c2.
  change (drop 2 (c1 :: c2 :: val)) with val. cbn [forallb].
  pose proof (parse_hex_char_spec c1) as H1. pose proof (parse_hex_char_spec c2) as H2.
  destruct (is_hex c1); [|by rewrite H1]. destruct H1 as [R1 E1].
  destruct (Z.eqb_spec (fake_hmrf_parse_hex_char c1) (-1)); [lia|].
  destruct (is_hex c2); [|by rewrite H2]. destruct H2 as [R2 E2].
  destruct (Z.eqb_spec (fake_hmrf_parse_hex_char c2) (-1)); [lia|].
  specialize (IH val ltac:(lia)). destruct (parse_mac_loop n val) as [mac|]; [|done].
  destruct IH as (I1 & I2 & I3 & I4). destruct (nibbles _ _ R1 R2) as (B & N1 & N2).
  split; [done|]. split; [by simpl; rewrite I2|]. split; [by constructor|].
  cbn [flat_map map]. rewrite I4. unfold hex_byte at 1. by rewrite N1, N2, E1, E2.
Qed.

Definition mac_text (val : list Z) : Prop :=
  exists digits, val = 0x30 :: 0x78 :: digits /\ length digits = 6%nat /\ forallb is_hex digits = true.

Lemma five_entries (l : list Z) : zlen l = 5 -> exists a b c d e, l = [a; b; c; d; e].
Proof.
  unfold zlen. destruct l as [|a [|b [|c [|d [|e [|]]]]]]; simpl; try lia. eauto 10.
Qed.

(** The radio address parameter takes exactly the texts "0x"
    with six hexadecimal digits and rejects the rest without a change; an
    accepted address is read back with capital digits, and both responses that
    carry the address carry the new one. *)
Theorem radio_mac_parameter (val : list Z) (s : hmrf) : hmrf_ok s ->
  let (ret, s') := fake_hmrf_set_radio_mac val s in
  (mac_text val /\ ret = 8 /\ hmrf_ok s' /\
     fake_hmrf_get_radio_mac s' = map upper val /\
     slice (llmac_get_default_rf_address_response s') 2 3
       = slice (hmip_get_default_rf_address_response s') 2 3)
  \/ (~ mac_text val /\ ret = - EINVAL /\ s' = s).
Proof.
  intros Hs. unfold fake_hmrf_set_radio_mac.
  destruct (Z.eqb_spec (zlen val) 8) as [Hl|Hl]; cbn [negb].
  2: { right. split; [|done]. intros (d & -> & Hd & _). apply Hl. unfold zlen. simpl. lia. }
  destruct val as [|c0 [|c1 val]]; try done.
  change ((c0 :: c1 :: val) @@ 0) with c0. change ((c0 :: c1 :: val) @@ 1) with c1.
  change (drop 2 (c0 :: c1 :: val)) with val.
  destruct (Z.eqb_spec c0 0x30) as [->|Hc]; cbn [negb orb].
  2: { right. split; [|done]. intros (d & [= -> -> ->] & _). done. }
  destruct (Z.eqb_spec c1 0x78) as [->|Hc]; cbn [negb].
  2: { right. split; [|done]. intros (d & [= -> ->] & _). done. }
  rewrite !zlen_cons in Hl. unfold zlen in Hl.
  pose proof (parse_mac_loop_spec 3 val ltac:(lia)) as H.
  destruct (parse_mac_loop 3 val) as [mac|].
  - left. destruct H as (H1 & H2 & H3 & H4). split.
    { exists val. split; [done|]. split; [lia|done]. }
    split; [done|]. destruct mac as [|m0 [|m1 [|m2 [|]]]]; try done.
    destruct Hs as [R V [L1 L2] S [P1 P2]].
    destruct (five_entries _ L1) as (a0 & a1 & a2 & a3 & a4 & E1).
    destruct (five_entries _ P1) as (b0 & b1 & b2 & b3 & b4 & E2). rewrite E1, E2 in *.
    assert (Hb : forall x y, is_byte x -> is_byte y -> response_ok 5 [x; y; m0; m1; m2]).
    { intros x y Hx Hy. split; [done|]. unfold bytes in *.
      inversion_clear H3 as [|? ? ? H5]. inversion_clear H5 as [|? ? ? H6].
      inversion_clear H6. by repeat (apply Forall_cons; split). }
    inversion_clear L2 as [|? ? A0 L3]. inversion_clear L3 as [|? ? A1 _].
    inversion_clear P2 as [|? ? B0 P3]. inversion_clear P3 as [|? ? B1 _].
    split; [by split; [done|done|apply Hb|done|apply Hb]|]. split; [|done].
    cbn [flat_map] in H4. rewrite app_nil_r in H4.
    change (map upper (0x30 :: 0x78 :: val)) with (0x30 :: 0x78 :: map upper val).
    by rewrite <- H4.
  - right. split; [|done]. intros (d & [= ->] & _ & Hd). congruence.
Qed.

(** ** The theorems on concrete requests *)

Lemma initial_hmrf_ok : hmrf_ok initial_hmrf.
Proof.
  split; [split; [by exists 10|..]|..]; try done; (split; [done|by apply bytes_check]).
Qed.

Definition ask_version : hm_frame := HmFrame HM_DST_TRX 1 [HM_TRX_GET_VERSION] 1.

Lemma ask_version_ok : frame_ok ask_version.
Proof. split; try done. by apply bytes_check. Qed.

Lemma request_answered_witness : exists s',
  fake_hmrf_write (CB := linux_circ) false Copied (wire ask_version) initial_hmrf = Ok (8, s') /\
  replies s' = wire (HmFrame 1 1 (trx_get_version_response initial_hmrf) 11).
Proof.
  destruct (request_answered (CB := linux_circ) ask_version initial_hmrf initial_hmrf_ok
    ask_version_ok) as (s' & H1 & _ & _ & _ & H2); [by vm_compute|by vm_compute|].
  exists s'. split; [exact H1|exact H2].
Defined.

Lemma bad_request_rejected_witness : exists err, (err = EMSGSIZE \/ err = EFAULT) /\
  fake_hmrf_write (CB := linux_circ) false Copied [0xfd; 0; 3] initial_hmrf
    = Ok (- err, initial_hmrf).
Proof.
  apply (bad_request_rejected (CB := linux_circ) Copied [0xfd; 0; 3] [0xfd; 0; 3]).
  right. split; [done|]. right. by vm_compute.
Defined.

Lemma radio_mac_parameter_witness :
  let (ret, s') := fake_hmrf_set_radio_mac [0x30; 0x78; 0x61; 0x31; 0x32; 0x42; 0x30; 0x66]
                     initial_hmrf in
  ret = 8 /\ fake_hmrf_get_radio_mac s' = [0x30; 0x78; 0x41; 0x31; 0x32; 0x42; 0x30; 0x46].
Proof.
  pose proof (radio_mac_parameter [0x30; 0x78; 0x61; 0x31; 0x32; 0x42; 0x30; 0x66]
    initial_hmrf initial_hmrf_ok) as H.
  destruct H as [(_ & H1 & _ & H2 & _)|(_ & H & _)]; [by split|by vm_compute in H].
Defined.
