(* ===== verification/HbRfEth.v ===== *)
(** The HB-RF-ETH network driver (src/kernel/hb_rf_eth.c).

    The radio module sits behind a UDP connection.  Commands for it are put in
    a queue of messages that a sender thread empties; a receiver thread feeds
    the payload of incoming packets to the generic raw UART driver and watches
    over the connection.  Packets carry a counter and a CRC. *)
From S2P Require Import Prelude Kernel Ring HmFrame RawUart RawUartRx RawUartTx.

Definition HB_RF_ETH_PROTOCOL_VERSION : Z := 2.
Definition TX_CHUNK_SIZE : Z := 1468.
Definition BUFFER_SIZE : Z := 1500.
Definition QUEUE_LENGTH : Z := 32.

(** [struct send_msg_queue_entry] *)
Record entry := Entry { e_buffer : list Z; e_len : Z }.
#[export] Instance entry_inhabited : Inhabited entry := populate (Entry [] 0).

(** The variables of the module.  [uart] is the connection state of the
    registered raw UART, [None] once it has been freed; [packets] are those
    handed to the socket, latest first. *)
Record eth := Eth {
  sock : bool;
  gpio_value : Z;
  msg_cnt : Z;
  entries : list entry;
  q_head : Z;
  q_tail : Z;
  currentEndpointIdentifier : Z;
  recv_thread : bool;
  send_thread : bool;
  uart : option bool;
  packets : list (list Z)
}.

Definition set_sock (b : bool) (s : eth) : eth :=
  Eth b (gpio_value s) (msg_cnt s) (entries s) (q_head s) (q_tail s)
    (currentEndpointIdentifier s) (recv_thread s) (send_thread s) (uart s) (packets s).
Definition set_gpio_value (v : Z) (s : eth) : eth :=
  Eth (sock s) v (msg_cnt s) (entries s) (q_head s) (q_tail s)
    (currentEndpointIdentifier s) (recv_thread s) (send_thread s) (uart s) (packets s).
Definition set_msg_cnt (n : Z) (s : eth) : eth :=
  Eth (sock s) (gpio_value s) n (entries s) (q_head s) (q_tail s)
    (currentEndpointIdentifier s) (recv_thread s) (send_thread s) (uart s) (packets s).
Definition set_queue (es : list entry) (h t : Z) (s : eth) : eth :=
  Eth (sock s) (gpio_value s) (msg_cnt s) es h t
    (currentEndpointIdentifier s) (recv_thread s) (send_thread s) (uart s) (packets s).
Definition set_endpoint (e : Z) (s : eth) : eth :=
  Eth (sock s) (gpio_value s) (msg_cnt s) (entries s) (q_head s) (q_tail s)
    e (recv_thread s) (send_thread s) (uart s) (packets s).
Definition set_threads (r t : bool) (s : eth) : eth :=
  Eth (sock s) (gpio_value s) (msg_cnt s) (entries s) (q_head s) (q_tail s)
    (currentEndpointIdentifier s) r t (uart s) (packets s).
Definition set_uart (u : option bool) (s : eth) : eth :=
  Eth (sock s) (gpio_value s) (msg_cnt s) (entries s) (q_head s) (q_tail s)
    (currentEndpointIdentifier s) (recv_thread s) (send_thread s) u (packets s).
Definition add_packet (p : list Z) (s : eth) : eth :=
  Eth (sock s) (gpio_value s) (msg_cnt s) (entries s) (q_head s) (q_tail s)
    (currentEndpointIdentifier s) (recv_thread s) (send_thread s) (uart s) (p :: packets s).

(** ** Packets *)

Fixpoint calc_crc_loop (l : list Z) (crc : Z) : Z :=
  match l with
  | [] => crc
  | b :: l => calc_crc_loop l (Nat.iter 8 crc_bit (u16 (Z.lxor crc (Z.shiftl b 8))))
  end.
Definition hb_rf_eth_calc_crc (buf : list Z) (len : Z) : Z := calc_crc_loop (slice buf 0 len) 0xd77f.

(** [*((uint16_t * )(buffer + i)) = htons(crc)] *)
Definition put_be16 (b : list Z) (i crc : Z) : list Z :=
  put (put b i (Z.land (Z.shiftr crc 8) 0xff)) (i + 1) (Z.land crc 0xff).

(** The buffer is completed in place; [connected] says whether there is a
    socket. *)
Definition hb_rf_eth_send_msg (connected : bool) (buffer : list Z) (len : Z) (s : eth)
    : list Z * eth :=
  let n := s32 (msg_cnt s + 1) in
  let b := put buffer 1 (u8 n) in
  let b := put_be16 b (len - 2) (hb_rf_eth_calc_crc b (len - 2)) in
  let s := set_msg_cnt n s in
  (b, if connected then add_packet (slice b 0 len) s else s).

(** [kernel_recvmsg]: an error, or the bytes it stored. *)
Inductive recv_result := RecvErr (err : Z) | RecvData (data : list Z).

(** The result and the bytes in the buffer. *)
Definition hb_rf_eth_recv_packet (connected : bool) (r : recv_result) : Z * list Z :=
  if negb connected then (- EPROTO, []) else
  match r with
  | RecvErr err => (err, [])
  | RecvData d =>
    let len := zlen d in
    if 0 <? len then
      if len <? 4 then (- EPROTO, d) else
      if negb (be16 (d @@ (len - 2)) (d @@ (len - 1)) =? u16 (hb_rf_eth_calc_crc d (len - 2)))
      then (- EPROTO, d) else (len, d)
    else (len, d)
  end.

Section Eth.
Context `{CB : CircBuf}.

(** ** The queue *)

Definition hb_rf_eth_queue_msg (cmd : Z) (buffer : list Z) (len : Z) (s : eth) : eth :=
  let head := q_head s in
  let tail := q_tail s in
  if 1 <=? CIRC_SPACE head tail QUEUE_LENGTH then
    let e := entries s @@ head in
    let b := put (put (e_buffer e) 0 cmd) 1 0 in
    let e := Entry (splice b 2 (slice buffer 0 len)) (len + 4) in
    set_queue (<[Z.to_nat head := e]> (entries s)) (Z.land (head + 1) (QUEUE_LENGTH - 1)) tail s
  else s.

Definition is_queue_filled (s : eth) : bool :=
  1 <=? CIRC_CNT (q_head s) (q_tail s) QUEUE_LENGTH.

(** One turn of [hb_rf_eth_send_threadproc]; [keepalive] says that the time
    for a keep-alive has come. *)
Definition send_thread_turn (keepalive : bool) (s : eth) : eth :=
  let s :=
    if is_queue_filled s then
      let tail := q_tail s in
      let e := entries s @@ tail in
      let b := if e_buffer e @@ 0 =? 3 then put (e_buffer e) 2 (gpio_value s) else e_buffer e in
      let (b, s) := hb_rf_eth_send_msg (sock s) b (e_len e) s in
      let es := <[Z.to_nat tail := Entry b (e_len e)]> (entries s) in
      set_queue es (q_head s) (Z.land (tail + 1) (QUEUE_LENGTH - 1)) s
    else s in
  if keepalive then (hb_rf_eth_send_msg (sock s) [2; 0; 0; 0] 4 s).2 else s.

(** ** Connecting *)

Definition generic_raw_uart_set_connection_state (state : bool) (s : eth) : exec eth :=
  let? _ := deref (uart s) in Ok (set_uart (Some state) s).

(** The packets that arrive before the time is up: does one of them accept
    the connection? *)
Fixpoint await_welcome (counter : Z) (rs : list recv_result) : option Z :=
  match rs with
  | [] => None
  | r :: rs =>
    let (len, b) := hb_rf_eth_recv_packet true r in
    if (len =? 7) && (b @@ 0 =? 0) && (b @@ 2 =? HB_RF_ETH_PROTOCOL_VERSION) && (b @@ 3 =? counter)
    then Some (b @@ 4)
    else await_welcome counter rs
  end.

(** [sock_err], [conn_err]: results of [sock_create_kern] and [connect],
    negative when they fail. *)
Definition hb_rf_eth_try_connect (sock_err conn_err : Z) (rs : list recv_result)
    (endpointIdentifier : Z) (s : eth) : exec (Z * eth) :=
  if sock_err <? 0 then Ok (sock_err, s) else
  if conn_err <? 0 then Ok (conn_err, s) else
  let (b, s) := hb_rf_eth_send_msg true
                  [0; 0; HB_RF_ETH_PROTOCOL_VERSION; endpointIdentifier; 0; 0] 6 s in
  match await_welcome (b @@ 1) rs with
  | None => Ok (- ETIMEDOUT, s)
  | Some e =>
    let s := set_sock true (set_endpoint e s) in
    let? s := generic_raw_uart_set_connection_state true s in
    Ok (0, s)
  end.

Definition hb_rf_eth_send_reset (s : eth) : eth := hb_rf_eth_queue_msg 4 [] 0 s.

(** Giving up the socket. *)
Definition drop_connection (s : eth) : exec eth :=
  generic_raw_uart_set_connection_state false (set_sock false s).

(** [ip]: the text; [recv_err], [send_err]: errors of the two [kthread_run],
    0 when they succeed. *)
Definition hb_rf_eth_connect (ip : list Z) (sock_err conn_err : Z) (rs : list recv_result)
    (recv_err send_err : Z) (s : eth) : exec (Z * eth) :=
  if ip @@ 0 =? 0 then Ok (- EINVAL, s) else
  let? (err, s) := hb_rf_eth_try_connect sock_err conn_err rs 0 s in
  if negb (err =? 0) then Ok (err, s) else
  if negb (recv_err =? 0) then
    let? s := drop_connection (set_threads false (send_thread s) s) in Ok (recv_err, s)
  else
    let s := set_threads true (send_thread s) s in
    if negb (send_err =? 0) then
      let? s := drop_connection (set_threads false false s) in Ok (send_err, s)
    else Ok (0, hb_rf_eth_send_reset (set_threads true true s)).

Definition hb_rf_eth_disconnect (s : eth) : exec eth :=
  let s := set_threads false false s in
  if sock s then
    let (_, s) := hb_rf_eth_send_msg true [1; 0; 0; 0] 4 s in
    drop_connection s
  else Ok s.

Definition connect_store (b : list Z) (sock_err conn_err : Z) (rs : list recv_result)
    (recv_err send_err : Z) (s : eth) : exec (Z * eth) :=
  let count := zlen b in
  if count =? 0 then Ok (0, s) else
  if 16 <? count then Ok (- EINVAL, s) else
  let? s := hb_rf_eth_disconnect s in
  if (b @@ 0 =? 0) || (b @@ 0 =? 0x2d) then Ok (count, s) else
  let? (err, s) := hb_rf_eth_connect (b ++ [0]) sock_err conn_err rs recv_err send_err s in
  Ok (if err =? 0 then count else err, s).

Definition is_connected_show (s : eth) : Z := if sock s then 1 else 0.

(** The end of the module: the raw UART is removed first. *)
Definition hb_rf_eth_exit (s : eth) : exec eth :=
  let? s := generic_raw_uart_set_connection_state false s in
  hb_rf_eth_disconnect (set_uart None s).

(** ** Receiving *)

(** The state of the receiver thread besides the module's. *)
Record receiver := Receiver { r_eth : eth; r_inst : instance; lastReceivedKeepAlive : Z }.

(** [generic_raw_uart_handle_rx_char] for [buffer[2 .. len-3]]. *)
Definition feed (payload : list Z) (i : instance) : instance :=
  fold_left (fun i b => generic_raw_uart_handle_rx_char RX_STATE_NONE b i) payload i.

(** The packet part of one turn of [hb_rf_eth_recv_threadproc]; [now] is
    [jiffies]. *)
Definition receive_packet (r : recv_result) (now : Z) (st : receiver) : receiver :=
  let (len, b) := hb_rf_eth_recv_packet (sock (r_eth st)) r in
  if 4 <=? len then
    if b @@ 0 =? 2 then Receiver (r_eth st) (r_inst st) now
    else if b @@ 0 =? 7 then
      Receiver (r_eth st) (generic_raw_uart_rx_completed (feed (slice b 2 (len - 4)) (r_inst st))) now
    else st
  else st.

(** Attempts to reconnect, until one succeeds or the thread is stopped. *)
Fixpoint reconnect (attempts : list (Z * Z * list recv_result)) (s : eth) : exec (bool * eth) :=
  match attempts with
  | [] => Ok (false, s)
  | (sock_err, conn_err, rs) :: attempts =>
    let? (err, s) :=
      hb_rf_eth_try_connect sock_err conn_err rs (currentEndpointIdentifier s) s in
    if err =? 0 then Ok (true, s) else reconnect attempts s
  end.

(** The rest of the turn: [timeout] is [msecs_to_jiffies(5000)]; the result
    says whether the thread goes on. *)
Definition watch_connection (autoreconnect : bool) (timeout now : Z)
    (attempts : list (Z * Z * list recv_result)) (st : receiver) : exec (bool * receiver) :=
  if lastReceivedKeepAlive st + timeout <? now then
    let? s := drop_connection (r_eth st) in
    if autoreconnect then
      let? (ok, s) := reconnect attempts s in
      Ok (true, Receiver s (r_inst st) (if ok then now else lastReceivedKeepAlive st))
    else Ok (false, Receiver (set_threads false (send_thread s) s) (r_inst st) (lastReceivedKeepAlive st))
  else Ok (true, st).

(** ** GPIO *)

Definition hb_rf_eth_send_gpio (s : eth) : eth := hb_rf_eth_queue_msg 3 [gpio_value s] 1 s.

Definition hb_rf_eth_gpio_request (owner mod_ok : bool) (offset : Z) : Z :=
  if 2 <? offset then - ENODEV else if owner && negb mod_ok then - ENODEV else 0.
Definition hb_rf_eth_gpio_direction_get : Z := 0.
Definition hb_rf_eth_gpio_direction_input : Z := - EPERM.
Definition hb_rf_eth_gpio_direction_output : Z := 0.
Definition hb_rf_eth_gpio_get (gpio : Z) (s : eth) : Z :=
  Z.land (gpio_value s) (Z.shiftl 1 gpio).
Definition hb_rf_eth_gpio_set (gpio value : Z) (s : eth) : eth :=
  let v := if negb (value =? 0) then Z.lor (gpio_value s) (Z.shiftl 1 gpio)
           else Z.ldiff (gpio_value s) (Z.shiftl 1 gpio) in
  hb_rf_eth_send_gpio (set_gpio_value (u8 v) s).
Definition hb_rf_eth_gpio_get_multiple (mask : Z) (s : eth) : Z := Z.land (gpio_value s) mask.
Definition hb_rf_eth_gpio_set_multiple (mask bits : Z) (s : eth) : eth :=
  let v := u8 (Z.ldiff (gpio_value s) mask) in
  let v := u8 (Z.lor v (Z.land bits mask)) in
  hb_rf_eth_send_gpio (set_gpio_value v s).

(** ** The raw UART driver *)

Context (gc_base : Z) (ip_text : list Z).

Definition hb_rf_eth_get_led_gpio_index (s : eth) (led : generic_raw_uart_led) : Z :=
  match led with
  | LED_RED => gc_base
  | LED_GREEN => gc_base + 1
  | LED_BLUE => gc_base + 2
  end.
Definition hb_rf_eth_reset_radio_module (s : eth) : Z * eth := (0, hb_rf_eth_send_reset s).
Definition hb_rf_eth_start_connection (s : eth) : Z * eth := (0, hb_rf_eth_queue_msg 5 [] 0 s).
Definition hb_rf_eth_stop_connection (s : eth) : eth := hb_rf_eth_queue_msg 6 [] 0 s.
Definition hb_rf_eth_stop_tx (s : eth) : eth := s.
Definition hb_rf_eth_isready_for_tx (s : eth) : bool * eth := (true, s).
Definition hb_rf_eth_tx_chars (s : eth) (chr : list Z) (index len : Z) : eth :=
  hb_rf_eth_queue_msg 7 (drop (Z.to_nat index) chr) len s.
Definition hb_rf_eth_init_tx (s : eth) : eth := s.

(** "HB-RF-ETH@" and the address, or a dash; [ip_text] is what [%pI4] prints. *)
Definition hb_rf_eth_get_device_type (s : eth) : Z * list Z :=
  let prefix := [72; 66; 45; 82; 70; 45; 69; 84; 72; 64] in
  let text := prefix ++ (if sock s then ip_text else [0x2d]) in
  (zlen text, take (Z.to_nat (MAX_DEVICE_TYPE_LEN - 1)) text).

Definition hb_rf_eth : RawUartDriver eth := {|
  drv_owner := true;
  start_connection := hb_rf_eth_start_connection;
  stop_connection := hb_rf_eth_stop_connection;
  init_tx := hb_rf_eth_init_tx;
  isready_for_tx := hb_rf_eth_isready_for_tx;
  tx_chars := hb_rf_eth_tx_chars;
  stop_tx := hb_rf_eth_stop_tx;
  RawUart.get_led_gpio_index := Some hb_rf_eth_get_led_gpio_index;
  RawUart.reset_radio_module := Some hb_rf_eth_reset_radio_module;
  tx_chunk_size := TX_CHUNK_SIZE;
  tx_bulktransfer_size := TX_CHUNK_SIZE;
  RawUart.get_device_type := Some hb_rf_eth_get_device_type
|}.
End Eth.

(** ** Packets keep their content *)

Lemma calc_crc_eq buf len : hb_rf_eth_calc_crc buf len = hm_crc buf len.
Proof.
  unfold hb_rf_eth_calc_crc, hm_crc. generalize 0xd77f. generalize (slice buf 0 len).
  induction l as [|b l IH]; intros c; [done|]. apply IH.
Qed.

Lemma hm_crc_range buf len : 0 <= hm_crc buf len < 2 ^ 16.
Proof. by apply crc_fold_range. Qed.

(** The last two bytes do not count for the checksum. *)
Lemma hm_crc_put_ge buf i v n : 0 <= n <= i -> hm_crc (put buf i v) n = hm_crc buf n.
Proof.
  intros. rewrite hm_crc_put by lia. rewrite decide_False by lia. by rewrite decide_True by lia.
Qed.

Lemma put_be16_sealed b len : 2 <= len <= zlen b ->
  sealed (put_be16 b (len - 2) (hm_crc b (len - 2))) len.
Proof.
  intros H. unfold sealed, put_be16. rewrite !hm_crc_put_ge by lia.
  rewrite !put_total by (rewrite ?zlen_put; lia).
  rewrite (decide_False (P := len - 2 + 1 = len - 2)) by lia.
  rewrite decide_True by lia. rewrite (decide_True (P := len - 2 + 1 = len - 1)) by lia.
  apply be16_split, hm_crc_range.
Qed.

(** What goes out: the counter in byte 1 and the checksum at the end. *)
Lemma send_msg_spec connected b len s : 4 <= len <= zlen b ->
  let (b', s') := hb_rf_eth_send_msg connected b len s in
  zlen b' = zlen b /\ sealed b' len /\
  (forall i, 0 <= i < len - 2 -> i <> 1 -> b' @@ i = b @@ i) /\
  s' = (if connected then add_packet (slice b' 0 len) else id)
         (set_msg_cnt (s32 (msg_cnt s + 1)) s).
Proof.
  intros H. unfold hb_rf_eth_send_msg. rewrite calc_crc_eq.
  set (b1 := put b 1 _). assert (H1 : zlen b1 = zlen b) by apply zlen_put.
  split. { unfold put_be16. by rewrite !zlen_put. }
  split. { apply put_be16_sealed. lia. }
  split; [|by destruct connected]. intros i Hi Hi1. unfold put_be16, b1.
  rewrite !put_total by (rewrite ?zlen_put; lia). by rewrite !decide_False by lia.
Qed.

(** The prefix of a buffer as a buffer of its own. *)
Lemma sealed_slice b len : 2 <= len <= zlen b -> sealed (slice b 0 len) len <-> sealed b len.
Proof.
  intros H. unfold sealed. rewrite !slice_total by lia. rewrite !Z2Nat.inj_0, !Nat.add_0_l.
  replace (hm_crc (slice b 0 len) (len - 2)) with (hm_crc b (len - 2)); [done|].
  unfold hm_crc, slice. f_equal. rewrite !Z2Nat.inj_0, !drop_0, take_take. f_equal. lia.
Qed.

Lemma recv_sealed d : 4 <= zlen d ->
  (hb_rf_eth_recv_packet true (RecvData d)).1 =
    if decide (sealed d (zlen d)) then zlen d else - EPROTO.
Proof.
  intros H. unfold hb_rf_eth_recv_packet. cbn [negb].
  destruct (Z.ltb_spec 0 (zlen d)); [|lia]. destruct (Z.ltb_spec (zlen d) 4); [lia|].
  rewrite calc_crc_eq. rewrite (u16_small (hm_crc _ _)) by apply hm_crc_range. unfold sealed.
  destruct (Z.eqb_spec (be16 (d @@ (zlen d - 2)) (d @@ (zlen d - 1))) (hm_crc d (zlen d - 2)));
    cbn [negb]; case_decide; done.
Qed.

(** C17 (roundtrip). A message that is sent is accepted where it is received,
    with its length; with any one byte replaced, be it in the counter or the
    checksum, it is refused. *)
Theorem packet_integrity (b : list Z) (len : Z) (s : eth) :
  4 <= len <= zlen b -> bytes b ->
  let p := slice (hb_rf_eth_send_msg true b len s).1 0 len in
  packets (hb_rf_eth_send_msg true b len s).2 = p :: packets s /\
  (hb_rf_eth_recv_packet true (RecvData p)).1 = len /\
  forall i v, 0 <= i < len -> is_byte v -> v <> p @@ i ->
    (hb_rf_eth_recv_packet true (RecvData (put p i v))).1 = - EPROTO.
Proof.
  intros Hl Hb. pose proof (send_msg_spec true b len s Hl) as H.
  assert (Hby : bytes (hb_rf_eth_send_msg true b len s).1).
  { unfold hb_rf_eth_send_msg, put_be16, put. simpl fst.
    destruct (be16_split (hm_crc (<[Z.to_nat 1:=u8 (s32 (msg_cnt s + 1))]> b) (len - 2)))
      as (B1 & B2 & _); [apply hm_crc_range|]. rewrite calc_crc_eq.
    apply Forall_insert; [|done]. apply Forall_insert; [|done].
    apply Forall_insert; [done|apply u8_byte]. }
  destruct (hb_rf_eth_send_msg true b len s) as [b' s']. cbn [fst snd] in *.
  destruct H as (Hz & Hs & _ & ->). cbv zeta.
  assert (Hzp : zlen (slice b' 0 len) = len) by (apply zlen_slice; lia).
  assert (Hsp : sealed (slice b' 0 len) len) by (apply sealed_slice; [lia|done]).
  split; [done|]. split.
  { rewrite recv_sealed by lia. rewrite Hzp. by rewrite decide_True. }
  intros i v Hi Hv Hne. rewrite recv_sealed by (rewrite zlen_put; lia). rewrite zlen_put, Hzp.
  rewrite decide_False; [done|]. intros Hbad. apply Hne.
  eapply seal_broken; [|by apply bytes_take, bytes_slice|done..]. lia.
Qed.

(** ** The queue of messages *)

(** A message as the other side sees it: command and payload.  The payload of
    a GPIO message is filled in when it is sent. *)
Definition message_of (b : list Z) (len : Z) : Z * list Z :=
  (b @@ 0, if b @@ 0 =? 3 then [] else slice b 2 (len - 4)).

Definition entry_message (e : entry) : Z * list Z := message_of (e_buffer e) (e_len e).

(** Messages that wait, oldest first. *)
Definition queued (s : eth) : list (Z * list Z) :=
  entry_message <$> slots QUEUE_LENGTH (entries s) (q_head s) (q_tail s).

(** Messages sent, oldest first, without the keep-alives and the handshake. *)
Definition sent_messages (s : eth) : list (Z * list Z) :=
  List.filter (fun m => 3 <=? m.1) (rev ((fun p => message_of p (zlen p)) <$> packets s)).

Record eth_ok (s : eth) : Prop := {
  eth_entries : length (entries s) = Z.to_nat QUEUE_LENGTH;
  eth_head : 0 <= q_head s < QUEUE_LENGTH;
  eth_tail : 0 <= q_tail s < QUEUE_LENGTH;
  eth_buffers : Forall (fun e => zlen (e_buffer e) = BUFFER_SIZE) (entries s);
  eth_queued : Forall (fun e => 4 <= e_len e <= BUFFER_SIZE /\ 3 <= e_buffer e @@ 0)
                 (slots QUEUE_LENGTH (entries s) (q_head s) (q_tail s))
}.

Inductive eth_event := QueueMsg (cmd : Z) (payload : list Z) | SendTurn (keepalive : bool).

Definition event_ok (e : eth_event) : Prop :=
  match e with
  | QueueMsg cmd p => 3 <= cmd < 2 ^ 7 /\ zlen p <= TX_CHUNK_SIZE
  | SendTurn _ => True
  end.

Section Queue.
Context `{CB : CircBuf}.

Lemma queue_pow2 : pow2 QUEUE_LENGTH.
Proof. by exists 5. Qed.

Lemma queue_wrap i : Z.land i (QUEUE_LENGTH - 1) = i mod QUEUE_LENGTH.
Proof. apply (land_pred_pow2 i 5). lia. Qed.

Lemma queue_wrap_range i : 0 <= i mod QUEUE_LENGTH < QUEUE_LENGTH.
Proof. by apply Z.mod_pos_bound. Qed.

Lemma length_queued s : length (queued s) = Z.to_nat ((q_head s - q_tail s) mod QUEUE_LENGTH).
Proof. unfold queued. by rewrite length_fmap, length_slots. Qed.

Lemma queue_space s : eth_ok s ->
  (1 <=? CIRC_SPACE (q_head s) (q_tail s) QUEUE_LENGTH) = (zlen (queued s) <? QUEUE_LENGTH - 1).
Proof.
  intros []. rewrite circ_space_law by (done || apply queue_pow2). unfold zlen. rewrite length_queued.
  pose proof (queue_wrap_range (q_head s - q_tail s)). cases_Z; lia.
Qed.

Lemma queue_filled s : eth_ok s -> is_queue_filled s = (1 <=? zlen (queued s)).
Proof.
  intros []. unfold is_queue_filled. rewrite circ_cnt_law by (done || apply queue_pow2).
  unfold zlen. rewrite length_queued. pose proof (queue_wrap_range (q_head s - q_tail s)).
  cases_Z; lia.
Qed.

Lemma entry_buffer s i : eth_ok s -> 0 <= i < QUEUE_LENGTH -> zlen (e_buffer (entries s @@ i)) = BUFFER_SIZE.
Proof.
  intros [Hl _ _ Hb _] Hi. rewrite Forall_forall in Hb. apply Hb.
  apply list_elem_of_lookup. exists (Z.to_nat i). apply list_lookup_lookup_total_lt. lia.
Qed.

(** The entry a message is stored in. *)
Lemma stored_message b cmd p : zlen b = BUFFER_SIZE -> zlen p <= TX_CHUNK_SIZE ->
  let b' := splice (put (put b 0 cmd) 1 0) 2 (slice p 0 (zlen p)) in
  zlen b' = BUFFER_SIZE /\ b' @@ 0 = cmd /\
  message_of b' (zlen p + 4) = (cmd, if cmd =? 3 then [] else p).
Proof.
  intros Hb Hp. cbv zeta. rewrite slice_all. pose proof (zlen_nonneg p).
  assert (HB : BUFFER_SIZE = 1500) by done. assert (HT : TX_CHUNK_SIZE = 1468) by done.
  set (b1 := put (put b 0 cmd) 1 0). assert (Hb1 : zlen b1 = 1500) by (unfold b1; by rewrite !zlen_put).
  assert (Hc : splice b1 2 p @@ 0 = cmd).
  { rewrite splice_at by lia. rewrite decide_False by lia. unfold b1.
    rewrite !put_total by (rewrite ?zlen_put; lia). rewrite decide_False by lia. by rewrite decide_True. }
  split. { unfold zlen. rewrite length_splice by lia. unfold zlen in Hb1. lia. }
  split; [done|]. unfold message_of. rewrite Hc. destruct (cmd =? 3); [done|]. f_equal.
  replace (zlen p + 4 - 4) with (zlen p) by lia. unfold slice, splice, zlen.
  change (Z.to_nat 2) with 2%nat. rewrite Nat2Z.id, drop_app_ge.
  - rewrite length_take. unfold zlen in Hb1.
    replace (2 - 2 `min` length b1)%nat with 0%nat by lia. rewrite drop_0. apply (take_app_length p).
  - rewrite length_take. lia.
Qed.

Lemma queue_msg_ok cmd p s : eth_ok s -> event_ok (QueueMsg cmd p) ->
  let s' := hb_rf_eth_queue_msg cmd p (zlen p) s in
  eth_ok s' /\ sock s' = sock s /\ packets s' = packets s /\
  queued s' = if zlen (queued s) <? QUEUE_LENGTH - 1
              then queued s ++ [(cmd, if cmd =? 3 then [] else p)] else queued s.
Proof.
  intros H [Hcmd Hp]. cbv zeta. unfold hb_rf_eth_queue_msg. rewrite queue_space by done.
  pose proof (length_queued s) as Hlq.
  destruct (Z.ltb_spec (zlen (queued s)) (QUEUE_LENGTH - 1)) as [Hsp|]; [|done].
  pose proof H as [Hl Hh Ht Hb Hq]. pose proof (entry_buffer s (q_head s) H Hh) as Hbuf.
  pose proof (stored_message _ cmd p Hbuf Hp) as (S1 & S2 & S3). cbv zeta in S1, S2, S3.
  pose proof (queue_wrap_range (q_head s - q_tail s)) as Hr.
  pose proof (zlen_nonneg p). assert (HB : BUFFER_SIZE = 1500) by done.
  assert (HT : TX_CHUNK_SIZE = 1468) by done. unfold zlen in Hsp. rewrite Hlq in Hsp.
  rewrite queue_wrap. set (e := Entry _ _).
  assert (E : slots QUEUE_LENGTH (<[Z.to_nat (q_head s) := e]> (entries s))
                ((q_head s + 1) mod QUEUE_LENGTH) (q_tail s)
              = slots QUEUE_LENGTH (entries s) (q_head s) (q_tail s) ++ [e])
    by (apply slots_put; [done..|lia]).
  split; [|split; [done|split; [done|]]].
  - split; cbn [set_queue entries q_head q_tail]; try done.
    + by rewrite length_insert.
    + apply queue_wrap_range.
    + by apply Forall_insert.
    + rewrite E. apply Forall_app. split; [done|]. apply Forall_singleton. simpl e_buffer. simpl e_len.
      split; [lia|]. rewrite S2. lia.
  - unfold queued. cbn [set_queue entries q_head q_tail]. rewrite E, fmap_app. simpl.
    unfold entry_message at 2. simpl e_buffer. simpl e_len. by rewrite S3.
Qed.

(** A message survives the counter, the checksum and the GPIO value. *)
Lemma sent_message b b' len v : 4 <= len <= zlen b -> zlen b' = zlen b ->
  (forall i, 0 <= i < len - 2 -> i <> 1 ->
     b' @@ i = (if b @@ 0 =? 3 then put b 2 v else b) @@ i) ->
  message_of (slice b' 0 len) len = message_of b len.
Proof.
  intros Hl Hz Hb. unfold message_of. rewrite slice_total by lia.
  change (Z.to_nat 0 + Z.to_nat 0)%nat with (Z.to_nat 0).
  assert (H0 : b' @@ 0 = b @@ 0).
  { destruct (Z.eq_dec len 0); [lia|]. rewrite Hb by lia.
    destruct (b @@ 0 =? 3); [|done]. rewrite put_total by lia. done. }
  rewrite H0. destruct (Z.eqb_spec (b @@ 0) 3); [done|]. f_equal.
  apply list_eq_total.
  { rewrite !length_slice; try lia. rewrite zlen_slice; lia. }
  intros i Hi. rewrite length_slice in Hi by (rewrite ?zlen_slice; lia).
  rewrite !slice_total by lia. simpl.
  specialize (Hb (2 + Z.of_nat i) ltac:(lia) ltac:(lia)).
  replace (Z.to_nat (2 + Z.of_nat i)) with (S (S i)) in Hb by lia. exact Hb.
Qed.

Lemma sent_messages_packet p s : sent_messages (add_packet p s) =
  sent_messages s ++ List.filter (fun m => 3 <=? m.1) [message_of p (zlen p)].
Proof. unfold sent_messages. simpl. by rewrite List.filter_app. Qed.

Lemma keepalive_ok s : eth_ok s -> sock s = true ->
  let s' := (hb_rf_eth_send_msg true [2; 0; 0; 0] 4 s).2 in
  eth_ok s' /\ sock s' = true /\ queued s' = queued s /\ sent_messages s' = sent_messages s.
Proof.
  intros H Hs. cbv zeta. pose proof (send_msg_spec true [2; 0; 0; 0] 4 s ltac:(done)) as P.
  destruct (hb_rf_eth_send_msg true [2; 0; 0; 0] 4 s) as [b' s']. cbn [snd].
  destruct P as (Hz & _ & Hb & ->). split; [by destruct H|]. split; [done|]. split; [done|].
  rewrite sent_messages_packet. unfold message_of. rewrite slice_total by lia.
  change (b' !!! (Z.to_nat 0 + Z.to_nat 0)%nat) with (b' @@ 0). rewrite Hb by lia. simpl.
  by rewrite app_nil_r.
Qed.

(** Sending the oldest message. *)
Lemma send_head_ok s : eth_ok s -> sock s = true -> is_queue_filled s = true ->
  let s' := send_thread_turn false s in
  exists m, eth_ok s' /\ sock s' = true /\ queued s = m :: queued s' /\
    sent_messages s' = sent_messages s ++ [m].
Proof.
  intros H Hs Hf. cbv zeta. unfold send_thread_turn. rewrite Hf, Hs.
  rewrite queue_filled in Hf by done. apply Z.leb_le in Hf. unfold zlen in Hf. rewrite length_queued in Hf.
  pose proof H as [Hl Hh Ht Hb Hq]. pose proof (entry_buffer s (q_tail s) H Ht) as Hbuf.
  set (e := entries s @@ q_tail s) in *.
  set (b := if e_buffer e @@ 0 =? 3 then put (e_buffer e) 2 (gpio_value s) else e_buffer e).
  assert (Hbz : zlen b = BUFFER_SIZE) by (unfold b; destruct (_ =? 3); by rewrite ?zlen_put).
  pose proof (queue_wrap_range (q_head s - q_tail s)) as Hr.
  assert (G : forall y, slots QUEUE_LENGTH (entries s) (q_head s) (q_tail s) =
    e :: slots QUEUE_LENGTH (<[Z.to_nat (q_tail s) := y]> (entries s)) (q_head s)
           ((q_tail s + 1) mod QUEUE_LENGTH)) by (intros y; apply slots_get; [done..|lia]).
  assert (He : 4 <= e_len e <= BUFFER_SIZE /\ 3 <= e_buffer e @@ 0)
    by (rewrite (G e) in Hq; by inversion Hq).
  destruct He as [He Hcmd]. rewrite <- Hbz in He at 1.
  pose proof (send_msg_spec true b (e_len e) s He) as P.
  destruct (hb_rf_eth_send_msg true b (e_len e) s) as [b' s']. destruct P as (Hz & _ & Hbb & ->).
  cbn [add_packet set_msg_cnt entries q_head q_tail set_queue]. rewrite queue_wrap.
  set (e' := Entry b' (e_len e)). exists (entry_message e).
  assert (Hm : message_of (slice b' 0 (e_len e)) (e_len e) = entry_message e).
  { apply (sent_message (e_buffer e) b' (e_len e) (gpio_value s)); [lia|lia|].
    intros i Hi Hi1. rewrite Hbb by done. done. }
  split.
  { split; cbn [set_queue entries q_head q_tail add_packet set_msg_cnt]; try done.
    - by rewrite length_insert.
    - apply queue_wrap_range.
    - apply Forall_insert; [done|]. simpl. lia.
    - rewrite (G e') in Hq. by inversion Hq. }
  split; [done|]. split.
  { unfold queued. cbn [set_queue entries q_head q_tail add_packet set_msg_cnt].
    by rewrite (G e'). }
  change (sent_messages (add_packet (slice b' 0 (e_len e)) (set_msg_cnt (s32 (msg_cnt s + 1)) s))
          = sent_messages s ++ [entry_message e]).
  rewrite sent_messages_packet. rewrite zlen_slice by lia. rewrite Hm.
  change (sent_messages (set_msg_cnt (s32 (msg_cnt s + 1)) s)) with (sent_messages s).
  cbn [List.filter entry_message message_of fst].
  destruct (Z.leb_spec 3 (e_buffer e @@ 0)); [done|lia].
Qed.

Lemma send_turn_ok ka s : eth_ok s -> sock s = true ->
  let s' := send_thread_turn ka s in
  eth_ok s' /\ sock s' = true /\
  sent_messages s' ++ queued s' = sent_messages s ++ queued s /\
  zlen (queued s') = Z.max 0 (zlen (queued s) - 1).
Proof.
  intros H Hs. cbv zeta. set (s1 := send_thread_turn false s).
  assert (H1 : eth_ok s1 /\ sock s1 = true /\
    sent_messages s1 ++ queued s1 = sent_messages s ++ queued s /\
    zlen (queued s1) = Z.max 0 (zlen (queued s) - 1)).
  { destruct (is_queue_filled s) eqn:Hf.
    - destruct (send_head_ok s H Hs Hf) as (m & H1 & H2 & H3 & H4). fold s1 in H1, H2, H3, H4.
      split; [done|]. split; [done|]. rewrite H3, H4, <- app_assoc, zlen_cons. split; [done|].
      pose proof (zlen_nonneg (queued s1)). lia.
    - unfold s1, send_thread_turn. rewrite Hf. split; [done|]. split; [done|]. split; [done|].
      rewrite queue_filled in Hf by done. apply Z.leb_gt in Hf. pose proof (zlen_nonneg (queued s)). lia. }
  assert (E : send_thread_turn ka s
    = if ka then (hb_rf_eth_send_msg (sock s1) [2; 0; 0; 0] 4 s1).2 else s1).
  { unfold s1, send_thread_turn. by destruct ka. }
  rewrite E. destruct ka; [|done]. destruct H1 as (A & B & C & F). rewrite B.
  destruct (keepalive_ok s1 A B) as (A' & B' & C' & F'). by rewrite C', F'.
Qed.

Definition eth_step (st : eth * list (Z * list Z)) (e : eth_event) : eth * list (Z * list Z) :=
  let (s, accepted) := st in
  match e with
  | QueueMsg cmd p =>
    (hb_rf_eth_queue_msg cmd p (zlen p) s,
     if zlen (queued s) <? QUEUE_LENGTH - 1
     then accepted ++ [(cmd, if cmd =? 3 then [] else p)] else accepted)
  | SendTurn ka => (send_thread_turn ka s, accepted)
  end.

End Queue.

(** ** Receiving, long messages, unloading *)

Section Uses.
Context `{CB : CircBuf}.

Lemma feed_burst p i : feed p i = rx_burst ((fun b => (RX_STATE_NONE, b)) <$> p) i.
Proof.
  unfold feed, rx_burst. revert i. induction p as [|b p IH]; intros i; [done|]. apply IH.
Qed.

Lemma good_chars_none p : good_chars ((fun b => (RX_STATE_NONE, b)) <$> p) = p.
Proof.
  unfold good_chars. induction p as [|b p IH]; [done|]. cbn.
  change (is_break RX_STATE_NONE) with false. cbn. by rewrite IH.
Qed.

(** A data packet that arrives intact delivers exactly its
    payload, as far as the ring of the raw UART has room, and counts as a sign
    of life; a packet with a wrong checksum changes nothing. *)
Theorem payload_received (d : list Z) (now : Z) (st : receiver) :
  rx_ok (r_inst st) -> sock (r_eth st) = true -> 4 <= zlen d ->
  let st' := receive_packet (RecvData d) now st in
  r_eth st' = r_eth st /\
  if decide (sealed d (zlen d)) then
    d @@ 0 = 7 ->
    lastReceivedKeepAlive st' = now /\
    pending (r_inst st') = pending (r_inst st) ++
      take (Z.to_nat (rx_capacity - zlen (pending (r_inst st)))) (slice d 2 (zlen d - 4))
  else st' = st.
Proof.
  intros Hi Hs Hl. unfold receive_packet. rewrite Hs.
  pose proof (recv_sealed d Hl) as Hr.
  destruct (hb_rf_eth_recv_packet true (RecvData d)) as [len b] eqn:E. simpl in Hr. subst len.
  assert (Hb : b = d).
  { unfold hb_rf_eth_recv_packet in E. repeat case_match; by simplify_eq. }
  subst b. cbv zeta. case_decide as Hd; [|done].
  destruct (Z.leb_spec 4 (zlen d)); [|lia].
  split. { by repeat case_match. }
  intros H7. rewrite H7. cbn [Z.eqb Pos.eqb]. split; [done|].
  cbn [r_inst]. rewrite rx_completed_pending, feed_burst, rx_burst_pending by done.
  by rewrite good_chars_none.
Qed.

(** The raw UART code takes messages of up to
    [CON_DATA_TX_BUF_SIZE] bytes and expects the driver to call
    [generic_raw_uart_tx_queued] until all of it is sent.  This driver never
    calls it: of a message longer than [TX_CHUNK_SIZE] the first chunk is
    queued, then the writer waits although nothing will ever wake it, and
    keeps the line. *)
Theorem long_write_stalls (gc_base : Z) (ip_text : list Z) (p : nat) (c : conn) (data : list Z)
    (u : RawUart.uart eth) :
  conns u !! p = Some c -> zlen (txbuf c) = CON_DATA_TX_BUF_SIZE ->
  tx_connection (inst u) = None ->
  TX_CHUNK_SIZE < zlen data <= CON_DATA_TX_BUF_SIZE ->
  exists u1 u2 c2,
    write_begin false Copied data p u = Ok (None, u1) /\
    generic_raw_uart_acquire_sender (DR := hb_rf_eth gc_base ip_text) p u1 = Ok (1, false, u2) /\
    generic_raw_uart_send_completed p u2 = false /\
    conns u2 !! p = Some c2 /\ tx_buf_index c2 = TX_CHUNK_SIZE /\ tx_buf_length c2 = zlen data /\
    drv u2 = hb_rf_eth_queue_msg 7 (txbuf c2) TX_CHUNK_SIZE (drv u).
Proof.
  intros Hp Hb Ht Hd. assert (HC : CON_DATA_TX_BUF_SIZE = 4096) by done.
  assert (HT : TX_CHUNK_SIZE = 1468) by done.
  unfold write_begin. rewrite Hp. cbn [deref exec_bind].
  destruct (Z.ltb_spec CON_DATA_TX_BUF_SIZE (zlen data)); [lia|]. cbn [copy_failed].
  set (c1 := Conn _ _ _ _). set (u1 := with_conns _ u).
  assert (Hc1 : conns u1 !! p = Some c1) by (simpl; by rewrite lookup_insert_eq).
  exists u1. eexists _, (set_tx_index TX_CHUNK_SIZE c1). split; [done|].
  unfold generic_raw_uart_acquire_sender. change (tx_connection (inst u1)) with (tx_connection (inst u)).
  rewrite Ht. unfold generic_raw_uart_tx_queued_unlocked.
  change (Z.to_nat tx_chunk_size) with (S (Z.to_nat 1467)). generalize (Z.to_nat 1467). intros fuel.
  cbn [tx_loop]. change (negb (0 <? tx_chunk_size)) with false. cbv iota.
  cbn [isready_for_tx hb_rf_eth hb_rf_eth_isready_for_tx with_drv on_inst drv inst conns negb
       set_tx_connection tx_connection init_tx hb_rf_eth_init_tx module_refs].
  rewrite Hc1. cbn [deref exec_bind]. change (tx_buf_index c1) with 0.
  change (tx_buf_length c1) with (zlen data). destruct (Z.ltb_spec 0 (zlen data)); [|lia].
  rewrite Z.sub_0_r, s32_small by lia.
  change (tx_bulktransfer_size (RawUartDriver := hb_rf_eth gc_base ip_text)) with TX_CHUNK_SIZE.
  rewrite Z.min_l by lia. cbn [tx_loop].
  change (negb (0 + TX_CHUNK_SIZE <? tx_chunk_size)) with true. cbv iota.
  cbn [exec_bind tx_connection inst set_count_tx set_tx_connection conns].
  rewrite lookup_insert_eq. cbn [deref exec_bind set_tx_index tx_buf_length tx_buf_index].
  change (u64 (0 + TX_CHUNK_SIZE)) with TX_CHUNK_SIZE.
  change (tx_buf_length c1) with (zlen data).
  destruct (Z.leb_spec (zlen data) TX_CHUNK_SIZE); [lia|].
  cbn [exec_bind]. split; [done|]. split.
  { unfold generic_raw_uart_send_completed. cbn [inst tx_connection]. by rewrite bool_decide_true. }
  split; [cbn [conns]; by rewrite lookup_insert_eq|]. split; [done|]. done.
Qed.

(** Unloading the module while it is connected: the raw UART
    is removed and freed before the connection is closed, and closing it
    reports the new state to the raw UART. *)
Theorem exit_while_connected (s : eth) : uart s <> None ->
  hb_rf_eth_exit s = if sock s then UseAfterFree
                     else Ok (set_threads false false (set_uart None s)).
Proof.
  intros Hu. unfold hb_rf_eth_exit, generic_raw_uart_set_connection_state.
  destruct (uart s) as [b|] eqn:E; [|done]. cbn [deref exec_bind].
  unfold hb_rf_eth_disconnect. cbn [set_threads set_uart sock]. destruct (sock s); [|done].
  destruct (hb_rf_eth_send_msg true [1; 0; 0; 0] 4 _) as [b' s'] eqn:Es.
  unfold hb_rf_eth_send_msg in Es. injection Es as <- <-. done.
Qed.
End Uses.

(** ** The theorems on concrete states *)

Definition blank_entry : entry := Entry (replicate 1500 0) 0.
Definition connected_eth : eth :=
  Eth true 0 0 (replicate 32 blank_entry) 0 0 1 true true (Some true) [].

Lemma connected_eth_ok : eth_ok connected_eth.
Proof. split; try done. by apply Forall_replicate. Qed.

Lemma packet_integrity_witness :
  let p := slice (hb_rf_eth_send_msg true [7; 0; 65; 66; 0; 0] 6 connected_eth).1 0 6 in
  (hb_rf_eth_recv_packet true (RecvData p)).1 = 6 /\
  (hb_rf_eth_recv_packet true (RecvData (put p 2 67))).1 = - EPROTO.
Proof.
  destruct (packet_integrity [7; 0; 65; 66; 0; 0] 6 connected_eth) as (_ & H1 & H2);
    [by vm_compute|by apply bytes_check|].
  split; [exact H1|]. apply H2; [lia|by split|by vm_compute].
Defined.


Lemma payload_received_witness :
  let st := Receiver connected_eth new_instance 0 in
  let d := slice (hb_rf_eth_send_msg true [7; 0; 65; 66; 0; 0] 6 connected_eth).1 0 6 in
  pending (r_inst (receive_packet (CB := linux_circ) (RecvData d) 9 st)) = [65; 66].
Proof.
  cbv zeta. set (d := slice _ 0 6).
  pose proof (payload_received (CB := linux_circ) d 9 (Receiver connected_eth new_instance 0)
    new_instance_rx_ok eq_refl) as H.
  destruct H as [_ H]; [by vm_compute|]. rewrite decide_True in H by (by vm_compute).
  destruct H as [_ H]; [by vm_compute|]. rewrite H. by vm_compute.
Defined.

Definition idle_eth_uart : RawUart.uart eth :=
  RawUart.Uart new_instance {[1%nat := new_conn]} connected_eth 1.

Lemma long_write_stalls_witness : exists u2 c2,
  generic_raw_uart_send_completed 1 u2 = false /\
  conns (D := eth) u2 !! 1%nat = Some c2 /\ tx_buf_index c2 = 1468 /\ tx_buf_length c2 = 2000.
Proof.
  destruct (long_write_stalls (CB := linux_circ) 0 [] 1 new_conn (replicate 2000 85) idle_eth_uart)
    as (u1 & u2 & c2 & _ & _ & H1 & H2 & H3 & H4 & _); [done..|by vm_compute|].
  by exists u2, c2.
Defined.

Lemma exit_while_connected_witness :
  hb_rf_eth_exit connected_eth = UseAfterFree /\
  exists s, hb_rf_eth_exit (set_sock false connected_eth) = Ok s.
Proof.
  split; [by rewrite (exit_while_connected connected_eth)|].
  rewrite (exit_while_connected (set_sock false connected_eth)) by done. by eexists.
Defined.
