(* ===== verification/Bigint.v ===== *)
(** Multi-precision integers of the device key check (src/kernel/devkey.inc,
    the [bigint_*] functions but for the special reductions).

    A number is the list of its [size] words of 32 bits, lowest word first;
    the C arrays are longer ([ECC_MAX_SIZE]), but no function touches a word
    beyond [size].  A function that writes its result through a pointer returns
    it; results may overwrite an argument, which is sound because every loop
    reads a word before it writes the word of the same index. *)
From S2P Require Import Prelude.

Abbreviation bigint := (list Z).
Definition ECC_MAX_SIZE : nat := 8.

(** The number a list of words stands for. *)
Fixpoint val (bi : bigint) : Z :=
  match bi with [] => 0 | w :: bi => w + 2 ^ 32 * val bi end.

Definition words (bi : bigint) : Prop := Forall is_word bi.

(** ** Tests *)

Fixpoint bigint_is_zero (bi : bigint) : bool :=
  match bi with
  | [] => true
  | w :: bi => if negb (w =? 0) then false else bigint_is_zero bi
  end.

Definition bigint_test_bit (bi : bigint) (bit : Z) : Z :=
  Z.land (bi @@ (bit / 32)) (u32 (Z.shiftl 1 (bit mod 32))).

(** The loop of [bigint_cmp] runs from the highest word down. *)
Fixpoint cmp_loop (lhs rhs : list Z) : Z :=
  match lhs, rhs with
  | l :: lhs, r :: rhs =>
      if r <? l then 1 else if l <? r then -1 else cmp_loop lhs rhs
  | _, _ => 0
  end.

Definition bigint_cmp (lhs rhs : bigint) : Z := cmp_loop (reverse lhs) (reverse rhs).

Definition bigint_is_even (bi : bigint) : bool := Z.land (bi @@ 0) 1 =? 0.

Definition bigint_clear (size : nat) : bigint := replicate size 0.

(** ** Shifts, sums and differences *)

Fixpoint bigint_lshift (bi : bigint) (carry : Z) : bigint * Z :=
  match bi with
  | [] => ([], carry)
  | temp :: bi =>
      let '(res, c) := bigint_lshift bi (Z.shiftr temp 31) in
      (Z.lor (u32 (Z.shiftl temp 1)) carry :: res, c)
  end.

Fixpoint rshift_loop (bi : list Z) (carry : Z) : list Z :=
  match bi with
  | [] => []
  | temp :: bi => Z.lor (Z.shiftr temp 1) carry :: rshift_loop bi (u32 (Z.shiftl temp 31))
  end.

Definition bigint_rshift (bi : bigint) : bigint := reverse (rshift_loop (reverse bi) 0).

Fixpoint add_loop (lhs rhs : bigint) (carry : Z) : bigint * Z :=
  match lhs, rhs with
  | l :: lhs, r :: rhs =>
      let sum := u32 (l + r + carry) in
      let carry := if negb (sum =? l) then b2z (sum <? l) else carry in
      let '(res, c) := add_loop lhs rhs carry in (sum :: res, c)
  | _, _ => ([], carry)
  end.

(** The sum and the carry. *)
Definition bigint_add (lhs rhs : bigint) : bigint * Z := add_loop lhs rhs 0.

Fixpoint sub_loop (lhs rhs : bigint) (borrow : Z) : bigint * Z :=
  match lhs, rhs with
  | l :: lhs, r :: rhs =>
      let diff := u32 (l - r - borrow) in
      let borrow := if negb (diff =? l) then b2z (l <? diff) else borrow in
      let '(res, b) := sub_loop lhs rhs borrow in (diff :: res, b)
  | _, _ => ([], borrow)
  end.

(** The difference and the borrow. *)
Definition bigint_sub (lhs rhs : bigint) : bigint * Z := sub_loop lhs rhs 0.

Definition bigint_mod_add (lhs rhs mod_ : bigint) : bigint :=
  let '(res, carry) := bigint_add lhs rhs in
  if negb (carry =? 0) || (0 <=? bigint_cmp res mod_) then (bigint_sub res mod_).1 else res.

Definition bigint_mod_sub (lhs rhs mod_ : bigint) : bigint :=
  let '(res, borrow) := bigint_sub lhs rhs in
  if negb (borrow =? 0) then (bigint_add res mod_).1 else res.

(** [bi[i] |= x] *)
Definition or_word (bi : bigint) (i : nat) (x : Z) : bigint := <[i := Z.lor (bi !!! i) x]> bi.

(** ** The inverse *)

(** Adding the modulus to an odd number and halving it: the four endings of
    the loop body of [bigint_mod_inv]. *)
Definition halve_mod (u mod_ : bigint) : bigint :=
  let '(u, carry) := if negb (bigint_is_even u) then bigint_add u mod_ else (u, 0) in
  let u := bigint_rshift u in
  if negb (carry =? 0) then or_word u (length u - 1) 0x80000000 else u.

Fixpoint mod_inv_loop (fuel : nat) (a b u v mod_ : bigint) : option bigint :=
  match fuel with
  | O => None
  | S fuel =>
      let cmp := bigint_cmp a b in
      if cmp =? 0 then Some u
      else if bigint_is_even a then
        mod_inv_loop fuel (bigint_rshift a) b (halve_mod u mod_) v mod_
      else if bigint_is_even b then
        mod_inv_loop fuel a (bigint_rshift b) u (halve_mod v mod_) mod_
      else if 0 <? cmp then
        let a := bigint_rshift (bigint_sub a b).1 in
        let u := if bigint_cmp u v <? 0 then (bigint_add u mod_).1 else u in
        mod_inv_loop fuel a b (halve_mod (bigint_sub u v).1 mod_) v mod_
      else
        let b := bigint_rshift (bigint_sub b a).1 in
        let v := if bigint_cmp v u <? 0 then (bigint_add v mod_).1 else v in
        mod_inv_loop fuel a b u (halve_mod (bigint_sub v u).1 mod_) mod_
  end.

Definition bigint_mod_inv (fuel : nat) (in_ mod_ : bigint) : option bigint :=
  let size := length mod_ in
  mod_inv_loop fuel in_ mod_ (<[0%nat := 1]> (bigint_clear size)) (bigint_clear size) mod_.

(** ** Products *)

(** One column of the product: the sum of [lhs[i] * rhs[k - i]] over the
    [n] values of [i] from [i] on, in the three words [r01] and [r2]. *)
Fixpoint mult_column (lhs rhs : bigint) (k i n : nat) (r01 r2 : Z) : Z * Z :=
  match n with
  | O => (r01, r2)
  | S n =>
      let product := lhs !!! i * rhs !!! (k - i)%nat in
      let r01 := u64 (r01 + product) in
      let r2 := u32 (r2 + b2z (r01 <? product)) in
      mult_column lhs rhs k (S i) n r01 r2
  end.

(** The columns from [k] on, [n] of them, and the last word. *)
Fixpoint mult_loop (lhs rhs : bigint) (size k n : nat) (r01 : Z) : bigint :=
  match n with
  | O => [u32 r01]
  | S n =>
      let min := if (k <? size)%nat then 0%nat else (k + 1 - size)%nat in
      let '(r01, r2) := mult_column lhs rhs k min (S (Nat.min k (size - 1)) - min) r01 0 in
      u32 r01 :: mult_loop lhs rhs size (S k) n
        (Z.lor (Z.shiftr r01 32) (u64 (Z.shiftl r2 32)))
  end.

Definition bigint_mult (lhs rhs : bigint) : bigint :=
  let size := length lhs in mult_loop lhs rhs size 0 (size * 2 - 1) 0.

(** [for (i = size - 1; i >= 0 && bi[i] == 0; i--)], and the index after it. *)
Fixpoint num_dwords_loop (bi : list Z) (n : nat) : nat :=
  match bi with
  | w :: bi => if w =? 0 then num_dwords_loop bi (n - 1) else n
  | [] => n
  end.

Definition bigint_num_dwords (bi : bigint) : nat := num_dwords_loop (reverse bi) (length bi).

(** [for (i = 0; tmp; i++) tmp >>= 1]; a word needs at most 32 rounds. *)
Fixpoint num_bits_loop (fuel : nat) (tmp i : Z) : Z :=
  match fuel with
  | O => i
  | S fuel => if tmp =? 0 then i else num_bits_loop fuel (Z.shiftr tmp 1) (i + 1)
  end.

Definition bigint_num_bits (bi : bigint) : Z :=
  let dwords := bigint_num_dwords bi in
  if (dwords =? 0)%nat then 0
  else Z.of_nat (dwords - 1) * 32 + num_bits_loop 32 (bi !!! (dwords - 1)%nat) 0.

(** The modulus shifted to the top of the double-size [mod_m]. *)
Fixpoint shift_mod_loop (mod_ mod_m : bigint) (at_ : nat) (bit_shift carry : Z) : bigint :=
  match mod_ with
  | [] => mod_m
  | w :: mod_ =>
      shift_mod_loop mod_ (<[at_ := Z.lor (u32 (Z.shiftl w bit_shift)) carry]> mod_m) (S at_)
        bit_shift (Z.shiftr w (32 - bit_shift))
  end.

Definition shift_mod (mod_ : bigint) (size : nat) (shift : Z) : bigint :=
  let mod_m := bigint_clear (size * 2) in
  let dword_shift := shift / 32 in
  let bit_shift := shift mod 32 in
  if 0 <? bit_shift then shift_mod_loop mod_ mod_m (Z.to_nat dword_shift) bit_shift 0
  else splice mod_m dword_shift mod_.

(** [mod_m >>= 1], done in two halves. *)
Definition rshift_halves (mod_m : bigint) (size : nat) : bigint :=
  let low := bigint_rshift (take size mod_m) in
  or_word low (size - 1) (u32 (Z.shiftl (mod_m !!! size) 31)) ++ bigint_rshift (drop size mod_m).

(** [n] rounds of the subtraction loop.  [v] holds the arrays [v[0]] and
    [v[1]]; the difference goes to the one that is not [v[i]]. *)
Fixpoint mod_mult_loop (n : nat) (v : bigint * bigint) (i : bool) (mod_m : bigint) (size : nat) :
    bigint :=
  match n with
  | O => if i then v.2 else v.1
  | S n =>
      let '(diff, borrow) := bigint_sub (if i then v.2 else v.1) mod_m in
      let v := if i then (diff, v.2) else (v.1, diff) in
      let i := negb (xorb i (negb (borrow =? 0))) in
      mod_mult_loop n v i (rshift_halves mod_m size) size
  end.

Definition bigint_mod_mult (lhs rhs mod_ : bigint) : bigint :=
  let size := length mod_ in
  let shift := 32 * 2 * Z.of_nat size - bigint_num_bits mod_ in
  let product := bigint_mult lhs rhs in
  take size (mod_mult_loop (Z.to_nat (shift + 1)) ([], product) true
    (shift_mod mod_ size shift) size).

(** ** Words and values *)

(** The numbers of [n] words are those below [wsize n]. *)
Definition wsize (n : nat) : Z := 2 ^ (32 * Z.of_nat n).

Lemma wsize_0 : wsize 0 = 1. Proof. reflexivity. Qed.
Lemma wsize_S n : wsize (S n) = 2 ^ 32 * wsize n.
Proof. unfold wsize. rewrite <- Z.pow_add_r by lia. f_equal. lia. Qed.
Lemma wsize_add m n : wsize (m + n) = wsize m * wsize n.
Proof. unfold wsize. rewrite <- Z.pow_add_r by lia. f_equal. lia. Qed.
Lemma wsize_pos n : 0 < wsize n.
Proof. unfold wsize. apply Z.pow_pos_nonneg; lia. Qed.

Lemma words_nil : words []. Proof. constructor. Qed.
Lemma words_cons w bi : words (w :: bi) <-> is_word w /\ words bi. Proof. apply Forall_cons. Qed.
Lemma words_app a b : words (a ++ b) <-> words a /\ words b. Proof. apply Forall_app. Qed.
Lemma words_reverse bi : words (reverse bi) <-> words bi. Proof. apply Forall_reverse. Qed.
Lemma words_take n bi : words bi -> words (take n bi). Proof. apply Forall_take. Qed.
Lemma words_drop n bi : words bi -> words (drop n bi). Proof. apply Forall_drop. Qed.
Lemma words_clear n : words (bigint_clear n).
Proof. apply Forall_replicate. unfold is_word. lia. Qed.
Lemma words_insert i w bi : is_word w -> words bi -> words (<[i := w]> bi).
Proof. intros. by apply Forall_insert. Qed.
Lemma words_at bi i : words bi -> is_word (bi !!! i).
Proof.
  intros H. rewrite list_lookup_total_alt. destruct (bi !! i) eqn:E; simpl.
  - by eapply Forall_lookup_1.
  - unfold is_word. lia.
Qed.
Lemma words_check bi : forallb (fun w => (0 <=? w) && (w <? 2 ^ 32)) bi = true -> words bi.
Proof.
  rewrite forallb_forall. intros H. apply Forall_forall. intros b Hb.
  apply list_elem_of_In, H, andb_prop in Hb as [? ?]. unfold is_word. lia.
Qed.

Create HintDb words.
#[export] Hint Resolve words_nil words_take words_drop words_clear words_insert words_at : words.
#[export] Hint Resolve <- words_reverse : words.

Lemma val_app a b : val (a ++ b) = val a + wsize (length a) * val b.
Proof.
  induction a as [|w a IH]; cbn [app val length]; [rewrite wsize_0; lia|].
  rewrite IH, wsize_S. ring.
Qed.

Lemma val_range bi : words bi -> 0 <= val bi < wsize (length bi).
Proof.
  induction 1 as [|w bi Hw _ IH]; cbn [val length]; [rewrite wsize_0; lia|].
  rewrite wsize_S. unfold is_word in Hw. lia.
Qed.

Lemma val_reverse_cons w bi : val (reverse (w :: bi)) = val (reverse bi) + wsize (length bi) * w.
Proof. rewrite reverse_cons, val_app, length_reverse. cbn [val]. lia. Qed.

Lemma val_clear n : val (bigint_clear n) = 0.
Proof. induction n; cbn [bigint_clear replicate val] in *; [done|]. unfold bigint_clear in *. lia. Qed.

Lemma val_insert bi i w : (i < length bi)%nat ->
  val (<[i := w]> bi) = val bi + wsize i * (w - bi !!! i).
Proof.
  revert i. induction bi as [|x bi IH]; intros [|i] Hi; cbn [length] in Hi; [lia..| |].
  - cbn. rewrite wsize_0. lia.
  - change (<[S i := w]> (x :: bi)) with (x :: <[i := w]> bi). cbn [val].
    change ((x :: bi) !!! S i) with (bi !!! i). rewrite IH, wsize_S by lia. ring.
Qed.

Lemma val_take_drop n bi : (n <= length bi)%nat ->
  val bi = val (take n bi) + wsize n * val (drop n bi).
Proof.
  intros. rewrite <- (take_drop n bi) at 1. rewrite val_app, length_take, Nat.min_l by lia. done.
Qed.

(** Numbers of the same size are equal when their values are. *)
Lemma val_inj a b : words a -> words b -> length a = length b -> val a = val b -> a = b.
Proof.
  intros Ha. revert b. induction Ha as [|x a Hx _ IH]; intros [|y b] Hb Hlen Hv; try done.
  apply words_cons in Hb as [Hy Hb]. cbn [val] in Hv. unfold is_word in *.
  injection Hlen as Hlen. assert (x = y) by lia. subst. f_equal. apply IH; [done..|lia].
Qed.

(** ** Tests *)

Lemma is_zero_spec bi : words bi -> bigint_is_zero bi = (val bi =? 0).
Proof.
  induction 1 as [|w bi Hw Hbi IH]; [done|]. cbn [bigint_is_zero val].
  pose proof (val_range _ Hbi). unfold is_word in Hw. destruct (Z.eqb_spec w 0); simpl.
  - rewrite IH. subst. destruct (Z.eqb_spec (val bi) 0); symmetry; [apply Z.eqb_eq|apply Z.eqb_neq]; lia.
  - symmetry. apply Z.eqb_neq. lia.
Qed.

Definition cmp_int (c : comparison) : Z := match c with Lt => -1 | Eq => 0 | Gt => 1 end.

Lemma cmp_loop_spec a b : words a -> words b -> length a = length b ->
  cmp_loop a b = cmp_int (val (reverse a) ?= val (reverse b)).
Proof.
  intros Ha. revert b. induction Ha as [|x a Hx Ha IH]; intros [|y b] Hb Hlen; try done.
  apply words_cons in Hb as [Hy Hb]. injection Hlen as Hlen. cbn [cmp_loop].
  rewrite !val_reverse_cons, <- Hlen.
  pose proof (val_range (reverse a)) as Ra. pose proof (val_range (reverse b)) as Rb.
  rewrite words_reverse in Ra, Rb. specialize (Ra Ha). specialize (Rb Hb).
  rewrite length_reverse in Ra, Rb. rewrite <- Hlen in Rb. pose proof (wsize_pos (length a)).
  destruct (Z.ltb_spec y x); [|destruct (Z.ltb_spec x y)].
  - rewrite (proj2 (Z.compare_gt_iff _ _)); [done|nia].
  - rewrite (proj2 (Z.compare_lt_iff _ _)); [done|nia].
  - assert (x = y) by lia. subst. rewrite IH by done. f_equal. symmetry.
    rewrite !(Z.add_comm (val _)). apply Z.add_compare_mono_l.
Qed.

Lemma cmp_spec a b : words a -> words b -> length a = length b ->
  bigint_cmp a b = cmp_int (val a ?= val b).
Proof.
  intros. unfold bigint_cmp. rewrite cmp_loop_spec, !reverse_involutive by
    (rewrite ?length_reverse; auto with words). done.
Qed.

Lemma is_even_spec bi : words bi -> bi <> [] -> bigint_is_even bi = Z.even (val bi).
Proof.
  intros Hw Hne. destruct bi as [|w bi]; [done|]. unfold bigint_is_even. cbn [val].
  change (Z.to_nat 0) with 0%nat. cbn [list_lookup_total lookup_total].
  rewrite Z.even_add, Z.even_mul. simpl (Z.even (2 ^ 32)). cbn [orb].
  change 1 with (2 ^ 1 - 1). rewrite land_pred_pow2 by lia. rewrite Zeven_mod.
  change (2 ^ 1) with 2. by destruct (_ =? _).
Qed.

(** ** Shifts *)


Lemma lor_bit w c : is_word w -> 0 <= c < 2 -> Z.lor (u32 (Z.shiftl w 1)) c = u32 (2 * w) + c.
Proof.
  intros Hw Hc. rewrite Z.shiftl_mul_pow2 by lia. unfold u32, is_word in *.
  replace ((w * 2 ^ 1) mod 2 ^ 32) with (w mod 2 ^ 31 * 2 ^ 1) by zdiv_lia.
  rewrite lor_add by lia. f_equal. zdiv_lia.
Qed.

Lemma lshift_spec bi carry : words bi -> 0 <= carry < 2 ->
  let '(res, c) := bigint_lshift bi carry in
  words res /\ length res = length bi /\ 0 <= c < 2 /\
  val res + wsize (length bi) * c = 2 * val bi + carry.
Proof.
  intros H. revert carry. induction H as [|w bi Hw Hbi IH]; intros carry Hc; cbn [bigint_lshift].
  { repeat split; cbn [val length]; rewrite ?wsize_0; auto with words; lia. }
  assert (Hs : 0 <= Z.shiftr w 31 < 2).
  { rewrite Z.shiftr_div_pow2 by lia. unfold is_word in Hw. zdiv_lia. }
  specialize (IH _ Hs). destruct (bigint_lshift bi (Z.shiftr w 31)) as [res c].
  destruct IH as (Hr & Hl & Hcc & E). rewrite lor_bit by done.
  rewrite Z.shiftr_div_pow2 in E by lia. unfold is_word, u32 in *.
  cbn [val length]. rewrite words_cons, wsize_S, Hl. unfold is_word. repeat split; [zdiv_lia..|done| lia | lia |].
  replace (_ + 2 ^ 32 * val res + 2 ^ 32 * wsize (length bi) * c)
    with ((2 * w) mod 2 ^ 32 + carry + 2 ^ 32 * (val res + wsize (length bi) * c)) by ring.
  rewrite E. zdiv_lia.
Qed.

Lemma rshift_word w c : is_word w -> c = 0 \/ c = 2 ^ 31 ->
  Z.lor (Z.shiftr w 1) c = w / 2 + c /\ is_word (w / 2 + c) /\
  u32 (Z.shiftl w 31) = 2 ^ 31 * (w mod 2).
Proof.
  unfold is_word, u32. intros Hw Hc.
  rewrite Z.shiftr_div_pow2, Z.shiftl_mul_pow2, Z.lor_comm by lia. change (2 ^ 1) with 2.
  split; [|split].
  - destruct Hc as [->| ->]; [by rewrite Z.lor_0_l, Z.add_0_r|].
    pose proof (lor_add 1 (w / 2) 31) as E. rewrite Z.mul_1_l in E. rewrite E by zdiv_lia. lia.
  - zdiv_lia.
  - zdiv_lia.
Qed.

Lemma rshift_loop_spec l e : words l -> 0 <= e < 2 ->
  words (rshift_loop l (2 ^ 31 * e)) /\ length (rshift_loop l (2 ^ 31 * e)) = length l /\
  exists e', 0 <= e' < 2 /\
    2 * val (reverse (rshift_loop l (2 ^ 31 * e))) + e' = e * wsize (length l) + val (reverse l).
Proof.
  intros H. revert e. induction H as [|w l Hw Hl IH]; intros e He; cbn [rshift_loop].
  { split; [auto with words|]. split; [done|]. exists e.
    change (reverse []) with (@nil Z). cbn [val length]. rewrite wsize_0. lia. }
  destruct (rshift_word w (2 ^ 31 * e)) as (E1 & E2 & E3); [done|lia|]. rewrite E1, E3.
  destruct (IH (w mod 2)) as (IH1 & IH2 & e' & He' & IH3); [zdiv_lia|].
  split; [by apply words_cons|]. cbn [length]. split; [by rewrite IH2|]. exists e'. split; [done|].
  rewrite !val_reverse_cons, IH2, wsize_S.
  transitivity (2 * val (reverse (rshift_loop l (2 ^ 31 * (w mod 2)))) + e' +
    wsize (length l) * (2 * (w / 2) + 2 ^ 32 * e)); [ring|]. rewrite IH3.
  transitivity (val (reverse l) + wsize (length l) * (2 * (w / 2) + w mod 2) +
    2 ^ 32 * wsize (length l) * e); [ring|].
  rewrite <- (Z.div_mod w 2) by lia. ring.
Qed.

Lemma rshift_spec bi : words bi ->
  words (bigint_rshift bi) /\ length (bigint_rshift bi) = length bi /\
  val (bigint_rshift bi) = val bi / 2.
Proof.
  intros H. destruct (rshift_loop_spec (reverse bi) 0) as (H1 & H2 & e & He & H3);
    [by apply words_reverse|lia|].
  unfold bigint_rshift. change (2 ^ 31 * 0) with 0 in *.
  split; [by apply words_reverse|]. split; [by rewrite length_reverse, H2, length_reverse|].
  rewrite reverse_involutive in H3. zdiv_lia.
Qed.

(** Setting a bit above all bits of a word. *)
Lemma or_word_spec bi i n : words bi -> (i < length bi)%nat -> 0 <= n < 32 -> bi !!! i < 2 ^ n ->
  words (or_word bi i (2 ^ n)) /\ length (or_word bi i (2 ^ n)) = length bi /\
  val (or_word bi i (2 ^ n)) = val bi + wsize i * 2 ^ n.
Proof.
  intros H Hi Hn Hw. pose proof (words_at bi i H) as Hb. unfold or_word.
  assert (Hp : 2 ^ n <= 2 ^ 31) by (apply Z.pow_le_mono_r; lia).
  assert (E : Z.lor (bi !!! i) (2 ^ n) = bi !!! i + 2 ^ n).
  { rewrite Z.lor_comm. pose proof (lor_add 1 (bi !!! i) n) as E. unfold is_word in Hb.
    rewrite Z.mul_1_l in E. rewrite E by lia. lia. }
  rewrite E. split; [|split].
  - apply words_insert; [|done]. unfold is_word in *. lia.
  - apply length_insert.
  - rewrite val_insert by done. f_equal. f_equal. lia.
Qed.

(** ** Sums and differences *)

(** The test the code uses for a carry. *)
Lemma carry_spec l r c : is_word l -> is_word r -> 0 <= c < 2 ->
  let sum := u32 (l + r + c) in
  let c' := if negb (sum =? l) then b2z (sum <? l) else c in
  is_word sum /\ 0 <= c' < 2 /\ sum + 2 ^ 32 * c' = l + r + c.
Proof.
  unfold is_word, u32, b2z. intros Hl Hr Hc.
  destruct (Z.lt_ge_cases (l + r + c) (2 ^ 32)).
  - rewrite Z.mod_small by lia. destruct (Z.eqb_spec (l + r + c) l); simpl; [lia|].
    rewrite (proj2 (Z.ltb_ge _ _)) by lia. lia.
  - replace ((l + r + c) mod 2 ^ 32) with (l + r + c - 2 ^ 32) by zdiv_lia.
    destruct (Z.eqb_spec (l + r + c - 2 ^ 32) l); simpl; [lia|].
    rewrite (proj2 (Z.ltb_lt _ _)) by lia. lia.
Qed.

Lemma borrow_spec l r b : is_word l -> is_word r -> 0 <= b < 2 ->
  let diff := u32 (l - r - b) in
  let b' := if negb (diff =? l) then b2z (l <? diff) else b in
  is_word diff /\ 0 <= b' < 2 /\ diff - 2 ^ 32 * b' = l - r - b.
Proof.
  unfold is_word, u32, b2z. intros Hl Hr Hb. destruct (Z.lt_ge_cases (l - r - b) 0).
  - replace ((l - r - b) mod 2 ^ 32) with (l - r - b + 2 ^ 32) by zdiv_lia.
    destruct (Z.eqb_spec (l - r - b + 2 ^ 32) l); simpl; [lia|].
    rewrite (proj2 (Z.ltb_lt _ _)) by lia. lia.
  - rewrite Z.mod_small by lia. destruct (Z.eqb_spec (l - r - b) l); simpl; [lia|].
    rewrite (proj2 (Z.ltb_ge _ _)) by lia. lia.
Qed.

Lemma add_loop_spec a b c : words a -> words b -> length a = length b -> 0 <= c < 2 ->
  let '(res, c') := add_loop a b c in
  words res /\ length res = length a /\ 0 <= c' < 2 /\
  val res + wsize (length a) * c' = val a + val b + c.
Proof.
  intros Ha. revert b c. induction Ha as [|l a Hl Ha IH]; intros [|r b] c Hb Hlen Hc; try done.
  { cbn [add_loop val length]. rewrite wsize_0. repeat split; auto with words; lia. }
  apply words_cons in Hb as [Hr Hb]. injection Hlen as Hlen. cbn [add_loop].
  pose proof (carry_spec l r c Hl Hr Hc) as (Hs & Hc' & E). cbv zeta in *.
  revert Hc' E. generalize (if negb (u32 (l + r + c) =? l) then b2z (u32 (l + r + c) <? l) else c).
  intros c' Hc' E. specialize (IH b c' Hb Hlen Hc'). destruct (add_loop a b c') as [res c''].
  destruct IH as (H1 & H2 & H3 & H4). rewrite words_cons. cbn [length val]. rewrite H2, wsize_S.
  split; [done|]. split; [lia|]. split; [done|]. lia.
Qed.

Lemma sub_loop_spec a b c : words a -> words b -> length a = length b -> 0 <= c < 2 ->
  let '(res, c') := sub_loop a b c in
  words res /\ length res = length a /\ 0 <= c' < 2 /\
  val res - wsize (length a) * c' = val a - val b - c.
Proof.
  intros Ha. revert b c. induction Ha as [|l a Hl Ha IH]; intros [|r b] c Hb Hlen Hc; try done.
  { cbn [sub_loop val length]. rewrite wsize_0. repeat split; auto with words; lia. }
  apply words_cons in Hb as [Hr Hb]. injection Hlen as Hlen. cbn [sub_loop].
  pose proof (borrow_spec l r c Hl Hr Hc) as (Hs & Hc' & E). cbv zeta in *.
  revert Hc' E. generalize (if negb (u32 (l - r - c) =? l) then b2z (l <? u32 (l - r - c)) else c).
  intros c' Hc' E. specialize (IH b c' Hb Hlen Hc'). destruct (sub_loop a b c') as [res c''].
  destruct IH as (H1 & H2 & H3 & H4). rewrite words_cons. cbn [length val]. rewrite H2, wsize_S.
  split; [done|]. split; [lia|]. split; [done|]. lia.
Qed.

Lemma add_spec a b : words a -> words b -> length a = length b ->
  words (bigint_add a b).1 /\ length (bigint_add a b).1 = length a /\
  0 <= (bigint_add a b).2 < 2 /\
  val (bigint_add a b).1 + wsize (length a) * (bigint_add a b).2 = val a + val b.
Proof.
  intros Ha Hb Hl. pose proof (add_loop_spec a b 0 Ha Hb Hl) as H. unfold bigint_add.
  destruct (add_loop a b 0) as [res c]. destruct H as (? & ? & ? & ?); [lia|]. simpl. rewrite Z.add_0_r in *. auto.
Qed.

Lemma sub_spec a b : words a -> words b -> length a = length b ->
  words (bigint_sub a b).1 /\ length (bigint_sub a b).1 = length a /\
  0 <= (bigint_sub a b).2 < 2 /\
  val (bigint_sub a b).1 - wsize (length a) * (bigint_sub a b).2 = val a - val b.
Proof.
  intros Ha Hb Hl. pose proof (sub_loop_spec a b 0 Ha Hb Hl) as H. unfold bigint_sub.
  destruct (sub_loop a b 0) as [res c]. destruct H as (? & ? & ? & ?); [lia|]. simpl. rewrite Z.sub_0_r in *. auto.
Qed.

(** The result of a sum or a difference is determined by its range. *)
Lemma add_result a b q : words a -> words b -> length a = length b -> 0 <= q < 2 ->
  0 <= val a + val b - wsize (length a) * q < wsize (length a) ->
  val (bigint_add a b).1 = val a + val b - wsize (length a) * q /\ (bigint_add a b).2 = q.
Proof.
  intros Ha Hb Hl Hq Hr. destruct (add_spec a b Ha Hb Hl) as (H1 & H2 & H3 & H4).
  pose proof (val_range _ H1). rewrite H2 in *. assert ((bigint_add a b).2 = q) by nia. subst. lia.
Qed.

Lemma sub_result a b q : words a -> words b -> length a = length b -> 0 <= q < 2 ->
  0 <= val a - val b + wsize (length a) * q < wsize (length a) ->
  val (bigint_sub a b).1 = val a - val b + wsize (length a) * q /\ (bigint_sub a b).2 = q.
Proof.
  intros Ha Hb Hl Hq Hr. destruct (sub_spec a b Ha Hb Hl) as (H1 & H2 & H3 & H4).
  pose proof (val_range _ H1). rewrite H2 in *. assert ((bigint_sub a b).2 = q) by nia. subst. lia.
Qed.

(** ** Arithmetic modulo a number of the same size *)

(** A residue in its normal form. *)
Record reduced (m a : bigint) : Prop := {
  red_words : words a;
  red_len : length a = length m;
  red_lt : val a < val m
}.

Lemma reduced_range m a : reduced m a -> 0 <= val a < val m.
Proof. intros [Hw _ Hl]. pose proof (val_range _ Hw). lia. Qed.

Lemma mod_add_spec a b m : words m -> reduced m a -> reduced m b ->
  reduced m (bigint_mod_add a b m) /\ val (bigint_mod_add a b m) = (val a + val b) mod val m.
Proof.
  intros Hm Ra Rb. pose proof (reduced_range _ _ Ra) as Ba. pose proof (reduced_range _ _ Rb) as Bb.
  destruct Ra as [Wa La Ha], Rb as [Wb Lb Hb]. pose proof (val_range _ Hm) as Bm.
  destruct (add_spec a b) as (H1 & H2 & H3 & H4); [done|done|congruence|].
  unfold bigint_mod_add. destruct (bigint_add a b) as [res carry]. cbn [fst snd] in *.
  pose proof (val_range _ H1) as Bres. rewrite H2, La in *.
  rewrite cmp_spec by (done || congruence).
  assert (E : negb (carry =? 0) || (0 <=? cmp_int (val res ?= val m)) = (val m <=? val a + val b)).
  { destruct (Z.compare_spec (val res) (val m)), (Z.eqb_spec carry 0), (Z.leb_spec (val m) (val a + val b));
      try done; simpl in *; subst; nia. }
  rewrite E. destruct (Z.leb_spec (val m) (val a + val b)).
  - assert (Hs : val (bigint_sub res m).1 = val a + val b - val m).
    { destruct (sub_result res m carry) as [-> _]; try done; try congruence; rewrite H2; lia. }
    destruct (sub_spec res m) as (H5 & H6 & _); [done|done|congruence|].
    rewrite Hs. split; [split; [done|congruence|lia]|]. apply (Z.mod_unique_pos _ _ 1); lia.
  - assert (carry = 0) by nia. subst. split; [split; [done|congruence|lia]|].
    rewrite Z.mod_small; lia.
Qed.

Lemma mod_sub_spec a b m : words m -> reduced m a -> reduced m b ->
  reduced m (bigint_mod_sub a b m) /\ val (bigint_mod_sub a b m) = (val a - val b) mod val m.
Proof.
  intros Hm Ra Rb. pose proof (reduced_range _ _ Ra) as Ba. pose proof (reduced_range _ _ Rb) as Bb.
  destruct Ra as [Wa La Ha], Rb as [Wb Lb Hb]. pose proof (val_range _ Hm) as Bm.
  destruct (sub_spec a b) as (H1 & H2 & H3 & H4); [done|done|congruence|].
  unfold bigint_mod_sub. destruct (bigint_sub a b) as [res borrow]. cbn [fst snd] in *.
  pose proof (val_range _ H1) as Bres. rewrite H2, La in *. destruct (Z.eqb_spec borrow 0); simpl.
  - subst. split; [split; [done|congruence|lia]|]. rewrite Z.mod_small; lia.
  - assert (borrow = 1) by lia. subst.
    assert (Hs : val (bigint_add res m).1 = val a - val b + val m).
    { destruct (add_result res m 1) as [-> _]; try done; try congruence; rewrite H2; lia. }
    destruct (add_spec res m) as (H5 & H6 & _); [done|done|congruence|].
    rewrite Hs. split; [split; [done|congruence|lia]|]. apply (Z.mod_unique_pos _ _ (-1)); lia.
Qed.

(** ** Bits *)

Lemma land_pow2_testbit x k : 0 <= k -> (Z.land x (2 ^ k) =? 0) = negb (Z.testbit x k).
Proof.
  intros Hk. destruct (Z.testbit x k) eqn:E; simpl; [apply Z.eqb_neq; intros H | apply Z.eqb_eq].
  - apply (f_equal (fun z => Z.testbit z k)) in H.
    by rewrite Z.land_spec, E, Z.pow2_bits_true, Z.bits_0 in H by done.
  - apply Z.bits_inj'. intros i Hi. rewrite Z.land_spec, Z.bits_0.
    destruct (decide (i = k)) as [->|]; [by rewrite E|].
    by rewrite Z.pow2_bits_false, andb_false_r by done.
Qed.

Lemma testbit_val bi i : words bi -> (i < 32 * length bi)%nat ->
  Z.testbit (val bi) (Z.of_nat i) = Z.testbit (bi @@ (Z.of_nat i / 32)) (Z.of_nat i mod 32).
Proof.
  intros H. revert i. induction H as [|w bi Hw Hbi IH]; intros i Hi; cbn [length] in Hi; [lia|].
  cbn [val]. rewrite Z.add_comm, Z.mul_comm. unfold is_word in Hw.
  rewrite <- (lor_add (val bi) w 32), Z.lor_spec by lia.
  destruct (Z.lt_ge_cases (Z.of_nat i) 32).
  - rewrite Z.mul_pow2_bits_low, Z.div_small, Z.mod_small by lia. done.
  - rewrite (Z.mul_pow2_bits (val bi) 32 (Z.of_nat i)) by lia.
    rewrite <- (Z.mod_small w (2 ^ 32)), Z.mod_pow2_bits_high, orb_false_r by lia.
    replace (Z.of_nat i - 32) with (Z.of_nat (i - 32)) by lia. rewrite IH by lia.
    rewrite Nat2Z.inj_sub by lia. change (Z.of_nat 32) with 32.
    replace (Z.of_nat i / 32) with (Z.succ ((Z.of_nat i - 32) / 32)) by zdiv_lia.
    rewrite Z2Nat.inj_succ by zdiv_lia. f_equal. zdiv_lia.
Qed.

Lemma test_bit_spec bi i : words bi -> (i < 32 * length bi)%nat ->
  (bigint_test_bit bi (Z.of_nat i) =? 0) = negb (Z.testbit (val bi) (Z.of_nat i)).
Proof.
  intros Hw Hi. unfold bigint_test_bit. rewrite Z.shiftl_mul_pow2, Z.mul_1_l by zdiv_lia.
  assert (Hr : 0 <= Z.of_nat i mod 32 < 32) by zdiv_lia.
  rewrite u32_small, land_pow2_testbit, testbit_val; try done; [lia|].
  split; [apply Z.pow_nonneg; lia|]. apply Z.pow_lt_mono_r; lia.
Qed.
