(* ===== verification/BigintMod.v ===== *)
(** Multi-precision integers: the inverse and the product modulo a number.

    [bigint_mod_inv] is the binary extended Euclidean algorithm: it ends with
    the inverse of every number that is prime to the odd modulus, and runs for
    ever on zero.  [bigint_mod_mult] multiplies by columns and reduces by
    repeated conditional subtraction of the shifted modulus. *)
From S2P Require Import Prelude Bigint.

(** ** The inverse *)

Lemma odd_half z : Z.even z = false -> exists q, z = 2 * q + 1.
Proof. intros H. apply Z.odd_spec. by rewrite <- Z.negb_even, H. Qed.

Lemma even_half z : Z.even z = true -> exists q, z = 2 * q.
Proof. intros H. by apply Z.even_spec. Qed.

(** A bound of the highest word. *)
Lemma top_word_lt bi x : words bi -> (0 < length bi)%nat ->
  val bi < wsize (length bi - 1) * x -> bi !!! (length bi - 1)%nat < x.
Proof.
  intros Hw Hn Hv. pose proof (val_take_drop (length bi - 1) bi) as E.
  assert (Ed : drop (length bi - 1) bi = [bi !!! (length bi - 1)%nat]).
  { erewrite drop_S by (apply list_lookup_lookup_total_lt; lia). by rewrite drop_ge by lia. }
  rewrite Ed in E. cbn [val] in E. pose proof (val_range _ (words_take (length bi - 1) _ Hw)).
  pose proof (wsize_pos (length bi - 1)). nia.
Qed.

Lemma halve_mod_spec u m : words m -> (0 < length m)%nat -> Z.even (val m) = false -> reduced m u ->
  reduced m (halve_mod u m) /\
  (2 * val (halve_mod u m) = val u \/ 2 * val (halve_mod u m) = val u + val m).
Proof.
  intros Hm Hn Hodd Ru. pose proof (reduced_range _ _ Ru). destruct Ru as [Wu Lu Hu].
  pose proof (val_range _ Hm). unfold halve_mod.
  rewrite is_even_spec by (done || intros ->; simpl in *; lia).
  destruct (Z.even (val u)) eqn:Eu; cbn [negb].
  { simpl. destruct (rshift_spec u Wu) as (H1 & H2 & H3).
    destruct (even_half _ Eu) as [q Hq].
    rewrite H3. split; [split; [done|congruence|]|left]; zdiv_lia. }
  destruct (add_spec u m) as (H1 & H2 & H3 & H4); [done..|].
  destruct (bigint_add u m) as [s carry]. cbn [fst snd] in *.
  destruct (rshift_spec s H1) as (R1 & R2 & R3). rewrite H2, Lu in *.
  destruct (odd_half _ Eu) as [qu Hqu], (odd_half _ Hodd) as [qm Hqm].
  assert (Ew : exists k, wsize (length m) = 2 * k).
  { destruct (length m) as [|n]; [lia|]. rewrite wsize_S. exists (2 ^ 31 * wsize n). ring. }
  destruct Ew as [k Ew]. pose proof (val_range _ H1). rewrite H2 in *. destruct (Z.eqb_spec carry 0) as [Hc|Hc]; simpl.
  { subst carry. rewrite R3. split; [split; [done|congruence|]|right]; zdiv_lia. }
  assert (carry = 1) by lia. subst carry.
  assert (val s / 2 < k) by zdiv_lia.
  assert (Hk : k = wsize (length m - 1) * 2 ^ 31).
  { destruct (length m) as [|n]; [lia|]. rewrite wsize_S in Ew. rewrite Nat.sub_1_r. simpl. lia. }
  destruct (or_word_spec (bigint_rshift s) (length m - 1) 31) as (O1 & O2 & O3); [done|lia|lia| |].
  { rewrite <- R2. apply top_word_lt; [done|lia..|]. rewrite R2. lia. }
  change 0x80000000 with (2 ^ 31). rewrite R2. rewrite O3, R3.
  split; [split; [done|congruence|]|right]; zdiv_lia.
Qed.

Section Inverse.
Context (m : bigint) (x : Z).
Hypothesis (Hm : words m) (Hn : (0 < length m)%nat) (Hodd : Z.even (val m) = false).

(** What the loop keeps true of its four numbers: [a] is [u * x] and [b] is
    [v * x] modulo [m], and no divisor of both [a] and [b] but a unit. *)
Record euclid (a b u v : bigint) : Prop := {
  eu_a : words a;
  eu_b : words b;
  eu_a_len : length a = length m;
  eu_b_len : length b = length m;
  eu_a_pos : 0 < val a;
  eu_b_pos : 0 < val b;
  eu_u : reduced m u;
  eu_v : reduced m v;
  eu_ua : (val m | val a - val u * x);
  eu_vb : (val m | val b - val v * x);
  eu_coprime d : (d | val a) -> (d | val b) -> (d | 1)
}.

Lemma euclid_swap a b u v : euclid a b u v -> euclid b a v u.
Proof. intros []. by split; auto. Qed.

(** An odd modulus divides half of an even multiple. *)
Lemma divide_half t : (val m | 2 * t) -> (val m | t).
Proof.
  destruct (odd_half _ Hodd) as [q Hq]. intros [k Hk]. exists (t - q * k).
  transitivity ((2 * q + 1) * t - q * (2 * t)); [ring|]. rewrite <- Hq, Hk. ring.
Qed.

Lemma euclid_halve a b u v : euclid a b u v -> Z.even (val a) = true ->
  euclid (bigint_rshift a) b (halve_mod u m) v /\ val (bigint_rshift a) = val a / 2.
Proof.
  intros [] [q Hq]%even_half. destruct (rshift_spec a) as (R1 & R2 & R3); [done|].
  destruct (halve_mod_spec u m) as (U1 & U2); try done. split; [|done].
  assert (Ea : val a = 2 * val (bigint_rshift a)) by zdiv_lia.
  split; try done; [congruence|lia| |].
  - apply divide_half. rewrite Z.mul_sub_distr_l, Z.mul_assoc, <- Ea.
    destruct U2 as [-> | ->]; [done|].
    replace (_ - _) with (val a - val u * x - x * val m) by ring.
    by apply Z.divide_sub_r; [|apply Z.divide_factor_r].
  - intros d Hd. apply eu_coprime0. rewrite Ea. by apply Z.divide_mul_r.
Qed.

Lemma euclid_sub a b u v : euclid a b u v -> val b < val a ->
  euclid (bigint_sub a b).1 b
    (bigint_sub (if bigint_cmp u v <? 0 then (bigint_add u m).1 else u) v).1 v /\
  val (bigint_sub a b).1 = val a - val b.
Proof.
  intros [] Hlt. pose proof (val_range a) as Ra. pose proof (val_range m Hm) as Rm.
  pose proof (reduced_range _ _ eu_u0) as Ru. pose proof (reduced_range _ _ eu_v0) as Rv.
  pose proof eu_u0 as [Wu Lu _]. pose proof eu_v0 as [Wv Lv _].
  destruct (sub_spec a b) as (S1 & S2 & _); [done|done|congruence|].
  destruct (sub_result a b 0) as [S3 _]; [done|done|congruence|lia| |].
  { specialize (Ra eu_a0). lia. }
  rewrite Z.mul_0_r, Z.add_0_r in S3. split; [|done].
  set (u1 := if _ <? 0 then _ else _).
  assert (U : words u1 /\ length u1 = length m /\ words (bigint_sub u1 v).1 /\ 
    length (bigint_sub u1 v).1 = length m /\
    val (bigint_sub u1 v).1 = if val u <? val v then val u + val m - val v else val u - val v).
  { subst u1. rewrite cmp_spec by (done || congruence).
    destruct (add_spec u m) as (A1 & A2 & A3 & A4); [done..|].
    destruct (Z.compare_spec (val u) (val v)), (Z.ltb_spec (val u) (val v)); try lia; simpl.
    2: { destruct (sub_spec (bigint_add u m).1 v) as (T1 & T2 & _); [done|done|congruence|].
      destruct (sub_result (bigint_add u m).1 v (bigint_add u m).2) as [T3 _];
        [done|done|congruence|done|rewrite A2; rewrite ?Lu in *; nia|].
      rewrite T3. rewrite A2, Lu in *. split_and!; [done|congruence|done|congruence|nia]. }
    all: destruct (sub_spec u v) as (T1 & T2 & _); [done|done|congruence|].
    all: destruct (sub_result u v 0) as [T3 _]; try done; [congruence|rewrite Lu; lia|].
    all: split_and!; try done; first [congruence|lia]. }
  destruct U as (_ & _ & U1 & U2 & U3). split; try done; [congruence|lia| | |].
  - split; [done..|]. rewrite U3. cases_Z; lia.
  - rewrite U3, S3. cases_Z.
    + replace (val a - val b - _) with (val a - val u * x - (val b - val v * x) - x * val m) by ring.
      apply Z.divide_sub_r; [by apply Z.divide_sub_r | apply Z.divide_factor_r].
    + replace (val a - val b - _) with (val a - val u * x - (val b - val v * x)) by ring.
      by apply Z.divide_sub_r.
  - intros d Hd Hb. apply eu_coprime0; [|done]. rewrite S3 in Hd.
    replace (val a) with (val a - val b + val b) by ring. by apply Z.divide_add_r.
Qed.

Lemma mod_inv_loop_spec fuel a b u v (ka kb : Z) : euclid a b u v ->
  0 <= ka -> 0 <= kb -> val a < 2 ^ ka -> val b < 2 ^ kb -> ka + kb <= Z.of_nat fuel + 1 ->
  exists r, mod_inv_loop fuel a b u v m = Some r /\ reduced m r /\ (val m | 1 - val r * x).
Proof.
  assert (Half : forall z k, 0 <= k -> 1 < z < 2 ^ k -> 0 <= k - 1 /\ z / 2 < 2 ^ (k - 1)).
  { intros z k Hk Hz. destruct (decide (k = 0)) as [->|]; [simpl in Hz; lia|].
    replace (2 ^ k) with (2 * 2 ^ (k - 1)) in Hz by (rewrite <- Z.pow_succ_r by lia; f_equal; lia).
    zdiv_lia. }
  assert (Pos : forall z k, 0 <= k -> 0 < z < 2 ^ k -> 0 < k \/ z = 0).
  { intros z k Hk Hz. destruct (decide (k = 0)) as [->|]; [simpl in Hz|]; lia. }
  revert a b u v ka kb. induction fuel as [|fuel IH]; intros a b u v ka kb E Hka Hkb Ha Hb Hf.
  { pose proof (eu_a_pos _ _ _ _ E). pose proof (eu_b_pos _ _ _ _ E).
    destruct (Pos (val a) ka), (Pos (val b) kb); lia. }
  pose proof (eu_a_pos _ _ _ _ E) as Pa. pose proof (eu_b_pos _ _ _ _ E) as Pb.
  pose proof E as [Wa Wb La Lb _ _ Ru Rv Eu _ Cop].
  cbn [mod_inv_loop]. rewrite cmp_spec by (done || congruence).
  rewrite !is_even_spec by (done || intros ->; simpl in *; lia).
  destruct (Z.compare_spec (val a) (val b)) as [Eab|Lab|Lab]; simpl (_ =? 0).
  { exists u. split; [done|]. split; [done|].
    assert (D : (val a | 1)) by (apply Cop; [|rewrite Eab]; apply Z.divide_refl).
    apply Z.divide_1_r_nonneg in D; [|lia]. by rewrite D in Eu. }
  all: destruct (Z.even (val a)) eqn:Ea.
  1, 3: destruct (euclid_halve _ _ _ _ E Ea) as [E' V]; destruct (even_half _ Ea);
    destruct (Half (val a) ka) as [Hk1 Hk2]; [done|lia|];
    apply (IH _ _ _ _ (ka - 1) kb E'); try done; [rewrite V; lia|lia].
  all: destruct (Z.even (val b)) eqn:Eb.
  1, 3: destruct (euclid_halve _ _ _ _ (euclid_swap _ _ _ _ E) Eb) as [E' V]; destruct (even_half _ Eb);
    destruct (Half (val b) kb) as [Hk1 Hk2]; [done|lia|];
    apply (IH _ _ _ _ ka (kb - 1) (euclid_swap _ _ _ _ E')); try done; [rewrite V; lia|lia].
  all: destruct (odd_half _ Ea) as [qa Hqa], (odd_half _ Eb) as [qb Hqb]; simpl (0 <? _); cbv iota.
  - destruct (euclid_sub _ _ _ _ (euclid_swap _ _ _ _ E) Lab) as [E1 V1].
    destruct (euclid_halve _ _ _ _ E1) as [E2 V2].
    { rewrite V1, Hqa, Hqb. replace (_ - _) with (2 * (qb - qa)) by ring. by rewrite Z.even_mul. }
    destruct (Half (val b) kb) as [Hk1 Hk2]; [done|lia|].
    apply (IH _ _ _ _ ka (kb - 1) (euclid_swap _ _ _ _ E2)); try done; [rewrite V2, V1; zdiv_lia|lia].
  - destruct (euclid_sub _ _ _ _ E Lab) as [E1 V1].
    destruct (euclid_halve _ _ _ _ E1) as [E2 V2].
    { rewrite V1, Hqa, Hqb. replace (_ - _) with (2 * (qa - qb)) by ring. by rewrite Z.even_mul. }
    destruct (Half (val a) ka) as [Hk1 Hk2]; [done|lia|].
    apply (IH _ _ _ _ (ka - 1) kb E2); try done; [rewrite V2, V1; zdiv_lia|lia].
Qed.
End Inverse.

(** Zero stays zero under halving, so the loop never meets its exit. *)
Lemma mod_inv_loop_zero fuel a b u v m : words a -> words b -> length a = length m ->
  length b = length m -> (0 < length m)%nat -> val a = 0 -> 0 < val b ->
  mod_inv_loop fuel a b u v m = None.
Proof.
  intros Wa Wb La Lb Hn Ha Hb. revert a u Wa La Ha.
  induction fuel as [|fuel IH]; intros a u Wa La Ha; [done|]. cbn [mod_inv_loop].
  rewrite cmp_spec by (done || congruence).
  rewrite is_even_spec by (done || intros ->; simpl in *; lia).
  rewrite Ha. destruct (Z.compare_spec 0 (val b)); [lia| |lia]. simpl.
  destruct (rshift_spec a Wa) as (R1 & R2 & R3). apply IH; [done|congruence|]. by rewrite R3, Ha.
Qed.

(** ** The product *)

(** Sum of [n] values of [f] from [i] on. *)
Fixpoint zsum (f : nat -> Z) (i n : nat) : Z :=
  match n with O => 0 | S n => f i + zsum f (S i) n end.

Lemma zsum_ext f g i n : (forall j, (i <= j < i + n)%nat -> f j = g j) -> zsum f i n = zsum g i n.
Proof.
  revert i. induction n as [|n IH]; intros i H; [done|]. cbn [zsum].
  rewrite (H i) by lia. rewrite (IH (S i)) by (intros; apply H; lia). done.
Qed.

Lemma zsum_zero f i n : (forall j, (i <= j < i + n)%nat -> f j = 0) -> zsum f i n = 0.
Proof.
  intros H. rewrite (zsum_ext f (fun _ => 0)) by done. clear H. revert i.
  induction n as [|n IH]; intros i; [done|]. cbn [zsum]. by rewrite IH.
Qed.

Lemma zsum_split f i m n : zsum f i (m + n) = zsum f i m + zsum f (i + m) n.
Proof.
  revert i. induction m as [|m IH]; intros i; cbn [zsum Nat.add].
  - by rewrite Nat.add_0_r.
  - rewrite IH, Nat.add_succ_comm. ring.
Qed.

Lemma zsum_shift f i n : zsum f i n = zsum (fun j => f (i + j)%nat) 0 n.
Proof.
  enough (H : forall k, zsum f (i + k) n = zsum (fun j => f (i + j)%nat) k n)
    by (rewrite <- (H 0%nat); f_equal; lia).
  induction n as [|n IH]; intros k; [done|]. cbn [zsum]. rewrite <- IH. do 2 f_equal. lia.
Qed.

Lemma zsum_scale c f i n : zsum (fun j => c * f j) i n = c * zsum f i n.
Proof. revert i. induction n as [|n IH]; intros i; cbn [zsum]; [ring|]. rewrite IH. ring. Qed.

Lemma zsum_plus f g i n : zsum (fun j => f j + g j) i n = zsum f i n + zsum g i n.
Proof. revert i. induction n as [|n IH]; intros i; cbn [zsum]; [ring|]. rewrite IH. ring. Qed.

Lemma zsum_exchange f i m k n :
  zsum (fun a => zsum (fun b => f a b) k n) i m = zsum (fun b => zsum (fun a => f a b) i m) k n.
Proof.
  revert i. induction m as [|m IH]; intros i; cbn [zsum].
  - by rewrite zsum_zero.
  - rewrite IH. by rewrite <- zsum_plus.
Qed.

(** A sum whose terms vanish outside of a part of its range. *)
Lemma zsum_part f m n N : (m + n <= N)%nat ->
  (forall j, (j < m \/ m + n <= j < N)%nat -> f j = 0) -> zsum f 0 N = zsum f m n.
Proof.
  intros HN H. replace N with (m + (n + (N - m - n)))%nat by lia.
  rewrite !zsum_split, (zsum_zero f 0 m), (zsum_zero f _ (N - m - n)) by (intros; apply H; lia).
  simpl. lia.
Qed.

Lemma val_zsum bi : val bi = zsum (fun j => wsize j * bi !!! j) 0 (length bi).
Proof.
  induction bi as [|w bi IH]; [done|]. cbn [val length zsum]. rewrite wsize_0, zsum_shift, IH.
  rewrite <- zsum_scale. rewrite Z.mul_1_l. f_equal. apply zsum_ext. intros j _.
  cbn [Nat.add]. rewrite wsize_S. change ((w :: bi) !!! S j) with (bi !!! j). ring.
Qed.

Section Product.
Context (l r : bigint) (size : nat).
Hypothesis (Hl : words l) (Hr : words r) (Ll : length l = size) (Lr : length r = size).
Hypothesis (Hsize : Z.of_nat size < 2 ^ 31) (Hpos : (0 < size)%nat).

Definition term (k i : nat) : Z := l !!! i * r !!! (k - i)%nat.

Definition column (k : nat) : Z :=
  zsum (fun i => if (i <=? k)%nat && (k - i <? size)%nat then term k i else 0) 0 size.

Lemma mult_column_spec k i n r01 r2 : 0 <= r01 < 2 ^ 64 -> 0 <= r2 -> r2 + Z.of_nat n < 2 ^ 32 ->
  let '(r01', r2') := mult_column l r k i n r01 r2 in
  0 <= r01' < 2 ^ 64 /\ 0 <= r2' <= r2 + Z.of_nat n /\
  r01' + 2 ^ 64 * r2' = r01 + 2 ^ 64 * r2 + zsum (term k) i n.
Proof.
  revert i r01 r2. induction n as [|n IH]; intros i r01 r2 H1 H2 H3; cbn [mult_column zsum]; [lia|].
  pose proof (words_at l i Hl) as Wi. pose proof (words_at r (k - i) Hr) as Wk.
  fold (term k i). assert (Ht : 0 <= term k i < 2 ^ 64) by (unfold term, is_word in *; nia).
  assert (E : u64 (r01 + term k i) + 2 ^ 64 * b2z (u64 (r01 + term k i) <? term k i) = r01 + term k i).
  { unfold u64, b2z. destruct (Z.lt_ge_cases (r01 + term k i) (2 ^ 64)).
    - rewrite Z.mod_small by lia. rewrite (proj2 (Z.ltb_ge _ _)); lia.
    - replace ((r01 + term k i) mod 2 ^ 64) with (r01 + term k i - 2 ^ 64) by zdiv_lia.
      rewrite (proj2 (Z.ltb_lt _ _)); lia. }
  assert (Hb : 0 <= b2z (u64 (r01 + term k i) <? term k i) < 2) by (destruct (_ <? _); simpl; lia).
  revert E Hb. generalize (b2z (u64 (r01 + term k i) <? term k i)). intros c E Hb.
  assert (Hu : 0 <= u64 (r01 + term k i) < 2 ^ 64) by (unfold u64; apply Z.mod_pos_bound; lia).
  rewrite (u32_small (r2 + c)) by (unfold is_word; lia).
  specialize (IH (S i) (u64 (r01 + term k i)) (r2 + c)).
  destruct (mult_column l r k (S i) n _ _) as [r01' r2']. lia.
Qed.

Lemma column_range k : (k < size * 2 - 1)%nat ->
  let min := if (k <? size)%nat then 0%nat else (k + 1 - size)%nat in
  column k = zsum (term k) min (S (Nat.min k (size - 1)) - min).
Proof.
  intros Hk min. unfold column.
  assert (Hmin : min = (k + 1 - size)%nat) by (subst min; destruct (Nat.ltb_spec k size); lia).
  rewrite (zsum_part _ min (S (Nat.min k (size - 1)) - min) size); [|lia|].
  - apply zsum_ext. intros j Hj.
    rewrite (proj2 (Nat.leb_le _ _)), (proj2 (Nat.ltb_lt _ _)) by lia. done.
  - intros j Hj. destruct (Nat.leb_spec j k), (Nat.ltb_spec (k - j) size); simpl; lia.
Qed.

Lemma mult_loop_spec k n r01 : (k + n <= size * 2 - 1)%nat -> 0 <= r01 < 2 ^ 64 ->
  words (mult_loop l r size k n r01) /\ length (mult_loop l r size k n r01) = S n /\
  val (mult_loop l r size k n r01) =
    (r01 + zsum (fun j => wsize j * column (k + j)) 0 n) mod wsize (S n).
Proof.
  revert k r01. induction n as [|n IH]; intros k r01 Hk Hr01; cbn [mult_loop].
  { rewrite words_cons. split; [split; [apply u32_word|constructor]|]. split; [done|].
    cbn [val zsum]. rewrite wsize_S, wsize_0. unfold u32. rewrite Z.mul_1_r, Z.mul_0_r, !Z.add_0_r. done. }
  pose proof (column_range k) as Hc. cbv zeta in Hc.
  set (min := if (k <? size)%nat then 0%nat else (k + 1 - size)%nat) in *.
  pose proof (mult_column_spec k min (S (Nat.min k (size - 1)) - min) r01 0) as H.
  destruct (mult_column _ _ _ _ _ _ _) as [s01 r2]. destruct H as (H1 & H2 & H3); [done|lia|lia|].
  rewrite <- Hc in H3 by lia. rewrite Z.mul_0_r, Z.add_0_r in H3.
  assert (E : Z.lor (Z.shiftr s01 32) (u64 (Z.shiftl r2 32)) = (r01 + column k) / 2 ^ 32).
  { rewrite Z.lor_comm, Z.shiftr_div_pow2, Z.shiftl_mul_pow2 by lia.
    rewrite u64_small by lia. rewrite lor_add by zdiv_lia. rewrite <- H3. zdiv_lia. }
  rewrite E. destruct (IH (S k) ((r01 + column k) / 2 ^ 32)) as (I1 & I2 & I3); [lia|rewrite <- H3; zdiv_lia|].
  split; [apply words_cons; split; [apply u32_word|done]|]. cbn [length]. split; [by rewrite I2|].
  cbn [val]. rewrite I3. set (s := zsum (fun j => wsize j * column (S k + j)) 0 n).
  assert (Es : zsum (fun j => wsize j * column (k + j)) 0 (S n) = column k + 2 ^ 32 * s).
  { cbn [zsum]. rewrite wsize_0, Nat.add_0_r, Z.mul_1_l, zsum_shift. f_equal.
    subst s. rewrite <- zsum_scale. apply zsum_ext. intros j _. cbn [Nat.add].
    rewrite wsize_S, Nat.add_succ_r. simpl. ring. }
  rewrite Es. unfold u32. replace (s01 mod 2 ^ 32) with ((r01 + column k) mod 2 ^ 32)
    by (rewrite <- H3; zdiv_lia).
  rewrite (wsize_S (S n)), Z.rem_mul_r; [|lia|pose proof (wsize_pos (S n)); lia].
  f_equal; [|f_equal; f_equal].
  - rewrite Z.add_assoc, (Z.mul_comm (2 ^ 32) s), Z_mod_plus_full. done.
  - rewrite Z.add_assoc, (Z.mul_comm (2 ^ 32) s), Z.div_add by lia. done.
Qed.

Lemma columns_product : zsum (fun k => wsize k * column k) 0 (size * 2 - 1) = val l * val r.
Proof.
  transitivity (zsum (fun i => wsize i * l !!! i * val r) 0 size).
  2: { rewrite (zsum_ext _ (fun i => val r * (wsize i * l !!! i))) by (intros; ring).
    rewrite zsum_scale, (val_zsum l), Ll. ring. }
  rewrite (zsum_ext _ (fun k => zsum (fun i => wsize k *
    if (i <=? k)%nat && (k - i <? size)%nat then term k i else 0) 0 size)).
  2: { intros k _. by rewrite zsum_scale. }
  rewrite zsum_exchange. apply zsum_ext. intros i Hi.
  rewrite (zsum_part _ i size); [|lia|].
  2: { intros k Hk. destruct (Nat.leb_spec i k), (Nat.ltb_spec (k - i) size); simpl; lia. }
  rewrite zsum_shift, (val_zsum r), Lr, <- zsum_scale. apply zsum_ext. intros j Hj.
  rewrite (proj2 (Nat.leb_le _ _)), (proj2 (Nat.ltb_lt _ _)) by lia. cbn [andb]. unfold term.
  rewrite wsize_add. replace (i + j - i)%nat with j by lia. ring.
Qed.

Lemma mult_spec : words (bigint_mult l r) /\ length (bigint_mult l r) = (size * 2)%nat /\
  val (bigint_mult l r) = val l * val r.
Proof.
  unfold bigint_mult. rewrite Ll. destruct (mult_loop_spec 0 (size * 2 - 1) 0) as (H1 & H2 & H3); [lia..|].
  split; [done|]. split; [rewrite H2; lia|]. rewrite H3, Z.add_0_l.
  rewrite (zsum_ext _ (fun k => wsize k * column k)) by done. rewrite columns_product.
  pose proof (val_range l Hl). pose proof (val_range r Hr). rewrite Ll, Lr in *.
  apply Z.mod_small. replace (S (size * 2 - 1)) with (size + size)%nat by lia.
  rewrite wsize_add. nia.
Qed.
End Product.

(** ** Reduction by a shifted modulus *)

Lemma num_bits_loop_spec k t i : 0 <= t < 2 ^ Z.of_nat k ->
  exists b, num_bits_loop k t i = i + b /\ 0 <= b <= Z.of_nat k /\ t < 2 ^ b /\
    (0 < t -> 0 < b /\ 2 ^ (b - 1) <= t).
Proof.
  revert t i. induction k as [|k IH]; intros t i Ht; cbn [num_bits_loop].
  { exists 0. change (2 ^ Z.of_nat 0) with 1 in Ht. simpl (2 ^ 0). lia. }
  destruct (Z.eqb_spec t 0) as [->|].
  { exists 0. simpl (2 ^ 0). lia. }
  rewrite Nat2Z.inj_succ, Z.pow_succ_r in Ht by lia. rewrite Z.shiftr_div_pow2 by lia.
  change (2 ^ 1) with 2. destruct (IH (t / 2) (i + 1)) as (b & H1 & H2 & H3 & H4); [zdiv_lia|].
  exists (b + 1). assert (E : 2 ^ (b + 1) = 2 * 2 ^ b) by (rewrite <- Z.pow_succ_r by lia; f_equal; lia).
  split; [lia|]. split; [lia|]. split; [zdiv_lia|]. intros _. split; [lia|].
  replace (b + 1 - 1) with b by lia. destruct (decide (t / 2 = 0)).
  - assert (b = 0) as ->; [|simpl; lia]. destruct (decide (b = 0)); [done|].
    assert (Hb : 2 ^ 0 <= 2 ^ (b - 1)) by (apply Z.pow_le_mono_r; lia).
    destruct (Z.lt_ge_cases 0 (t / 2)) as [Hx|Hx]; [lia|]. revert H1.
    rewrite e. destruct k; simpl; lia.
  - destruct H4 as [H5 H6]; [zdiv_lia|].
    assert (E' : 2 ^ b = 2 * 2 ^ (b - 1)) by (rewrite <- Z.pow_succ_r by lia; f_equal; lia). zdiv_lia.
Qed.

Lemma num_dwords_spec bi : let d := bigint_num_dwords bi in
  (d <= length bi)%nat /\ val bi = val (take d bi) /\ ((0 < d)%nat -> bi !!! (d - 1)%nat <> 0).
Proof.
  unfold bigint_num_dwords. induction bi as [|w bi IH] using rev_ind; [done|]. cbv zeta in *.
  rewrite reverse_app, length_app. cbn [reverse app length num_dwords_loop].
  replace (reverse [w]) with [w] by done. cbn [app num_dwords_loop].
  destruct (Z.eqb_spec w 0) as [->|Hw].
  - replace (length bi + 1 - 1)%nat with (length bi) by lia. destruct IH as (H1 & H2 & H3).
    set (d := num_dwords_loop (reverse bi) (length bi)) in *. split; [lia|]. split.
    + rewrite val_app, take_app_le by done. cbn [val]. lia.
    + intros Hd. rewrite lookup_total_app_l by lia. auto.
  - split; [lia|]. split; [by rewrite take_ge by (rewrite length_app; simpl; lia)|]. intros _.
    rewrite lookup_total_app_r by lia. by replace (length bi + 1 - 1 - length bi)%nat with 0%nat by lia.
Qed.

(** The number of bits. *)
Lemma num_bits_spec m : words m -> let nb := bigint_num_bits m in
  0 <= nb <= 32 * Z.of_nat (length m) /\ val m < 2 ^ nb /\ (0 < nb -> 2 ^ (nb - 1) <= val m).
Proof.
  intros Hm. destruct (num_dwords_spec m) as (Hd & Hv & Hn). unfold bigint_num_bits. cbv zeta in *.
  set (d := bigint_num_dwords m) in *. destruct (Nat.eqb_spec d 0) as [E|E].
  { rewrite Hv, E. change (val (take 0 m)) with 0. simpl (2 ^ 0). lia. }
  pose proof (words_at m (d - 1) Hm) as Hw. specialize (Hn ltac:(lia)).
  destruct (num_bits_loop_spec 32 (m !!! (d - 1)%nat) 0) as (b & H1 & H2 & H3 & H4); [done|].
  destruct H4 as [H5 H6]; [unfold is_word in Hw; lia|]. rewrite H1, Z.add_0_l.
  pose proof (val_take_drop (d - 1) (take d m)) as Ev.
  rewrite length_take, take_take, Nat.min_l, Nat.min_l in Ev by lia. specialize (Ev ltac:(lia)).
  assert (Ed : drop (d - 1) (take d m) = [m !!! (d - 1)%nat]).
  { erewrite drop_S; [|rewrite lookup_take_lt by lia; apply list_lookup_lookup_total_lt; lia].
    by rewrite drop_ge by (rewrite length_take; lia). }
  rewrite Ed in Ev. cbn [val] in Ev. pose proof (val_range _ (words_take (d - 1) _ Hm)) as Rt.
  rewrite length_take, Nat.min_l in Rt by lia. pose proof (wsize_pos (d - 1)).
  replace (Z.of_nat (d - 1) * 32) with (32 * Z.of_nat (d - 1)) by ring.
  split; [lia|]. rewrite <- Z.add_sub_assoc, !Z.pow_add_r by lia. fold (wsize (d - 1)). nia.
Qed.

Lemma num_bits_log2 m : words m -> 0 < val m -> bigint_num_bits m = Z.log2 (val m) + 1.
Proof.
  intros Hm Hv. destruct (num_bits_spec m Hm) as (H1 & H2 & H3).
  assert (H4 : bigint_num_bits m <> 0) by (intros E; rewrite E in H2; simpl in H2; lia).
  specialize (H3 ltac:(lia)).
  rewrite (Z.log2_unique (val m) (bigint_num_bits m - 1)); [lia|lia|].
  by replace (Z.succ (bigint_num_bits m - 1)) with (bigint_num_bits m) by lia.
Qed.

Lemma num_bits_zero m : words m -> val m = 0 -> bigint_num_bits m = 0.
Proof.
  intros Hm Hv. destruct (num_bits_spec m Hm) as (H1 & _ & H3).
  destruct (decide (bigint_num_bits m = 0)); [done|]. specialize (H3 ltac:(lia)).
  pose proof (Z.pow_pos_nonneg 2 (bigint_num_bits m - 1)). lia.
Qed.

Lemma shift_mod_loop_spec m mm at_ bs carry : words m -> words mm ->
  0 < bs < 32 -> 0 <= carry < 2 ^ bs -> (at_ + length m <= length mm)%nat ->
  (forall j, (at_ <= j < at_ + length m)%nat -> mm !!! j = 0) ->
  let res := shift_mod_loop m mm at_ bs carry in
  words res /\ length res = length mm /\ exists c, 0 <= c < 2 ^ bs /\
    val res + wsize (at_ + length m) * c = val mm + wsize at_ * (val m * 2 ^ bs + carry).
Proof.
  intros Hm. revert mm at_ carry. induction Hm as [|w m Hw Hm IH]; intros mm at_ carry Hmm Hbs Hc Hat Hz.
  { cbn [shift_mod_loop]. split; [done|]. split; [done|]. exists carry. split; [done|].
    cbn [length val]. rewrite Nat.add_0_r. lia. }
  cbn [shift_mod_loop length val] in *.
  assert (P : 2 ^ 32 = 2 ^ bs * 2 ^ (32 - bs)) by (rewrite <- Z.pow_add_r by lia; f_equal; lia).
  assert (Q : 0 < 2 ^ bs /\ 0 < 2 ^ (32 - bs)) by (split; apply Z.pow_pos_nonneg; lia).
  set (q := w / 2 ^ (32 - bs)). set (r := w mod 2 ^ (32 - bs)).
  assert (Ew : w = 2 ^ (32 - bs) * q + r) by (apply Z.div_mod; lia).
  assert (Hr : 0 <= r < 2 ^ (32 - bs)) by (apply Z.mod_pos_bound; lia).
  assert (Hq : 0 <= q < 2 ^ bs) by (unfold is_word in Hw; nia).
  assert (El : Z.lor (u32 (Z.shiftl w bs)) carry = 2 ^ bs * r + carry).
  { rewrite Z.shiftl_mul_pow2 by lia. unfold u32.
    replace ((w * 2 ^ bs) mod 2 ^ 32) with (r * 2 ^ bs); [rewrite lor_add by lia; ring|].
    apply (Z.mod_unique_pos _ _ q); [nia|]. rewrite Ew at 1. rewrite P. ring. }
  rewrite El, Z.shiftr_div_pow2 by lia. fold q.
  assert (W : is_word (2 ^ bs * r + carry)) by (unfold is_word; nia).
  destruct (IH (<[at_ := 2 ^ bs * r + carry]> mm) (S at_) q) as (I1 & I2 & c & I3 & I4); try done.
  - auto with words.
  - rewrite length_insert. lia.
  - intros j Hj. rewrite list_lookup_total_insert_ne by lia. apply Hz. lia.
  - cbv zeta. split; [done|]. split; [by rewrite I2, length_insert|]. exists c. split; [done|].
    rewrite val_insert, Hz in I4 by lia. rewrite Nat.add_succ_r. rewrite Nat.add_succ_l in I4.
    rewrite I4, (wsize_S at_), Ew, P. ring.
Qed.

Lemma clear_at n j : (j < n)%nat -> bigint_clear n !!! j = 0.
Proof. intros. unfold bigint_clear. by apply lookup_total_replicate_2. Qed.

Lemma shift_mod_spec m shift : words m -> (0 < length m)%nat ->
  32 * Z.of_nat (length m) <= shift < 32 * Z.of_nat (length m) + 32 ->
  val m * 2 ^ shift < wsize (length m * 2) ->
  let res := shift_mod m (length m) shift in
  words res /\ length res = (length m * 2)%nat /\ val res = val m * 2 ^ shift.
Proof.
  intros Hm Hn Hs Hv. set (n := length m) in *. unfold shift_mod.
  assert (Ed : shift / 32 = Z.of_nat n) by zdiv_lia. rewrite Ed.
  assert (Es : 2 ^ shift = wsize n * 2 ^ (shift mod 32)).
  { unfold wsize. rewrite <- Z.pow_add_r by zdiv_lia. f_equal. zdiv_lia. }
  cbv zeta. destruct (Z.ltb_spec 0 (shift mod 32)) as [Hb|Hb].
  - rewrite Nat2Z.id.
    destruct (shift_mod_loop_spec m (bigint_clear (n * 2)) n (shift mod 32) 0) as (H1 & H2 & c & H3 & H4).
    + done.
    + auto with words.
    + zdiv_lia.
    + split; [lia|]. apply Z.pow_pos_nonneg; zdiv_lia.
    + unfold bigint_clear. rewrite length_replicate. lia.
    + intros j Hj. apply clear_at. lia.
    + cbv zeta in *. unfold bigint_clear at 2 in H2. rewrite length_replicate in H2.
      split; [done|]. split; [done|]. fold n in H4. rewrite val_clear in H4.
      replace (n + n)%nat with (n * 2)%nat in H4 by lia.
      pose proof (val_range _ H1) as R. rewrite H2 in R. rewrite Es in *.
      assert (c = 0) by nia. subst c. lia.
  - assert (E0 : shift mod 32 = 0) by zdiv_lia. rewrite E0, Z.mul_1_r in Es.
    unfold splice. rewrite Nat2Z.id. fold n.
    unfold bigint_clear. rewrite take_replicate, Nat.min_l by lia.
    rewrite drop_ge by (rewrite length_replicate; lia). rewrite app_nil_r.
    split; [apply words_app; auto with words; fold (bigint_clear n); auto with words|].
    split; [rewrite length_app, length_replicate; lia|].
    rewrite val_app, length_replicate. fold (bigint_clear n). rewrite val_clear, Es. ring.
Qed.

Lemma rshift_halves_spec mm n : words mm -> length mm = (n * 2)%nat -> (0 < n)%nat ->
  words (rshift_halves mm n) /\ length (rshift_halves mm n) = (n * 2)%nat /\
  val (rshift_halves mm n) = val mm / 2.
Proof.
  intros Hm Hl Hn. unfold rshift_halves.
  destruct (rshift_spec (take n mm)) as (L1 & L2 & L3); [auto with words|].
  destruct (rshift_spec (drop n mm)) as (D1 & D2 & D3); [auto with words|].
  rewrite length_take, Nat.min_l in L2 by lia. rewrite length_drop in D2.
  set (low := bigint_rshift (take n mm)) in *. set (high := bigint_rshift (drop n mm)) in *.
  pose proof (val_take_drop n mm) as E.
  pose proof (val_range _ (words_take n _ Hm)) as Rt. rewrite length_take, Nat.min_l in Rt by lia.
  pose proof (words_at mm n Hm) as Wn. set (e := mm !!! n mod 2).
  assert (He : u32 (Z.shiftl (mm !!! n) 31) = 2 ^ 31 * e).
  { by destruct (rshift_word (mm !!! n) 0) as (_ & _ & ->); [|left|]. }
  assert (Hd : exists k, val (drop n mm) = 2 * k + e).
  { erewrite drop_S by (apply list_lookup_lookup_total_lt; lia). cbn [val].
    exists (2 ^ 31 * val (drop (S n) mm) + mm !!! n / 2). subst e. zdiv_lia. }
  destruct Hd as [k Hk]. assert (He2 : 0 <= e < 2) by (subst e; zdiv_lia).
  assert (Ew : wsize n = wsize (n - 1) * 2 ^ 31 * 2).
  { destruct n as [|n']; [lia|]. rewrite wsize_S, Nat.sub_1_r. simpl (pred _). ring. }
  assert (O : words (or_word low (n - 1) (u32 (Z.shiftl (mm !!! n) 31))) /\
    length (or_word low (n - 1) (u32 (Z.shiftl (mm !!! n) 31))) = n /\
    val (or_word low (n - 1) (u32 (Z.shiftl (mm !!! n) 31))) = val low + wsize (n - 1) * 2 ^ 31 * e).
  { rewrite He. destruct (decide (e = 0)) as [->|].
    - unfold or_word. rewrite !Z.mul_0_r, Z.lor_0_r, list_insert_id', Z.add_0_r; [done|].
      intros. apply list_lookup_lookup_total_lt. lia.
    - assert (e = 1) as -> by lia. rewrite !Z.mul_1_r.
      destruct (or_word_spec low (n - 1) 31) as (O1 & O2 & O3); [done|lia|done| |].
      { rewrite <- L2. apply top_word_lt; [done|lia|]. rewrite L2, L3. zdiv_lia. }
      split; [done|]. split; [congruence|done]. }
  destruct O as (O1 & O2 & O3). split; [by apply words_app|].
  split; [rewrite length_app, O2, D2; lia|]. rewrite val_app, O2, O3, L3, D3, E by lia.
  rewrite Hk. replace ((2 * k + e) / 2) with k by zdiv_lia.
  apply Z.div_unique_pos with (val (take n mm) mod 2); [zdiv_lia|].
  pose proof (Z.div_mod (val (take n mm)) 2 ltac:(lia)). rewrite Ew. lia.
Qed.

(** What [n] rounds leave: the remainder of the number in [v[i]]. *)
Lemma mod_mult_loop_spec m n v (i : bool) mm : (0 < length m)%nat -> 0 < val m ->
  let cur := if i then v.2 else v.1 in
  words cur -> length cur = (length m * 2)%nat -> words mm -> length mm = (length m * 2)%nat ->
  val cur < val m * 2 ^ Z.of_nat n -> ((0 < n)%nat -> val mm = val m * 2 ^ (Z.of_nat n - 1)) ->
  let res := mod_mult_loop n v i mm (length m) in
  words res /\ length res = (length m * 2)%nat /\ val res = val cur mod val m.
Proof.
  intros Hn Hm. revert v i mm. induction n as [|n IH]; intros v i mm cur Wc Lc Wm Lm Hc HM.
  { cbn [mod_mult_loop]. fold cur. split; [done|]. split; [done|].
    rewrite Z.mod_small; [done|]. pose proof (val_range _ Wc). lia. }
  cbn [mod_mult_loop]. fold cur. specialize (HM ltac:(lia)).
  replace (Z.of_nat (S n) - 1) with (Z.of_nat n) in HM by lia.
  rewrite Nat2Z.inj_succ, Z.pow_succ_r in Hc by lia.
  destruct (sub_spec cur mm) as (S1 & S2 & S3 & S4); [done|done|congruence|].
  destruct (bigint_sub cur mm) as [diff borrow]. cbn [fst snd] in *.
  destruct (rshift_halves_spec mm (length m)) as (R1 & R2 & R3); [done..|].
  pose proof (val_range _ S1) as Rd. pose proof (val_range _ Wc) as Rc.
  pose proof (val_range _ Wm) as Rm. rewrite S2 in *. rewrite Lc in *. rewrite Lm in *.
  assert (HM' : (0 < n)%nat -> val (rshift_halves mm (length m)) = val m * 2 ^ (Z.of_nat n - 1)).
  { intros H0. rewrite R3, HM. symmetry. apply (Z.div_unique_pos _ 2 _ 0); [lia|].
    replace (Z.of_nat n) with (Z.succ (Z.of_nat n - 1)) at 1 by lia. rewrite Z.pow_succ_r by lia. ring. }
  destruct (Z.eqb_spec borrow 0) as [->|Hb]; cbn [negb].
  - specialize (IH (if i then (diff, v.2) else (v.1, diff)) (negb (xorb i false)) (rshift_halves mm (length m))).
    replace (if negb (xorb i false) then (if i then (diff, v.2) else (v.1, diff)).2
      else (if i then (diff, v.2) else (v.1, diff)).1) with diff in IH by by destruct i.
    destruct IH as (I1 & I2 & I3); try done; [lia|].
    cbv zeta. split; [done|]. split; [done|]. rewrite I3.
    replace (val diff) with (val cur + - 2 ^ Z.of_nat n * val m) by lia.
    apply Z_mod_plus_full.
  - specialize (IH (if i then (diff, v.2) else (v.1, diff)) (negb (xorb i true)) (rshift_halves mm (length m))).
    replace (if negb (xorb i true) then (if i then (diff, v.2) else (v.1, diff)).2
      else (if i then (diff, v.2) else (v.1, diff)).1) with cur in IH by by destruct i.
    destruct IH as (I1 & I2 & I3); try done. assert (borrow = 1) by lia. subst borrow. lia.
Qed.

Lemma mod_mult_spec l r m : words l -> words r -> words m -> length l = length m ->
  length r = length m -> (0 < length m)%nat -> Z.of_nat (length m) < 2 ^ 31 ->
  wsize (length m - 1) <= val m ->
  reduced m (bigint_mod_mult l r m) /\ val (bigint_mod_mult l r m) = (val l * val r) mod val m.
Proof.
  intros Wl Wr Wm Ll Lr Hn Hsz Hm. unfold bigint_mod_mult.
  destruct (mult_spec l r (length m)) as (P1 & P2 & P3); try done.
  destruct (num_bits_spec m Wm) as (B0 & B2 & B3). cbv zeta.
  pose proof (wsize_pos (length m - 1)) as Hp. pose proof (num_bits_log2 m Wm ltac:(lia)) as Eb.
  pose proof (Z.log2_nonneg (val m)). specialize (B3 ltac:(lia)).
  assert (B1 : 32 * (Z.of_nat (length m) - 1) < bigint_num_bits m <= 32 * Z.of_nat (length m)).
  { split; [|apply B0]. apply (Z.pow_lt_mono_r_iff 2); [lia..|].
    replace (32 * (Z.of_nat (length m) - 1)) with (32 * Z.of_nat (length m - 1)) by lia.
    fold (wsize (length m - 1)). lia. }
  set (nb := bigint_num_bits m) in *. set (n := length m) in *.
  set (shift := 32 * 2 * Z.of_nat n - nb).
  assert (Hw : wsize (n * 2) = 2 ^ nb * 2 ^ shift).
  { unfold wsize. rewrite <- Z.pow_add_r by lia. f_equal. lia. }
  assert (0 < 2 ^ shift) by (apply Z.pow_pos_nonneg; lia).
  destruct (shift_mod_spec m shift) as (S1 & S2 & S3); [done|done|lia|fold n; rewrite Hw; nia|].
  fold n in S1, S2, S3. pose proof (val_range _ P1) as Rp. rewrite P2 in Rp.
  destruct (mod_mult_loop_spec m (Z.to_nat (shift + 1)) ([], bigint_mult l r) true (shift_mod m n shift))
    as (M1 & M2 & M3); try done; [lia| | |].
  { cbv zeta. cbn [snd]. rewrite Z2Nat.id, Z.add_1_r, Z.pow_succ_r by lia.
    replace nb with (Z.succ (nb - 1)) in Hw by lia. rewrite Z.pow_succ_r in Hw by lia. nia. }
  { intros _. rewrite S3. do 2 f_equal. lia. }
  cbv zeta in M1, M2, M3. cbn [snd] in M3. fold n in M1, M2, M3. rewrite P3 in M3.
  set (res := mod_mult_loop _ _ _ _ _) in *.
  pose proof (Z.mod_pos_bound (val l * val r) (val m) ltac:(lia)) as Bm.
  pose proof (val_range m Wm) as Rm. fold n in Rm.
  pose proof (val_take_drop n res ltac:(lia)) as E. pose proof (val_range _ (words_take n _ M1)) as R1.
  pose proof (val_range _ (words_drop n _ M1)) as R2. rewrite length_take, Nat.min_l in R1 by lia.
  assert (val (drop n res) = 0) by nia.
  assert (Ev : val (take n res) = (val l * val r) mod val m) by lia.
  split; [split|done]; [auto with words|rewrite length_take; lia|lia].
Qed.

Lemma mod_inv_spec a m fuel : words a -> words m -> length a = length m -> (0 < length m)%nat ->
  Z.even (val m) = false -> 1 < val m -> 0 < val a -> Z.gcd (val a) (val m) = 1 ->
  (64 * length m <= fuel)%nat ->
  exists r, bigint_mod_inv fuel a m = Some r /\ reduced m r /\ (val r * val a) mod val m = 1.
Proof.
  intros Wa Wm La Hn Hodd H1 Ha Hg Hf. unfold bigint_mod_inv.
  pose proof (val_range _ Wa) as Ra. pose proof (val_range _ Wm) as Rm. rewrite La in Ra.
  assert (Hone : is_word 1) by (unfold is_word; lia).
  assert (Vone : val (<[0%nat := 1]> (bigint_clear (length m))) = 1).
  { unfold bigint_clear at 1. rewrite val_insert by (rewrite length_replicate; lia).
    fold (bigint_clear (length m)). rewrite val_clear, clear_at, wsize_0 by lia. done. }
  assert (E : euclid m (val a) a m (<[0%nat := 1]> (bigint_clear (length m))) (bigint_clear (length m))).
  { split; try done; [lia| | | | |].
    + split; [auto with words| |by rewrite Vone].
      rewrite length_insert. unfold bigint_clear. apply length_replicate.
    + split; [auto with words| |by rewrite val_clear; lia].
      unfold bigint_clear. apply length_replicate.
    + rewrite Vone, Z.mul_1_l, Z.sub_diag. apply Z.divide_0_r.
    + rewrite val_clear. exists 1. lia.
    + intros d Hd Hm. rewrite <- Hg. by apply Z.gcd_greatest. }
  destruct (mod_inv_loop_spec m (val a) Wm Hn Hodd fuel _ _ _ _ (32 * Z.of_nat (length m))
    (32 * Z.of_nat (length m)) E) as (r & R1 & R2 & [k Hk]); [lia|lia|apply Ra|apply Rm|lia|].
  exists r. split; [done|]. split; [done|]. symmetry. apply (Z.mod_unique_pos _ _ (- k)); lia.
Qed.

(** [bigint_mod_mult] is multiplication modulo [m], for every
    modulus whose highest word is not zero: the shifted modulus starts above
    the product, and each round halves it. *)
Theorem mod_mult_correct l r m : words l -> words r -> words m -> length l = length m ->
  length r = length m -> (0 < length m)%nat -> Z.of_nat (length m) < 2 ^ 31 ->
  wsize (length m - 1) <= val m ->
  reduced m (bigint_mod_mult l r m) /\ val (bigint_mod_mult l r m) = (val l * val r) mod val m /\
  val (mult_loop l r (length m) 0 (length m * 2 - 1) 0) = val l * val r.
Proof.
  intros Wl Wr Wm Ll Lr Hn Hsz Hm.
  destruct (mod_mult_spec l r m) as [H1 H2]; try done. split; [done|]. split; [done|].
  destruct (mult_spec l r (length m)) as (_ & _ & H3); try done.
  unfold bigint_mult in H3. by rewrite Ll in H3.
Qed.

Lemma mod_mult_correct_witness :
  reduced [7; 5] (bigint_mod_mult [11; 3] [2; 9] [7; 5]) /\
  val (bigint_mod_mult [11; 3] [2; 9] [7; 5]) = (val [11; 3] * val [2; 9]) mod val [7; 5] /\
  val (mult_loop [11; 3] [2; 9] 2 0 3 0) = val [11; 3] * val [2; 9].
Proof. apply (mod_mult_correct [11; 3] [2; 9] [7; 5]); try (by apply words_check); try done; simpl; lia. Defined.

(** For every number that has an inverse modulo an odd number,
    [bigint_mod_inv] ends within two rounds per bit and gives the inverse; on
    zero it never ends, however long it runs. *)
Theorem mod_inv_decided m : words m -> (0 < length m)%nat -> Z.even (val m) = false -> 1 < val m ->
  (forall a fuel, words a -> length a = length m -> Z.gcd (val a) (val m) = 1 -> 0 < val a ->
    (64 * length m <= fuel)%nat ->
    exists r, bigint_mod_inv fuel a m = Some r /\ reduced m r /\ (val r * val a) mod val m = 1) /\
  (forall a fuel, words a -> length a = length m -> val a = 0 -> bigint_mod_inv fuel a m = None).
Proof.
  intros Wm Hn Hodd H1. split.
  - intros a fuel Wa La Hg Ha Hf. by apply mod_inv_spec.
  - intros a fuel Wa La Ha. apply mod_inv_loop_zero; try done. lia.
Qed.

Lemma mod_inv_decided_witness :
  (exists r, bigint_mod_inv 128 [6; 1] [7; 5] = Some r /\ reduced [7; 5] r /\ (val r * val [6; 1]) mod val [7; 5] = 1) /\
  bigint_mod_inv 1000 [0; 0] [7; 5] = None.
Proof.
  split; apply (mod_inv_decided [7; 5]); first [by apply words_check | vm_compute; done | simpl; lia].
Defined.
