(* ===== verification/BigintFast.v ===== *)
(** Fast reduction modulo the primes of the two curves (src/kernel/devkey.inc,
    [bigint_mod_mult_fast*]).

    The product is seen as bytes; each [tmp] table of the code picks bytes, or
    bits across bytes, of its upper half so that adding or subtracting the
    tables gives a number that is the product modulo the prime.  Multiples of
    the prime are then taken away one at a time. *)
From S2P Require Import Prelude Bigint BigintMod.

(** ** The curves *)

Record ecc_point := Point { px : bigint; py : bigint }.

Record ecc_curve := Curve { cu_n : bigint; cu_p : bigint; cu_g : ecc_point }.

Definition curve_128 : ecc_curve := {|
  cu_n := [0x9038a115; 0x75a30d1b; 0x00000000; 0xfffffffe];
  cu_p := [0xffffffff; 0xffffffff; 0xffffffff; 0xfffffffd];
  cu_g := Point [0xa52c5b86; 0x0c28607c; 0x8b899b2d; 0x161ff752]
    [0xdded7a83; 0xc02da292; 0x5bafeb13; 0xcf5ac839]
|}.

Definition curve_256 : ecc_curve := {|
  cu_n := [0xfc632551; 0xf3b9cac2; 0xa7179e84; 0xbce6faad; 0xffffffff; 0xffffffff; 0x00000000;
    0xffffffff];
  cu_p := [0xffffffff; 0xffffffff; 0xffffffff; 0x00000000; 0x00000000; 0x00000000; 0x00000001;
    0xffffffff];
  cu_g := Point
    [0xd898c296; 0xf4a13945; 0x2deb33a0; 0x77037d81; 0x63a440f2; 0xf8bce6e5; 0xe12c4247;
     0x6b17d1f2]
    [0x37bf51f5; 0xcbb64068; 0x6b315ece; 0x2bce3357; 0x7c0f9e16; 0x8ee7eb4a; 0xfe1a7f9b;
     0x4fe342e2]
|}.

(** ** Words and bytes *)

(** The bytes of a word array in memory, and the words of a byte array: the
    casts between [uint32_t *] and [uint8_t *] on a little-endian machine. *)
Fixpoint le_bytes (bi : bigint) : list Z :=
  match bi with
  | [] => []
  | w :: bi => u8 w :: u8 (w / 2 ^ 8) :: u8 (w / 2 ^ 16) :: u8 (w / 2 ^ 24) :: le_bytes bi
  end.

Fixpoint of_bytes (l : list Z) : bigint :=
  match l with
  | a :: b :: c :: d :: l => a + 2 ^ 8 * b + 2 ^ 16 * c + 2 ^ 24 * d :: of_bytes l
  | _ => []
  end.

(** [carry += bigint_add(res, res, tmp, size)], and the same with a difference. *)
Definition add_tmp (s : bigint * Z) (tmp : bigint) : bigint * Z :=
  let '(res, c) := bigint_add s.1 tmp in (res, s.2 + c).

Definition sub_tmp (s : bigint * Z) (tmp : bigint) : bigint * Z :=
  let '(res, b) := bigint_sub s.1 tmp in (res, s.2 - b).

(** [do carry += bigint_add(res, res, mod) while (carry < 0)] *)
Fixpoint add_until (fuel : nat) (res : bigint) (carry : Z) (mod_ : bigint) : option bigint :=
  match fuel with
  | O => None
  | S fuel =>
      let '(res, carry) := add_tmp (res, carry) mod_ in
      if carry <? 0 then add_until fuel res carry mod_ else Some res
  end.

(** [while (carry || ge(res)) carry -= bigint_sub(res, res, mod)] *)
Fixpoint sub_while (ge : bigint -> bool) (fuel : nat) (res : bigint) (carry : Z) (mod_ : bigint) :
    option bigint :=
  match fuel with
  | O => None
  | S fuel =>
      if negb (carry =? 0) || ge res then
        let '(res, carry) := sub_tmp (res, carry) mod_ in sub_while ge fuel res carry mod_
      else Some res
  end.

(** At most seven multiples of the prime are ever added or subtracted. *)
Definition reduce_fuel : nat := 8.

(** ** 128 bits *)

Definition fast_128_tmp1 (p : Z -> Z) : list Z :=
  [p 16; p 17; p 18; p 19; p 20; p 21; p 22; p 23; p 24; p 25; p 26; p 27;
   u8 (Z.lor (Z.land (p 28) 1) (Z.shiftl (p 16) 1));
   u8 (Z.lor (Z.shiftr (p 16) 7) (Z.shiftl (p 17) 1));
   u8 (Z.lor (Z.shiftr (p 17) 7) (Z.shiftl (p 18) 1));
   u8 (Z.lor (Z.shiftr (p 18) 7) (Z.shiftl (p 19) 1))].

Definition fast_128_tmp2 (p : Z -> Z) : list Z :=
  [u8 (Z.lor (Z.shiftr (p 19) 7) (Z.shiftl (p 20) 1));
   u8 (Z.lor (Z.shiftr (p 20) 7) (Z.shiftl (p 21) 1));
   u8 (Z.lor (Z.shiftr (p 21) 7) (Z.shiftl (p 22) 1));
   u8 (Z.lor (Z.shiftr (p 22) 7) (Z.shiftl (p 23) 1));
   u8 (Z.lor (Z.shiftr (p 23) 7) (Z.shiftl (p 24) 1));
   u8 (Z.lor (Z.shiftr (p 24) 7) (Z.shiftl (p 25) 1));
   u8 (Z.lor (Z.shiftr (p 25) 7) (Z.shiftl (p 26) 1));
   u8 (Z.lor (Z.shiftr (p 26) 7) (Z.shiftl (p 27) 1));
   u8 (Z.lor (Z.shiftr (p 27) 7) (Z.shiftl (p 28) 1));
   u8 (Z.lor (Z.shiftr (p 28) 7) (Z.shiftl (p 29) 1));
   u8 (Z.lor (Z.shiftr (p 29) 7) (Z.shiftl (p 30) 1));
   u8 (Z.lor (Z.shiftr (p 30) 7) (Z.shiftl (p 31) 1));
   u8 (Z.lor (Z.lor (Z.shiftr (p 31) 7) (Z.shiftr (Z.land (p 19) 0x80) 6)) (Z.shiftl (p 20) 2));
   u8 (Z.lor (Z.shiftr (p 20) 6) (Z.shiftl (p 21) 2));
   u8 (Z.lor (Z.shiftr (p 21) 6) (Z.shiftl (p 22) 2));
   u8 (Z.lor (Z.shiftr (p 22) 6) (Z.shiftl (p 23) 2))].

Definition fast_128_tmp3 (p : Z -> Z) : list Z :=
  [u8 (Z.lor (Z.shiftr (p 23) 6) (Z.shiftl (p 24) 2));
   u8 (Z.lor (Z.shiftr (p 24) 6) (Z.shiftl (p 25) 2));
   u8 (Z.lor (Z.shiftr (p 25) 6) (Z.shiftl (p 26) 2));
   u8 (Z.lor (Z.shiftr (p 26) 6) (Z.shiftl (p 27) 2));
   u8 (Z.lor (Z.shiftr (p 27) 6) (Z.shiftl (p 28) 2));
   u8 (Z.lor (Z.shiftr (p 28) 6) (Z.shiftl (p 29) 2));
   u8 (Z.lor (Z.shiftr (p 29) 6) (Z.shiftl (p 30) 2));
   u8 (Z.lor (Z.shiftr (p 30) 6) (Z.shiftl (p 31) 2)); Z.shiftr (p 31) 6; 0; 0; 0;
   u8 (Z.lor (Z.shiftr (Z.land (p 23) 0xC0) 5) (Z.shiftl (p 24) 3));
   u8 (Z.lor (Z.shiftr (p 24) 5) (Z.shiftl (p 25) 3));
   u8 (Z.lor (Z.shiftr (p 25) 5) (Z.shiftl (p 26) 3));
   u8 (Z.lor (Z.shiftr (p 26) 5) (Z.shiftl (p 27) 3))].

Definition fast_128_tmp4 (p : Z -> Z) : list Z :=
  [u8 (Z.lor (Z.shiftr (p 27) 5) (Z.shiftl (p 28) 3));
   u8 (Z.lor (Z.shiftr (p 28) 5) (Z.shiftl (p 29) 3));
   u8 (Z.lor (Z.shiftr (p 29) 5) (Z.shiftl (p 30) 3));
   u8 (Z.lor (Z.shiftr (p 30) 5) (Z.shiftl (p 31) 3)); Z.shiftr (p 31) 5; 0; 0; 0; 0; 0; 0; 0;
   u8 (Z.lor (Z.shiftr (Z.land (p 27) 0xE0) 4) (Z.shiftl (p 28) 4));
   u8 (Z.lor (Z.shiftr (p 28) 4) (Z.shiftl (p 29) 4));
   u8 (Z.lor (Z.shiftr (p 29) 4) (Z.shiftl (p 30) 4));
   u8 (Z.lor (Z.shiftr (p 30) 4) (Z.shiftl (p 31) 4))].

Definition fast_128_tmp5 (p : Z -> Z) : list Z :=
  [Z.shiftr (p 31) 4; 0; 0; 0; 0; 0; 0; 0; 0; 0; 0; 0; Z.land (p 28) 0xFE; p 29; p 30; p 31].

Definition fast_128_tmp6 (p : Z -> Z) : list Z :=
  [0; 0; 0; 0; 0; 0; 0; 0; 0; 0; 0; 0; Z.shiftr (Z.land (p 31) 0xF0) 3; 0; 0; 0].

Definition bigint_mod_mult_fast_128 (lhs rhs mod_ : bigint) : option bigint :=
  let product := bigint_mult lhs rhs in
  let product_bytes := le_bytes product in
  let p i := product_bytes @@ i in
  let s := (take 4 product, 0) in
  let s := add_tmp s (of_bytes (fast_128_tmp1 p)) in
  let s := add_tmp s (of_bytes (fast_128_tmp2 p)) in
  let s := add_tmp s (of_bytes (fast_128_tmp3 p)) in
  let s := add_tmp s (of_bytes (fast_128_tmp4 p)) in
  let s := add_tmp s (of_bytes (fast_128_tmp5 p)) in
  let s := add_tmp s (of_bytes (fast_128_tmp6 p)) in
  sub_while (fun res => 0 <=? bigint_cmp res mod_) reduce_fuel s.1 s.2 mod_.

(** ** 256 bits *)

Definition fast_256_tmp1 (p : Z -> Z) : list Z :=
  [0; 0; 0; 0; 0; 0; 0; 0; 0; 0; 0; 0; p 44; p 45; p 46; p 47; p 48; p 49; p 50; p 51; p 52;
   p 53; p 54; p 55; p 56; p 57; p 58; p 59; p 60; p 61; p 62; p 63].

Definition fast_256_tmp2 (p : Z -> Z) : list Z :=
  [p 48; p 49; p 50; p 51; p 52; p 53; p 54; p 55; p 56; p 57; p 58; p 59; p 60; p 61; p 62;
   p 63; 0; 0; 0; 0].

Definition fast_256_tmp3 (p : Z -> Z) : list Z :=
  [p 32; p 33; p 34; p 35; p 36; p 37; p 38; p 39; p 40; p 41; p 42; p 43; 0; 0; 0; 0; 0; 0; 0;
   0; 0; 0; 0; 0; p 56; p 57; p 58; p 59; p 60; p 61; p 62; p 63].

Definition fast_256_tmp4 (p : Z -> Z) : list Z :=
  [p 36; p 37; p 38; p 39; p 40; p 41; p 42; p 43; p 44; p 45; p 46; p 47; p 52; p 53; p 54;
   p 55; p 56; p 57; p 58; p 59; p 60; p 61; p 62; p 63; p 52; p 53; p 54; p 55; p 32; p 33;
   p 34; p 35].

Definition fast_256_tmp5 (p : Z -> Z) : list Z :=
  [p 44; p 45; p 46; p 47; p 48; p 49; p 50; p 51; p 52; p 53; p 54; p 55; 0; 0; 0; 0; 0; 0; 0;
   0; 0; 0; 0; 0; p 32; p 33; p 34; p 35; p 40; p 41; p 42; p 43].

Definition fast_256_tmp6 (p : Z -> Z) : list Z :=
  [p 48; p 49; p 50; p 51; p 52; p 53; p 54; p 55; p 56; p 57; p 58; p 59; p 60; p 61; p 62;
   p 63; 0; 0; 0; 0; 0; 0; 0; 0; p 36; p 37; p 38; p 39; p 44; p 45; p 46; p 47].

Definition fast_256_tmp7 (p : Z -> Z) : list Z :=
  [p 52; p 53; p 54; p 55; p 56; p 57; p 58; p 59; p 60; p 61; p 62; p 63; p 32; p 33; p 34;
   p 35; p 36; p 37; p 38; p 39; p 40; p 41; p 42; p 43; 0; 0; 0; 0; p 48; p 49; p 50; p 51].

Definition fast_256_tmp8 (p : Z -> Z) : list Z :=
  [p 56; p 57; p 58; p 59; p 60; p 61; p 62; p 63; 0; 0; 0; 0; p 36; p 37; p 38; p 39; p 40;
   p 41; p 42; p 43; p 44; p 45; p 46; p 47; 0; 0; 0; 0; p 52; p 53; p 54; p 55].

(** The second table overwrites only the upper part of [tmp], which the first
    one left shifted. *)
Definition bigint_mod_mult_fast_256 (lhs rhs mod_ : bigint) : option bigint :=
  let product := bigint_mult lhs rhs in
  let product_bytes := le_bytes product in
  let p i := product_bytes @@ i in
  let res := take 8 product in
  let '(tmp, carry) := bigint_lshift (of_bytes (fast_256_tmp1 p)) 0 in
  let s := add_tmp (res, carry) tmp in
  let '(tmp, c) := bigint_lshift (of_bytes (take 12 (le_bytes tmp) ++ fast_256_tmp2 p)) 0 in
  let s := add_tmp (s.1, s.2 + c) tmp in
  let s := add_tmp s (of_bytes (fast_256_tmp3 p)) in
  let s := add_tmp s (of_bytes (fast_256_tmp4 p)) in
  let s := sub_tmp s (of_bytes (fast_256_tmp5 p)) in
  let s := sub_tmp s (of_bytes (fast_256_tmp6 p)) in
  let s := sub_tmp s (of_bytes (fast_256_tmp7 p)) in
  let s := sub_tmp s (of_bytes (fast_256_tmp8 p)) in
  if s.2 <? 0 then add_until reduce_fuel s.1 s.2 mod_
  else sub_while (fun res => negb (bigint_cmp mod_ res =? 1)) reduce_fuel s.1 s.2 mod_.

(** Any other size is refused by [verify_device_key] before. *)
Definition bigint_mod_mult_fast (lhs rhs mod_ : bigint) : option bigint :=
  match length mod_ with
  | 4%nat => bigint_mod_mult_fast_128 lhs rhs mod_
  | 8%nat => bigint_mod_mult_fast_256 lhs rhs mod_
  | _ => None
  end.

(** ** Bytes and words *)

(** The number a list of bytes stands for. *)
Fixpoint bval (l : list Z) : Z := match l with [] => 0 | b :: l => b + 2 ^ 8 * bval l end.

Lemma le_bytes_app a b : le_bytes (a ++ b) = le_bytes a ++ le_bytes b.
Proof. induction a as [|w a IH]; [done|]. cbn [le_bytes app]. by rewrite IH. Qed.

Lemma length_le_bytes bi : length (le_bytes bi) = (4 * length bi)%nat.
Proof. induction bi as [|w bi IH]; [done|]. cbn [le_bytes length]. lia. Qed.

Lemma le_bytes_spec bi : words bi -> bytes (le_bytes bi) /\ bval (le_bytes bi) = val bi.
Proof.
  induction 1 as [|w bi Hw _ [IH1 IH2]]; [split; [constructor|done]|]. cbn [le_bytes bval val].
  rewrite !bytes_cons, IH2. unfold u8, is_byte, is_word in *. split; [|zdiv_lia].
  repeat split; try done; zdiv_lia.
Qed.

Lemma of_bytes_spec n l : bytes l -> length l = (4 * n)%nat ->
  words (of_bytes l) /\ length (of_bytes l) = n /\ val (of_bytes l) = bval l.
Proof.
  revert l. induction n as [|n IH]; intros l Hb Hl.
  { destruct l; [|simpl in Hl; lia]. by split; [constructor|]. }
  do 4 (destruct l as [|? l]; [simpl in Hl; lia|]). rewrite !bytes_cons in Hb.
  destruct Hb as (H1 & H2 & H3 & H4 & Hb). destruct (IH l Hb) as (I1 & I2 & I3); [simpl in Hl; lia|].
  cbn [of_bytes bval val length]. rewrite words_cons, I2, I3. unfold is_byte, is_word in *.
  split; [split; [lia|done]|]. split; [done|]. lia.
Qed.

(** The part of a list from [k] on, entry by entry. *)
Lemma drop_map_at (l : list Z) k n : length l = (k + n)%nat ->
  drop k l = map (fun i => (l @@ i)%C) (map Z.of_nat (seq k n)).
Proof.
  intros Hl. rewrite map_map. apply list_eq_total.
  - rewrite length_map, length_seq, length_drop. lia.
  - intros i Hi. rewrite length_drop in Hi. rewrite !list_lookup_total_alt, lookup_drop.
    rewrite list_lookup_fmap, lookup_seq_lt by lia. simpl. rewrite Nat2Z.id.
    by rewrite list_lookup_total_alt.
Qed.

(** The upper half of a product, by its bytes. *)
Lemma upper_bytes bi k n : words bi -> length bi = (k + n)%nat ->
  val (drop k bi) = bval (map (fun i => (le_bytes bi @@ i)%C) (map Z.of_nat (seq (4 * k) (4 * n)))).
Proof.
  intros Hw Hl. rewrite <- drop_map_at by (rewrite length_le_bytes; lia).
  rewrite <- (take_drop k bi) at 2. rewrite le_bytes_app, drop_app_length'.
  - symmetry. by apply le_bytes_spec, words_drop.
  - rewrite length_le_bytes, length_take. lia.
Qed.

Lemma bytes_at bs i : bytes bs -> (Z.to_nat i < length bs)%nat -> is_byte (bs @@ i).
Proof.
  intros H Hi. eapply Forall_lookup_1; [exact H|]. by apply list_lookup_lookup_total_lt.
Qed.

(** ** Sums with a carry *)

(** The number that [res] and [carry] stand for together. *)
Definition total (s : bigint * Z) : Z := val s.1 + wsize (length s.1) * s.2.

Lemma add_tmp_spec n s t : words s.1 -> length s.1 = n -> words t -> length t = n ->
  words (add_tmp s t).1 /\ length (add_tmp s t).1 = n /\ total (add_tmp s t) = total s + val t.
Proof.
  intros H1 H2 H3 H4. destruct (add_spec s.1 t) as (A1 & A2 & A3 & A4); [done|done|congruence|].
  unfold add_tmp, total. destruct (bigint_add s.1 t) as [res c]. cbn [fst snd] in *.
  split; [done|]. split; [congruence|]. rewrite A2. lia.
Qed.

Lemma sub_tmp_spec n s t : words s.1 -> length s.1 = n -> words t -> length t = n ->
  words (sub_tmp s t).1 /\ length (sub_tmp s t).1 = n /\ total (sub_tmp s t) = total s - val t.
Proof.
  intros H1 H2 H3 H4. destruct (sub_spec s.1 t) as (A1 & A2 & A3 & A4); [done|done|congruence|].
  unfold sub_tmp, total. destruct (bigint_sub s.1 t) as [res c]. cbn [fst snd] in *.
  split; [done|]. split; [congruence|]. rewrite A2. lia.
Qed.

(** The test that ends the subtractions. *)
Lemma total_small s m : words s.1 -> words m -> length s.1 = length m -> 0 <= total s ->
  negb (s.2 =? 0) || (val m <=? val s.1) = (val m <=? total s).
Proof.
  intros Hw Wm Hl Ht. unfold total in *. pose proof (val_range _ Hw). pose proof (val_range _ Wm).
  rewrite Hl in *. destruct (Z.eqb_spec s.2 0) as [->|]; simpl; [by rewrite Z.mul_0_r, Z.add_0_r|].
  symmetry. apply Z.leb_le. nia.
Qed.

Lemma sub_while_spec ge fuel s m : words s.1 -> words m -> length s.1 = length m -> 0 < val m ->
  (forall res, words res -> length res = length m -> ge res = (val m <=? val res)) ->
  0 <= total s < Z.of_nat fuel * val m ->
  exists r, sub_while ge fuel s.1 s.2 m = Some r /\ reduced m r /\ val r = total s mod val m.
Proof.
  intros Hw Wm Hl Hm Hge. revert s Hw Hl. induction fuel as [|fuel IH]; intros s Hw Hl Ht; [lia|].
  cbn [sub_while]. rewrite Hge, total_small by (done || lia).
  destruct (Z.leb_spec (val m) (total s)).
  - destruct (sub_tmp_spec (length m) s m) as (S1 & S2 & S3); [done..|].
    rewrite <- surjective_pairing. destruct (IH (sub_tmp s m)) as (r & R1 & R2 & R3); [done..|rewrite S3; lia|].
    destruct (sub_tmp s m) as [res c]. exists r. split; [done|]. split; [done|].
    rewrite R3, S3. rewrite <- (Z_mod_plus_full _ 1). f_equal. lia.
  - exists s.1. split; [done|]. assert (E : val s.1 = total s).
    { unfold total in *. pose proof (val_range _ Hw). pose proof (val_range _ Wm). rewrite Hl in *.
      assert (E0 : s.2 = 0) by nia. rewrite E0. lia. }
    split; [split; [done..|lia]|]. rewrite E, Z.mod_small; lia.
Qed.

Lemma add_until_spec fuel s m : words s.1 -> words m -> length s.1 = length m -> 0 < val m ->
  - (Z.of_nat fuel * val m) <= total s < 0 ->
  exists r, add_until fuel s.1 s.2 m = Some r /\ reduced m r /\ val r = total s mod val m.
Proof.
  intros Hw Wm Hl Hm. revert s Hw Hl. induction fuel as [|fuel IH]; intros s Hw Hl Ht; [lia|].
  cbn [add_until]. rewrite <- surjective_pairing.
  destruct (add_tmp_spec (length m) s m) as (S1 & S2 & S3); [done..|].
  destruct (add_tmp s m) as [res c] eqn:E. cbn [fst snd] in *.
  assert (Em : (total s + val m) mod val m = total s mod val m)
    by (rewrite <- (Z_mod_plus_full (total s) 1 (val m)); f_equal; lia).
  pose proof (val_range _ S1) as Rr. pose proof (val_range _ Wm) as Rm. rewrite S2 in *.
  destruct (Z.ltb_spec c 0).
  - destruct (IH (res, c)) as (r & R1 & R2 & R3); try done.
    { rewrite S3. unfold total in *. cbn [fst snd] in *. rewrite S2 in *. nia. }
    exists r. split; [done|]. split; [done|]. rewrite R3, S3. done.
  - exists res. split; [done|]. assert (Er : val res = total s + val m).
    { unfold total in *. cbn [fst snd] in *. rewrite S2 in *.
      assert (c = 0) by nia. subst c. lia. }
    split; [split; [done..|lia]|]. rewrite <- Em, Er, Z.mod_small; lia.
Qed.

(** ** The tables of 128 bits *)

Definition prime_128 : Z := 2 ^ 128 - 2 ^ 97 - 1.

(** Bits of one byte put below those of another. *)
Lemma lor_piece x b k : 0 < k < 8 -> 0 <= x < 2 ^ k -> is_byte b ->
  u8 (Z.lor x (Z.shiftl b k)) = x + 2 ^ k * b - 256 * (b / 2 ^ (8 - k)).
Proof.
  intros Hk Hx Hb. rewrite Z.lor_comm, Z.shiftl_mul_pow2, lor_add by lia. unfold u8, is_byte in *.
  assert (P : 2 ^ 8 = 2 ^ k * 2 ^ (8 - k)) by (rewrite <- Z.pow_add_r by lia; f_equal; lia).
  assert (0 < 2 ^ k /\ 0 < 2 ^ (8 - k)) by (split; apply Z.pow_pos_nonneg; lia).
  pose proof (Z.div_mod b (2 ^ (8 - k)) ltac:(lia)) as E.
  pose proof (Z.mod_pos_bound b (2 ^ (8 - k)) ltac:(lia)) as R.
  symmetry. apply (Z.mod_unique_pos _ _ (b / 2 ^ (8 - k))); change 256 with (2 ^ 8); [|ring].
  rewrite P. nia.
Qed.

(** A table of facts on one byte. *)
Lemma byte_pieces a : is_byte a ->
  Z.land a 1 = a - 2 * (a / 2 ^ 1) /\ Z.shiftr (Z.land a 0x80) 6 = 2 * (a / 2 ^ 7) /\
  Z.shiftr (Z.land a 0xC0) 5 = 2 * (a / 2 ^ 6) /\ Z.shiftr (Z.land a 0xE0) 4 = 2 * (a / 2 ^ 5) /\
  Z.land a 0xFE = 2 * (a / 2 ^ 1) /\ Z.shiftr (Z.land a 0xF0) 3 = 2 * (a / 2 ^ 4).
Proof.
  unfold is_byte. intros Ha.
  assert (H : (Z.land a 1 =? a - 2 * (a / 2 ^ 1)) && (Z.shiftr (Z.land a 0x80) 6 =? 2 * (a / 2 ^ 7)) &&
    (Z.shiftr (Z.land a 0xC0) 5 =? 2 * (a / 2 ^ 6)) && (Z.shiftr (Z.land a 0xE0) 4 =? 2 * (a / 2 ^ 5)) &&
    (Z.land a 0xFE =? 2 * (a / 2 ^ 1)) && (Z.shiftr (Z.land a 0xF0) 3 =? 2 * (a / 2 ^ 4)) = true).
  { apply (all_below_spec 256 (fun a => (Z.land a 1 =? a - 2 * (a / 2 ^ 1)) &&
      (Z.shiftr (Z.land a 0x80) 6 =? 2 * (a / 2 ^ 7)) &&
      (Z.shiftr (Z.land a 0xC0) 5 =? 2 * (a / 2 ^ 6)) && (Z.shiftr (Z.land a 0xE0) 4 =? 2 * (a / 2 ^ 5)) &&
      (Z.land a 0xFE =? 2 * (a / 2 ^ 1)) && (Z.shiftr (Z.land a 0xF0) 3 =? 2 * (a / 2 ^ 4))));
      [vm_compute; reflexivity|done]. }
  rewrite !andb_true_iff, !Z.eqb_eq in H. tauto.
Qed.

Lemma shiftr_byte a k : is_byte a -> 0 <= k -> is_byte (Z.shiftr a k).
Proof.
  unfold is_byte. intros Ha Hk. rewrite Z.shiftr_div_pow2 by done.
  assert (0 < 2 ^ k) by (apply Z.pow_pos_nonneg; lia).
  split; [apply Z.div_pos; lia|]. apply Z.div_lt_upper_bound; nia.
Qed.

Lemma shr_piece a b j k : is_byte a -> is_byte b -> 0 < k < 8 -> j = 8 - k ->
  u8 (Z.lor (Z.shiftr a j) (Z.shiftl b k)) = a / 2 ^ j + 2 ^ k * b - 256 * (b / 2 ^ j).
Proof.
  intros Ha Hb Hk ->. rewrite Z.shiftr_div_pow2 by lia. apply lor_piece; [done| |done].
  destruct Ha as [Ha Ha2]. assert (Hj : 0 < 2 ^ (8 - k)) by (apply Z.pow_pos_nonneg; lia).
  split; [by apply Z.div_pos|]. apply Z.div_lt_upper_bound; try done.
  rewrite <- Z.pow_add_r by lia. by replace (8 - k + k) with 8 by lia.
Qed.

(** Evaluate the ranges of indices in the goal. *)
Ltac eval_ranges :=
  repeat match goal with
  | |- context [map Z.of_nat ?l] =>
      let r := eval vm_compute in (map Z.of_nat l) in change (map Z.of_nat l) with r
  end.

Section Table128.
Context (p : Z -> Z).
Hypothesis (Hp : forall i, 16 <= i < 32 -> is_byte (p i)).

Lemma table_128_bytes : bytes (fast_128_tmp1 p) /\ bytes (fast_128_tmp2 p) /\ bytes (fast_128_tmp3 p) /\
  bytes (fast_128_tmp4 p) /\ bytes (fast_128_tmp5 p) /\ bytes (fast_128_tmp6 p).
Proof.
  assert (H0 : is_byte 0) by (unfold is_byte; lia).
  assert (H28 : is_byte (Z.land (p 28) 0xFE)).
  { pose proof (Hp 28 ltac:(lia)) as H. pose proof (byte_pieces _ H). unfold is_byte in *. zdiv_lia. }
  assert (H31 : is_byte (Z.shiftr (Z.land (p 31) 0xF0) 3)).
  { pose proof (Hp 31 ltac:(lia)) as H. pose proof (byte_pieces _ H). unfold is_byte in *. zdiv_lia. }
  unfold fast_128_tmp1, fast_128_tmp2, fast_128_tmp3, fast_128_tmp4, fast_128_tmp5, fast_128_tmp6, bytes.
  split_and!; rewrite ?Forall_cons; split_and!;
    first [done | apply Forall_nil; done | apply u8_byte | apply Hp; lia | apply shiftr_byte; [apply Hp; lia | lia]].
Qed.

(** The bytes from [i] on, as a number. *)
Local Abbreviation from i n := (bval (map p (map Z.of_nat (seq i n)))).

(** The upper half [h] of the product: [2 ^ 128 * h] differs from the sum of
    the tables by [prime_128] times the sum of [h] shifted right by 0, 31, 62,
    93 and 124 bits. *)
Lemma table_128_value : exists q,
  bval (fast_128_tmp1 p) + bval (fast_128_tmp2 p) + bval (fast_128_tmp3 p) + bval (fast_128_tmp4 p) +
    bval (fast_128_tmp5 p) + bval (fast_128_tmp6 p) + prime_128 * q = 2 ^ 128 * from 16 16.
Proof.
  exists (from 16 16 + (p 19 / 2 ^ 7 + 2 * from 20 12) + (p 23 / 2 ^ 6 + 4 * from 24 8) +
    (p 27 / 2 ^ 5 + 8 * from 28 4) + p 31 / 2 ^ 4).
  pose proof (Hp 31 ltac:(lia)) as H31.
  pose proof (byte_pieces _ (Hp 28 ltac:(lia))) as (P1 & _ & _ & _ & P2 & _).
  pose proof (byte_pieces _ (Hp 19 ltac:(lia))) as (_ & P3 & _).
  pose proof (byte_pieces _ (Hp 23 ltac:(lia))) as (_ & _ & P4 & _).
  pose proof (byte_pieces _ (Hp 27 ltac:(lia))) as (_ & _ & _ & P5 & _).
  pose proof (byte_pieces _ (Hp 31 ltac:(lia))) as (_ & _ & _ & _ & _ & P6).
  assert (P7 : Z.lor (Z.shiftr (p 31) 7) (2 * (p 19 / 2 ^ 7)) = 2 * (p 19 / 2 ^ 7) + p 31 / 2 ^ 7).
  { rewrite Z.lor_comm, Z.shiftr_div_pow2 by lia. change 2 with (2 ^ 1) at 1.
    rewrite (Z.mul_comm (2 ^ 1)), lor_add; [lia..|]. unfold is_byte in H31. zdiv_lia. }
  unfold fast_128_tmp1, fast_128_tmp2, fast_128_tmp3, fast_128_tmp4, fast_128_tmp5, fast_128_tmp6.
  rewrite P1, P2, P3, P4, P5, P6, P7.
  rewrite !shr_piece by (first [lia | apply Hp; lia]).
  pose proof (Hp 28 ltac:(lia)) as H28. pose proof (Hp 19 ltac:(lia)) as H19.
  pose proof (Hp 23 ltac:(lia)) as H23. pose proof (Hp 27 ltac:(lia)) as H27.
  unfold is_byte in H19, H23, H27, H28, H31.
  rewrite !lor_piece by (first [lia | apply Hp; lia | zdiv_lia]). rewrite !Z.shiftr_div_pow2 by lia.
  change (8 - 1) with 7. change (8 - 2) with 6. change (8 - 3) with 5. change (8 - 4) with 4. unfold prime_128.
  eval_ranges. cbn [bval map]. ring.
Qed.
End Table128.

(** ** The product modulo the prime of 128 bits *)

Lemma add_bytes_spec n s l : words s.1 -> length s.1 = n -> bytes l -> length l = (4 * n)%nat ->
  words (add_tmp s (of_bytes l)).1 /\ length (add_tmp s (of_bytes l)).1 = n /\
  total (add_tmp s (of_bytes l)) = total s + bval l.
Proof.
  intros H1 H2 H3 H4. destruct (of_bytes_spec n l) as (B1 & B2 & B3); [done..|].
  rewrite <- B3. by apply add_tmp_spec.
Qed.

Lemma sub_bytes_spec n s l : words s.1 -> length s.1 = n -> bytes l -> length l = (4 * n)%nat ->
  words (sub_tmp s (of_bytes l)).1 /\ length (sub_tmp s (of_bytes l)).1 = n /\
  total (sub_tmp s (of_bytes l)) = total s - bval l.
Proof.
  intros H1 H2 H3 H4. destruct (of_bytes_spec n l) as (B1 & B2 & B3); [done..|].
  rewrite <- B3. by apply sub_tmp_spec.
Qed.

Lemma bval_range n l : bytes l -> length l = (4 * n)%nat -> 0 <= bval l < wsize n.
Proof.
  intros Hb Hl. destruct (of_bytes_spec n l) as (H1 & H2 & H3); [done..|].
  rewrite <- H3, <- H2. by apply val_range.
Qed.

(** What both reductions start from. *)
Lemma product_halves n l r : words l -> words r -> length l = n -> length r = n -> (0 < n < 100)%nat ->
  let product := bigint_mult l r in
  let p i := le_bytes product @@ i in
  words (take n product) /\ length (take n product) = n /\
  val l * val r = val (take n product) +
    wsize n * bval (map p (map Z.of_nat (seq (4 * n) (4 * n)))) /\
  (forall i, 0 <= i < 8 * Z.of_nat n -> is_byte (p i)).
Proof.
  intros Wl Wr Ll Lr Hn. destruct (mult_spec l r n) as (M1 & M2 & M3); [done..|lia|lia|].
  cbv zeta. split; [by apply words_take|]. split; [rewrite length_take; lia|]. split.
  - rewrite <- M3. rewrite (val_take_drop n) by lia. by rewrite (upper_bytes _ n n) by (done || lia).
  - intros i Hi. apply bytes_at; [by apply le_bytes_spec|]. rewrite length_le_bytes, M2. lia.
Qed.

Lemma mod_minus a b k m : a + m * k = b -> a mod m = b mod m.
Proof. intros <-. by rewrite Z.mul_comm, Z_mod_plus_full. Qed.

Lemma mod_mult_fast_128_spec l r : words l -> words r -> length l = 4%nat -> length r = 4%nat ->
  exists res, bigint_mod_mult_fast_128 l r (cu_p curve_128) = Some res /\
    reduced (cu_p curve_128) res /\ val res = (val l * val r) mod val (cu_p curve_128).
Proof.
  intros Wl Wr Ll Lr. destruct (product_halves 4 l r) as (T1 & T2 & T3 & Hp); [done..|lia|].
  unfold bigint_mod_mult_fast_128. set (p := fun i => le_bytes (bigint_mult l r) @@ i) in *.
  destruct (table_128_bytes p) as (B1 & B2 & B3 & B4 & B5 & B6); [intros; apply Hp; lia|].
  pose proof (table_128_value p ltac:(intros; apply Hp; lia)) as [q V].
  set (s0 := (take 4 (bigint_mult l r), 0)) in *.
  assert (V0 : total s0 = val (take 4 (bigint_mult l r))) by (unfold total; simpl; lia).
  destruct (add_bytes_spec 4 s0 (fast_128_tmp1 p)) as (W1 & L1 & V1); [done..|].
  destruct (add_bytes_spec 4 _ (fast_128_tmp2 p) W1 L1) as (W2 & L2 & V2); [done..|].
  destruct (add_bytes_spec 4 _ (fast_128_tmp3 p) W2 L2) as (W3 & L3 & V3); [done..|].
  destruct (add_bytes_spec 4 _ (fast_128_tmp4 p) W3 L3) as (W4 & L4 & V4); [done..|].
  destruct (add_bytes_spec 4 _ (fast_128_tmp5 p) W4 L4) as (W5 & L5 & V5); [done..|].
  destruct (add_bytes_spec 4 _ (fast_128_tmp6 p) W5 L5) as (W6 & L6 & V6); [done..|].
  set (s := add_tmp _ (of_bytes (fast_128_tmp6 p))) in *.
  pose proof (bval_range 4 _ B1 eq_refl). pose proof (bval_range 4 _ B2 eq_refl).
  pose proof (bval_range 4 _ B3 eq_refl). pose proof (bval_range 4 _ B4 eq_refl).
  pose proof (bval_range 4 _ B5 eq_refl). pose proof (bval_range 4 _ B6 eq_refl).
  pose proof (val_range _ T1) as R0. rewrite T2 in R0.
  change (wsize 4) with (2 ^ 128) in *. change (4 * 4)%nat with 16%nat in *.
  assert (Ep : val (cu_p curve_128) = prime_128) by reflexivity.
  destruct (sub_while_spec (fun res => 0 <=? bigint_cmp res (cu_p curve_128)) reduce_fuel s
    (cu_p curve_128)) as (res & R1 & R2 & R3); [done|by apply words_check|done|done| | |].
  - intros res Hw Hl. rewrite cmp_spec; [|done|by apply words_check|done].
    by destruct (Z.compare_spec (val res) (val (cu_p curve_128))), (Z.leb_spec (val (cu_p curve_128)) (val res));
      try lia.
  - rewrite Ep. unfold reduce_fuel, prime_128. lia.
  - exists res. split; [done|]. split; [done|]. rewrite R3, Ep. apply (mod_minus _ _ q).
    rewrite T3, <- V, V6, V5, V4, V3, V2, V1, V0. ring.
Qed.

(** ** The tables of 256 bits *)

Definition prime_256 : Z := 2 ^ 256 - 2 ^ 224 + 2 ^ 192 + 2 ^ 96 - 1.

Section Table256.
Context (p : Z -> Z).
Hypothesis (Hp : forall i, 32 <= i < 64 -> is_byte (p i)).

Lemma table_256_bytes : bytes (fast_256_tmp1 p) /\ bytes (fast_256_tmp2 p) /\
  bytes (fast_256_tmp3 p) /\ bytes (fast_256_tmp4 p) /\ bytes (fast_256_tmp5 p) /\
  bytes (fast_256_tmp6 p) /\ bytes (fast_256_tmp7 p) /\ bytes (fast_256_tmp8 p).
Proof.
  assert (H0 : is_byte 0) by (unfold is_byte; lia).
  unfold fast_256_tmp1, fast_256_tmp2, fast_256_tmp3, fast_256_tmp4, fast_256_tmp5, fast_256_tmp6,
    fast_256_tmp7, fast_256_tmp8, bytes.
  split_and!; repeat apply Forall_cons_2; first [done | apply Hp; lia | by apply Forall_nil].
Qed.

(** The upper half [h] of the product, [2 ^ 256 * h], is what the tables
    add up to and a multiple of the prime. *)
Lemma table_256_value : exists q,
  2 * bval (fast_256_tmp1 p) + 2 * bval (replicate 12 0 ++ fast_256_tmp2 p) + bval (fast_256_tmp3 p) +
    bval (fast_256_tmp4 p) - bval (fast_256_tmp5 p) - bval (fast_256_tmp6 p) -
    bval (fast_256_tmp7 p) - bval (fast_256_tmp8 p) + prime_256 * q =
  2 ^ 256 * bval (map p (map Z.of_nat (seq 32 32))).
Proof.
  exists (1 * (p 32 + 2 ^ 8 * p 33 + 2 ^ 16 * p 34 + 2 ^ 24 * p 35) +
    4294967297 * (p 36 + 2 ^ 8 * p 37 + 2 ^ 16 * p 38 + 2 ^ 24 * p 39) +
    18446744078004518912 * (p 40 + 2 ^ 8 * p 41 + 2 ^ 16 * p 42 + 2 ^ 24 * p 43) +
    79228162532711081667253501951 * (p 44 + 2 ^ 8 * p 45 + 2 ^ 16 * p 46 + 2 ^ 24 * p 47) +
    340282367000166625977638945021017194495 * (p 48 + 2 ^ 8 * p 49 + 2 ^ 16 * p 50 + 2 ^ 24 * p 51) +
    1461501637671185285124623296161210883009696235519 * (p 52 + 2 ^ 8 * p 53 + 2 ^ 16 * p 54 + 2 ^ 24 * p 55) +
    6277101736848182401166692341332123086285927382448418586623 * (p 56 + 2 ^ 8 * p 57 + 2 ^ 16 * p 58 + 2 ^ 24 * p 59) +
    26959946673427741530053695850515137729844644212646842236464328081408 * (p 60 + 2 ^ 8 * p 61 + 2 ^ 16 * p 62 + 2 ^ 24 * p 63)).
  unfold fast_256_tmp1, fast_256_tmp2, fast_256_tmp3, fast_256_tmp4, fast_256_tmp5, fast_256_tmp6,
    fast_256_tmp7, fast_256_tmp8, prime_256.
  eval_ranges. cbn [bval map replicate app]. ring.
Qed.
End Table256.

(** ** The product modulo the prime of 256 bits *)

Lemma lshift_bytes_spec l : bytes l -> length l = 32%nat ->
  let '(tmp, c) := bigint_lshift (of_bytes l) 0 in
  words tmp /\ length tmp = 8%nat /\ val tmp + 2 ^ 256 * c = 2 * bval l.
Proof.
  intros Hb Hl. destruct (of_bytes_spec 8 l) as (H1 & H2 & H3); [done..|].
  pose proof (lshift_spec (of_bytes l) 0 H1 ltac:(lia)) as H.
  destruct (bigint_lshift (of_bytes l) 0) as [tmp c]. destruct H as (H4 & H5 & _ & H6).
  rewrite H2, H3 in *. change (wsize 8) with (2 ^ 256) in H6. split; [done|]. split; [done|]. lia.
Qed.

(** The low words of the first table stay zero under the shift. *)
Lemma lshift_low_zero l : let '(tmp, _) := bigint_lshift (0 :: 0 :: 0 :: l) 0 in
  take 12 (le_bytes tmp) = replicate 12 0.
Proof.
  cbn [bigint_lshift]. change (Z.shiftr 0 31) with 0. destruct (bigint_lshift l 0) as [tmp c].
  reflexivity.
Qed.

(** The final reduction, upwards or downwards. *)
Lemma reduce_256 s : words s.1 -> length s.1 = 8%nat -> - (5 * 2 ^ 256) < total s < 7 * 2 ^ 256 ->
  exists res, (if s.2 <? 0 then add_until reduce_fuel s.1 s.2 (cu_p curve_256)
    else sub_while (fun res => negb (bigint_cmp (cu_p curve_256) res =? 1)) reduce_fuel s.1 s.2
      (cu_p curve_256)) = Some res /\
    reduced (cu_p curve_256) res /\ val res = total s mod val (cu_p curve_256).
Proof.
  intros Hw Hl Hs. assert (Ep : val (cu_p curve_256) = prime_256) by reflexivity.
  pose proof (val_range _ Hw) as R. rewrite Hl in R.
  assert (E : total s = val s.1 + wsize 8 * s.2) by (unfold total; by rewrite Hl).
  change (wsize 8) with (2 ^ 256) in *. destruct (Z.ltb_spec s.2 0).
  - apply add_until_spec; [done|by apply words_check|done|done|].
    rewrite Ep. unfold reduce_fuel, prime_256. lia.
  - apply sub_while_spec; [done|by apply words_check|done|done| |].
    + intros res Hr Lr. rewrite cmp_spec; [|by apply words_check|done|done].
      by destruct (Z.compare_spec (val (cu_p curve_256)) (val res)),
        (Z.leb_spec (val (cu_p curve_256)) (val res)); try lia.
    + rewrite Ep. unfold reduce_fuel, prime_256. lia.
Qed.

Lemma mod_mult_fast_256_spec l r : words l -> words r -> length l = 8%nat -> length r = 8%nat ->
  exists res, bigint_mod_mult_fast_256 l r (cu_p curve_256) = Some res /\
    reduced (cu_p curve_256) res /\ val res = (val l * val r) mod val (cu_p curve_256).
Proof.
  intros Wl Wr Ll Lr. destruct (product_halves 8 l r) as (T1 & T2 & T3 & Hp); [done..|lia|].
  unfold bigint_mod_mult_fast_256. set (p := fun i => le_bytes (bigint_mult l r) @@ i) in *.
  destruct (table_256_bytes p) as (B1 & B2 & B3 & B4 & B5 & B6 & B7 & B8); [intros; apply Hp; lia|].
  destruct (table_256_value p) as [q V].
  assert (B2' : bytes (replicate 12 0 ++ fast_256_tmp2 p)).
  { apply bytes_app. split; [by apply bytes_check|done]. }
  pose proof (lshift_bytes_spec _ B1 eq_refl) as H1. pose proof (lshift_bytes_spec _ B2' eq_refl) as H2.
  pose proof (lshift_low_zero (of_bytes (drop 12 (fast_256_tmp1 p)))) as Z1.
  change (0 :: 0 :: 0 :: of_bytes _) with (of_bytes (fast_256_tmp1 p)) in Z1.
  destruct (bigint_lshift (of_bytes (fast_256_tmp1 p)) 0) as [tmp1 c1]. rewrite Z1.
  destruct (bigint_lshift (of_bytes (replicate 12 0 ++ fast_256_tmp2 p)) 0) as [tmp2 c2].
  destruct H1 as (X1 & Y1 & Z1'), H2 as (X2 & Y2 & Z2).
  set (s0 := (take 8 (bigint_mult l r), c1)) in *.
  assert (V0 : total s0 = val (take 8 (bigint_mult l r)) + 2 ^ 256 * c1)
    by (unfold total, s0; cbn [fst snd]; by rewrite T2).
  destruct (add_tmp_spec 8 s0 tmp1) as (W1 & L1 & V1); [done..|].
  set (s1 := add_tmp s0 tmp1) in *.
  assert (V1' : total (s1.1, s1.2 + c2) = total s1 + 2 ^ 256 * c2).
  { unfold total. cbn [fst snd]. rewrite L1. change (wsize 8) with (2 ^ 256). ring. }
  destruct (add_tmp_spec 8 (s1.1, s1.2 + c2) tmp2) as (W2 & L2 & V2); [done..|].
  destruct (add_bytes_spec 8 _ (fast_256_tmp3 p) W2 L2) as (W3 & L3 & V3); [done..|].
  destruct (add_bytes_spec 8 _ (fast_256_tmp4 p) W3 L3) as (W4 & L4 & V4); [done..|].
  destruct (sub_bytes_spec 8 _ (fast_256_tmp5 p) W4 L4) as (W5 & L5 & V5); [done..|].
  destruct (sub_bytes_spec 8 _ (fast_256_tmp6 p) W5 L5) as (W6 & L6 & V6); [done..|].
  destruct (sub_bytes_spec 8 _ (fast_256_tmp7 p) W6 L6) as (W7 & L7 & V7); [done..|].
  destruct (sub_bytes_spec 8 _ (fast_256_tmp8 p) W7 L7) as (W8 & L8 & V8); [done..|].
  set (s := sub_tmp _ (of_bytes (fast_256_tmp8 p))) in *.
  assert (Vs : total s + prime_256 * q = val l * val r).
  { change (wsize 8) with (2 ^ 256) in T3. change (4 * 8)%nat with 32%nat in T3. rewrite T3, <- V. lia. }
  assert (Rs : - (5 * 2 ^ 256) < total s < 7 * 2 ^ 256).
  { pose proof (bval_range 8 _ B1 eq_refl). pose proof (bval_range 8 _ B2' eq_refl).
    pose proof (bval_range 8 _ B3 eq_refl). pose proof (bval_range 8 _ B4 eq_refl).
    pose proof (bval_range 8 _ B5 eq_refl). pose proof (bval_range 8 _ B6 eq_refl).
    pose proof (bval_range 8 _ B7 eq_refl). pose proof (bval_range 8 _ B8 eq_refl).
    pose proof (val_range _ T1) as R0. rewrite T2 in R0. change (wsize 8) with (2 ^ 256) in *. lia. }
  destruct (reduce_256 s) as (res & R1 & R2 & R3); [done..|]. exists res. split; [done|].
  split; [done|]. rewrite R3, <- Vs. by apply (mod_minus _ _ q).
Qed.

(** C13 (equivalence). The fast reductions agree with the product modulo the
    prime of the curve, for all words, reduced or not, and end within
    [reduce_fuel] corrections. *)
Theorem mod_mult_fast_correct curve l r : curve = curve_128 \/ curve = curve_256 ->
  words l -> words r -> length l = length (cu_p curve) -> length r = length (cu_p curve) ->
  exists res, bigint_mod_mult_fast l r (cu_p curve) = Some res /\ reduced (cu_p curve) res /\
    val res = (val l * val r) mod val (cu_p curve) /\ res = bigint_mod_mult l r (cu_p curve).
Proof.
  intros Hc Wl Wr Ll Lr.
  assert (H : exists res, bigint_mod_mult_fast l r (cu_p curve) = Some res /\ reduced (cu_p curve) res /\
    val res = (val l * val r) mod val (cu_p curve)).
  { destruct Hc as [-> | ->]; [apply mod_mult_fast_128_spec | apply mod_mult_fast_256_spec]; done. }
  destruct H as (res & H1 & H2 & H3). exists res. split; [done|]. split; [done|]. split; [done|].
  assert (Hm : words (cu_p curve) /\ (0 < length (cu_p curve) < 100)%nat /\
    wsize (length (cu_p curve) - 1) <= val (cu_p curve)).
  { destruct Hc as [-> | ->]; (split; [by apply words_check|]); (split; [simpl; lia|]); vm_compute; done. }
  destruct Hm as (Wm & Hn & Hm). destruct (mod_mult_spec l r (cu_p curve)) as [H4 H5]; try done; [lia..|].
  apply val_inj; [apply H2|apply H4| |congruence]. by rewrite (red_len _ _ H2), (red_len _ _ H4).
Qed.

Lemma mod_mult_fast_correct_witness : exists res,
  bigint_mod_mult_fast (replicate 8 0xffffffff) (cu_n curve_256) (cu_p curve_256) = Some res /\
  reduced (cu_p curve_256) res /\
  val res = (val (replicate 8 0xffffffff) * val (cu_n curve_256)) mod val (cu_p curve_256) /\
  res = bigint_mod_mult (replicate 8 0xffffffff) (cu_n curve_256) (cu_p curve_256).
Proof.
  apply mod_mult_fast_correct; [by right|by apply words_check|by apply words_check|done|done].
Defined.
