(* ===== verification/DeviceKey.v ===== *)
(** The signature check of USB adapters (src/kernel/devkey.inc, the functions
    on points and [verify_device_key]; [generic_raw_uart_verify_dkey] of
    src/kernel/generic_raw_uart.c).

    Points are kept in coordinates with a common factor [z]: [(x, y)] is stored
    as [(x * z^2, y * z^3)].  The reference is the textbook computation with
    chords and tangents on pairs of residues. *)
From S2P Require Import Prelude Bigint BigintMod BigintFast.

(** ** Operations on points *)

Section Operations.
Variable mod_ : bigint.

(** Both points have the same [z]; the sum goes to the second one, and the
    first one follows it to the [z] of the sum. *)
Definition xycz_add (p1 p2 : ecc_point) : option (ecc_point * ecc_point) :=
  let '(Point x1 y1) := p1 in
  let '(Point x2 y2) := p2 in
  let tmp := bigint_mod_sub x2 x1 mod_ in
  tmp ← bigint_mod_mult_fast tmp tmp mod_;
  x1 ← bigint_mod_mult_fast x1 tmp mod_;
  x2 ← bigint_mod_mult_fast x2 tmp mod_;
  let y2 := bigint_mod_sub y2 y1 mod_ in
  tmp ← bigint_mod_mult_fast y2 y2 mod_;
  let tmp := bigint_mod_sub tmp x1 mod_ in
  let tmp := bigint_mod_sub tmp x2 mod_ in
  let x2 := bigint_mod_sub x2 x1 mod_ in
  y1 ← bigint_mod_mult_fast y1 x2 mod_;
  let x2 := bigint_mod_sub x1 tmp mod_ in
  y2 ← bigint_mod_mult_fast y2 x2 mod_;
  let y2 := bigint_mod_sub y2 y1 mod_ in
  Some (Point x1 y1, Point tmp y2).

Definition apply_z (p : ecc_point) (z : bigint) : option ecc_point :=
  let '(Point x y) := p in
  tmp ← bigint_mod_mult_fast z z mod_;
  x ← bigint_mod_mult_fast x tmp mod_;
  tmp ← bigint_mod_mult_fast tmp z mod_;
  y ← bigint_mod_mult_fast y tmp mod_;
  Some (Point x y).

(** [3/2 * (x1^2 - z1^4)] from three times it. *)
Definition halve_slope (x : bigint) : bigint :=
  if negb (bigint_test_bit x 0 =? 0) then
    let '(x, carry) := bigint_add x mod_ in
    or_word (bigint_rshift x) (length x - 1) (u32 (Z.shiftl carry 31))
  else bigint_rshift x.

Definition point_double_jacobian (p : ecc_point) (z : bigint) : option (ecc_point * bigint) :=
  if bigint_is_zero z then Some (p, z) else
  let '(Point x y) := p in
  t4 ← bigint_mod_mult_fast y y mod_;
  t5 ← bigint_mod_mult_fast x t4 mod_;
  t4 ← bigint_mod_mult_fast t4 t4 mod_;
  y ← bigint_mod_mult_fast y z mod_;
  z ← bigint_mod_mult_fast z z mod_;
  let x := bigint_mod_add x z mod_ in
  let z := bigint_mod_add z z mod_ in
  let z := bigint_mod_sub x z mod_ in
  x ← bigint_mod_mult_fast x z mod_;
  let z := bigint_mod_add x x mod_ in
  let x := bigint_mod_add x z mod_ in
  let x := halve_slope x in
  z ← bigint_mod_mult_fast x x mod_;
  let z := bigint_mod_sub z t5 mod_ in
  let z := bigint_mod_sub z t5 mod_ in
  let t5 := bigint_mod_sub t5 z mod_ in
  x ← bigint_mod_mult_fast x t5 mod_;
  let t4 := bigint_mod_sub x t4 mod_ in
  Some (Point z t4, y).

(** ** The sum of two multiples *)

(** [points[!!bit(u1, i) | !!bit(u2, i) << 1]] *)
Definition shamir_index (u1 u2 : bigint) (i : Z) : nat :=
  (if bigint_test_bit u1 i =? 0 then 0 else 1) + (if bigint_test_bit u2 i =? 0 then 0 else 2).

Definition shamir_points (g q sum : ecc_point) (k : nat) : option ecc_point :=
  match k with 0%nat => None | 1%nat => Some g | 2%nat => Some q | _ => Some sum end.

(** The loop over the bits below [n], highest first. *)
Fixpoint shamir_loop (n : nat) (points : nat -> option ecc_point) (u1 u2 : bigint)
    (res : ecc_point) (z : bigint) : option (ecc_point * bigint) :=
  match n with
  | O => Some (res, z)
  | S n =>
      '(res, z) ← point_double_jacobian res z;
      match points (shamir_index u1 u2 (Z.of_nat n)) with
      | Some point =>
          t ← apply_z point z;
          let tz := bigint_mod_sub (px res) (px t) mod_ in
          '(t, res) ← xycz_add t res;
          z ← bigint_mod_mult_fast z tz mod_;
          shamir_loop n points u1 u2 res z
      | None => shamir_loop n points u1 u2 res z
      end
  end.
End Operations.

(** The inverse needs at most as many rounds as both numbers have bits. *)
Definition inv_fuel (mod_ : bigint) : nat := (64 * length mod_)%nat.

(** [point_mult_shamir] up to the last inverse: the sum with its [z].  The
    case of no bits at all, where the code reads bit -1, is excluded by the
    caller; the model has no result for it. *)
Definition shamir_sum (u1 u2 : bigint) (q : ecc_point) (curve : ecc_curve) :
    option (ecc_point * bigint) :=
  let mod_ := cu_p curve in
  let z := bigint_mod_sub (px q) (px (cu_g curve)) mod_ in
  '(_, sum) ← xycz_add mod_ (cu_g curve) q;
  z ← bigint_mod_inv (inv_fuel mod_) z mod_;
  sum ← apply_z mod_ sum z;
  let points := shamir_points (cu_g curve) q sum in
  let numBits := Z.max (bigint_num_bits u1) (bigint_num_bits u2) - 1 in
  res ← points (shamir_index u1 u2 numBits);
  shamir_loop mod_ (Z.to_nat numBits) points u1 u2 res (<[0%nat := 1]> (bigint_clear (length mod_))).

Definition point_mult_shamir (u1 u2 : bigint) (q : ecc_point) (curve : ecc_curve) :
    option ecc_point :=
  '(res, z) ← shamir_sum u1 u2 q curve;
  z ← bigint_mod_inv (inv_fuel (cu_p curve)) z (cu_p curve);
  apply_z (cu_p curve) res z.

(** ** The check of a signature *)

(** [switch (size)] *)
Definition curve_of (size : nat) : option ecc_curve :=
  match size with 4%nat => Some curve_128 | 8%nat => Some curve_256 | _ => None end.

(** [None] when the computation does not end. *)
Definition verify_device_key (pkey : bigint) (hkey skey : list Z) (nbytes : Z) : option bool :=
  let size := Z.to_nat (nbytes / 4) in
  let r := take size (of_bytes skey) in
  let s := take size (drop size (of_bytes skey)) in
  match curve_of size with
  | None => Some false
  | Some curve =>
      let n := cu_n curve in
      if bigint_is_zero r || (0 <=? bigint_cmp r n) || bigint_is_zero s || (0 <=? bigint_cmp s n)
      then Some false
      else
        let key := Point (take size pkey) (take size (drop size pkey)) in
        let u1 := bigint_mod_mult (take size (of_bytes hkey)) s n in
        let u2 := bigint_mod_mult r s n in
        p ← point_mult_shamir u1 u2 key curve;
        let x := if 0 <? bigint_cmp (px p) n then (bigint_sub (px p) n).1 else px p in
        Some (bigint_cmp x r =? 0)
  end.

Section Digest.
(** The digests of the kernel's crypto interface, where it has them. *)
Variables md5 sha256 : option (list Z -> list Z).

Definition generic_raw_uart_verify_dkey (alloc_ok : bool) (dkey skey : list Z) (pkey : bigint)
    (nbytes : Z) : option bool :=
  match (if nbytes =? 16 then md5 else if nbytes =? 32 then sha256 else None) with
  | None => Some false
  | Some digest => if alloc_ok then verify_device_key pkey (digest dkey) skey nbytes else Some false
  end.
End Digest.

(** ** Residues *)

(** Equality of integers modulo [n]. *)
Definition cong (n a b : Z) : Prop := (n | a - b).

#[export] Instance cong_equiv n : Equivalence (cong n).
Proof.
  unfold cong. split.
  - intros a. rewrite Z.sub_diag. apply Z.divide_0_r.
  - intros a b [k Hk]. exists (- k). lia.
  - intros a b c [k Hk] [j Hj]. exists (k + j). lia.
Qed.

#[export] Instance cong_add n : Proper (cong n ==> cong n ==> cong n) Z.add.
Proof. intros a a' [k Hk] b b' [j Hj]. exists (k + j). lia. Qed.
#[export] Instance cong_sub n : Proper (cong n ==> cong n ==> cong n) Z.sub.
Proof. intros a a' [k Hk] b b' [j Hj]. exists (k - j). lia. Qed.
#[export] Instance cong_mul n : Proper (cong n ==> cong n ==> cong n) Z.mul.
Proof.
  intros a a' [k Hk] b b' [j Hj]. exists (k * b + a' * j).
  transitivity ((a - a') * b + a' * (b - b')); [ring|]. rewrite Hk, Hj. ring.
Qed.

Lemma cong_mod n a : cong n (a mod n) a.
Proof. exists (- (a / n)). pose proof (Z_div_mod_eq_full a n). lia. Qed.

Lemma cong_eq n a b : a = b -> cong n a b.
Proof. intros ->. reflexivity. Qed.

Lemma cong_small n a b : cong n a b -> 0 <= a < n -> 0 <= b < n -> a = b.
Proof. intros [k Hk] Ha Hb. assert (k = 0) by nia. lia. Qed.

(** Numbers with an inverse. *)
Definition invertible (n a : Z) : Prop := Z.gcd a n = 1.

Lemma invertible_inverse n a : invertible n a -> exists b, cong n (a * b) 1.
Proof.
  intros H. destruct (Z.gcd_bezout a n 1 H) as (u & v & E). exists u, (- v). lia.
Qed.

Lemma inverse_invertible n a b : cong n (a * b) 1 -> invertible n a.
Proof.
  intros [k Hk]. apply Z.bezout_1_gcd. exists b, (- k). lia.
Qed.

#[export] Instance invertible_cong n : Proper (cong n ==> iff) (invertible n).
Proof.
  intros a a' H. split; intros [b Hb]%invertible_inverse; apply inverse_invertible with b.
  - by rewrite <- H.
  - by rewrite H.
Qed.

Lemma invertible_mul n a b : invertible n (a * b) -> invertible n a /\ invertible n b.
Proof.
  intros [c Hc]%invertible_inverse. split.
  - apply inverse_invertible with (b * c). by rewrite Z.mul_assoc.
  - apply inverse_invertible with (a * c). rewrite <- Hc. apply cong_eq. ring.
Qed.

Lemma invertible_cancel n a x y : invertible n a -> cong n (a * x) (a * y) -> cong n x y.
Proof.
  intros [b Hb]%invertible_inverse H.
  rewrite <- (Z.mul_1_l x), <- (Z.mul_1_l y), <- Hb.
  transitivity (b * (a * x)); [apply cong_eq; ring|]. rewrite H. apply cong_eq. ring.
Qed.

(** ** The field operations of a curve *)

Section Curve.
Context (curve : ecc_curve) (Hcurve : curve = curve_128 \/ curve = curve_256).
Local Abbreviation m := (cu_p curve).
Local Notation "a ≡ b" := (cong (val m) a b) (at level 70).

(** [a] is the normal form of a number congruent to [z]. *)
Definition rep (a : bigint) (z : Z) : Prop := reduced m a /\ val a ≡ z.

Lemma curve_facts : words m /\ (0 < length m)%nat /\ Z.even (val m) = false /\ 1 < val m /\
  (length m = 4 \/ length m = 8)%nat.
Proof. destruct Hcurve as [-> | ->]; (split; [by apply words_check|]); (split; [simpl; lia|]);
  (split; [done|]); (split; [done|]); [by left|by right]. Qed.

Lemma rep_cong a x y : rep a x -> x ≡ y -> rep a y.
Proof. intros [H1 H2] H. split; [done|]. by rewrite H2. Qed.

Lemma rep_val a : reduced m a -> rep a (val a).
Proof. intros H. split; [done|reflexivity]. Qed.

Lemma rep_words a x : rep a x -> words a /\ length a = length m.
Proof. by intros [[] _]. Qed.

Lemma rep_add a b x y : rep a x -> rep b y -> rep (bigint_mod_add a b m) (x + y).
Proof.
  intros [Ra Ha] [Rb Hb]. destruct (mod_add_spec a b m) as [H1 H2]; [apply curve_facts|done..|].
  split; [done|]. by rewrite H2, cong_mod, Ha, Hb.
Qed.

Lemma rep_sub a b x y : rep a x -> rep b y -> rep (bigint_mod_sub a b m) (x - y).
Proof.
  intros [Ra Ha] [Rb Hb]. destruct (mod_sub_spec a b m) as [H1 H2]; [apply curve_facts|done..|].
  split; [done|]. by rewrite H2, cong_mod, Ha, Hb.
Qed.

Lemma rep_mult a b x y : rep a x -> rep b y ->
  exists c, bigint_mod_mult_fast a b m = Some c /\ rep c (x * y).
Proof.
  intros [Ra Ha] [Rb Hb]. pose proof (red_words _ _ Ra) as Wa. pose proof (red_words _ _ Rb) as Wb.
  pose proof (red_len _ _ Ra) as La. pose proof (red_len _ _ Rb) as Lb. unfold bigint_mod_mult_fast.
  assert (H : exists c, (match length m with 4%nat => bigint_mod_mult_fast_128 a b m
    | 8%nat => bigint_mod_mult_fast_256 a b m | _ => None end) = Some c /\ reduced m c /\
    val c = (val a * val b) mod val m).
  { destruct Hcurve as [-> | ->]; [apply mod_mult_fast_128_spec|apply mod_mult_fast_256_spec]; done. }
  destruct H as (c & H1 & H2 & H3). exists c. split; [done|]. split; [done|]. by rewrite H3, cong_mod, Ha, Hb.
Qed.

Lemma rep_inv a x : rep a x -> invertible (val m) x ->
  exists b, bigint_mod_inv (inv_fuel m) a m = Some b /\ exists y, rep b y /\ x * y ≡ 1.
Proof.
  intros [Ra Ha] Hx. destruct curve_facts as (Wm & Lm & Hodd & H1 & _).
  pose proof (reduced_range _ _ Ra) as R. destruct Ra as [Wa La _].
  assert (Hi : invertible (val m) (val a)) by by rewrite Ha.
  assert (Hp : 0 < val a).
  { destruct (decide (val a = 0)) as [E|]; [|lia]. exfalso. unfold invertible in Hi.
    rewrite E, Z.gcd_0_l in Hi. lia. }
  destruct (mod_inv_spec a m (inv_fuel m)) as (b & B1 & B2 & B3); try done.
  exists b. split; [done|]. exists (val b). split; [by apply rep_val|]. rewrite <- Ha.
  transitivity (val b * val a); [apply cong_eq; ring|]. by rewrite <- (cong_mod (val m) (val b * val a)), B3.
Qed.

(** One step of a computation on representatives: name the result of the next
    product and what it represents. *)
Ltac rep_auto := first [eassumption | eapply rep_sub; rep_auto | eapply rep_add; rep_auto].
Ltac rep_step :=
  match goal with
  | |- context [bigint_mod_mult_fast ?a ?b ?mm] =>
      let c := fresh "c" in let E := fresh "E" in let H := fresh "R" in
      edestruct (rep_mult a b) as (c & E & H); [rep_auto..|rewrite E; clear E; cbn [mbind option_bind]]
  end.

(** ** Points *)

(** The point [(x, y)] stored with [z]. *)
Definition jrep (p : ecc_point) (x y z : Z) : Prop :=
  rep (px p) (x * z ^ 2) /\ rep (py p) (y * z ^ 3).

(** The line through two points, with slope [l], meets the curve again below
    or above [(x3, y3)]. *)
Definition on_line (l x1 y1 x2 x3 y3 : Z) : Prop := x3 ≡ l ^ 2 - x1 - x2 /\ y3 ≡ l * (x1 - x3) - y1.

Definition chord (p q r : Z * Z) : Prop := exists l,
  l * (q.1 - p.1) ≡ q.2 - p.2 /\ on_line l p.1 p.2 q.1 r.1 r.2.

Definition tangent (p r : Z * Z) : Prop := exists l,
  l * (2 * p.2) ≡ 3 * p.1 ^ 2 - 3 /\ on_line l p.1 p.2 p.1 r.1 r.2.

(** The sum as a polynomial; [D] is the difference of the second coordinates. *)
Lemma xycz_add_rep p1 p2 X1 Y1 X2 Y2 D : rep (px p1) X1 -> rep (py p1) Y1 -> rep (px p2) X2 ->
  rep (py p2) Y2 -> D ≡ Y2 - Y1 ->
  let S := D ^ 2 - X1 * (X2 - X1) ^ 2 - X2 * (X2 - X1) ^ 2 in
  exists p1' p2', xycz_add m p1 p2 = Some (p1', p2') /\
    rep (px p1') (X1 * (X2 - X1) ^ 2) /\ rep (py p1') (Y1 * (X2 - X1) ^ 3) /\
    rep (px p2') S /\ rep (py p2') (D * (X1 * (X2 - X1) ^ 2 - S) - Y1 * (X2 - X1) ^ 3).
Proof.
  destruct p1 as [x1 y1], p2 as [x2 y2]. cbn [px py]. intros H1 H2 H3 H4 HD.
  assert (Hy : rep (bigint_mod_sub y2 y1 m) D) by (eapply rep_cong; [by apply rep_sub|done]).
  unfold xycz_add. cbv zeta. do 6 rep_step. eexists _, _. split; [reflexivity|].
  split_and!; cbn [px py]; (eapply rep_cong; [rep_auto | apply cong_eq; ring]).
Qed.

Lemma xycz_add_spec p1 p2 x1 y1 x2 y2 z l : jrep p1 x1 y1 z -> jrep p2 x2 y2 z ->
  l * (x2 - x1) ≡ y2 - y1 ->
  let z' := z ^ 3 * (x2 - x1) in
  let x3 := l ^ 2 - x1 - x2 in
  exists p1' p2', xycz_add m p1 p2 = Some (p1', p2') /\ jrep p1' x1 y1 z' /\
    jrep p2' x3 (l * (x1 - x3) - y1) z'.
Proof.
  intros [H1 H2] [H3 H4] Hl.
  destruct (xycz_add_rep p1 p2 _ _ _ _ (l * (x2 - x1) * z ^ 3) H1 H2 H3 H4)
    as (p1' & p2' & E & R1 & R2 & R3 & R4); [rewrite Hl; apply cong_eq; ring|].
  exists p1', p2'. split; [done|].
  split; split; (eapply rep_cong; [eassumption | apply cong_eq; ring]).
Qed.

Lemma apply_z_spec p z zi x y w : jrep p x y w -> rep z zi ->
  exists p', apply_z m p z = Some p' /\ jrep p' x y (w * zi).
Proof.
  destruct p as [X Y]. intros [H1 H2] Hz. cbn [px py] in *. unfold apply_z.
  do 4 rep_step. eexists. split; [reflexivity|].
  split; cbn [px py]; (eapply rep_cong; [rep_auto | apply cong_eq; ring]).
Qed.

Lemma jrep_cong p x y z x' y' z' : jrep p x y z -> x ≡ x' -> y ≡ y' -> z ≡ z' -> jrep p x' y' z'.
Proof.
  intros [H1 H2] Hx Hy Hz. split; (eapply rep_cong; [eassumption|]).
  - rewrite !Z.pow_2_r. by rewrite Hx, Hz.
  - replace (z ^ 3) with (z * z * z) by ring. replace (z' ^ 3) with (z' * z' * z') by ring.
    by rewrite Hy, Hz.
Qed.

Lemma halve_slope_halve x : reduced m x -> halve_slope m x = halve_mod x m.
Proof.
  intros [Wx Lx _]. destruct curve_facts as (Wm & Lm & _). unfold halve_slope, halve_mod.
  change (bigint_test_bit x 0) with (Z.land (x @@ 0) 1).
  change (bigint_is_even x) with (Z.land (x @@ 0) 1 =? 0).
  destruct (Z.land (x @@ 0) 1 =? 0); cbn [negb]; [done|].
  destruct (add_spec x m) as (H1 & H2 & H3 & _); [done..|].
  destruct (bigint_add x m) as [s carry]. cbn [fst snd] in *.
  destruct (rshift_spec s H1) as (_ & R2 & _). rewrite R2.
  assert (Hc : carry = 0 \/ carry = 1) by lia. destruct Hc as [-> | ->]; cbn [Z.eqb negb].
  - unfold or_word. change (u32 (Z.shiftl 0 31)) with 0. rewrite Z.lor_0_r.
    apply list_insert_id'. intros. apply list_lookup_lookup_total_lt. lia.
  - done.
Qed.

Lemma rep_halve x v : rep x v -> exists h, rep (halve_slope m x) h /\ 2 * h ≡ v.
Proof.
  intros [Rx Hx]. rewrite halve_slope_halve by done. destruct curve_facts as (Wm & Lm & Hodd & _).
  destruct (halve_mod_spec x m) as [R E]; [done..|]. exists (val (halve_mod x m)).
  split; [by apply rep_val|]. rewrite <- Hx. destruct E as [-> | ->]; [done|]. exists 1. lia.
Qed.

Lemma invertible_two : invertible (val m) 2.
Proof.
  destruct curve_facts as (_ & _ & Hodd & _). destruct (odd_half _ Hodd) as [q Hq].
  apply inverse_invertible with (- q). exists (-1). lia.
Qed.

(** The double as a polynomial; [B] is three halves of [X^2 - Z^4]. *)
Lemma double_rep p z X Y Z : rep (px p) X -> rep (py p) Y -> rep z Z -> bigint_is_zero z = false ->
  exists p' z' B, point_double_jacobian m p z = Some (p', z') /\
    2 * B ≡ 3 * (X ^ 2 - Z ^ 4) /\ rep z' (Y * Z) /\
    rep (px p') (B ^ 2 - 2 * (X * Y ^ 2)) /\
    rep (py p') (B * (X * Y ^ 2 - (B ^ 2 - 2 * (X * Y ^ 2))) - Y ^ 4).
Proof.
  destruct p as [x y]. cbn [px py]. intros H1 H2 H3 Hz. unfold point_double_jacobian. rewrite Hz.
  cbv zeta. do 6 rep_step.
  match goal with |- context [halve_slope m ?x] =>
    edestruct (rep_halve x) as (B & HB & H2B); [rep_auto|] end.
  do 2 rep_step. eexists _, _, B. split; [reflexivity|]. split.
  { rewrite H2B. apply cong_eq. ring. }
  split_and!; cbn [px py]; (eapply rep_cong; [rep_auto | apply cong_eq; ring]).
Qed.

Lemma is_zero_rep z Z : rep z Z -> invertible (val m) Z -> bigint_is_zero z = false.
Proof.
  intros [Rz Hz] Hi. rewrite is_zero_spec by apply Rz. apply Z.eqb_neq. intros E.
  rewrite <- Hz, E in Hi. unfold invertible in Hi. rewrite Z.gcd_0_l in Hi.
  destruct curve_facts as (_ & _ & _ & H & _). lia.
Qed.

Lemma double_spec p z x y Z l : jrep p x y Z -> rep z Z -> invertible (val m) Z ->
  l * (2 * y) ≡ 3 * x ^ 2 - 3 ->
  exists p' z', point_double_jacobian m p z = Some (p', z') /\ rep z' (y * Z ^ 4) /\
    jrep p' (l ^ 2 - x - x) (l * (x - (l ^ 2 - x - x)) - y) (y * Z ^ 4).
Proof.
  intros [H1 H2] Hz Hi Hl.
  destruct (double_rep p z _ _ _ H1 H2 Hz (is_zero_rep _ _ Hz Hi)) as (p' & z' & B & E & HB & R1 & R2 & R3).
  assert (EB : B ≡ l * y * Z ^ 4).
  { apply (invertible_cancel _ 2); [apply invertible_two|]. rewrite HB.
    transitivity ((3 * x ^ 2 - 3) * Z ^ 4); [apply cong_eq; ring|]. rewrite <- Hl. apply cong_eq. ring. }
  exists p', z'. split; [done|]. split; [eapply rep_cong; [done|apply cong_eq; ring]|].
  split; (eapply rep_cong; [eassumption|]); rewrite ?Z.pow_2_r, EB; apply cong_eq; ring.
Qed.

(** ** The reference: double and add by chords and tangents *)

(** The digit of the two scalars at bit [i]. *)
Definition digit (v1 v2 : Z) (i : nat) : nat :=
  (if Z.testbit v1 (Z.of_nat i) then 1 else 0) + (if Z.testbit v2 (Z.of_nat i) then 2 else 0).

(** [double_and_add table ks P]: the digits [ks], lowest first, give [P]. *)
Inductive double_and_add (table : nat -> option (Z * Z)) : list nat -> Z * Z -> Prop :=
| da_top k P : table k = Some P -> double_and_add table [k] P
| da_zero k ks P P2 : double_and_add table ks P -> tangent P P2 -> table k = None ->
    double_and_add table (k :: ks) P2
| da_add k ks P P2 T P3 : double_and_add table ks P -> tangent P P2 -> table k = Some T ->
    chord T P2 P3 -> double_and_add table (k :: ks) P3.

Definition table_of (g q s : Z * Z) (k : nat) : option (Z * Z) :=
  match k with 0%nat => None | 1%nat => Some g | 2%nat => Some q | _ => Some s end.

(** All digits of [v1] and [v2], lowest first. *)
Definition digits (v1 v2 : Z) : list nat :=
  map (digit v1 v2) (seq 0 (S (Z.to_nat (Z.log2 (Z.max v1 v2))))).

Lemma is_chord t p r l : l * (p.1 - t.1) ≡ p.2 - t.2 -> r = (l ^ 2 - t.1 - p.1, l * (t.1 - (l ^ 2 - t.1 - p.1)) - t.2) ->
  chord t p r.
Proof. intros Hl ->. exists l. split; [done|]. split; reflexivity. Qed.

Lemma slope_exists d e : invertible (val m) d -> exists l, l * d ≡ e.
Proof.
  intros [b Hb]%invertible_inverse. exists (e * b).
  transitivity (e * (d * b)); [apply cong_eq; ring|]. rewrite Hb. apply cong_eq. ring.
Qed.

(** A point of the table with its stored coordinates. *)
Definition table_rep (points : nat -> option ecc_point) (table : nat -> option (Z * Z)) : Prop :=
  forall k, match points k, table k with
  | None, None => True
  | Some p, Some t => jrep p t.1 t.2 1
  | _, _ => False
  end.

Lemma jrep_rep p x y z : jrep p x y z -> rep (px p) (x * z ^ 2) /\ rep (py p) (y * z ^ 3).
Proof. done. Qed.

(** One round keeps all numbers reduced and multiplies [z] by something. *)
Lemma double_total p z X Y Z : rep (px p) X -> rep (py p) Y -> rep z Z ->
  exists p' z' w X' Y', point_double_jacobian m p z = Some (p', z') /\
    rep (px p') X' /\ rep (py p') Y' /\ rep z' (Z * w).
Proof.
  intros H1 H2 H3. destruct (bigint_is_zero z) eqn:Ez.
  - exists p, z, 1, X, Y. unfold point_double_jacobian. rewrite Ez.
    split; [done|]. split; [done|]. split; [done|]. by rewrite Z.mul_1_r.
  - destruct (double_rep p z X Y Z H1 H2 H3 Ez) as (p' & z' & B & E & _ & R1 & R2 & R3).
    eexists p', z', Y, _, _. split; [done|]. split; [done|]. split; [done|]. by rewrite Z.mul_comm.
Qed.

(** A doubling whose [z] has an inverse is the tangent construction. *)
Lemma double_point p z P Z p2 z2 w : jrep p P.1 P.2 Z -> rep z Z ->
  point_double_jacobian m p z = Some (p2, z2) -> rep z2 (Z * w) -> invertible (val m) (Z * w) ->
  exists P2, tangent P P2 /\ jrep p2 P2.1 P2.2 (Z * w).
Proof.
  intros J HZ E2 [_ R2z] Hi. destruct (invertible_mul _ _ _ Hi) as [Hz _].
  destruct (jrep_rep _ _ _ _ J) as [J1 J2].
  destruct (double_rep p z _ _ _ J1 J2 HZ (is_zero_rep _ _ HZ Hz)) as (p' & z' & B & E & _ & [_ Rz] & _).
  rewrite E2 in E. injection E as <- <-.
  assert (Ez : Z * w ≡ P.2 * Z ^ 4) by (rewrite <- R2z, Rz; apply cong_eq; ring).
  assert (Hy : invertible (val m) (2 * P.2)).
  { rewrite Ez in Hi. apply invertible_mul in Hi as [Hi _].
    destruct (invertible_inverse _ _ Hi) as [a Ha], (invertible_inverse _ _ invertible_two) as [h Hh].
    apply inverse_invertible with (h * a). transitivity ((2 * h) * (P.2 * a)); [apply cong_eq; ring|].
    rewrite Hh, Ha. reflexivity. }
  destruct (slope_exists (2 * P.2) (3 * P.1 ^ 2 - 3) Hy) as [l Hl].
  destruct (double_spec p z P.1 P.2 Z l) as (p' & z' & E & _ & J3); [done..|].
  rewrite E2 in E. injection E as <- <-.
  exists (l ^ 2 - P.1 - P.1, l * (P.1 - (l ^ 2 - P.1 - P.1)) - P.2). cbn [fst snd].
  split; [exists l; split; [exact Hl|split; reflexivity]|].
  eapply jrep_cong; [exact J3|reflexivity..|]. by symmetry.
Qed.

(** An addition whose [z] has an inverse is the chord construction. *)
Lemma add_point t p T P Z X t' p' : jrep t T.1 T.2 Z -> jrep p P.1 P.2 Z ->
  xycz_add m t p = Some (t', p') -> rep (px p) X -> invertible (val m) (X - T.1 * Z ^ 2) ->
  exists R, chord T P R /\ jrep p' R.1 R.2 (Z * (X - T.1 * Z ^ 2)).
Proof.
  intros Jt Jp E [_ RX] Hd. destruct (jrep_rep _ _ _ _ Jp) as [[_ Jx] _].
  assert (EX : X ≡ P.1 * Z ^ 2) by by rewrite <- RX.
  assert (Hdx : invertible (val m) (P.1 - T.1)).
  { rewrite EX in Hd. replace (P.1 * Z ^ 2 - T.1 * Z ^ 2) with ((P.1 - T.1) * Z ^ 2) in Hd by ring.
    by apply invertible_mul in Hd as []. }
  destruct (slope_exists (P.1 - T.1) (P.2 - T.2) Hdx) as [l Hl].
  destruct (xycz_add_spec t p T.1 T.2 P.1 P.2 Z l Jt Jp Hl) as (t2 & p2 & E2 & _ & J2).
  rewrite E in E2. injection E2 as <- <-.
  exists (l ^ 2 - T.1 - P.1, l * (T.1 - (l ^ 2 - T.1 - P.1)) - T.2). cbn [fst snd].
  split; [by apply (is_chord _ _ _ l)|].
  eapply jrep_cong; [exact J2|reflexivity..|]. rewrite EX. apply cong_eq. ring.
Qed.

Section Loop.
Context (points : nat -> option ecc_point) (table : nat -> option (Z * Z)).
Context (Htable : table_rep points table) (u1 u2 : bigint) (v1 v2 : Z) (N : nat).
Hypothesis (Hdigit : forall i, (i < N)%nat -> shamir_index u1 u2 (Z.of_nat i) = digit v1 v2 i).

(** What a round turns a sum into, when its [z] has an inverse in the end. *)
Lemma shamir_loop_spec n res z X Y Z ks : (n <= N)%nat -> rep (px res) X -> rep (py res) Y -> rep z Z ->
  exists res' z' w, shamir_loop m n points u1 u2 res z = Some (res', z') /\ rep z' (Z * w) /\
    (invertible (val m) (Z * w) -> forall P, double_and_add table ks P -> jrep res P.1 P.2 Z ->
      exists P', double_and_add table (map (digit v1 v2) (seq 0 n) ++ ks) P' /\
        jrep res' P'.1 P'.2 (Z * w)).
Proof.
  revert res z X Y Z ks. induction n as [|n IH]; intros res z X Y Z ks Hn HX HY HZ.
  { exists res, z, 1. cbn [shamir_loop]. rewrite Z.mul_1_r. split; [done|]. split; [done|].
    intros _ P HP HJ. by exists P. }
  cbn [shamir_loop]. rewrite Hdigit by lia.
  destruct (double_total res z X Y Z HX HY HZ) as (p2 & z2 & w2 & X2 & Y2 & E2 & R2x & R2y & R2z).
  rewrite E2. cbn [mbind option_bind]. rewrite seq_S, map_app, <- app_assoc. cbn [map app Nat.add].
  pose proof (Htable (digit v1 v2 n)) as Ht.
  destruct (points (digit v1 v2 n)) as [pt|], (table (digit v1 v2 n)) as [T|] eqn:ET; try done.
  - destruct (apply_z_spec pt z2 _ _ _ _ Ht R2z) as (t & Et & Jt). rewrite Et. cbn [mbind option_bind].
    rewrite Z.mul_1_l in Jt. destruct (jrep_rep _ _ _ _ Jt) as [Jt1 Jt2].
    destruct (xycz_add_rep t p2 _ _ _ _ _ Jt1 Jt2 R2x R2y ltac:(reflexivity))
      as (t' & p3 & E3 & _ & _ & R3x & R3y). rewrite E3. cbn [mbind option_bind]. rep_step.
    set (d := X2 - T.1 * (Z * w2) ^ 2) in *.
    destruct (IH p3 c _ _ _ (digit v1 v2 n :: ks) ltac:(lia) R3x R3y R) as (res' & z' & w & E4 & R4 & Hres).
    exists res', z', (w2 * d * w). replace (Z * (w2 * d * w)) with (Z * w2 * d * w) by ring.
    split; [exact E4|]. split; [exact R4|]. intros Hi P HP HJ.
    destruct (invertible_mul _ _ _ Hi) as [Hi2 _]. destruct (invertible_mul _ _ _ Hi2) as [Hz2 Hd].
    destruct (double_point res z P Z p2 z2 w2) as (P2 & HT & J2); [done..|].
    destruct (add_point t p2 T P2 _ X2 t' p3 Jt J2 E3 R2x Hd) as (P3 & HC & J3).
    apply (Hres Hi P3); [|exact J3]. by apply (da_add _ _ _ P P2 T).
  - destruct (IH p2 z2 _ _ _ (digit v1 v2 n :: ks) ltac:(lia) R2x R2y R2z) as (res' & z' & w & E4 & R4 & Hres).
    exists res', z', (w2 * w). rewrite Z.mul_assoc. split; [done|]. split; [done|].
    intros Hi P HP HJ. destruct (invertible_mul _ _ _ Hi) as [Hz2 _].
    destruct (double_point res z P Z p2 z2 w2) as (P2 & HT & J2); [done..|].
    apply (Hres Hi P2); [|done]. by apply (da_zero _ _ _ P).
Qed.
End Loop.

Lemma shamir_index_digit u1 u2 i : words u1 -> words u2 -> length u1 = length m ->
  length u2 = length m -> (i < 32 * length m)%nat ->
  shamir_index u1 u2 (Z.of_nat i) = digit (val u1) (val u2) i.
Proof.
  intros W1 W2 L1 L2 Hi. unfold shamir_index, digit. rewrite !test_bit_spec by (done || lia).
  by do 2 destruct (Z.testbit _ _).
Qed.

Lemma log2_max a b : 0 < a -> 0 <= b -> Z.log2 (Z.max a b) = Z.max (Z.log2 a) (Z.log2 b).
Proof.
  intros Ha Hb. destruct (Z.le_ge_cases a b) as [H|H].
  - rewrite !Z.max_r; [done| |done]. by apply Z.log2_le_mono.
  - rewrite !Z.max_l; [done| |done]. by apply Z.log2_le_mono.
Qed.

Lemma num_bits_max u1 u2 : words u1 -> words u2 -> 0 < val u1 \/ 0 < val u2 ->
  Z.max (bigint_num_bits u1) (bigint_num_bits u2) - 1 = Z.log2 (Z.max (val u1) (val u2)).
Proof.
  intros W1 W2 H. pose proof (val_range _ W1) as R1. pose proof (val_range _ W2) as R2.
  destruct (decide (val u1 = 0)) as [E1|E1], (decide (val u2 = 0)) as [E2|E2]; try lia.
  - rewrite (num_bits_zero u1), (num_bits_log2 u2), E1 by (done || lia).
    rewrite !Z.max_r by (pose proof (Z.log2_nonneg (val u2)); lia). lia.
  - rewrite (num_bits_zero u2), (num_bits_log2 u1), E2 by (done || lia).
    rewrite !Z.max_l by (pose proof (Z.log2_nonneg (val u1)); lia). lia.
  - rewrite !num_bits_log2, log2_max by (done || lia). lia.
Qed.

Lemma digit_top v1 v2 : 0 <= v1 -> 0 <= v2 -> 0 < v1 \/ 0 < v2 ->
  digit v1 v2 (Z.to_nat (Z.log2 (Z.max v1 v2))) <> 0%nat.
Proof.
  intros H1 H2 H. unfold digit. rewrite Z2Nat.id by apply Z.log2_nonneg.
  destruct (Z.le_ge_cases v1 v2) as [Hle|Hle].
  - rewrite Z.max_r, (Z.bit_log2 v2) by lia. lia.
  - rewrite Z.max_l, (Z.bit_log2 v1) by lia. destruct (Z.testbit v2 _); lia.
Qed.

Lemma one_spec : rep (<[0%nat := 1]> (bigint_clear (length m))) 1.
Proof.
  destruct curve_facts as (_ & Ln & _ & H1 & _).
  assert (V : val (<[0%nat := 1]> (bigint_clear (length m))) = 1).
  { unfold bigint_clear. rewrite val_insert by (rewrite length_replicate; lia).
    fold (bigint_clear (length m)). rewrite val_clear, clear_at, wsize_0 by lia. done. }
  split; [|by rewrite V]. split; [|rewrite length_insert; apply length_replicate|by rewrite V].
  apply words_insert; [unfold is_word; lia|auto with words].
Qed.

(** The points [g], [q] and their sum as pairs of residues. *)
Definition affine (p : ecc_point) : Z * Z := (val (px p), val (py p)).

Definition reduced_point (p : ecc_point) : Prop := reduced m (px p) /\ reduced m (py p).

Lemma affine_jrep p : reduced_point p -> jrep p (affine p).1 (affine p).2 1.
Proof.
  intros [H1 H2]. split; cbn [affine fst snd];
    (eapply rep_cong; [by apply rep_val|apply cong_eq; ring]).
Qed.

Lemma base_reduced : reduced_point (cu_g curve).
Proof.
  unfold reduced_point. destruct Hcurve as [-> | ->]; split; (split; [by apply words_check|reflexivity|reflexivity]).
Qed.

(** What [point_mult_shamir] computes: a double-and-add over the digits of
    both scalars with the points [g], [q] and a point on the line through
    both.  The addition and doubling rules have no case for equal or opposite
    points; the condition on the last [z] says that none occurred. *)
Lemma shamir_sum_spec u1 u2 q : words u1 -> words u2 -> length u1 = length m ->
  length u2 = length m -> 0 < val u1 \/ 0 < val u2 -> reduced_point q ->
  invertible (val m) ((affine q).1 - (affine (cu_g curve)).1) ->
  exists s res z Z, shamir_sum u1 u2 q curve = Some (res, z) /\ rep z Z /\
    chord (affine (cu_g curve)) (affine q) s /\
    (invertible (val m) Z -> exists P,
      double_and_add (table_of (affine (cu_g curve)) (affine q) s) (digits (val u1) (val u2)) P /\
      jrep res P.1 P.2 Z).
Proof.
  intros W1 W2 L1 L2 Hu Hq Hi. pose proof (affine_jrep _ base_reduced) as Jg.
  pose proof (affine_jrep _ Hq) as Jq. set (G := affine (cu_g curve)) in *. set (Q := affine q) in *.
  destruct (slope_exists _ (Q.2 - G.2) Hi) as [l Hl].
  destruct (xycz_add_spec _ _ _ _ _ _ _ _ Jg Jq Hl) as (g' & sum & E1 & _ & Js).
  assert (Hz : rep (bigint_mod_sub (px q) (px (cu_g curve)) m) (Q.1 - G.1)).
  { apply rep_sub; apply rep_val; [apply Hq|apply base_reduced]. }
  destruct (rep_inv _ _ Hz Hi) as (zi & E2 & y & Ry & Hy).
  destruct (apply_z_spec _ _ _ _ _ _ Js Ry) as (sum' & E3 & Js').
  set (S := (l ^ 2 - G.1 - Q.1, l * (G.1 - (l ^ 2 - G.1 - Q.1)) - G.2)) in *.
  assert (Jsum : jrep sum' S.1 S.2 1).
  { eapply jrep_cong; [exact Js'|reflexivity..|].
    transitivity ((Q.1 - G.1) * y); [apply cong_eq; ring|exact Hy]. }
  assert (HT : table_rep (shamir_points (cu_g curve) q sum') (table_of G Q S)).
  { intros [|[|[|k]]]; done. }
  pose proof (val_range _ W1) as R1. pose proof (val_range _ W2) as R2.
  set (top := Z.to_nat (Z.log2 (Z.max (val u1) (val u2)))).
  assert (Htop : (top < 32 * length m)%nat).
  { subst top. pose proof (Z.log2_nonneg (Z.max (val u1) (val u2))).
    enough (Z.log2 (Z.max (val u1) (val u2)) < 32 * Z.of_nat (length m)) by lia.
    apply Z.log2_lt_pow2; [lia|]. rewrite L1 in R1. rewrite L2 in R2. unfold wsize in *. lia. }
  destruct (shamir_points (cu_g curve) q sum' (digit (val u1) (val u2) top)) as [res|] eqn:Eres.
  2: { pose proof (digit_top (val u1) (val u2) ltac:(lia) ltac:(lia) Hu) as Hd. fold top in Hd.
    by destruct (digit (val u1) (val u2) top) as [|[|[|?]]]. }
  pose proof (HT (digit (val u1) (val u2) top)) as HP. rewrite Eres in HP.
  destruct (table_of G Q S (digit (val u1) (val u2) top)) as [P|] eqn:EP; [|done].
  destruct (jrep_rep _ _ _ _ HP) as [HPx HPy].
  destruct (shamir_loop_spec (shamir_points (cu_g curve) q sum') (table_of G Q S) HT u1 u2 (val u1) (val u2)
    (32 * length m)%nat) with (n := top) (res := res) (ks := [digit (val u1) (val u2) top])
    (1 := fun i Hi => shamir_index_digit u1 u2 i W1 W2 L1 L2 Hi)
    (z := <[0%nat := 1]> (bigint_clear (length m))) (X := P.1 * 1 ^ 2) (Y := P.2 * 1 ^ 3) (Z := 1)
    as (res' & z' & w & E4 & R4 & Hres); [lia|done|done|apply one_spec|].
  exists S, res', z', (1 * w). split; [|split; [done|split]].
  - unfold shamir_sum. rewrite E1. cbn [mbind option_bind]. rewrite E2. cbn [mbind option_bind].
    rewrite E3. cbn [mbind option_bind]. rewrite num_bits_max by done.
    rewrite <- (Z2Nat.id (Z.log2 _)) by apply Z.log2_nonneg. fold top.
    rewrite shamir_index_digit, Eres by done. cbn [mbind option_bind]. by rewrite Nat2Z.id.
  - exists l. split; [done|]. split; reflexivity.
  - intros Hz'. destruct (Hres Hz' P) as (P' & HD & HJ); [by apply da_top|done|].
    exists P'. split; [|done]. unfold digits. fold top. by rewrite seq_S, map_app.
Qed.

Lemma point_mult_shamir_spec u1 u2 q : words u1 -> words u2 -> length u1 = length m ->
  length u2 = length m -> 0 < val u1 \/ 0 < val u2 -> reduced_point q ->
  invertible (val m) ((affine q).1 - (affine (cu_g curve)).1) ->
  (forall res z, shamir_sum u1 u2 q curve = Some (res, z) -> invertible (val m) (val z)) ->
  exists s P R, point_mult_shamir u1 u2 q curve = Some R /\ reduced m (px R) /\ val (px R) ≡ P.1 /\
    chord (affine (cu_g curve)) (affine q) s /\
    double_and_add (table_of (affine (cu_g curve)) (affine q) s) (digits (val u1) (val u2)) P.
Proof.
  intros W1 W2 L1 L2 Hu Hq Hi Hz.
  destruct (shamir_sum_spec u1 u2 q W1 W2 L1 L2 Hu Hq Hi) as (s & res & z & Z & E & Rz & Hs & HP).
  assert (HZ : invertible (val m) Z) by (destruct Rz as [_ <-]; by apply (Hz res)).
  destruct (HP HZ) as (P & HD & HJ). destruct (rep_inv _ _ Rz HZ) as (zi & E2 & y & Ry & Hy).
  destruct (apply_z_spec _ _ _ _ _ _ HJ Ry) as (R & E3 & HJ').
  apply (jrep_cong _ _ _ _ P.1 P.2 1) in HJ' as [[RR HR] _]; [|reflexivity..|done].
  exists s, P, R. split; [|split; [done|split; [|split; [done|exact HD]]]].
  - unfold point_mult_shamir. rewrite E. cbn [mbind option_bind]. rewrite E2. cbn [mbind option_bind]. done.
  - rewrite HR. apply cong_eq. ring.
Qed.
End Curve.

(** ** The signature *)

Lemma take_of_bytes k l : take k (of_bytes l) = of_bytes (take (4 * k) l).
Proof.
  revert l. induction k as [|k IH]; intros l; [done|].
  replace (4 * S k)%nat with (S (S (S (S (4 * k))))) by lia.
  destruct l as [|a [|b [|c [|d l]]]]; try done. cbn [of_bytes take]. by rewrite IH.
Qed.

Lemma drop_of_bytes k l : drop k (of_bytes l) = of_bytes (drop (4 * k) l).
Proof.
  revert l. induction k as [|k IH]; intros l; [done|].
  replace (4 * S k)%nat with (S (S (S (S (4 * k))))) by lia.
  destruct l as [|a [|b [|c [|d l]]]]; try done. cbn [of_bytes drop]. by rewrite IH.
Qed.

(** A number of [k] words read from the first bytes of a buffer. *)
Lemma word_number k l : bytes l -> (4 * k <= length l)%nat ->
  words (take k (of_bytes l)) /\ length (take k (of_bytes l)) = k /\
  val (take k (of_bytes l)) = bval (take (4 * k) l).
Proof.
  intros Hb Hl. rewrite take_of_bytes. apply of_bytes_spec; [by apply bytes_take|].
  rewrite length_take. lia.
Qed.

Lemma curve_of_facts k curve : curve_of k = Some curve ->
  (curve = curve_128 \/ curve = curve_256) /\ length (cu_p curve) = k /\ words (cu_n curve) /\
  length (cu_n curve) = k /\ (0 < k < 100)%nat /\ wsize (k - 1) <= val (cu_n curve) /\
  val (cu_p curve) < 2 * val (cu_n curve).
Proof.
  unfold curve_of. intros H.
  destruct k as [|[|[|[|[|[|[|[|[|k]]]]]]]]]; try done; injection H as <-;
    (split; [by auto|]); (split; [done|]); (split; [by apply words_check|]); (split; [done|]);
    (split; [lia|]); split; vm_compute; done.
Qed.

(** The scalars. *)
Lemma scalar_spec k curve a b : curve_of k = Some curve -> words a -> words b -> length a = k ->
  length b = k ->
  words (bigint_mod_mult a b (cu_n curve)) /\ length (bigint_mod_mult a b (cu_n curve)) = k /\
  val (bigint_mod_mult a b (cu_n curve)) = (val a * val b) mod val (cu_n curve).
Proof.
  intros Hc Wa Wb La Lb. destruct (curve_of_facts k curve Hc) as (_ & _ & Wn & Ln & Hk & Hn & _).
  destruct (mod_mult_spec a b (cu_n curve)) as ([U1 U2 _] & U3); rewrite ?Ln; try done; lia || auto.
  split; [done|]. split; [congruence|done].
Qed.

(** The range checks at the beginning. *)
Lemma range_check r n : words r -> words n -> length r = length n ->
  bigint_is_zero r || (0 <=? bigint_cmp r n) = negb ((0 <? val r) && (val r <? val n)).
Proof.
  intros Wr Wn Hl. rewrite is_zero_spec, cmp_spec by done. pose proof (val_range _ Wr).
  destruct (Z.eqb_spec (val r) 0), (Z.ltb_spec 0 (val r)); try lia; try done.
  by destruct (Z.compare_spec (val r) (val n)), (Z.ltb_spec (val r) (val n)); try lia.
Qed.

(** The last reduction and comparison. *)
Lemma final_check x r n p : words x -> words r -> words n -> length x = length n ->
  length r = length n -> val x < p -> p < 2 * val n -> 0 < val r < val n ->
  (bigint_cmp (if 0 <? bigint_cmp x n then (bigint_sub x n).1 else x) r =? 0) = (val x mod val n =? val r).
Proof.
  intros Wx Wr Wn Lx Lr Hx Hp Hr. pose proof (val_range _ Wx). pose proof (val_range _ Wn) as Rn.
  rewrite (cmp_spec x n) by done.
  destruct (Z.compare_spec (val x) (val n)) as [E|E|E]; cbn [cmp_int Z.ltb Z.compare].
  - rewrite cmp_spec, E, Z.mod_same by (done || congruence || lia).
    destruct (Z.compare_spec (val n) (val r)), (Z.eqb_spec 0 (val r)); try lia; done.
  - rewrite cmp_spec, Z.mod_small by (done || congruence || lia).
    by destruct (Z.compare_spec (val x) (val r)), (Z.eqb_spec (val x) (val r)); try lia.
  - destruct (sub_spec x n) as (S1 & S2 & _); [done..|].
    destruct (sub_result x n 0) as [S3 _]; [done|done|done|lia|rewrite Lx in *; lia|].
    rewrite Z.mul_0_r, Z.add_0_r in S3. rewrite cmp_spec, S3 by (done || congruence).
    replace (val x mod val n) with (val x - val n) by (apply (Z.mod_unique_pos _ _ 1); lia).
    by destruct (Z.compare_spec (val x - val n) (val r)), (Z.eqb_spec (val x - val n) (val r)); try lia.
Qed.

(** A signature is refused without any computation on points when
    its size is not that of one of the curves, or when [r] or [s] is zero or
    not below the order of the curve. *)
Theorem signature_out_of_range pkey hkey skey nbytes : bytes skey ->
  curve_of (Z.to_nat (nbytes / 4)) = None \/
  (exists k curve, nbytes / 4 = Z.of_nat k /\ curve_of k = Some curve /\
    (8 * k <= length skey)%nat /\
    let n := val (cu_n curve) in
    let r := bval (take (4 * k) skey) in
    let s := bval (take (4 * k) (drop (4 * k) skey)) in
    ~ (0 < r < n /\ 0 < s < n)) ->
  verify_device_key pkey hkey skey nbytes = Some false.
Proof.
  intros Hb [Hk | (k & curve & Hk & Hc & Hl & Hr)]; unfold verify_device_key; [by rewrite Hk|].
  rewrite Hk, Nat2Z.id, Hc.
  destruct (curve_of_facts k curve Hc) as (_ & _ & Wn & Ln & _).
  destruct (word_number k skey Hb) as (Wr & Lr & Vr); [lia|].
  destruct (word_number k (drop (4 * k) skey)) as (Ws & Ls & Vs);
    [by apply bytes_drop|rewrite length_drop; lia|].
  cbv zeta in Hr. rewrite <- Vr, <- Vs in Hr. rewrite <- drop_of_bytes in *.
  rewrite <- !orb_assoc, (orb_assoc (bigint_is_zero (take k (of_bytes skey)))).
  rewrite !range_check by congruence.
  destruct (Z.ltb_spec 0 (val (take k (of_bytes skey)))),
    (Z.ltb_spec (val (take k (of_bytes skey))) (val (cu_n curve))),
    (Z.ltb_spec 0 (val (take k (drop k (of_bytes skey))))),
    (Z.ltb_spec (val (take k (drop k (of_bytes skey)))) (val (cu_n curve))); try done; exfalso; lia.
Qed.


(** The double of the base point as public key, and a signature whose scalars
    are 2 and 3. *)
Definition sample_pkey : bigint :=
  [0xe753a97e; 0x199db84b; 0xb92171db; 0x8151a0c6; 0x275b7e95; 0x838395a9; 0x9455caae; 0x3d85355].
Definition sample_hkey : list Z := 2 :: replicate 15 0.
Definition sample_skey : list Z := 3 :: replicate 15 0 ++ 1 :: replicate 15 0.

Lemma signature_out_of_range_witness :
  verify_device_key sample_pkey sample_hkey (replicate 32 255) 16 = Some false /\
  verify_device_key sample_pkey sample_hkey sample_skey 20 = Some false.
Proof.
  split; apply signature_out_of_range; try (by apply bytes_check); [right|by left].
  exists 4%nat, curve_128. split; [done|]. split; [done|]. split; [simpl; lia|]. vm_compute.
  intros [[_ H] _]. discriminate H.
Defined.

