(* ===== verification/Effects.v ===== *)
(** A state monad for drivers that thread a hardware state through many calls,
    the early return on an error code that their code uses throughout, and
    weakest preconditions to reason about both. *)
From S2P Require Import Prelude Kernel.

Definition M (S A : Type) : Type := S -> A * S.

#[export] Instance state_ret S : MRet (M S) := fun A a s => (a, s).
#[export] Instance state_bind S : MBind (M S) := fun A B k m s => let '(a, s') := m s in k a s'.

Definition get {S} : M S S := fun s => (s, s).
Definition modify {S} (f : S -> S) : M S unit := fun s => (tt, f s).

(** [if (b) m;] *)
Definition when {S} (b : bool) (m : M S unit) : M S unit := if b then m else mret tt.

(** [err = m; if (err) return fail(err);] and go on with [k]. *)
Definition orelse {S A} (m : M S Z) (fail : Z -> A) (k : M S A) : M S A :=
  err ← m; if err =? 0 then k else mret (fail err).

(** The weakest precondition: what holds of the result and the final state. *)
Definition wp {S A} (m : M S A) (Q : A -> S -> Prop) (s : S) : Prop :=
  Q (m s).1 (m s).2.

Section Laws.
Context {S : Type}.

Lemma wp_ret {A} (a : A) Q (s : S) : Q a s -> wp (mret a) Q s.
Proof. done. Qed.

Lemma wp_bind {A B} (m : M S A) (k : A -> M S B) Q s :
  wp m (fun a => wp (k a) Q) s -> wp (m ≫= k) Q s.
Proof. unfold wp, mbind, state_bind. by destruct (m s). Qed.

Lemma wp_get Q (s : S) : Q s s -> wp get Q s.
Proof. done. Qed.

Lemma wp_modify f Q (s : S) : Q tt (f s) -> wp (modify f) Q s.
Proof. done. Qed.

Lemma wp_if {A} (b : bool) (m1 m2 : M S A) Q s :
  (b = true -> wp m1 Q s) -> (b = false -> wp m2 Q s) -> wp (if b then m1 else m2) Q s.
Proof. by destruct b; intros H1 H2; [apply H1 | apply H2]. Qed.

Lemma wp_when (b : bool) (m : M S unit) Q s :
  (b = true -> wp m Q s) -> (b = false -> Q tt s) -> wp (when b m) Q s.
Proof. by destruct b; intros H1 H2; [apply H1 | apply H2]. Qed.

Lemma wp_orelse {A} (m : M S Z) (f : Z -> A) (k : M S A) Q s :
  wp m (fun e s' => if e =? 0 then wp k Q s' else Q (f e) s') s -> wp (orelse m f k) Q s.
Proof. intros H. apply wp_bind. revert H. unfold wp. by destruct (_ =? 0). Qed.

Lemma wp_mono {A} (m : M S A) (Q Q' : A -> S -> Prop) s :
  wp m Q s -> (forall a s', Q a s' -> Q' a s') -> wp m Q' s.
Proof. unfold wp. auto. Qed.

Lemma wp_run {A} (m : M S A) (Q : A -> S -> Prop) s a s' : m s = (a, s') -> wp m Q s -> Q a s'.
Proof. unfold wp. by intros ->. Qed.

Lemma wp_intro {A} (m : M S A) (Q : A -> S -> Prop) s a s' : m s = (a, s') -> Q a s' -> wp m Q s.
Proof. unfold wp. by intros ->. Qed.
End Laws.

(** One step of symbolic execution. *)
Ltac wp_step :=
  lazymatch goal with
  | |- wp (mret _) _ _ => apply wp_ret
  | |- wp (mbind _ _) _ _ => apply wp_bind
  | |- wp get _ _ => apply wp_get
  | |- wp (modify _) _ _ => apply wp_modify
  | |- wp (orelse _ _ _) _ _ => apply wp_orelse
  | |- wp (when _ _) _ _ => apply wp_when; intros
  end.
Ltac wp_steps := repeat (wp_step; simpl).

(** ** Properties of the state that a command preserves *)

Section Preserves.
Context {S : Type} (P : S -> Prop).

Definition preserves {A} (m : M S A) : Prop := forall s, P s -> P (m s).2.

Lemma pres_ret {A} (a : A) : preserves (mret a).
Proof. by intros s. Qed.
Lemma pres_bind {A B} (m : M S A) (k : A -> M S B) :
  preserves m -> (forall a, preserves (k a)) -> preserves (m ≫= k).
Proof.
  intros Hm Hk s Hs. unfold mbind, state_bind. specialize (Hm s Hs). destruct (m s) as [a s'].
  by apply Hk.
Qed.
Lemma pres_get : preserves get.
Proof. by intros s. Qed.
Lemma pres_modify f : (forall s, P s -> P (f s)) -> preserves (modify f).
Proof. intros Hf s. apply Hf. Qed.
Lemma pres_when b (m : M S unit) : preserves m -> preserves (when b m).
Proof. intros. by destruct b; [|apply pres_ret]. Qed.
Lemma pres_orelse {A} m (f : Z -> A) k : preserves m -> preserves k -> preserves (orelse m f k).
Proof. intros. apply pres_bind; [done|]. intros e. destruct (e =? 0); [done | apply pres_ret]. Qed.
End Preserves.

(** One structural step; [leaf] deals with the commands of a driver. *)
Ltac pres_step leaf :=
  lazymatch goal with
  | |- preserves _ (mret _) => apply pres_ret
  | |- preserves _ (mbind _ _) => apply pres_bind; [|intros ?]
  | |- preserves _ get => apply pres_get
  | |- preserves _ (modify _) => first [by apply pres_modify | leaf]
  | |- preserves _ (orelse _ _ _) => apply pres_orelse
  | |- preserves _ (when _ _) => apply pres_when
  | |- preserves _ (if ?b then _ else _) => destruct b eqn:?
  | |- preserves _ (let '(_, _) := ?x in _) => destruct x
  | |- _ => leaf
  end.
Ltac pres leaf := repeat (pres_step leaf; cbv beta iota zeta).
