(* ===== verification/Rtc.v ===== *)
(** The driver of the RX8130 real time clock (src/kernel/rtc-rx8130.c).

    [Smbus] is the I2C bus the chip sits on and [Bcd] and [RtcLib] are the
    kernel's helper functions; they are classes because their code is not part
    of the repository.  [rx8130] is [struct rx8130_data] together with the
    parts of the clock device, of the client and of the interrupt line the
    handlers touch.  The handlers are commands of the monad of [Effects]; the
    logging calls and the mutex, which the workqueue item alone takes, are
    left out.  [rx8130_probe] and [rx8130_remove] work on [client], where the
    driver data can be freed while the clock device is registered. *)
From S2P Require Import Prelude Kernel Effects.

(** ** Register map *)

Definition RX8130_REG_SEC : Z := 0x10.
Definition RX8130_REG_MIN : Z := 0x11.
Definition RX8130_REG_HOUR : Z := 0x12.
Definition RX8130_REG_WDAY : Z := 0x13.
Definition RX8130_REG_MDAY : Z := 0x14.
Definition RX8130_REG_MONTH : Z := 0x15.
Definition RX8130_REG_YEAR : Z := 0x16.
Definition RX8130_REG_ALMIN : Z := 0x17.
Definition RX8130_REG_ALHOUR : Z := 0x18.
Definition RX8130_REG_ALWDAY : Z := 0x19.
Definition RX8130_REG_EXT : Z := 0x1C.
Definition RX8130_REG_FLAG : Z := 0x1D.
Definition RX8130_REG_CTRL0 : Z := 0x1E.
Definition RX8130_REG_CTRL1 : Z := 0x1F.
Definition RX8130_REG_END : Z := 0x23.

Definition RX8130_BIT_EXT_WADA : Z := 2 ^ 3.
Definition RX8130_BIT_EXT_TE : Z := 2 ^ 4.
Definition RX8130_BIT_EXT_FSEL : Z := 3 * 2 ^ 6.
Definition RX8130_BIT_FLAG_VLF : Z := 2 ^ 1.
Definition RX8130_BIT_FLAG_AF : Z := 2 ^ 3.
Definition RX8130_BIT_FLAG_TF : Z := 2 ^ 4.
Definition RX8130_BIT_FLAG_UF : Z := 2 ^ 5.
Definition RX8130_BIT_CTRL_AIE : Z := 2 ^ 3.
Definition RX8130_BIT_CTRL_UIE : Z := 2 ^ 5.
Definition RX8130_BIT_CTRL_STOP : Z := 2 ^ 6.
Definition RX8130_BIT_CTRL_TEST : Z := 2 ^ 7.
Definition RX8130_BIT_CTRL_BFVSEL0 : Z := 2 ^ 0.
Definition RX8130_BIT_CTRL_INIEN : Z := 2 ^ 4.
Definition RX8130_BIT_CTRL_CHGEN : Z := 2 ^ 5.

(** ** What the kernel provides *)

(** Transfers return a negative error number, or the value read, the number
    of bytes read, or 0. *)
Class Smbus (H : Type) := {
  i2c_smbus_read_byte_data : Z -> H -> Z * H;
  i2c_smbus_read_i2c_block_data : Z -> Z -> H -> (Z * list Z) * H;
  i2c_smbus_write_byte_data : Z -> Z -> H -> Z * H;
  i2c_smbus_write_i2c_block_data : Z -> list Z -> H -> Z * H
}.

(** Binary coded decimals (linux/bcd.h). *)
Class Bcd := {
  bcd2bin : Z -> Z;
  bin2bcd : Z -> Z;
  bcd2bin_law d u : 0 <= d <= 9 -> 0 <= u <= 9 -> bcd2bin (16 * d + u) = 10 * d + u;
  bin2bcd_law d u : 0 <= d <= 9 -> 0 <= u <= 9 -> bin2bcd (10 * d + u) = 16 * d + u;
  bin2bcd_byte v : is_byte (bin2bcd v)
}.

(** The fields of [struct rtc_time] the driver uses. *)
Record rtc_time := RtcTime {
  tm_sec : Z; tm_min : Z; tm_hour : Z; tm_mday : Z; tm_mon : Z; tm_year : Z; tm_wday : Z
}.

(** [rtc_valid_tm] returns 0 for "a valid date/time" and an error otherwise. *)
Class RtcLib := {
  rtc_valid_tm : rtc_time -> Z;
  rtc_valid_law t : rtc_valid_tm t = 0 ->
    0 <= tm_sec t < 60 /\ 0 <= tm_min t < 60 /\ 0 <= tm_hour t < 24 /\
    1 <= tm_mday t <= 31 /\ 0 <= tm_mon t < 12 /\ 70 <= tm_year t
}.

Record rtc_wkalrm := RtcWkalrm { enabled : bool; pending : bool; time : rtc_time }.

(** Event bits of [rtc_update_irq] (uapi/linux/rtc.h). *)
Definition RTC_IRQF : Z := 0x80.
Definition RTC_PF : Z := 0x40.
Definition RTC_AF : Z := 0x20.
Definition RTC_UF : Z := 0x10.

(** ** Driver state *)

Record rx8130 {H : Type} := Rx8130 {
  bus : H;
  ctrlreg : Z;
  exiting : bool;
  enable_external_capacitor : bool;
  irq : Z;                    (* client->irq *)
  irq_depth : Z;              (* nesting of disable_irq *)
  work_queued : bool;
  uie_enabled : bool;         (* rtc->uie_rtctimer.enabled *)
  aie_enabled : bool;         (* rtc->aie_timer.enabled *)
  rtc_events : list Z         (* calls of rtc_update_irq *)
}.
Arguments rx8130 : clear implicits.
Arguments Rx8130 {H}.

Section Driver.
Context {H : Type} `{!Smbus H} `{!Bcd} `{!RtcLib}.
Abbreviation rx := (rx8130 H).

Definition with_bus (h : H) (s : rx) : rx :=
  Rx8130 h (ctrlreg s) (exiting s) (enable_external_capacitor s) (irq s) (irq_depth s)
    (work_queued s) (uie_enabled s) (aie_enabled s) (rtc_events s).
Definition with_ctrlreg (c : Z) (s : rx) : rx :=
  Rx8130 (bus s) c (exiting s) (enable_external_capacitor s) (irq s) (irq_depth s)
    (work_queued s) (uie_enabled s) (aie_enabled s) (rtc_events s).
Definition with_depth (n : Z) (s : rx) : rx :=
  Rx8130 (bus s) (ctrlreg s) (exiting s) (enable_external_capacitor s) (irq s) n
    (work_queued s) (uie_enabled s) (aie_enabled s) (rtc_events s).
Definition with_timers (uie aie : bool) (s : rx) : rx :=
  Rx8130 (bus s) (ctrlreg s) (exiting s) (enable_external_capacitor s) (irq s) (irq_depth s)
    (work_queued s) uie aie (rtc_events s).
Definition schedule_work (s : rx) : rx :=
  Rx8130 (bus s) (ctrlreg s) (exiting s) (enable_external_capacitor s) (irq s) (irq_depth s)
    true (uie_enabled s) (aie_enabled s) (rtc_events s).
Definition rtc_update_irq (e : Z) (s : rx) : rx :=
  Rx8130 (bus s) (ctrlreg s) (exiting s) (enable_external_capacitor s) (irq s) (irq_depth s)
    (work_queued s) (uie_enabled s) (aie_enabled s) (rtc_events s ++ [e]).

Definition on_bus {A} (f : H -> A * H) : M rx A :=
  fun s => let '(a, h) := f (bus s) in (a, with_bus h s).

(** ** Register access *)

(** The error and the value of [*value] afterwards. *)
Definition rx8130_read_reg (number value : Z) : M rx (Z * Z) :=
  ret ← on_bus (i2c_smbus_read_byte_data number);
  mret (if ret <? 0 then (ret, value) else (0, u8 ret)).

(** The error and the bytes received, which fill the buffer if there is no
    error. *)
Definition rx8130_read_regs (number length : Z) : M rx (Z * list Z) :=
  '(ret, values) ← on_bus (i2c_smbus_read_i2c_block_data number length);
  mret (if negb (ret =? length) then (if ret <? 0 then ret else - EIO, values) else (0, values)).

Definition rx8130_write_reg (number value : Z) : M rx Z :=
  on_bus (i2c_smbus_write_byte_data number value).

Definition rx8130_write_regs (number : Z) (values : list Z) : M rx Z :=
  on_bus (i2c_smbus_write_i2c_block_data number values).

(** ** Interrupt *)

Definition rx8130_irq : M rx unit :=
  s ← get;
  modify (with_depth (irq_depth s + 1));;
  modify schedule_work.

(** Reports one event and clears its flag in [status]. *)
Definition report (flag event status : Z) : M rx Z :=
  if has status flag
  then modify (rtc_update_irq (Z.lor event RTC_IRQF));; mret (Z.ldiff status flag)
  else mret status.

Definition rx8130_work : M rx unit :=
  '(err, status) ← rx8130_read_reg RX8130_REG_FLAG 0;
  when (err =? 0) (
    status ← report RX8130_BIT_FLAG_TF RTC_PF status;
    status ← report RX8130_BIT_FLAG_AF RTC_AF status;
    status ← report RX8130_BIT_FLAG_UF RTC_UF status;
    _ ← rx8130_write_reg RX8130_REG_FLAG status;
    mret tt);;
  s ← get;
  when (negb (exiting s)) (modify (with_depth (irq_depth s - 1))).

(** ** Clock *)

Definition rx8130_get_time (dt : rtc_time) : M rx (Z * rtc_time) :=
  '(err, date) ← rx8130_read_regs RX8130_REG_SEC 7;
  if negb (err =? 0) then mret (err, dt) else
  let year := bcd2bin (date @@ (RX8130_REG_YEAR - 0x10)) in
  let dt := RtcTime
    (bcd2bin (Z.land (date @@ (RX8130_REG_SEC - 0x10)) 0x7f))
    (bcd2bin (Z.land (date @@ (RX8130_REG_MIN - 0x10)) 0x7f))
    (bcd2bin (Z.land (date @@ (RX8130_REG_HOUR - 0x10)) 0x3f))
    (bcd2bin (Z.land (date @@ (RX8130_REG_MDAY - 0x10)) 0x3f))
    (bcd2bin (Z.land (date @@ (RX8130_REG_MONTH - 0x10)) 0x1f) - 1)
    (if year <? 70 then year + 100 else year)
    (bcd2bin (Z.land (date @@ (RX8130_REG_WDAY - 0x10)) 0x7f)) in
  mret (rtc_valid_tm dt, dt).

(** The bytes written to the seven clock registers. *)
Definition date_regs (dt : rtc_time) : list Z :=
  [bin2bcd (u32 (tm_sec dt)); bin2bcd (u32 (tm_min dt)); bin2bcd (u32 (tm_hour dt));
   bin2bcd (u32 (tm_wday dt)); bin2bcd (u32 (tm_mday dt)); bin2bcd (u32 (tm_mon dt + 1));
   bin2bcd (u32 (Z.rem (tm_year dt) 100))].

(** [ctrl] is what the uninitialised local variable of that name holds. *)
Definition rx8130_set_time (ctrl : Z) (dt : rtc_time) : M rx Z :=
  '(_, ctrl) ← rx8130_read_reg RX8130_REG_CTRL0 ctrl;
  modify (with_ctrlreg (Z.lor ctrl RX8130_BIT_CTRL_STOP));;
  s ← get;
  _ ← rx8130_write_reg RX8130_REG_CTRL0 (ctrlreg s);
  ret ← rx8130_write_regs RX8130_REG_SEC (date_regs dt);
  '(_, ctrl) ← rx8130_read_reg RX8130_REG_CTRL0 ctrl;
  modify (with_ctrlreg (Z.ldiff ctrl RX8130_BIT_CTRL_STOP));;
  s ← get;
  _ ← rx8130_write_reg RX8130_REG_CTRL0 (ctrlreg s);
  mret ret.

(** ** Initialisation *)

(** The error and [*need_reset], which starts at 0. *)
Definition rx8130_init_client : M rx (Z * bool) :=
  '(err, ctrl) ← rx8130_read_regs RX8130_REG_EXT 3;
  if negb (err =? 0) then mret (err, false) else
  let ext := Z.lor (Z.ldiff (Z.ldiff (ctrl @@ 0) RX8130_BIT_EXT_TE) RX8130_BIT_EXT_FSEL) 0x02 in
  orelse (rx8130_write_reg RX8130_REG_EXT ext) (fun err => (err, false)) (
  modify (with_ctrlreg (Z.ldiff (ctrl @@ 2) RX8130_BIT_CTRL_TEST));;
  s ← get;
  let charge := Z.lor (Z.lor (Z.lor (ctrl @@ 2) RX8130_BIT_CTRL_CHGEN) RX8130_BIT_CTRL_INIEN)
                  RX8130_BIT_CTRL_BFVSEL0 in
  orelse (if enable_external_capacitor s then rx8130_write_reg RX8130_REG_CTRL1 charge else mret 0)
    (fun err => (err, false)) (
  let need_reset := has (ctrl @@ 1) RX8130_BIT_FLAG_VLF in
  let need_clear := has (ctrl @@ 1) RX8130_BIT_FLAG_AF || has (ctrl @@ 1) RX8130_BIT_FLAG_TF
                    || has (ctrl @@ 1) RX8130_BIT_FLAG_UF in
  if need_reset || need_clear
  then orelse (rx8130_write_reg RX8130_REG_FLAG 0x00) (fun err => (err, need_reset)) (
       err ← rx8130_write_reg RX8130_REG_CTRL0 0x00; mret (err, need_reset))
  else mret (0, need_reset))).

(** ** Alarm *)

Definition rx8130_read_alarm (t : rtc_wkalrm) : M rx (Z * rtc_wkalrm) :=
  s ← get;
  if irq s <=? 0 then mret (- EINVAL, t) else
  '(err, alarmvals) ← rx8130_read_regs RX8130_REG_ALMIN 3;
  if negb (err =? 0) then mret (err, t) else
  '(err, ctrl) ← rx8130_read_regs RX8130_REG_EXT 3;
  if negb (err =? 0) then mret (err, t) else
  let time := RtcTime 0 (bcd2bin (Z.land (alarmvals @@ 0) 0x7f))
                (bcd2bin (Z.land (alarmvals @@ 1) 0x3f)) (-1) (-1) (-1) (-1) in
  let enabled := has (ctrlreg s) RX8130_BIT_CTRL_AIE in
  let pending := has (ctrl @@ 1) RX8130_BIT_FLAG_AF && enabled in
  mret (err, RtcWkalrm enabled pending time).

(** [RX8130_BIT_CTRL_AIE | RX8130_BIT_CTRL_UIE]. *)
Definition AIE_UIE : Z := Z.lor RX8130_BIT_CTRL_AIE RX8130_BIT_CTRL_UIE.

(** The interrupt enables of the running timers, added to [ctrl]. *)
Definition enable_timers (uie aie : bool) (ctrl : Z) : Z :=
  let ctrl := if uie then Z.lor ctrl RX8130_BIT_CTRL_UIE else ctrl in
  if aie then Z.lor ctrl AIE_UIE else ctrl.

Definition rx8130_set_alarm (t : rtc_wkalrm) : M rx Z :=
  s ← get;
  if irq s <=? 0 then mret (- EINVAL) else
  '(err, extreg) ← rx8130_read_reg RX8130_REG_EXT 0;
  if err <? 0 then mret err else
  '(err, flagreg) ← rx8130_read_reg RX8130_REG_FLAG 0;
  if err <? 0 then mret err else
  let almin := bin2bcd (u32 (tm_min (time t))) in
  let alhour := bin2bcd (u32 (tm_hour (time t))) in
  let alday := bin2bcd (u32 (tm_mday (time t))) in
  orelse (if has (ctrlreg s) AIE_UIE
          then modify (with_ctrlreg (Z.ldiff (ctrlreg s) AIE_UIE));;
               s ← get; rx8130_write_reg RX8130_REG_CTRL0 (ctrlreg s)
          else mret 0) id (
  orelse (rx8130_write_regs RX8130_REG_ALMIN [almin; alhour]) id (
  orelse (rx8130_write_reg RX8130_REG_EXT (Z.lor extreg RX8130_BIT_EXT_WADA)) id (
  orelse (rx8130_write_reg RX8130_REG_ALWDAY (if alday =? 0 then Z.lor alday 0x80 else alday)) id (
  orelse (rx8130_write_reg RX8130_REG_FLAG
            (Z.ldiff flagreg (Z.lor RX8130_BIT_FLAG_AF RX8130_BIT_FLAG_UF))) id (
  if enabled t
  then s ← get;
       modify (with_ctrlreg (enable_timers (uie_enabled s) (aie_enabled s) (ctrlreg s)));;
       s ← get;
       rx8130_write_reg RX8130_REG_CTRL0 (ctrlreg s)
  else mret 0))))).

(** The control register [rx8130_alarm_irq_enable] aims at. *)
Definition irq_enables (enabled uie aie : bool) (ctrl : Z) : Z :=
  if enabled then enable_timers uie aie ctrl else
  let ctrl := if negb uie then Z.ldiff ctrl RX8130_BIT_CTRL_UIE else ctrl in
  if negb aie then
    if uie then Z.ldiff ctrl RX8130_BIT_CTRL_AIE else Z.ldiff ctrl AIE_UIE
  else ctrl.

Definition rx8130_alarm_irq_enable (enabled : bool) : M rx Z :=
  s ← get;
  let ctrl := irq_enables enabled (uie_enabled s) (aie_enabled s) (ctrlreg s) in
  '(err, flagreg) ← rx8130_read_reg RX8130_REG_FLAG 0;
  if err <? 0 then mret err else
  orelse (rx8130_write_reg RX8130_REG_FLAG (Z.ldiff flagreg RX8130_BIT_FLAG_AF)) id (
  if negb (ctrl =? ctrlreg s)
  then modify (with_ctrlreg ctrl);;
       s ← get;
       rx8130_write_reg RX8130_REG_CTRL0 (ctrlreg s)
  else mret 0).

(** ** ioctl *)

Definition SE_RTC_REG_READ : ioctl_cmd := Ioc (Z.lor IOC_READ IOC_WRITE) 112 0x20 2.
Definition SE_RTC_REG_WRITE : ioctl_cmd := Ioc IOC_WRITE 112 0x21 2.
(** [_IOR('p', 0x13, int)] and [_IO('p', 0x14)] of uapi/linux/rtc.h. *)
Definition RTC_VL_READ : ioctl_cmd := Ioc IOC_READ 112 0x13 4.
Definition RTC_VL_CLR : ioctl_cmd := Ioc 0 112 0x14 0.

Definition reg_in_range (number : Z) : bool :=
  (RX8130_REG_SEC <=? number) && (number <=? RX8130_REG_END).

(** [number] and [value] are the bytes of the user's [reg_data]; [from_ok] and
    [to_ok] say whether the copies succeed.  Returns what is copied out. *)
Definition rx8130_ioctl (cmd : ioctl_cmd) (from_ok : bool) (number value : Z) (to_ok : bool) :
    M rx (Z * user_val) :=
  let reply v := mret (if to_ok then (0, v) else (- EFAULT, UNone)) in
  if decide (cmd = SE_RTC_REG_READ) then
    if negb from_ok then mret (- EFAULT, UNone) else
    if negb (reg_in_range number) then mret (- EFAULT, UNone) else
    '(ret, value) ← rx8130_read_reg number value;
    if ret =? 0 then reply (UBytes [number; value]) else mret (ret, UNone)
  else if decide (cmd = SE_RTC_REG_WRITE) then
    if negb from_ok then mret (- EFAULT, UNone) else
    if negb (reg_in_range number) then mret (- EFAULT, UNone) else
    ret ← rx8130_write_reg number value; mret (ret, UNone)
  else if decide (cmd = RTC_VL_READ) then
    '(ret, value) ← rx8130_read_reg RX8130_REG_FLAG 0;
    if ret =? 0 then reply (UInt (b2z (has value RX8130_BIT_FLAG_VLF))) else mret (ret, UNone)
  else if decide (cmd = RTC_VL_CLR) then
    '(ret, value) ← rx8130_read_reg RX8130_REG_FLAG 0;
    if ret =? 0
    then ret ← rx8130_write_reg RX8130_REG_FLAG (Z.ldiff value RX8130_BIT_FLAG_VLF);
         mret (ret, UNone)
    else mret (ret, UNone)
  else mret (- ENOIOCTLCMD, UNone).

(** ** Binding and unbinding *)

(** What the kernel answers during a probe. *)
Record probe_env := ProbeEnv {
  functionality : bool;        (* i2c_check_functionality *)
  allocated : bool;            (* kzalloc *)
  capacitor : bool;            (* property enable-external-capacitor *)
  client_irq : Z;
  ctrl_stack : Z;              (* the uninitialised variable of rx8130_set_time *)
  epoch : rtc_time;            (* rtc_time64_to_tm(0) *)
  register_rc : Z;             (* 0 or the error of devm_rtc_device_register *)
  request_rc : Z               (* devm_request_threaded_irq *)
}.

(** [data] is [None] when the driver data is not allocated or was freed;
    [rtc_registered]: a clock device with [rx8130_rtc_ops] exists;
    [handler]: [rx8130_irq] is installed; [handler_managed]: the device
    resources hold a release of the interrupt. *)
Record client := Client {
  wire : H;
  data : option rx;
  rtc_registered : bool;
  handler : bool;
  handler_managed : bool
}.

Definition rx8130_probe (e : probe_env) (h : H) : Z * client :=
  if negb (functionality e) then (- EIO, Client h None false false false) else
  if negb (allocated e) then (- ENOMEM, Client h None false false false) else
  let d := Rx8130 h 0 false (capacitor e) (client_irq e) 0 false false false [] in
  let '((err, need_reset), d) := rx8130_init_client d in
  if negb (err =? 0) then (err, Client (bus d) None false false false) else
  let d := if need_reset : bool then (rx8130_set_time (ctrl_stack e) (epoch e) d).2 else d in
  if negb (register_rc e =? 0) then (register_rc e, Client (bus d) None false false false) else
  if 0 <? client_irq e then
    if negb (request_rc e =? 0) then (request_rc e, Client (bus d) None true false false)
    else (0, Client (bus d) (Some d) true true true)
  else (0, Client (bus d) (Some d) true false false).

(** Frees the interrupt itself although the device resources do so too. *)
Definition rx8130_remove (c : client) : exec client :=
  let? d := deref (data c) in
  Ok (if 0 <? irq d
      then Client (wire c) None (rtc_registered c) false (handler_managed c)
      else Client (wire c) None (rtc_registered c) (handler c) (handler_managed c)).

(** ** All operations of a bound driver *)

Inductive rtc_op :=
| OpReadTime (dt : rtc_time)
| OpSetTime (ctrl : Z) (dt : rtc_time)
| OpReadAlarm (t : rtc_wkalrm)
| OpSetAlarm (t : rtc_wkalrm)
| OpAlarmIrqEnable (enabled : bool)
| OpIoctl (cmd : ioctl_cmd) (from_ok : bool) (number value : Z) (to_ok : bool)
| OpIrq
| OpWork.

(** [rx8130_rtc_ops], the interrupt and the work item. *)
Definition run_op (op : rtc_op) : M rx unit :=
  match op with
  | OpReadTime dt => _ ← rx8130_get_time dt; mret tt
  | OpSetTime ctrl dt => _ ← rx8130_set_time ctrl dt; mret tt
  | OpReadAlarm t => _ ← rx8130_read_alarm t; mret tt
  | OpSetAlarm t => _ ← rx8130_set_alarm t; mret tt
  | OpAlarmIrqEnable b => _ ← rx8130_alarm_irq_enable b; mret tt
  | OpIoctl cmd f n v t => _ ← rx8130_ioctl cmd f n v t; mret tt
  | OpIrq => rx8130_irq
  | OpWork => rx8130_work
  end.
End Driver.
