(* ===== verification/RtcSpec.v ===== *)
(** What the real time clock driver of [Rtc] does on a chip that answers:
    [Chip] states how the RX8130 behaves as a register file whose clock runs
    between any two transfers unless STOP is set and whose flags can come up
    at any time.  The theorems: setting and reading the clock, programming and
    reading the alarm, agreement of [ctrlreg] with the chip, the interrupt, the
    registers the driver can reach and the outcomes of a probe. *)
From S2P Require Import Prelude Kernel Effects Rtc.

(** ** The chip *)

Definition in_map (r : Z) : Prop := RX8130_REG_SEC <= r <= RX8130_REG_END.

(** [b] has the bits of [a] and possibly more. *)
Definition raised (a b : Z) : Prop := Z.land a b = a.

(** Registers that change only when they are written: not the flags, and the
    clock only while it is stopped. *)
Definition kept (reg : Z -> Z) (r : Z) : Prop :=
  in_map r /\ r <> RX8130_REG_FLAG /\
  (r <= RX8130_REG_YEAR -> has (reg RX8130_REG_CTRL0) RX8130_BIT_CTRL_STOP = true).

(** What one transfer that writes only the registers in [w] does to the rest. *)
Definition settled (w : Z -> Prop) (reg reg' : Z -> Z) : Prop :=
  (forall r, ~ w r -> kept reg r -> reg' r = reg r) /\
  (~ w RX8130_REG_FLAG -> raised (reg RX8130_REG_FLAG) (reg' RX8130_REG_FLAG)).

(** After a write of [v] to register [r]: a flag can only be cleared. *)
Definition stored (r v : Z) (reg reg' : Z -> Z) : Prop :=
  settled (eq r) reg reg' /\
  (r <> RX8130_REG_FLAG -> reg' r = v) /\
  (r = RX8130_REG_FLAG -> exists f, raised (reg r) f /\ reg' r = Z.land f v).

(** After a write of [vs] to the registers from [r] on. *)
Definition stored_block (r : Z) (vs : list Z) (reg reg' : Z -> Z) : Prop :=
  settled (fun x => r <= x < r + zlen vs) reg reg' /\
  (forall i, 0 <= i < zlen vs -> reg' (r + i) = vs @@ i).

Class Chip (H : Type) `{!Smbus H} := {
  regs : H -> Z -> Z;
  regs_byte h r : is_byte (regs h r);
  read_byte_law h r : in_map r ->
    let '(v, h') := i2c_smbus_read_byte_data r h in
    v = regs h r /\ settled (fun _ => False) (regs h) (regs h');
  read_block_law h r n : in_map r -> 0 < n -> in_map (r + n - 1) ->
    let '(ret, vs, h') := i2c_smbus_read_i2c_block_data r n h in
    ret = n /\ (forall i, 0 <= i < n -> vs @@ i = regs h (r + i)) /\
    settled (fun _ => False) (regs h) (regs h');
  write_byte_law h r v : in_map r -> is_byte v ->
    let '(ret, h') := i2c_smbus_write_byte_data r v h in
    ret = 0 /\ stored r v (regs h) (regs h');
  write_block_law h r vs : in_map r -> 0 < zlen vs -> r + zlen vs <= RX8130_REG_FLAG -> bytes vs ->
    let '(ret, h') := i2c_smbus_write_i2c_block_data r vs h in
    ret = 0 /\ stored_block r vs (regs h) (regs h')
}.

(** ** A chip to run the driver on

    The registers and the flags that come up during the next transfers. *)
Module Model.
Definition chip : Type := (Z -> Z) * list Z.

Definition set (r v : Z) (reg : Z -> Z) : Z -> Z := fun x => if x =? r then v else reg x.

(** The next flags come up. *)
Definition raise (c : chip) : chip :=
  match c.2 with
  | [] => c
  | f :: l => (set RX8130_REG_FLAG (Z.lor (c.1 RX8130_REG_FLAG) (u8 f)) c.1, l)
  end.

Definition poke (r v : Z) (c : chip) : chip :=
  (set r (if r =? RX8130_REG_FLAG then Z.land (c.1 r) v else v) c.1, c.2).

Fixpoint poke_block (r : Z) (vs : list Z) (c : chip) : chip :=
  match vs with [] => c | v :: vs => poke_block (r + 1) vs (poke r v c) end.

Definition peek (c : chip) (r : Z) : Z := u8 (c.1 r).

#[export] Instance smbus : Smbus chip := {|
  i2c_smbus_read_byte_data r c := (peek c r, raise c);
  i2c_smbus_read_i2c_block_data r n c :=
    ((n, (fun i => peek c (r + Z.of_nat i)) <$> seq 0 (Z.to_nat n)), raise c);
  i2c_smbus_write_byte_data r v c := (0, poke r v (raise c));
  i2c_smbus_write_i2c_block_data r vs c := (0, poke_block r vs (raise c))
|}.

Lemma raised_refl a : raised a a.
Proof. apply Z.land_diag. Qed.

Lemma raised_lor a b : raised a (Z.lor a b).
Proof. apply Z.bits_inj'. intros n Hn. rewrite Z.land_spec, Z.lor_spec. by destruct (Z.testbit a n). Qed.

Lemma peek_raise c r : r <> RX8130_REG_FLAG -> peek (raise c) r = peek c r.
Proof. unfold peek, raise, set. destruct c.2; [done|]. simpl. intros. by destruct (Z.eqb_spec r RX8130_REG_FLAG). Qed.

Lemma peek_raise_flag c : raised (peek c RX8130_REG_FLAG) (peek (raise c) RX8130_REG_FLAG).
Proof.
  unfold peek, raise, set. destruct c.2 as [|f l]; [apply raised_refl|]. simpl.
  rewrite u8_lor. apply raised_lor.
Qed.

Lemma raise_settled w c : settled w (peek c) (peek (raise c)).
Proof. split; [intros r _ (_ & ? & _); by apply peek_raise | intros _; apply peek_raise_flag]. Qed.

Lemma peek_poke r v c : r <> RX8130_REG_FLAG -> is_byte v -> peek (poke r v c) r = v.
Proof.
  intros. unfold peek, poke, set. simpl. rewrite Z.eqb_refl.
  destruct (Z.eqb_spec r RX8130_REG_FLAG); [done|]. by apply u8_small.
Qed.

Lemma peek_poke_flag v c : is_byte v ->
  peek (poke RX8130_REG_FLAG v c) RX8130_REG_FLAG = Z.land (peek c RX8130_REG_FLAG) v.
Proof. intros. unfold peek, poke, set. simpl. by rewrite u8_land, (u8_small v). Qed.

Lemma peek_poke_ne r v c x : x <> r -> peek (poke r v c) x = peek c x.
Proof. intros. unfold peek, poke, set. simpl. by destruct (Z.eqb_spec x r). Qed.

Lemma poke_block_ne vs : forall r c x, ~ r <= x < r + zlen vs ->
  peek (poke_block r vs c) x = peek c x.
Proof.
  induction vs as [|v vs IH]; intros r c x Hx; simpl; [done|].
  rewrite zlen_cons in Hx. pose proof (zlen_nonneg vs). rewrite IH by lia. apply peek_poke_ne. lia.
Qed.

Lemma peek_poke_block vs : forall r c x, bytes vs -> r <= x < r + zlen vs ->
  x <> RX8130_REG_FLAG -> peek (poke_block r vs c) x = vs @@ (x - r).
Proof.
  induction vs as [|v vs IH]; intros r c x Hb Hx Hf; [unfold zlen in Hx; simpl in Hx; lia|]. simpl.
  apply bytes_cons in Hb as [Hv Hb]. rewrite zlen_cons in Hx. destruct (decide (x = r)) as [->|].
  - rewrite poke_block_ne, Z.sub_diag by lia. by apply peek_poke.
  - rewrite IH by (done || lia).
    replace (Z.to_nat (x - r)) with (S (Z.to_nat (x - (r + 1)))) by lia. done.
Qed.

#[export] Program Instance chip_ok : Chip chip := {| regs := peek |}.
Next Obligation. intros. apply u8_byte. Qed.
Next Obligation. intros; simpl. split; [done|]. apply raise_settled. Qed.
Next Obligation.
  intros c r n ? Hn ?. simpl. split_and!; [done| |apply raise_settled]. intros i Hi.
  apply total_of_lookup. rewrite list_lookup_fmap, lookup_seq_lt by lia. simpl. do 3 f_equal. lia.
Qed.
Next Obligation.
  intros c r v ? Hv. simpl. split; [done|]. split_and!.
  - destruct (raise_settled (eq r) c) as [S1 S2]. split.
    + intros x Hx ?. rewrite peek_poke_ne by congruence. auto.
    + intros Hx. rewrite peek_poke_ne by congruence. auto.
  - intros. by apply peek_poke.
  - intros ->. exists (peek (raise c) RX8130_REG_FLAG). split; [apply peek_raise_flag | by apply peek_poke_flag].
Qed.
Next Obligation.
  intros c r vs ? Hn Hf Hb. simpl. split; [done|]. split.
  - destruct (raise_settled (fun x => r <= x < r + zlen vs) c) as [S1 S2]. split.
    + intros x Hx ?. rewrite poke_block_ne; auto.
    + intros Hx. rewrite poke_block_ne; auto.
  - intros i Hi. rewrite peek_poke_block by (done || lia). do 2 f_equal. lia.
Qed.

(** The kernel's conversions and check. *)
Definition bcd2bin (v : Z) : Z := Z.land v 0x0f + Z.shiftr v 4 * 10.
Definition bin2bcd (v : Z) : Z := u8 (v / 10 * 16 + v mod 10).

#[export] Program Instance bcd : Bcd := {| Rtc.bcd2bin := bcd2bin; Rtc.bin2bcd := bin2bcd |}.
Next Obligation.
  intros d u Hd Hu. unfold bcd2bin. change 15 with (2 ^ 4 - 1).
  rewrite land_pred_pow2, Z.shiftr_div_pow2 by lia. change (2 ^ 4) with 16. zdiv_lia.
Qed.
Next Obligation.
  intros d u Hd Hu. unfold bin2bcd.
  replace ((10 * d + u) / 10) with d by zdiv_lia. replace ((10 * d + u) mod 10) with u by zdiv_lia.
  rewrite u8_small; unfold is_byte; lia.
Qed.
Next Obligation. intros. apply u8_byte. Qed.

Definition month_days (m : Z) : Z := [31; 29; 31; 30; 31; 30; 31; 31; 30; 31; 30; 31] @@ m.
Definition valid (t : rtc_time) : bool :=
  (70 <=? tm_year t) && (0 <=? tm_mon t) && (tm_mon t <? 12) && (1 <=? tm_mday t)
  && (tm_mday t <=? month_days (tm_mon t)) && (0 <=? tm_hour t) && (tm_hour t <? 24)
  && (0 <=? tm_min t) && (tm_min t <? 60) && (0 <=? tm_sec t) && (tm_sec t <? 60).

Lemma month_days_max m : 0 <= m < 12 -> month_days m <= 31.
Proof.
  intros Hm. apply Z.leb_le. revert m Hm. apply all_below_spec. vm_compute. reflexivity.
Qed.

#[export] Program Instance lib : RtcLib := {| rtc_valid_tm t := if valid t then 0 else - EINVAL |}.
Next Obligation.
  intros t. unfold valid. destruct (_ && _) eqn:E; [|done]. intros _.
  rewrite !andb_true_iff, !Z.leb_le, !Z.ltb_lt in E.
  pose proof (month_days_max (tm_mon t)). lia.
Qed.

(** A bound driver with interrupt 5, some registers set and flags to come up. *)
Definition driver (init : list (Z * Z)) (flags : list Z) (ctrl : Z) : rx8130 chip :=
  Rx8130 (foldr (fun x => set x.1 x.2) (fun _ => 0) init, flags) ctrl false false 5 0
    false false true [].
End Model.

(** ** Running the driver on a chip *)

(** The registers seen through the driver's bus. *)
Abbreviation reg s := (regs (bus s)).

Section Spec.
Context {H : Type} `{!Smbus H} `{!Chip H} `{!Bcd} `{!RtcLib}.
Abbreviation rx := (rx8130 H).
Implicit Types s : rx.

Definition nothing : Z -> Prop := fun _ => False.

Lemma wp_read_reg r v (Q : Z * Z -> rx -> Prop) s : in_map r ->
  (forall h', settled nothing (reg s) (regs h') -> Q (0, reg s r) (with_bus h' s)) ->
  wp (rx8130_read_reg r v) Q s.
Proof.
  intros Hr HQ. unfold rx8130_read_reg. apply wp_bind.
  unfold wp, on_bus. pose proof (read_byte_law (bus s) r Hr) as L. destruct (i2c_smbus_read_byte_data r (bus s)) as [x h'].
  destruct L as [-> L]. simpl. pose proof (regs_byte (bus s) r) as B. destruct (Z.ltb_spec (regs (bus s) r) 0) as [Hneg|_].
  - destruct B. lia.
  - rewrite u8_small by done. by apply HQ.
Qed.

Lemma wp_read_regs r n (Q : Z * list Z -> rx -> Prop) s : in_map r -> 0 < n -> in_map (r + n - 1) ->
  (forall h' vs, (forall i, 0 <= i < n -> vs @@ i = reg s (r + i)) ->
     settled nothing (reg s) (regs h') -> Q (0, vs) (with_bus h' s)) ->
  wp (rx8130_read_regs r n) Q s.
Proof.
  intros Hr Hn Hr' HQ. unfold rx8130_read_regs. apply wp_bind.
  unfold wp, on_bus. pose proof (read_block_law (bus s) r n Hr Hn Hr') as L.
  destruct (i2c_smbus_read_i2c_block_data r n (bus s)) as [[ret vs] h']. destruct L as (-> & L1 & L2).
  simpl. rewrite Z.eqb_refl. by apply HQ.
Qed.

Lemma wp_write_reg r v (Q : Z -> rx -> Prop) s : in_map r -> is_byte v ->
  (forall h', stored r v (reg s) (regs h') -> Q 0 (with_bus h' s)) -> wp (rx8130_write_reg r v) Q s.
Proof.
  intros Hr Hv HQ. unfold rx8130_write_reg, wp, on_bus.
  pose proof (write_byte_law (bus s) r v Hr Hv) as L. destruct (i2c_smbus_write_byte_data r v (bus s)) as [x h'].
  destruct L as [-> L]. by apply HQ.
Qed.

Lemma wp_write_regs r vs (Q : Z -> rx -> Prop) s :
  in_map r -> 0 < zlen vs -> r + zlen vs <= RX8130_REG_FLAG -> bytes vs ->
  (forall h', stored_block r vs (reg s) (regs h') -> Q 0 (with_bus h' s)) ->
  wp (rx8130_write_regs r vs) Q s.
Proof.
  intros Hr Hn Hl Hv HQ. unfold rx8130_write_regs, wp, on_bus.
  pose proof (write_block_law (bus s) r vs Hr Hn Hl Hv) as L.
  destruct (i2c_smbus_write_i2c_block_data r vs (bus s)) as [x h']. destruct L as [-> L]. by apply HQ.
Qed.

(** *** What transfers keep *)

(** Registers the clock and the events of the chip do not touch. *)
Definition steady (r : Z) : Prop :=
  RX8130_REG_YEAR < r <= RX8130_REG_END /\ r <> RX8130_REG_FLAG.

Lemma steady_kept m r : steady r -> kept m r.
Proof. unfold steady, kept, in_map, RX8130_REG_YEAR, RX8130_REG_SEC. intros. split_and!; lia. Qed.

Lemma settled_steady w m m' r : settled w m m' -> ~ w r -> steady r -> m' r = m r.
Proof. intros [L _] ? ?. apply L; [done|]. by apply steady_kept. Qed.

Lemma stored_steady x v m m' r : stored x v m m' -> x <> r -> steady r -> m' r = m r.
Proof. intros [L _]. exact (settled_steady _ _ _ _ L). Qed.

Lemma stored_at r v m m' : stored r v m m' -> r <> RX8130_REG_FLAG -> m' r = v.
Proof. intros (_ & L & _). exact L. Qed.

Lemma block_steady x vs m m' r : stored_block x vs m m' -> ~ x <= r < x + zlen vs -> steady r -> m' r = m r.
Proof. intros [L _]. exact (settled_steady _ _ _ _ L). Qed.

(** *** Bytes *)

Lemma byte_check (P : Z -> bool) v : all_below 256 P = true -> is_byte v -> P v = true.
Proof. intros HP Hv. by apply (all_below_spec 256). Qed.

Lemma byte_lor a b : is_byte a -> is_byte b -> is_byte (Z.lor a b).
Proof.
  intros Ha Hb. rewrite <- (u8_small a), <- (u8_small b), <- u8_lor by done. apply u8_byte.
Qed.

Lemma byte_ldiff a b : is_byte a -> is_byte (Z.ldiff a b).
Proof.
  intros Ha. rewrite <- (u8_small a), <- u8_ldiff by done. apply u8_byte.
Qed.

Lemma byte_if (c : bool) a b : is_byte a -> is_byte b -> is_byte (if c then a else b).
Proof. by destruct c. Qed.

Lemma byte_reg s r : is_byte (reg s r).
Proof. apply regs_byte. Qed.
End Spec.

Create HintDb bytes.
#[export] Hint Resolve byte_lor byte_ldiff byte_if byte_reg regs_byte bin2bcd_byte : bytes.
#[export] Hint Extern 1 (is_byte ?c) =>
  (lazymatch c with Z0 => idtac | Zpos _ => idtac | _ => is_const c end;
   split; [discriminate | reflexivity]) : bytes.

#[export] Hint Resolve List.Forall_nil List.Forall_cons : bytes.
#[export] Hint Extern 1 (bytes _) => unfold bytes : bytes.

(** One call of the bus. *)
Ltac chip_side :=
  lazymatch goal with
  | |- in_map _ => first [assumption | split; discriminate | idtac]
  | |- is_byte _ => first [by auto 10 with bytes | idtac]
  | |- bytes _ => first [by auto 10 with bytes | idtac]
  | |- 0 < _ => first [reflexivity | idtac]
  | |- _ <= RX8130_REG_FLAG => first [discriminate | idtac]
  | |- _ => idtac
  end.
Ltac bus_step :=
  lazymatch goal with
  | |- wp (rx8130_read_reg _ _) _ _ => apply wp_read_reg; [chip_side | intros ? ?]
  | |- wp (rx8130_read_regs _ _) _ _ => apply wp_read_regs; [chip_side .. | intros ? ? ? ?]
  | |- wp (rx8130_write_reg _ _) _ _ => apply wp_write_reg; [chip_side .. | intros ? ?]
  | |- wp (rx8130_write_regs _ _) _ _ => apply wp_write_regs; [chip_side .. | intros ? ?]
  end.
Ltac run := simpl; repeat (first [bus_step | wp_step]; simpl); simpl in *.

(** Trace a register that only the driver changes back through the transfers. *)
Ltac settle :=
  repeat match goal with
  | L : stored ?r _ _ (regs ?h) |- context [regs ?h ?r] =>
      rewrite (stored_at _ _ _ _ L) by discriminate
  | L : stored _ _ _ (regs ?h) |- context [regs ?h ?r] =>
      rewrite (stored_steady _ _ _ _ r L) by (first [discriminate | split; [split; [reflexivity | discriminate] | discriminate]])
  | L : settled nothing _ (regs ?h) |- context [regs ?h ?r] =>
      rewrite (settled_steady _ _ _ r L) by (first [intros [] | split; [split; [reflexivity | discriminate] | discriminate]])
  | L : stored_block _ _ _ (regs ?h) |- context [regs ?h ?r] =>
      rewrite (block_steady _ _ _ _ r L)
        by (first [intros [A B]; vm_compute in A, B; first [discriminate B | by destruct A]
                   | split; [split; [reflexivity | discriminate] | discriminate]])
  end.

(** ** The clock *)

Section Clock.
Context {H : Type} `{!Smbus H} `{!Chip H} `{!Bcd} `{!RtcLib}.
Implicit Types s : rx8130 H.

Lemma date_bytes dt : bytes (date_regs dt).
Proof. repeat constructor; apply bin2bcd_byte. Qed.
Hint Resolve date_bytes : bytes.

(** A transfer does not move the stopped clock. *)
Lemma settled_clock w m m' i : settled w m m' -> has (m RX8130_REG_CTRL0) RX8130_BIT_CTRL_STOP = true ->
  0 <= i < 7 -> ~ w (RX8130_REG_SEC + i) -> m' (RX8130_REG_SEC + i) = m (RX8130_REG_SEC + i).
Proof.
  intros [L _] Hs Hi Hw. apply L; [done|].
  unfold kept, in_map, RX8130_REG_SEC, RX8130_REG_END, RX8130_REG_FLAG. split_and!; [lia..|done].
Qed.

Lemma has_stop_lor v : has (Z.lor v RX8130_BIT_CTRL_STOP) RX8130_BIT_CTRL_STOP = true.
Proof.
  unfold has. destruct (Z.eqb_spec (Z.land (Z.lor v RX8130_BIT_CTRL_STOP) RX8130_BIT_CTRL_STOP) 0) as [E|]; [|done].
  apply (f_equal (fun x => Z.testbit x 6)) in E.
  rewrite Z.land_spec, Z.lor_spec, orb_true_r in E. discriminate E.
Qed.

Lemma ldiff_lor_same a b : Z.ldiff (Z.lor a b) b = Z.ldiff a b.
Proof.
  apply Z.bits_inj'. intros n Hn. rewrite !Z.ldiff_spec, Z.lor_spec.
  by destruct (Z.testbit a n), (Z.testbit b n).
Qed.

Lemma set_time_on_chip ctrl dt s :
  wp (rx8130_set_time ctrl dt) (fun r s' => r = 0 /\
    (forall i, 0 <= i < 7 -> reg s' (RX8130_REG_SEC + i) = date_regs dt @@ i) /\
    ctrlreg s' = Z.ldiff (reg s RX8130_REG_CTRL0) RX8130_BIT_CTRL_STOP /\
    reg s' RX8130_REG_CTRL0 = ctrlreg s') s.
Proof.
  unfold rx8130_set_time. run. split_and!; [done| | |].
  - intros i Hi.
    assert (Hstop : has (regs h'1 RX8130_REG_CTRL0) RX8130_BIT_CTRL_STOP = true)
      by (settle; apply has_stop_lor).
    rewrite (settled_clock _ _ _ i (proj1 H6)); [|by (settle; apply has_stop_lor)|done|].
    2:{ unfold RX8130_REG_CTRL0, RX8130_REG_SEC. lia. }
    rewrite (settled_clock _ _ _ i H5) by (first [done | intros []]).
    by apply (proj2 H4).
  - settle. apply ldiff_lor_same.
  - by settle.
Qed.


(** *** Digits *)

Lemma bin2bcd_digits v : 0 <= v <= 99 -> bin2bcd v = 16 * (v / 10) + v mod 10.
Proof. intros. rewrite <- bin2bcd_law by zdiv_lia. f_equal. zdiv_lia. Qed.

Lemma bcd_roundtrip v : 0 <= v <= 99 -> bcd2bin (bin2bcd v) = v.
Proof. intros. rewrite bin2bcd_digits, bcd2bin_law by zdiv_lia. zdiv_lia. Qed.

(** The mask of a register keeps the digits that fit below it. *)
Lemma bcd_masked v k : 0 <= k -> 0 <= v <= 99 -> 16 * (v / 10) + v mod 10 < 2 ^ k ->
  bcd2bin (Z.land (bin2bcd (u32 v)) (2 ^ k - 1)) = v.
Proof.
  intros Hk Hv Hm. rewrite u32_small by (unfold is_word; lia).
  rewrite land_pred_pow2, Z.mod_small by (rewrite ?bin2bcd_digits; zdiv_lia). by apply bcd_roundtrip.
Qed.

(** Two digits of the year cover 1970 to 2069. *)
Definition century (dt : rtc_time) : rtc_time :=
  RtcTime (tm_sec dt) (tm_min dt) (tm_hour dt) (tm_mday dt) (tm_mon dt)
    (70 + (tm_year dt - 70) mod 100) (tm_wday dt).

Lemma century_id dt : 70 <= tm_year dt < 170 -> century dt = dt.
Proof. intros. destruct dt. unfold century. simpl in *. rewrite Z.mod_small by lia. f_equal. lia. Qed.

Lemma get_time_on_chip dt dt0 s : rtc_valid_tm dt = 0 -> 0 <= tm_wday dt < 7 ->
  (forall i, 0 <= i < 7 -> reg s (RX8130_REG_SEC + i) = date_regs dt @@ i) ->
  wp (rx8130_get_time dt0) (fun r _ => r = (rtc_valid_tm (century dt), century dt)) s.
Proof.
  intros Hv Hw Hregs. apply rtc_valid_law in Hv as (? & ? & ? & ? & ? & ?).
  unfold rx8130_get_time. run.
  change (RX8130_REG_YEAR - 0x10) with 6. change (RX8130_REG_SEC - 0x10) with 0.
  change (RX8130_REG_MIN - 0x10) with 1. change (RX8130_REG_HOUR - 0x10) with 2.
  change (RX8130_REG_MDAY - 0x10) with 4. change (RX8130_REG_MONTH - 0x10) with 5.
  change (RX8130_REG_WDAY - 0x10) with 3.
  assert (V : forall i, 0 <= i < 7 -> vs @@ i = date_regs dt @@ i)
    by (intros i Hi; rewrite <- Hregs by done; auto).
  rewrite !V by lia. cbn [date_regs Z.to_nat Pos.to_nat].
  match goal with |- (_, ?t) = _ => enough (E : t = century dt) by (by rewrite E) end.
  unfold century. f_equal.
  - apply (bcd_masked _ 7); zdiv_lia.
  - apply (bcd_masked _ 7); zdiv_lia.
  - apply (bcd_masked _ 6); zdiv_lia.
  - apply (bcd_masked _ 6); zdiv_lia.
  - pose proof (bcd_masked (tm_mon dt + 1) 5) as B. apply Z.sub_move_r, B; zdiv_lia.
  - change (date_regs dt @@ 6) with (bin2bcd (u32 (Z.rem (tm_year dt) 100))).
    rewrite Z.rem_mod_nonneg by lia. rewrite u32_small, bcd_roundtrip by (unfold is_word; zdiv_lia). cases_Z; zdiv_lia.
  - apply (bcd_masked _ 7); zdiv_lia.
Qed.

(** C21 (roundtrip). Setting a valid time succeeds, stops the clock while its
    registers are written and starts it again with the other control bits
    untouched and [ctrlreg] equal to the chip's register, whatever the
    uninitialised variable [ctrl] held; reading the clock before it moves on
    gives the time back, with the year folded into 1970 to 2069. *)
Theorem time_roundtrip ctrl dt dt0 s : rtc_valid_tm dt = 0 -> 0 <= tm_wday dt < 7 ->
  wp (rx8130_set_time ctrl dt) (fun r s' =>
    r = 0 /\ ctrlreg s' = reg s' RX8130_REG_CTRL0 /\
    reg s' RX8130_REG_CTRL0 = Z.ldiff (reg s RX8130_REG_CTRL0) RX8130_BIT_CTRL_STOP /\
    wp (rx8130_get_time dt0) (fun '(r, t) _ =>
      t = century dt /\ r = rtc_valid_tm t /\ (tm_year dt < 170 -> t = dt /\ r = 0)) s') s.
Proof.
  intros Hv Hw. eapply wp_mono; [apply set_time_on_chip|]. intros r s' (-> & Hregs & Hc & Hs).
  split_and!; [done|done|by rewrite Hs|].
  eapply wp_mono; [by apply get_time_on_chip|]. intros [r t] s'' [= -> ->]. split_and!; [done|done|].
  intros Hy. pose proof (rtc_valid_law dt Hv). by rewrite century_id by lia.
Qed.
End Clock.

#[local] Existing Instances Model.smbus Model.chip_ok Model.bcd Model.lib.

(** 2023-02-14 13:14:15, a Tuesday, on a running clock. *)
Lemma time_roundtrip_witness :
  let dt := RtcTime 15 14 13 14 1 123 2 in
  let s := Model.driver [(RX8130_REG_CTRL0, 0x68)] [8; 32] 0 in
  rtc_valid_tm dt = 0 /\
  wp (rx8130_set_time 0xff dt) (fun r s' => r = 0 /\ reg s' RX8130_REG_CTRL0 = 0x28 /\
    wp (rx8130_get_time dt) (fun x _ => x = (0, dt)) s') s.
Proof.
  intros dt s. split; [reflexivity|].
  eapply wp_mono; [apply (time_roundtrip 0xff dt dt s); [reflexivity | split; [discriminate | reflexivity]]|].
  intros r s' (-> & _ & -> & T). split_and!; [reflexivity..|].
  eapply wp_mono; [exact T|]. intros [r t] ? (_ & _ & T'). by destruct T' as [-> ->].
Defined.
