(* ===== verification/RtcAlarm.v ===== *)
(** Alarms, interrupts and binding of the real time clock driver: [ctrlreg]
    and the chip's control register agree in every run, except that a probe
    that finds an alarm pending leaves them apart and the alarm is then never
    armed; alarms read back as programmed; the interrupt acknowledges what it
    reports; no operation reaches a register outside the chip's map; what a
    probe leaves behind. *)
From S2P Require Import Prelude Kernel Effects Rtc RtcSpec.

(** ** The interrupt *)

Section Interrupt.
Context {H : Type} `{!Smbus H} `{!Chip H} `{!Bcd} `{!RtcLib}.
Implicit Types s : rx8130 H.

Lemma raised_trans a b c : raised a b -> raised b c -> raised a c.
Proof.
  unfold raised. intros E1 E2. transitivity (Z.land (Z.land a b) c); [by rewrite E1 | rewrite <- Z.land_assoc, E2; exact E1].
Qed.

Lemma raised_bit a b n : raised a b -> Z.testbit a n = true -> Z.testbit b n = true.
Proof.
  intros R E. apply (f_equal (fun x => Z.testbit x n)) in R. by rewrite Z.land_spec, E in R.
Qed.

Lemma ldiff_missing v flag : has v flag = false -> Z.ldiff v flag = v.
Proof.
  unfold has. intros E%negb_false_iff%Z.eqb_eq. apply Z.bits_inj'. intros n Hn.
  apply (f_equal (fun x => Z.testbit x n)) in E. rewrite Z.land_spec, Z.bits_0 in E.
  rewrite Z.ldiff_spec. by destruct (Z.testbit v n), (Z.testbit flag n).
Qed.

Lemma wp_report flag e v (Q : Z -> rx8130 H -> Prop) s :
  Q (Z.ldiff v flag) (if has v flag then rtc_update_irq (Z.lor e RTC_IRQF) s else s) ->
  wp (report flag e v) Q s.
Proof.
  intros HQ. unfold report. destruct (has v flag) eqn:E; [done|]. by rewrite ldiff_missing in HQ.
Qed.

(** The events of a flag register, in the order they are reported. *)
Definition reports (status : Z) : list Z :=
  (if has status RX8130_BIT_FLAG_TF then [Z.lor RTC_PF RTC_IRQF] else []) ++
  (if has status RX8130_BIT_FLAG_AF then [Z.lor RTC_AF RTC_IRQF] else []) ++
  (if has status RX8130_BIT_FLAG_UF then [Z.lor RTC_UF RTC_IRQF] else []).

Definition acknowledged (status : Z) : Z :=
  Z.ldiff (Z.ldiff (Z.ldiff status RX8130_BIT_FLAG_TF) RX8130_BIT_FLAG_AF) RX8130_BIT_FLAG_UF.

Lemma work_on_chip s :
  wp rx8130_work (fun _ s' =>
    ctrlreg s' = ctrlreg s /\ reg s' RX8130_REG_CTRL0 = reg s RX8130_REG_CTRL0 /\
    irq_depth s' = (if exiting s then irq_depth s else irq_depth s - 1) /\
    rtc_events s' = rtc_events s ++ reports (reg s RX8130_REG_FLAG) /\
    exists f, raised (reg s RX8130_REG_FLAG) f /\
      reg s' RX8130_REG_FLAG = Z.land f (acknowledged (reg s RX8130_REG_FLAG))) s.
Proof.
  unfold rx8130_work. run. set (v := reg s RX8130_REG_FLAG).
  assert (Hv : is_byte v) by apply regs_byte.
  apply wp_report, wp_bind, wp_report, wp_bind, wp_report.
  rewrite !has_ldiff by reflexivity.
  set (s1 := if has v RX8130_BIT_FLAG_UF then _ else _).
  assert (E1 : bus s1 = h' /\ ctrlreg s1 = ctrlreg s /\ exiting s1 = exiting s /\ irq_depth s1 = irq_depth s /\
    rtc_events s1 = rtc_events s ++ reports v).
  { unfold s1, reports. destruct (has v RX8130_BIT_FLAG_UF), (has v RX8130_BIT_FLAG_AF), (has v RX8130_BIT_FLAG_TF);
      simpl; rewrite <- ?app_assoc, ?app_nil_r; done. }
  clearbody s1. destruct E1 as (Eb & Ec & Ee & Ed & Er). run.
  all: assert (C : regs h'0 RX8130_REG_CTRL0 = reg s RX8130_REG_CTRL0) by (rewrite Eb in *; by settle).
  all: rewrite Eb in *; destruct H2 as [_ R1], H3 as (_ & _ & R2).
  all: destruct R2 as (f & R2 & ->); [done|].
  all: rewrite Ee in *; destruct (exiting s); try done.
  all: split_and!; [done..|congruence|done|].
  all: exists f; split; [exact (raised_trans _ _ _ (R1 id) R2) | done].
Qed.

(** The interrupt masks its line and queues the work; the
    work reports one event for each of the periodic, alarm and update flags
    that are set, in that order, clears all three flags in the chip, keeps a
    detected loss of supply visible, unmasks the line unless the driver is
    being removed, and leaves the control register alone. *)
Theorem interrupt_acknowledged s :
  wp (rx8130_irq;; rx8130_work) (fun _ s' =>
    irq_depth s' = irq_depth s + b2z (exiting s) /\
    rtc_events s' = rtc_events s ++ reports (reg s RX8130_REG_FLAG) /\
    has (reg s' RX8130_REG_FLAG) RX8130_BIT_FLAG_TF = false /\
    has (reg s' RX8130_REG_FLAG) RX8130_BIT_FLAG_AF = false /\
    has (reg s' RX8130_REG_FLAG) RX8130_BIT_FLAG_UF = false /\
    (has (reg s RX8130_REG_FLAG) RX8130_BIT_FLAG_VLF = true ->
     has (reg s' RX8130_REG_FLAG) RX8130_BIT_FLAG_VLF = true) /\
    reg s' RX8130_REG_CTRL0 = reg s RX8130_REG_CTRL0) s.
Proof.
  unfold rx8130_irq. run. eapply wp_mono; [apply work_on_chip|].
  intros _ s' (_ & C & D & E & f & F & G). simpl in *. rewrite G, E, C, D.
  unfold RX8130_BIT_FLAG_TF, RX8130_BIT_FLAG_AF, RX8130_BIT_FLAG_UF, RX8130_BIT_FLAG_VLF, acknowledged in *.
  rewrite !has_pow2, !Z.land_spec, !Z.ldiff_spec by lia. split_and!; [destruct (exiting s); simpl; lia|done| | | | |done].
  1-3: by destruct (Z.testbit f _), (Z.testbit (reg s _) _).
  intros V. by rewrite V, (raised_bit _ _ _ F V).
Qed.
End Interrupt.

#[local] Existing Instances Model.smbus Model.chip_ok Model.bcd Model.lib.

(** An update that comes up between the read and the acknowledgement is
    cleared without being reported. *)
Example racing_event_lost :
  let s := Model.driver [(RX8130_REG_FLAG, RX8130_BIT_FLAG_AF)] [RX8130_BIT_FLAG_UF] 0 in
  let s' := (rx8130_irq;; rx8130_work : M (rx8130 Model.chip) unit) s in
  rtc_events s'.2 = [Z.lor RTC_AF RTC_IRQF] /\ reg s'.2 RX8130_REG_FLAG = 0.
Proof. split; reflexivity. Qed.

(** ** Agreement of the driver's copy of the control register *)

Definition synced {H} `{!Smbus H} `{!Chip H} (s : rx8130 H) : Prop :=
  ctrlreg s = reg s RX8130_REG_CTRL0.

Section Alarm.
Context {H : Type} `{!Smbus H} `{!Chip H} `{!Bcd} `{!RtcLib}.
Implicit Types s : rx8130 H.

(** The alarm enables of a control register. *)
Definition alarm_ctrl (t : rtc_wkalrm) (uie aie : bool) (c : Z) : Z :=
  let c := Z.ldiff c AIE_UIE in if enabled t then enable_timers uie aie c else c.

Lemma enable_timers_byte uie aie c : is_byte c -> is_byte (enable_timers uie aie c).
Proof. intros. unfold enable_timers. destruct uie, aie; auto 10 with bytes. Qed.
Hint Resolve enable_timers_byte : bytes.

Lemma alarm_aie t uie aie c : has (alarm_ctrl t uie aie c) RX8130_BIT_CTRL_AIE = enabled t && aie.
Proof.
  unfold alarm_ctrl, enable_timers. change RX8130_BIT_CTRL_AIE with (2 ^ 3). rewrite has_pow2 by lia.
  destruct (enabled t), uie, aie; rewrite ?Z.lor_spec, Z.ldiff_spec; by destruct (Z.testbit c 3).
Qed.

Lemma day_zero d : 0 <= d <= 31 -> (bin2bcd d =? 0) = (d =? 0).
Proof. intros. rewrite bin2bcd_digits by lia. cases_Z; zdiv_lia. Qed.

Lemma wp_disarm s (Q : Z -> rx8130 H -> Prop) : synced s -> is_byte (ctrlreg s) ->
  (forall h', regs h' RX8130_REG_CTRL0 = Z.ldiff (ctrlreg s) AIE_UIE ->
     Q 0 (with_ctrlreg (Z.ldiff (ctrlreg s) AIE_UIE) (with_bus h' s))) ->
  wp (if has (ctrlreg s) AIE_UIE
      then modify (with_ctrlreg (Z.ldiff (ctrlreg s) AIE_UIE));;
           s ← get; rx8130_write_reg RX8130_REG_CTRL0 (ctrlreg s)
      else mret 0) Q s.
Proof.
  intros Hs Hb HQ. apply wp_if; intros E; run.
  - apply (HQ h'). by settle.
  - rewrite ldiff_missing in HQ by done. specialize (HQ (bus s) (eq_sym Hs)). by destruct s.
Qed.

Lemma set_alarm_on_chip t s : synced s -> 0 < irq s ->
  wp (rx8130_set_alarm t) (fun r s' => r = 0 /\ synced s' /\ irq s' = irq s /\
    ctrlreg s' = alarm_ctrl t (uie_enabled s) (aie_enabled s) (ctrlreg s) /\
    reg s' RX8130_REG_ALMIN = bin2bcd (u32 (tm_min (time t))) /\
    reg s' RX8130_REG_ALHOUR = bin2bcd (u32 (tm_hour (time t))) /\
    reg s' RX8130_REG_ALWDAY = (let d := bin2bcd (u32 (tm_mday (time t))) in
      if d =? 0 then Z.lor d 0x80 else d) /\
    has (reg s' RX8130_REG_EXT) RX8130_BIT_EXT_WADA = true) s.
Proof.
  intros Hs Hi. unfold rx8130_set_alarm. run. destruct (Z.leb_spec (irq s) 0); [lia|]. run.
  assert (Hb : is_byte (ctrlreg s)) by (rewrite Hs; auto with bytes).
  apply (wp_disarm (with_bus h'0 (with_bus h' s))); [unfold synced; simpl; by settle|done|].
  intros h1 Hc. run.
  assert (B0 := proj2 H5 0 ltac:(unfold zlen; simpl; lia)).
  assert (B1 := proj2 H5 1 ltac:(unfold zlen; simpl; lia)).
  change (RX8130_REG_ALMIN + 0) with RX8130_REG_ALMIN in B0.
  change (RX8130_REG_ALMIN + 1) with RX8130_REG_ALHOUR in B1.
  assert (W : has (Z.lor (reg s RX8130_REG_EXT) RX8130_BIT_EXT_WADA) RX8130_BIT_EXT_WADA = true).
  { change RX8130_BIT_EXT_WADA with (2 ^ 3). rewrite has_pow2, Z.lor_spec by lia. apply orb_true_r. }
  unfold synced, alarm_ctrl. apply wp_if; intros E; rewrite E; run.
  all: split_and!; try done; settle; try done.
Qed.

End Alarm.


(** ** Runs of a bound driver *)

Section Runs.
Context {H : Type} `{!Smbus H} `{!Chip H} `{!Bcd} `{!RtcLib}.
Implicit Types s : rx8130 H.

(** User space may write any register but the control register. *)
Definition op_ok (op : rtc_op) : Prop :=
  match op with
  | OpIoctl cmd _ number value _ =>
      is_byte value /\ (cmd = SE_RTC_REG_WRITE -> number <> RX8130_REG_CTRL0)
  | _ => True
  end.

(** One operation, a change of the timers by the clock core, or what the chip
    does by itself. *)
Inductive rtc_step : rx8130 H -> rx8130 H -> Prop :=
| step_op op s : op_ok op -> rtc_step s (run_op op s).2
| step_timers uie aie s : rtc_step s (with_timers uie aie s)
| step_chip h' s : settled nothing (reg s) (regs h') -> rtc_step s (with_bus h' s).

Lemma in_range_map n : reg_in_range n = true -> in_map n.
Proof. unfold reg_in_range, in_map. intros [? ?]%andb_prop. lia. Qed.

Lemma synced_after s (m : M (rx8130 H) unit) :
  wp m (fun _ s' => synced s') s -> synced (m s).2.
Proof. done. Qed.

Lemma synced_ioctl cmd f n v t s : is_byte v -> (cmd = SE_RTC_REG_WRITE -> n <> RX8130_REG_CTRL0) ->
  synced s -> wp (rx8130_ioctl cmd f n v t) (fun _ s' => synced s') s.
Proof.
  intros Hv Hn Hs. unfold rx8130_ioctl, synced in *.
  repeat case_decide; [| | | |by run].
  - destruct f; [|by run]. destruct (reg_in_range n) eqn:E; [|by run]. apply in_range_map in E.
    run. destruct t; run; by settle.
  - destruct f; [|by run]. destruct (reg_in_range n) eqn:E; [|by run]. apply in_range_map in E.
    run. match goal with L : stored n v _ _ |- _ => rewrite (stored_steady _ _ _ _ _ L) end; auto.
    split; [split; [reflexivity | discriminate] | discriminate].
  - run. destruct t; run; by settle.
  - run. by settle.
Qed.

Lemma synced_alarm_irq_enable b s : synced s ->
  wp (rx8130_alarm_irq_enable b) (fun r s' => r = 0 /\ synced s' /\
    ctrlreg s' = irq_enables b (uie_enabled s) (aie_enabled s) (ctrlreg s)) s.
Proof.
  intros Hs. unfold rx8130_alarm_irq_enable.
  assert (is_byte (irq_enables b (uie_enabled s) (aie_enabled s) (ctrlreg s))).
  { assert (is_byte (ctrlreg s)) by (rewrite Hs; auto with bytes).
    unfold irq_enables. repeat case_match; auto 10 using enable_timers_byte with bytes. }
  unfold synced in *. run. apply wp_if; intros E; run; split_and!; try done; settle; try done.
  by apply negb_false_iff, Z.eqb_eq in E.
Qed.

Lemma synced_op op s : op_ok op -> synced s -> synced (run_op op s).2.
Proof.
  intros Hop Hs. apply (synced_after s). destruct op; simpl; [apply wp_bind ..| |].
  - unfold rx8130_get_time, synced in *. run. by settle.
  - eapply wp_mono; [apply set_time_on_chip|]. by intros r s' (_ & _ & _ & ?).
  - unfold rx8130_read_alarm, synced in *. run. apply wp_if; intros _; run; by settle.
  - destruct (Z.leb_spec (irq s) 0) as [|].
    + unfold rx8130_set_alarm. run. destruct (Z.leb_spec (irq s) 0); [|lia]. by run.
    + eapply wp_mono; [by apply set_alarm_on_chip|]. by intros r s' (_ & ? & _).
  - eapply wp_mono; [by apply synced_alarm_irq_enable|]. by intros r s' (_ & ? & _).
  - destruct Hop. eapply wp_mono; [by apply synced_ioctl|]. done.
  - unfold rx8130_irq. by run.
  - eapply wp_mono; [apply work_on_chip|]. intros _ s' (E1 & E2 & _). unfold synced in *. congruence.
Qed.

Lemma synced_step s s' : synced s -> rtc_step s s' -> synced s'.
Proof.
  intros Hs Hst. destruct Hst as [op s Hop| |h' s L]; [by apply synced_op | done|].
  unfold synced in *. simpl. by settle.
Qed.

(** *** Initialisation *)

Definition alarmed (f : Z) : bool :=
  has f RX8130_BIT_FLAG_AF || has f RX8130_BIT_FLAG_TF || has f RX8130_BIT_FLAG_UF.

Lemma init_on_chip s :
  wp rx8130_init_client (fun r s' =>
    let f := reg s RX8130_REG_FLAG in let c := reg s RX8130_REG_CTRL0 in
    r = (0, has f RX8130_BIT_FLAG_VLF) /\ ctrlreg s' = Z.ldiff c RX8130_BIT_CTRL_TEST /\
    reg s' RX8130_REG_CTRL0 = (if has f RX8130_BIT_FLAG_VLF || alarmed f then 0 else c)) s.
Proof.
  unfold rx8130_init_client. apply wp_bind, wp_read_regs; [chip_side ..|]. intros h' vs V L.
  cbv beta iota. rewrite (V 0), (V 1), (V 2) by lia.
  change (RX8130_REG_EXT + 0) with RX8130_REG_EXT.
  change (RX8130_REG_EXT + 1) with RX8130_REG_FLAG.
  change (RX8130_REG_EXT + 2) with RX8130_REG_CTRL0.
  run. fold (alarmed (reg s RX8130_REG_FLAG)).
  apply wp_if; intros _; run; (apply wp_if; intros E; rewrite E; run; split_and!; try done; by settle).
Qed.

(** What a successful probe leaves: without a loss of supply the alarm flags
    decide whether the control register is cleared behind [ctrlreg]. *)
Lemma probe_on_chip e h c s : rx8130_probe e h = (0, c) -> data c = Some s ->
  let f := regs h RX8130_REG_FLAG in let r := regs h RX8130_REG_CTRL0 in
  if has f RX8130_BIT_FLAG_VLF then synced s
  else ctrlreg s = Z.ldiff r RX8130_BIT_CTRL_TEST /\
       reg s RX8130_REG_CTRL0 = if alarmed f then 0 else r.
Proof.
  intros Hp Hd. unfold rx8130_probe in Hp.
  destruct (negb (functionality e)); [done|]. destruct (negb (allocated e)); [done|].
  set (d := Rx8130 h _ _ _ _ _ _ _ _ _) in Hp. pose proof (init_on_chip d) as I.
  unfold wp in I. destruct (rx8130_init_client d) as [[err need] d1]. cbn [fst snd] in I.
  destruct I as ([= -> ->] & I1 & I2). simpl negb in Hp. cbv iota in Hp.
  set (d2 := if has (regs h RX8130_REG_FLAG) RX8130_BIT_FLAG_VLF then _ else d1) in Hp.
  assert (s = d2) as ->.
  { destruct (negb (register_rc e =? 0)), (0 <? client_irq e), (negb (request_rc e =? 0));
      apply (f_equal snd) in Hp; simpl in Hp; subst c; simpl in Hd; congruence. }
  unfold d2. destruct (has (regs h RX8130_REG_FLAG) RX8130_BIT_FLAG_VLF) eqn:E; 
    [|split; [exact I1|]; rewrite I2; change (bus d) with h; by rewrite E].
  pose proof (set_time_on_chip (ctrl_stack e) (epoch e) d1) as (_ & _ & _ & S). exact (eq_sym S).
Qed.

(** C23 (invariant). After a probe that succeeds on a chip that lost its
    supply, or on one with no flag and no test bit set, [ctrlreg] equals the
    chip's control register in every later state, provided user space does not
    write that register itself; so enabling or disabling the alarm interrupt
    always leaves the chip with the enables of the running timers. *)
Theorem ctrlreg_agrees e h c s s' b : rx8130_probe e h = (0, c) -> data c = Some s ->
  has (regs h RX8130_REG_FLAG) RX8130_BIT_FLAG_VLF = true \/
  (alarmed (regs h RX8130_REG_FLAG) = false /\
   has (regs h RX8130_REG_CTRL0) RX8130_BIT_CTRL_TEST = false) ->
  star rtc_step s s' ->
  synced s' /\
  wp (rx8130_alarm_irq_enable b) (fun r s'' => r = 0 /\
    reg s'' RX8130_REG_CTRL0 =
      irq_enables b (uie_enabled s') (aie_enabled s') (reg s' RX8130_REG_CTRL0)) s'.
Proof.
  intros Hp Hd Hf Hs.
  assert (Hs' : synced s').
  { apply (star_invariant rtc_step synced synced_step s s' Hs).
    pose proof (probe_on_chip e h c s Hp Hd) as P. cbv zeta in P.
    destruct (has (regs h RX8130_REG_FLAG) RX8130_BIT_FLAG_VLF); [done|].
    destruct Hf as [?|[A Ht]]; [done|]. rewrite A, ldiff_missing in P by done.
    unfold synced. destruct P as [-> ->]. done. }
  split; [done|]. eapply wp_mono; [by apply synced_alarm_irq_enable|].
  intros r s'' (-> & <- & Hc). split; [done|]. by rewrite Hc, Hs'.
Qed.

(** When the probe finds an alarm, timer or update flag but no
    loss of supply, it clears the control register and keeps the old value in
    [ctrlreg].  If that value had both interrupt enables, enabling the alarm
    interrupt afterwards reports success and writes nothing: the interrupt
    stays disabled in the chip. *)
Theorem alarm_never_armed e h c s uie : rx8130_probe e h = (0, c) -> data c = Some s ->
  has (regs h RX8130_REG_FLAG) RX8130_BIT_FLAG_VLF = false ->
  alarmed (regs h RX8130_REG_FLAG) = true ->
  raised AIE_UIE (regs h RX8130_REG_CTRL0) ->
  wp (rx8130_alarm_irq_enable true) (fun r s' => r = 0 /\
    has (ctrlreg s') RX8130_BIT_CTRL_AIE = true /\ reg s' RX8130_REG_CTRL0 = 0)
    (with_timers uie true s).
Proof.
  intros Hp Hd Hv Ha Hr. pose proof (probe_on_chip e h c s Hp Hd) as P. cbv zeta in P.
  rewrite Hv, Ha in P. destruct P as [P1 P2].
  assert (R3 := raised_bit _ _ 3 Hr eq_refl). assert (R5 := raised_bit _ _ 5 Hr eq_refl).
  assert (E : irq_enables true uie true (ctrlreg s) = ctrlreg s).
  { rewrite P1. unfold irq_enables, enable_timers. apply Z.bits_inj'. intros n Hn.
    destruct (decide (n = 3)) as [->|]; [|destruct (decide (n = 5)) as [->|]].
    - destruct uie; rewrite ?Z.lor_spec, Z.ldiff_spec, R3; done.
    - destruct uie; rewrite ?Z.lor_spec, Z.ldiff_spec, R5; done.
    - assert (Z.testbit AIE_UIE n = false /\ Z.testbit RX8130_BIT_CTRL_UIE n = false) as [F1 F2].
      { unfold AIE_UIE, RX8130_BIT_CTRL_AIE, RX8130_BIT_CTRL_UIE.
        rewrite Z.lor_spec, !Z.pow2_bits_eqb by lia. cases_Z; try lia; done. }
      destruct uie; rewrite ?Z.lor_spec, F1, ?F2, ?orb_false_r; done. }
  unfold rx8130_alarm_irq_enable. run. rewrite E, Z.eqb_refl. run. split_and!; [done| |by settle].
  rewrite P1. change RX8130_BIT_CTRL_AIE with (2 ^ 3). rewrite has_pow2, Z.ldiff_spec, R3 by lia. done.
Qed.
End Runs.

(** The driver bound to a chip with a lost supply, an alarm pending, or neither. *)
Definition sample_env : probe_env := ProbeEnv true true true 5 0xff (RtcTime 0 0 0 1 0 70 4) 0 0.
Definition sample_chip (flags ctrl : Z) : Model.chip :=
  bus (Model.driver [(RX8130_REG_FLAG, flags); (RX8130_REG_CTRL0, ctrl)] [] 0).

Lemma interrupt_acknowledged_witness :
  let s := Model.driver [(RX8130_REG_FLAG, 0x1a)] [] 0 in
  wp (rx8130_irq;; rx8130_work : M (rx8130 Model.chip) unit) (fun _ s' =>
    irq_depth s' = 0 /\ rtc_events s' = [0xc0; 0xa0] /\
    has (reg s' RX8130_REG_FLAG) RX8130_BIT_FLAG_VLF = true) s.
Proof.
  intros s. eapply wp_mono; [apply (interrupt_acknowledged s)|].
  intros _ s' (-> & -> & _ & _ & _ & V & _). split_and!; [reflexivity..|]. by apply V.
Defined.

Lemma ctrlreg_agrees_witness :
  let c := (rx8130_probe sample_env (sample_chip 0 0x20)).2 in
  exists s, data c = Some s /\
    wp (rx8130_alarm_irq_enable true) (fun r s' => r = 0 /\ reg s' RX8130_REG_CTRL0 = 0x28)
      (with_timers true true s).
Proof.
  intros c. eexists. split; [reflexivity|]. match goal with |- wp _ _ (with_timers _ _ ?s) => set (s0 := s) end.
  pose proof (ctrlreg_agrees sample_env (sample_chip 0 0x20) c s0 (with_timers true true s0) true
    eq_refl eq_refl (or_intror (conj eq_refl eq_refl)) (star_one _ _ _ (step_timers true true s0))) as [_ T].
  eapply wp_mono; [exact T|]. intros r s' [-> ->]. split; reflexivity.
Defined.

Lemma alarm_never_armed_witness :
  let c := (rx8130_probe sample_env (sample_chip 8 0x28)).2 in
  exists s, data c = Some s /\
    wp (rx8130_alarm_irq_enable true) (fun r s' => r = 0 /\ reg s' RX8130_REG_CTRL0 = 0)
      (with_timers true true s).
Proof.
  eexists. split; [reflexivity|]. eapply wp_mono.
  - apply (alarm_never_armed sample_env (sample_chip 8 0x28) (rx8130_probe sample_env (sample_chip 8 0x28)).2);
      reflexivity.
  - intros r s' (-> & _ & ->). done.
Defined.
