(* ===== verification/RtcBind.v ===== *)
(** The real time clock driver on a bus that may fail in any way: the registers
    its operations can reach, the errors they return, and what binding and
    unbinding leave behind. *)
From S2P Require Import Prelude Kernel Effects Rtc RtcSpec.

(** ** Reach of the operations *)

Section Reach.
Context {H : Type} `{!Smbus H} `{!Bcd} `{!RtcLib} (I : H -> Prop).

(** [I] survives every access that stays within the map of the chip. *)
Record confined : Prop := {
  conf_read r h : in_map r -> I h -> I (i2c_smbus_read_byte_data r h).2;
  conf_read_block r n h : in_map r -> 0 < n -> in_map (r + n - 1) -> I h ->
    I (i2c_smbus_read_i2c_block_data r n h).2;
  conf_write r v h : in_map r -> I h -> I (i2c_smbus_write_byte_data r v h).2;
  conf_write_block r vs h : in_map r -> 0 < zlen vs -> in_map (r + zlen vs - 1) -> I h ->
    I (i2c_smbus_write_i2c_block_data r vs h).2
}.
Context (Hc : confined).

(** The bus satisfies [I]. *)
Definition sound (s : rx8130 H) : Prop := I (bus s).
Abbreviation safe := (preserves sound).

Lemma safe_on_bus {A} (f : H -> A * H) : (forall h, I h -> I (f h).2) -> safe (on_bus f).
Proof. intros Hf s Hs. unfold on_bus. specialize (Hf _ Hs). by destruct (f (bus s)). Qed.

Lemma safe_read_reg r v : in_map r -> safe (rx8130_read_reg r v).
Proof. intros. apply pres_bind; [|intros; apply pres_ret]. apply safe_on_bus. intros. by apply conf_read. Qed.
Lemma safe_read_regs r n : in_map r -> 0 < n -> in_map (r + n - 1) -> safe (rx8130_read_regs r n).
Proof. intros. apply pres_bind; [|intros []; apply pres_ret]. apply safe_on_bus. intros. by apply conf_read_block. Qed.
Lemma safe_write_reg r v : in_map r -> safe (rx8130_write_reg r v).
Proof. intros. apply safe_on_bus. intros. by apply conf_write. Qed.
Lemma safe_write_regs r vs : in_map r -> 0 < zlen vs -> in_map (r + zlen vs - 1) ->
  safe (rx8130_write_regs r vs).
Proof. intros. apply safe_on_bus. intros. by apply conf_write_block. Qed.

Ltac access :=
  idtac; lazymatch goal with
  | |- safe (rx8130_read_reg _ _) => apply safe_read_reg
  | |- safe (rx8130_read_regs _ _) => apply safe_read_regs
  | |- safe (rx8130_write_reg _ _) => apply safe_write_reg
  | |- safe (rx8130_write_regs _ _) => apply safe_write_regs
  | |- safe (report _ _ _) => unfold report
  | |- in_map _ => first [assumption | split; discriminate]
  | |- 0 < _ => reflexivity
  end.
Ltac safe_all := pres access.

Lemma safe_ioctl cmd f n v t : safe (rx8130_ioctl cmd f n v t).
Proof.
  unfold rx8130_ioctl.
  assert (reg_in_range n = true -> in_map n) as Hn.
  { unfold reg_in_range, in_map. intros [? ?]%andb_prop. lia. }
  destruct (reg_in_range n); [specialize (Hn eq_refl)|clear Hn]; safe_all.
Qed.

Lemma safe_set_time ctrl dt : safe (rx8130_set_time ctrl dt).
Proof. unfold rx8130_set_time. safe_all. Qed.

Lemma safe_init : safe rx8130_init_client.
Proof. unfold rx8130_init_client. safe_all. Qed.

Lemma safe_op op : safe (run_op op).
Proof.
  destruct op; simpl; [apply pres_bind; [|intros; apply pres_ret]..| |].
  - unfold rx8130_get_time. safe_all.
  - apply safe_set_time.
  - unfold rx8130_read_alarm. safe_all.
  - unfold rx8130_set_alarm. safe_all.
  - unfold rx8130_alarm_irq_enable. safe_all.
  - apply safe_ioctl.
  - unfold rx8130_irq. safe_all.
  - unfold rx8130_work. safe_all.
Qed.
End Reach.

(** On any bus, whatever fails, no operation of the driver
    touches a register outside 0x10 to 0x23: a property of the bus that every
    access within the map preserves holds after a probe and after each
    operation, the register access of the ioctl included, whose other numbers
    are refused with [-EFAULT]. *)
Theorem accesses_in_map {H} `{!Smbus H} `{!Bcd} `{!RtcLib} (I : H -> Prop) e h op (s : rx8130 H) n v t cmd :
  confined I -> I h -> I (bus s) ->
  I (wire (rx8130_probe e h).2) /\ I (bus (run_op op s).2) /\
  (cmd = SE_RTC_REG_READ \/ cmd = SE_RTC_REG_WRITE -> ~ in_map n ->
   rx8130_ioctl cmd true n v t s = ((- EFAULT, UNone), s)).
Proof.
  intros Hc Hh Hs. split_and!; [|by apply (safe_op I Hc)|].
  - unfold rx8130_probe. destruct (negb (functionality e)); [done|]. destruct (negb (allocated e)); [done|].
    set (d := Rx8130 h _ _ _ _ _ _ _ _ _). pose proof (safe_init I Hc d Hh) as S.
    destruct (rx8130_init_client d) as [[err need] d1]. simpl in S.
    set (d2 := if need then _ else d1).
    assert (I (bus d2)) by (unfold d2; destruct need; [by apply (safe_set_time I Hc) | done]).
    by repeat case_match.
  - intros Hcmd Hn. assert (reg_in_range n = false) as E.
    { apply not_true_iff_false. unfold reg_in_range, in_map in *. intros [? ?]%andb_prop. lia. }
    unfold rx8130_ioctl. rewrite E. by destruct Hcmd as [-> | ->].
Qed.

(** *** The interrupt number does not change *)

Section Line.
Context {H : Type} `{!Smbus H} `{!Bcd} `{!RtcLib} (n : Z).

Definition line (s : rx8130 H) : Prop := irq s = n.

Lemma line_on_bus {A} (f : H -> A * H) : preserves line (on_bus f).
Proof. intros s Hs. unfold on_bus. by destruct (f (bus s)). Qed.

Ltac line_all := unfold rx8130_read_reg, rx8130_read_regs, rx8130_write_reg, rx8130_write_regs;
  pres ltac:(apply line_on_bus).

Lemma line_init : preserves line rx8130_init_client.
Proof. unfold rx8130_init_client. line_all. Qed.

Lemma line_set_time ctrl dt : preserves line (rx8130_set_time ctrl dt).
Proof. unfold rx8130_set_time. line_all. Qed.
End Line.

(** A failing probe returns the error of the step that failed and
    frees its data; a successful one keeps it, registers the clock and installs
    the interrupt handler exactly if there is an interrupt.  Only a refused
    interrupt leaves the clock registered over freed data.  Removal frees the
    data under the registered clock and releases the handler that the device
    resources will release again. *)
Theorem probe_outcome {H} `{!Smbus H} `{!Bcd} `{!RtcLib} e (h : H) :
  let '(r, c) := rx8130_probe e h in
  (r = 0 /\ rtc_registered c = true /\ handler c = (0 <? client_irq e) /\
     handler_managed c = handler c /\
     exists d, data c = Some d /\
       rx8130_remove c = Ok (Client (wire c) None true false (0 <? client_irq e))) \/
  (r <> 0 /\ data c = None /\ handler c = false /\
     (rtc_registered c = true -> 0 < client_irq e /\ r = request_rc e)).
Proof.
  unfold rx8130_probe.
  destruct (negb (functionality e)); [by right|]. destruct (negb (allocated e)); [by right|].
  set (d := Rx8130 h _ _ _ _ _ _ _ _ _).
  assert (L := line_init (client_irq e) d eq_refl).
  destruct (rx8130_init_client d) as [[err need] d1]. cbn [snd] in L.
  set (d2 := if need then _ else d1).
  assert (L2 : irq d2 = client_irq e) by (unfold d2; destruct need; [by apply line_set_time | done]).
  clearbody d2. destruct (Z.eqb_spec err 0), (Z.eqb_spec (register_rc e) 0), (Z.eqb_spec (request_rc e) 0),
    (Z.ltb_spec 0 (client_irq e)); simpl.
  all: first [by right; split_and! | left; split_and!; try done; exists d2; split; [done|]].
  all: unfold rx8130_remove; simpl; rewrite L2; destruct (Z.ltb_spec 0 (client_irq e)); first [done | lia].
Qed.

(** ** Instances of the theorems *)

#[local] Existing Instances Model.smbus Model.bcd Model.lib.

(** Register 0x40, outside the map, keeps its value. *)
Definition outside (c : Model.chip) : Prop := Model.peek c 0x40 = 7.

Lemma outside_raise c : outside c -> outside (Model.raise c).
Proof. intros. unfold outside. by rewrite Model.peek_raise. Qed.

Lemma outside_confined : confined outside.
Proof.
  split; simpl; intros; try by apply outside_raise.
  - unfold outside. rewrite Model.peek_poke_ne; [by apply outside_raise|]. intros <-. unfold in_map in *.
    by destruct H as [_ []].
  - unfold outside. rewrite Model.poke_block_ne; [by apply outside_raise|]. unfold in_map, RX8130_REG_END in *. lia.
Qed.

Lemma accesses_in_map_witness :
  let s := Model.driver [(0x40, 7)] [] 0 in
  outside (bus (run_op (OpIoctl SE_RTC_REG_WRITE true 0x20 9 true) s).2) /\
  rx8130_ioctl SE_RTC_REG_WRITE true 0x40 9 true s = ((- EFAULT, UNone), s).
Proof.
  intros s. destruct (accesses_in_map outside (ProbeEnv true true true 5 0 (RtcTime 0 0 0 1 0 70 4) 0 0)
    (bus s) (OpIoctl SE_RTC_REG_WRITE true 0x20 9 true) s 0x40 9 true SE_RTC_REG_WRITE outside_confined
    eq_refl eq_refl) as (_ & A & B).
  split; [exact A|]. apply B; [by right|]. by intros [_ []].
Defined.

Lemma probe_outcome_witness :
  let '(r, c) := rx8130_probe (ProbeEnv true true true 5 0 (RtcTime 0 0 0 1 0 70 4) 0 (- EBUSY))
    (bus (Model.driver [] [] 0)) in
  r = - EBUSY /\ rtc_registered c = true /\ data c = None.
Proof.
  pose proof (probe_outcome (ProbeEnv true true true 5 0 (RtcTime 0 0 0 1 0 70 4) 0 (- EBUSY))
    (bus (Model.driver [] [] 0))) as P.
  revert P. vm_compute. intros [(? & _)|(_ & ? & _)]; [discriminate | by split_and!].
Defined.
