(* ===== verification/SocUart.v ===== *)
(** What the three drivers for on-chip UARTs share: the platform they run on,
    the interface [FifoDriver] that says when a hardware driver loses no
    character, the receive burst with its accumulated error flags, and the
    probe and remove functions the macro [module_raw_uart_driver] of
    src/kernel/generic_raw_uart.h wraps around a driver. *)
From S2P Require Import Prelude Kernel Effects Ring RawUart RawUartRx RawUartTx.

Definition ENOENT : Z := 2.
Definition BAUD : Z := 115200.

(** Register access, interrupt installation and clock of one UART; the
    hardware moves on with every access.  [patience] bounds the polls of a busy
    UART. *)
Class Platform (H : Type) := {
  readl : Z -> H -> Z * H;                (* address *)
  writel : Z -> Z -> H -> H;              (* value, address *)
  request_irq : H -> Z * H;
  free_irq : H -> H;
  clk_get_rate : H -> Z;
  patience : nat
}.

Section Commands.
Context {H : Type} `{!Platform H}.

Definition rd (a : Z) : M H Z := readl a.
Definition wr (v a : Z) : M H unit := modify (writel v a).

(** [while (cond) schedule();], with the answer whether it ended. *)
Fixpoint wait_while (fuel : nat) (cond : M H bool) : M H bool :=
  match fuel with
  | O => mret false
  | S fuel => b ← cond; if b : bool then wait_while fuel cond else mret true
  end.

Lemma wait_preserves (P : H -> Prop) fuel cond : preserves P cond -> preserves P (wait_while fuel cond).
Proof.
  intros Hc. induction fuel as [|fuel IH]; simpl; [apply pres_ret|].
  apply pres_bind; [done|]. intros []; [done | apply pres_ret].
Qed.
End Commands.

(** [DIV_ROUND_CLOSEST] on unsigned operands. *)
Definition DIV_ROUND_CLOSEST (x d : Z) : Z := (x + d / 2) / d.

Lemma div_round_closest x d : 0 <= x -> 0 < d -> 2 * Z.abs (DIV_ROUND_CLOSEST x d * d - x) <= d.
Proof. intros. unfold DIV_ROUND_CLOSEST. zdiv_lia. Qed.

(** ** Drivers that lose nothing *)

(** [lost] counts the characters written to a full transmit FIFO. *)
Class FifoDriver (D : Type) `{DR : RawUartDriver D} := {
  lost : D -> Z;
  bulk_single : tx_bulktransfer_size = 1;
  lost_isready d : lost (isready_for_tx d).2 = lost d;
  lost_stop_tx d : lost (stop_tx d) = lost d;
  lost_init_tx d : lost (init_tx d) = lost d;
  lost_tx_chars d d' l i : isready_for_tx d = (true, d') -> 0 <= i < zlen l ->
    lost (tx_chars d' l i 1) = lost d'
}.

Section NoLoss.
Context {D : Type} `{DR : RawUartDriver D} {DO : RawUartDriverOk D} {FD : FifoDriver D}.

(** Every connection is within its buffer whatever the loop did before. *)
Lemma tx_loop_lost fuel cnt u u' : uart_ok u -> tx_loop fuel cnt u = Ok u' ->
  lost (drv u') = lost (drv u).
Proof.
  revert cnt u. induction fuel as [|fuel IH]; intros cnt u Hu; simpl; [done|].
  destruct (negb _); [by intros [= <-]|].
  pose proof (lost_isready (drv u)) as L. pose proof (isready_sent (drv u)) as S.
  destruct (isready_for_tx (drv u)) as [ready d] eqn:E. simpl in L, S.
  destruct ready; simpl; [|by intros [= <-]].
  destruct (tx_connection (inst u)) as [p|] eqn:Ep; [|by intros [= <-]].
  destruct (conns u !! p) as [c|] eqn:Ec; simpl; [|done].
  pose proof (uart_conns _ Hu _ _ Ec) as [Hl Hi Hn].
  assert (HC : CON_DATA_TX_BUF_SIZE = 4096) by done.
  destruct (Z.ltb_spec (tx_buf_index c) (tx_buf_length c)) as [Hlt|]; [|by intros [= <-]].
  pose proof (bulk_advances p c u d Hu Ec S ltac:(unfold unsent; lia)) as A. cbv zeta in A.
  rewrite bulk_single in *. fold (unsent c). rewrite s32_small by (unfold unsent; lia).
  replace (Z.min 1 (unsent c)) with 1 in * by (unfold unsent; lia).
  intros Hrun. rewrite (IH _ _ (advanced_ok _ _ _ _ _ Hu Ec A) Hrun). simpl. rewrite <- L.
  apply (lost_tx_chars _ _ _ _ E). lia.
Qed.

Lemma tx_queued_lost u w u' : uart_ok u -> generic_raw_uart_tx_queued_unlocked u = Ok (w, u') ->
  lost (drv u') = lost (drv u).
Proof.
  intros Hu. unfold generic_raw_uart_tx_queued_unlocked. intros (u1 & E & Hr)%exec_bind_ok.
  rewrite <- (tx_loop_lost _ _ _ _ Hu E). destruct (tx_connection (inst u1)) as [p|]; [|by injection Hr as <- <-].
  apply exec_bind_ok in Hr as (c & _ & Hr). destruct (_ <=? _); injection Hr as <- <-; [|done].
  apply lost_stop_tx.
Qed.
End NoLoss.

(** ** Receive bursts

    A burst is the sequence of characters the receiver hands over before it is
    found empty, each with the status read for it.  The drivers declare
    [flags] outside their loop and never clear it, so errors accumulate. *)

Fixpoint serve (error : Z -> Z) (flags : Z) (burst : list (Z * Z)) (i : instance)
    `{CB : CircBuf} : instance :=
  match burst with
  | [] => i
  | (status, data) :: burst =>
    let flags := Z.lor flags (error status) in
    serve error flags burst (generic_raw_uart_handle_rx_char flags (u8 data) i)
  end.

(** The characters of a burst before its first break. *)
Fixpoint until_break (error : Z -> Z) (burst : list (Z * Z)) : list (Z * Z) :=
  match burst with
  | [] => []
  | c :: burst => if flagged (error c.1) RX_STATE_BREAK then [] else c :: until_break error burst
  end.

(** What of [data] fits behind [q]. *)
Definition fill (q data : list Z) : list Z := q ++ take (Z.to_nat (rx_capacity - zlen q)) data.

Section Serve.
Context `{CB : CircBuf}.

Lemma serve_ok error burst : forall flags i, rx_ok i -> rx_ok (serve error flags burst i).
Proof.
  induction burst as [|[s d] burst IH]; intros flags i Hi; simpl; [done|].
  by apply IH, handle_rx_char_ok.
Qed.

Lemma fill_cons q d l : zlen q <= rx_capacity ->
  fill (if zlen q =? rx_capacity then q else q ++ [d]) l = fill q (d :: l).
Proof.
  intros Hq. unfold fill. destruct (Z.eqb_spec (zlen q) rx_capacity) as [->|].
  - by rewrite Z.sub_diag.
  - rewrite zlen_app, zlen_cons, zlen_nil, <- app_assoc. f_equal.
    replace (Z.to_nat (rx_capacity - zlen q)) with (S (Z.to_nat (rx_capacity - (zlen q + 1)))) by lia.
    simpl. do 3 f_equal; lia.
Qed.

Lemma flagged_lor a b m : flagged (Z.lor a b) m = flagged a m || flagged b m.
Proof.
  unfold flagged. rewrite Z.land_lor_distr_l.
  destruct (Z.eqb_spec (Z.land a m) 0) as [->|Ha], (Z.eqb_spec (Z.land b m) 0) as [->|Hb]; simpl.
  - done.
  - rewrite Z.lor_0_l. by apply negb_true_iff, Z.eqb_neq.
  - rewrite Z.lor_0_r. by apply negb_true_iff, Z.eqb_neq.
  - apply negb_true_iff, Z.eqb_neq. intros E%Z.lor_eq_0_iff. tauto.
Qed.

(** Once a break was seen, nothing more of the burst is kept. *)
Lemma serve_broken error burst : forall flags i, rx_ok i -> flagged flags RX_STATE_BREAK = true ->
  pending (serve error flags burst i) = pending i.
Proof.
  induction burst as [|[s d] burst IH]; intros flags i Hi Hf; simpl; [done|].
  assert (F : flagged (Z.lor flags (error s)) RX_STATE_BREAK = true) by (by rewrite flagged_lor, Hf).
  rewrite IH by (try apply handle_rx_char_ok; done).
  rewrite handle_rx_char_pending by done. unfold keep. by rewrite F.
Qed.

(** What a burst adds: the characters before its first break, as far as they
    fit; everything from the break on is dropped. *)
Lemma serve_pending error burst : forall flags i, rx_ok i -> flagged flags RX_STATE_BREAK = false ->
  pending (serve error flags burst i) = fill (pending i) (u8 ∘ snd <$> until_break error burst).
Proof.
  induction burst as [|[s d] burst IH]; intros flags i Hi Hf; simpl.
  { unfold fill. by rewrite take_nil, app_nil_r. }
  pose proof (handle_rx_char_ok (Z.lor flags (error s)) (u8 d) i Hi) as Hi'.
  pose proof (handle_rx_char_pending (Z.lor flags (error s)) (u8 d) i Hi) as Hp. unfold keep in Hp.
  rewrite flagged_lor, Hf in Hp. destruct (flagged (error s) RX_STATE_BREAK) eqn:E; simpl in Hp |- *.
  - rewrite serve_broken by (try done; by rewrite flagged_lor, E, orb_true_r).
    rewrite Hp. unfold fill. by rewrite take_nil, app_nil_r.
  - rewrite IH by (try done; by rewrite flagged_lor, Hf, E). rewrite Hp. simpl.
    apply fill_cons. by apply pending_bound.
Qed.

Lemma serve_sender error burst : forall flags i,
  tx_connection (serve error flags burst i) = tx_connection i.
Proof.
  induction burst as [|[s d] burst IH]; intros flags i; simpl; [done|]. rewrite IH.
  unfold generic_raw_uart_handle_rx_char. by repeat (case_match; simpl).
Qed.
End Serve.

(** ** One interrupt

    What an interrupt does to the instance when it serves the receiver ([rx])
    with the burst [b] and the transmitter ([tx]). *)

Section Interrupt.
Context `{CB : CircBuf} {D : Type} `{DR : RawUartDriver D} {DO : RawUartDriverOk D} {FD : FifoDriver D}.

Definition received (error : Z -> Z) (rx : bool) (b : list (Z * Z)) (i : instance) : instance :=
  if rx then generic_raw_uart_rx_completed (serve error RX_STATE_NONE b i) else i.

Definition irq_served (error : Z -> Z) (rx tx : bool) (b : list (Z * Z)) (u : uart D)
    (woken : bool) (u' : uart D) : Prop :=
  let i1 := received error rx b (inst u) in
  uart_ok u' /\ lost (drv u') = lost (drv u) /\
  pending (inst u') =
    (if rx then fill (pending (inst u)) (u8 ∘ snd <$> until_break error b) else pending (inst u)) /\
  match tx_connection (inst u) with
  | Some p => if tx
      then exists c n u1, conns u !! p = Some c /\ inst u1 = i1 /\ conns u1 = conns u /\
             sent (drv u1) = sent (drv u) /\ tx_result p c n woken u1 u'
      else woken = false /\ inst u' = i1 /\ conns u' = conns u /\ sent (drv u') = sent (drv u)
  | None => woken = false /\ inst u' = i1 /\ conns u' = conns u /\ sent (drv u') = sent (drv u)
  end.

Lemma received_sender error rx b i : tx_connection (received error rx b i) = tx_connection i.
Proof.
  destruct rx; simpl; [|done]. unfold generic_raw_uart_rx_completed.
  destruct (dump_traffic _); simpl; apply serve_sender.
Qed.

Lemma received_pending error rx b i : rx_ok i -> pending (received error rx b i) =
  if rx then fill (pending i) (u8 ∘ snd <$> until_break error b) else pending i.
Proof. intros. destruct rx; simpl; [|done]. rewrite rx_completed_pending. by apply serve_pending. Qed.

(** The transmit half, after the receive half left [u1]. *)
Lemma tx_half error rx tx b u u1 : uart_ok u -> rx_ok (inst u) ->
  inst u1 = received error rx b (inst u) -> conns u1 = conns u ->
  sent (drv u1) = sent (drv u) -> lost (drv u1) = lost (drv u) ->
  exists woken u', (if tx : bool then generic_raw_uart_tx_queued u1 else Ok (false, u1)) = Ok (woken, u') /\
    irq_served error rx tx b u woken u'.
Proof.
  intros Hu Hi E1 E2 E3 E4. unfold irq_served. rewrite <- E1.
  assert (Ht : tx_connection (inst u1) = tx_connection (inst u)) by (rewrite E1; apply received_sender).
  assert (Hp := received_pending error rx b (inst u) Hi). rewrite <- E1 in Hp.
  assert (Hu1 : uart_ok u1).
  { destruct Hu as [Hc Hs]. split; [by rewrite E2|]. intros p. rewrite Ht, E2. apply Hs. }
  destruct tx.
  2: { exists false, u1. split; [done|]. rewrite Hp. split_and!; try done. by destruct (tx_connection (inst u)). }
  unfold generic_raw_uart_tx_queued. destruct (tx_connection (inst u)) as [p|] eqn:E.
  - destruct (uart_sender _ Hu _ E) as [c Hc]. rewrite <- E2 in Hc.
    destruct (tx_queued_result u1 p c Hu1 Ht Hc) as (n & w & u' & Hrun & Hu' & R & _).
    exists w, u'. split; [done|]. split_and!; [done|by rewrite (tx_queued_lost _ _ _ Hu1 Hrun)| |].
    + rewrite <- Hp. destruct (txr_inst _ _ _ _ _ _ R) as [k ->]. done.
    + exists c, n, u1. by rewrite <- E2.
  - destruct (tx_queued_idle u1 Ht) as (u' & Hrun & Ei & Ec & Em & Es).
    exists false, u'. split; [done|]. rewrite Ei, Hp. split_and!; try done; [|..].
    + destruct Hu1 as [Hc Hs]. split; [by rewrite Ec|]. intros p. rewrite Ei, Ht. done.
    + by rewrite (tx_queued_lost _ _ _ Hu1 Hrun).
    + congruence.
    + congruence.
Qed.
End Interrupt.

(** ** The hardware *)

(** Width of [unsigned long]. *)
Class Arch := { BITS_PER_LONG : Z; bits_per_long_law : BITS_PER_LONG = 32 \/ BITS_PER_LONG = 64 }.
Definition ulong `{!Arch} (z : Z) : Z := z mod 2 ^ BITS_PER_LONG.

Lemma ulong_small `{!Arch} z : is_word z -> ulong z = z.
Proof.
  unfold ulong, is_word. intros. apply Z.mod_small. destruct bits_per_long_law as [-> | ->]; lia.
Qed.

(** How a UART presents itself: the registers that take and give characters,
    the status register, its two FIFO conditions, whether the status of a
    received character comes with its data, the configuration registers, and
    the writes that leave the receive FIFO alone. *)
Record uart_map := UartMap {
  tx_reg : Z;
  rx_reg : Z;
  status_reg : Z;
  tx_full : Z -> bool;
  rx_empty : Z -> bool;
  status_with_data : bool;
  rx_mask : Z;                      (* status bits of a received character *)
  config : Z -> bool;
  harmless : Z -> Z -> bool         (* value, address *)
}.

(** The documented behaviour of the FIFOs as one call of a driver sees it;
    between two calls the hardware may come into any state.  [given] are the values written
    to the transmit register, [lost] of them when the FIFO was full; [burst] is
    what the receiver will hand over before it is next found empty, as pairs
    of status and data; [reg] are the configuration registers. *)
Class UartHw (H : Type) `{!Platform H} (m : uart_map) := {
  given : H -> list Z;
  losses : H -> Z;
  full : H -> bool;
  burst : H -> list (Z * Z);
  reg : H -> Z -> Z;
  read_tx a h : given (readl a h).2 = given h /\ losses (readl a h).2 = losses h;
  read_reg a h x : reg (readl a h).2 x = reg h x;
  read_config a h : config m a = true -> (readl a h).1 = reg h a;
  read_full h : tx_full m (readl (status_reg m) h).1 = full (readl (status_reg m) h).2;
  read_empty h : rx_empty m (readl (status_reg m) h).1 = bool_decide (burst h = []);
  read_status h s d l : burst h = (s, d) :: l ->
    if status_with_data m then s = d else Z.land (readl (status_reg m) h).1 (rx_mask m) = s;
  read_burst a h : a <> rx_reg m -> burst (readl a h).2 = burst h;
  read_data h s d l : burst h = (s, d) :: l ->
    (readl (rx_reg m) h).1 = d /\ burst (readl (rx_reg m) h).2 = l;
  read_dry h : burst h = [] -> burst (readl (rx_reg m) h).2 = [];
  write_data v h : given (writel v (tx_reg m) h) = given h ++ [v] /\
    losses (writel v (tx_reg m) h) = losses h + b2z (full h) /\
    forall x, reg (writel v (tx_reg m) h) x = reg h x;
  write_other v a h : a <> tx_reg m ->
    given (writel v a h) = given h /\ losses (writel v a h) = losses h;
  write_reg v a h : config m a = true -> reg (writel v a h) a = v;
  write_reg_ne v a h x : x <> a -> reg (writel v a h) x = reg h x;
  write_burst v a h : harmless m v a = true -> burst (writel v a h) = burst h;
  irq_keeps h : given (request_irq h).2 = given h /\ losses (request_irq h).2 = losses h /\
    forall x, reg (request_irq h).2 x = reg h x;
  free_keeps h : given (free_irq h) = given h /\ losses (free_irq h) = losses h
}.

(** One character of a buffer. *)
Lemma slice_one l i : 0 <= i < zlen l -> slice l i 1 = [l @@ i].
Proof.
  unfold zlen, slice. intros Hi. destruct (lookup_lt_is_Some_2 l (Z.to_nat i)) as [x E]; [lia|].
  rewrite (total_of_lookup _ _ _ E). apply drop_S in E. by rewrite E.
Qed.

Section Hardware.
Context {H : Type} `{!Platform H} {m : uart_map} {HW : UartHw H m}.

(** What configuring, polling and receiving leave untouched. *)
Definition line_is (g : list Z) (n : Z) (h : H) : Prop := given h = g /\ losses h = n.

Lemma line_rd g n a : preserves (line_is g n) (rd a).
Proof. intros h [<- <-]. apply read_tx. Qed.
Lemma line_wr g n v a : a <> tx_reg m -> preserves (line_is g n) (wr v a).
Proof. intros Ha h [<- <-]. by apply write_other. Qed.
Lemma line_request g n : preserves (line_is g n) request_irq.
Proof. intros h [<- <-]. by destruct (irq_keeps h) as (? & ? & _). Qed.
Lemma line_free g n : preserves (line_is g n) (modify free_irq).
Proof. intros h [<- <-]. apply free_keeps. Qed.

Lemma preserved_line (c : M H unit) h :
  (forall g n, preserves (line_is g n) c) -> given (c h).2 = given h /\ losses (c h).2 = losses h.
Proof. intros Hp. by apply (Hp (given h) (losses h)). Qed.
End Hardware.

(** ** A driver of such a UART

    It polls the status register before it writes to the transmit register,
    one character at a time, and nothing else it does sends anything. *)
Class SocDriver (H : Type) `{!Platform H} (m : uart_map) {HW : UartHw H m}
    (DR : RawUartDriver H) : Prop := {
  soc_start g n : preserves (line_is g n) start_connection;
  soc_stop h : given (stop_connection h) = given h /\ losses (stop_connection h) = losses h;
  soc_init_tx h : given (init_tx h) = given h /\ losses (init_tx h) = losses h;
  soc_stop_tx h : given (stop_tx h) = given h /\ losses (stop_tx h) = losses h;
  soc_ready h : isready_for_tx h =
    (negb (tx_full m (readl (status_reg m) h).1), (readl (status_reg m) h).2);
  soc_tx h l i n : tx_chars h l i n = writel (l @@ i) (tx_reg m) h;
  soc_reset : reset_radio_module (D := H) = None;
  soc_chunk : 0 < tx_chunk_size < 2 ^ 31;
  soc_bulk : tx_bulktransfer_size = 1
}.

Section SocDriverOk.
Context {H : Type} `{!Platform H} {m : uart_map} {HW : UartHw H m}.
Context (DR : RawUartDriver H) {SD : SocDriver H m DR}.

(** The generic driver's expectations. *)
Definition soc_ok : RawUartDriverOk H.
Proof.
  refine {| sent := given |}; simpl.
  - intros d. rewrite soc_ready. apply read_tx.
  - intros d. apply soc_init_tx.
  - intros d. apply soc_stop_tx.
  - intros d. by apply (soc_start (given d) (losses d)).
  - intros d. apply soc_stop.
  - intros f d. by rewrite soc_reset.
  - intros d l i n Hi Hn Hl. rewrite soc_bulk in Hn. rewrite soc_tx.
    replace n with 1 by lia. rewrite slice_one by lia. apply (write_data (l @@ i) d).
  - apply soc_chunk.
  - by rewrite soc_bulk.
Defined.

(** A character is written only after the FIFO was found not full. *)
Definition soc_fifo : FifoDriver H.
Proof.
  refine {| lost := losses; bulk_single := soc_bulk |}; simpl.
  - intros d. rewrite soc_ready. apply read_tx.
  - intros d. apply soc_stop_tx.
  - intros d. apply soc_init_tx.
  - intros d d' l i. rewrite soc_ready. intros [= Hf <-] _. rewrite soc_tx.
    destruct (write_data (l @@ i) (readl (status_reg m) d).2) as (_ & -> & _).
    rewrite <- read_full. destruct (tx_full m _); [done|]. simpl. lia.
Defined.
End SocDriverOk.

(** Symbolic execution of configuration code. *)
Lemma wp_rd {H} `{!Platform H} a (Q : Z -> H -> Prop) h : Q (readl a h).1 (readl a h).2 -> wp (rd a) Q h.
Proof. done. Qed.
Lemma wp_wr {H} `{!Platform H} v a (Q : unit -> H -> Prop) h : Q tt (writel v a h) -> wp (wr v a) Q h.
Proof. done. Qed.
Lemma wp_here {S A} (c : M S A) (Q : A -> S -> Prop) s : Q (c s).1 (c s).2 -> wp c Q s.
Proof. done. Qed.
Ltac soc_step :=
  lazymatch goal with
  | |- wp request_irq _ _ => apply wp_here
  | |- wp (rd _) _ _ => apply wp_rd
  | |- wp (wr _ _) _ _ => apply wp_wr
  | |- _ => wp_step
  end.
Ltac soc_steps := repeat (soc_step; cbv beta).

(** Closes the goals about commands that send nothing. *)
Ltac line_leaf :=
  idtac; lazymatch goal with
  | |- preserves _ (rd _) => apply line_rd
  | |- preserves _ (wr _ _) => apply line_wr; discriminate
  | |- preserves _ request_irq => apply line_request
  | |- preserves _ (modify free_irq) => apply line_free
  | |- preserves _ (wait_while _ _) => apply wait_preserves
  end.
Ltac line_all := pres line_leaf.

(** ** A UART to run the drivers on

    [norm] makes any pair a status and a character of the UART at hand, [enc]
    builds its status register from the two FIFO conditions. *)

Record sim := Sim {
  s_given : list Z;
  s_losses : Z;
  s_room : Z;                 (* free places of the transmit FIFO *)
  s_burst : list (Z * Z);
  s_reg : Z -> Z;
  s_clk : Z;
  s_irq_rc : Z
}.

Section Simulation.
Context (m : uart_map) (norm : Z * Z -> Z * Z) (enc : bool -> option Z -> Z).

Definition sim_full (h : sim) : bool := s_room h =? 0.
Definition sim_burst (h : sim) : list (Z * Z) := norm <$> s_burst h.

Definition sim_read (a : Z) (h : sim) : Z * sim :=
  if a =? status_reg m then (enc (sim_full h) (fst <$> hd_error (sim_burst h)), h)
  else if a =? rx_reg m then
    match s_burst h with
    | [] => (0, h)
    | c :: l => ((norm c).2, Sim (s_given h) (s_losses h) (s_room h) l (s_reg h) (s_clk h) (s_irq_rc h))
    end
  else (s_reg h a, h).

Definition sim_write (v a : Z) (h : sim) : sim :=
  if a =? tx_reg m then
    Sim (s_given h ++ [v]) (s_losses h + b2z (sim_full h)) (Z.max 0 (s_room h - 1)) (s_burst h)
      (s_reg h) (s_clk h) (s_irq_rc h)
  else Sim (s_given h) (s_losses h) (s_room h) (s_burst h)
         (fun x => if x =? a then v else s_reg h x) (s_clk h) (s_irq_rc h).

Definition sim_platform : Platform sim := {|
  readl := sim_read;
  writel := sim_write;
  request_irq h := (s_irq_rc h, h);
  free_irq h := h;
  clk_get_rate := s_clk;
  patience := 2
|}.

Record sim_sound : Prop := {
  enc_full f o : (forall s, o = Some s -> exists c, s = (norm c).1) -> tx_full m (enc f o) = f;
  enc_empty f o : (forall s, o = Some s -> exists c, s = (norm c).1) ->
    rx_empty m (enc f o) = bool_decide (o = None);
  enc_status f c : if status_with_data m then (norm c).1 = (norm c).2
                   else Z.land (enc f (Some (norm c).1)) (rx_mask m) = (norm c).1;
  rx_not_status : rx_reg m <> status_reg m;
  config_plain a : config m a = true -> a <> status_reg m /\ a <> rx_reg m /\ a <> tx_reg m
}.

Lemma head_normed h s : fst <$> hd_error (sim_burst h) = Some s -> exists c, s = (norm c).1.
Proof. unfold sim_burst. destruct (s_burst h) as [|c l]; [done|]. intros [= <-]. by exists c. Qed.

Definition sim_hw (Hs : sim_sound) : @UartHw sim sim_platform m.
Proof.
  unshelve refine (@Build_UartHw sim sim_platform m s_given s_losses sim_full sim_burst s_reg
    _ _ _ _ _ _ _ _ _ _ _ _ _ _ _ _); simpl.
  - intros a h. unfold sim_read. repeat case_match; done.
  - intros a h x. unfold sim_read. repeat case_match; done.
  - intros a h Ha. destruct (config_plain Hs a Ha) as (N1 & N2 & _). unfold sim_read.
    destruct (Z.eqb_spec a (status_reg m)); [done|]. by destruct (Z.eqb_spec a (rx_reg m)).
  - intros h. unfold sim_read. rewrite Z.eqb_refl. apply (enc_full Hs), head_normed.
  - intros h. unfold sim_read. rewrite Z.eqb_refl. cbn [fst]. rewrite (enc_empty Hs) by apply head_normed.
    apply bool_decide_ext. by destruct (sim_burst h).
  - intros h s d l E. unfold sim_read. rewrite Z.eqb_refl, E. cbn [fst hd_error fmap option_fmap option_map].
    unfold sim_burst in E. destruct (s_burst h) as [|c b]; [done|]. injection E as E _.
    pose proof (enc_status Hs (sim_full h) c) as S. rewrite E in S. exact S.
  - intros a h Ha. unfold sim_read. repeat case_match; try done. by apply Z.eqb_eq in H0.
  - intros h s d l E. unfold sim_read. destruct (Z.eqb_spec (rx_reg m) (status_reg m)); [by destruct (rx_not_status Hs)|].
    rewrite Z.eqb_refl. unfold sim_burst in *. destruct (s_burst h) as [|c b]; [done|]. injection E as E <-.
    simpl. by rewrite E.
  - intros h E. unfold sim_read. destruct (Z.eqb_spec (rx_reg m) (status_reg m)); [done|].
    rewrite Z.eqb_refl. unfold sim_burst in *.
    destruct (s_burst h) eqn:Eb; [simpl; by rewrite Eb | done].
  - intros v h. unfold sim_write. by rewrite Z.eqb_refl.
  - intros v a h Ha. unfold sim_write. by destruct (Z.eqb_spec a (tx_reg m)).
  - intros v a h Ha. destruct (config_plain Hs a Ha) as (_ & _ & N). unfold sim_write.
    destruct (Z.eqb_spec a (tx_reg m)); [done|]. simpl. by rewrite Z.eqb_refl.
  - intros v a h x Hx. unfold sim_write. destruct (a =? tx_reg m); simpl; [done|].
    by destruct (Z.eqb_spec x a).
  - intros v a h _. unfold sim_write, sim_burst. by destruct (a =? tx_reg m).
  - done.
  - done.
Defined.
End Simulation.

Definition arch32 : Arch := {| BITS_PER_LONG := 32; bits_per_long_law := or_introl eq_refl |}.

(** An open file in the middle of sending, over a simulated UART. *)
Definition sending (text : list Z) (h : sim) : uart sim :=
  Uart (set_tx_connection (Some 1%nat) (set_open_count 1 new_instance))
    {[1%nat := Conn (splice (txbuf new_conn) 0 text) (zlen text) 0 0]} h 1.

Lemma sending_ok text h : zlen text <= CON_DATA_TX_BUF_SIZE -> uart_ok (sending text h).
Proof.
  intros Ht. split.
  - apply map_Forall_singleton. pose proof (zlen_nonneg text). destruct new_conn_ok as [Hb _ _].
    split; cbn [txbuf tx_buf_index tx_buf_length]; [|lia..].
    unfold zlen in *. rewrite length_splice; [done|lia|]. unfold zlen. lia.
  - intros p [= <-]. simpl. by rewrite lookup_singleton_eq.
Qed.

Lemma sending_rx_ok text h : rx_ok (inst (sending text h)).
Proof. destruct new_instance_rx_ok. by split. Qed.

(** ** What the module macro adds *)

(** The pointer [generic_raw_uart_probe] returns. *)
Inductive raw_ptr := RawOk | RawErr (e : Z) | RawNull.

(** [__<driver>_probe] around the driver's own probe, whose result and state
    are given: a failing generic probe leaves that state as it is. *)
Definition module_probe {P : Type} (own : Z * P) (raw : raw_ptr) : Z * P :=
  let '(err, p) := own in
  if negb (err =? 0) then (err, p) else
  match raw with RawErr e => (e, p) | RawNull => (0, p) | RawOk => (0, p) end.

(** [__<driver>_remove_le610]; [err] is the result of [generic_raw_uart_remove]. *)
Definition module_remove {P : Type} (err : Z) (remove : P -> Z * P) (p : P) : Z * P :=
  if negb (err =? 0) then (err, p) else remove p.

(** The driver's port structure and the resources the probes take besides:
    [None] when it is not allocated. *)
Record soc := Soc {
  port_irq : option Z;        (* [irq] of the allocated structure *)
  mappings : Z;               (* [ioremap]s *)
  sclk_users : Z;             (* [clk_prepare_enable]s of the clocks *)
  pclk_users : Z;
  out_of_reset : bool
}.
Definition no_soc : soc := Soc None 0 0 0 false.
Definition free_port (s : soc) : soc :=
  Soc None (mappings s) (sclk_users s) (pclk_users s) (out_of_reset s).
