(* ===== verification/Pl011.v ===== *)
(** The driver for ARM PL011 UARTs (src/kernel/pl011_raw_uart.c): its functions,
    the instance of [RawUartDriver] they make, that it keeps the promises the
    generic driver relies on and loses no character, the interrupt handler and
    the configuration of a connection. *)
From S2P Require Import Prelude Kernel Effects Ring RawUart RawUartRx RawUartTx SocUart.

Module Pl011.
(** Registers and bits (linux/amba/serial.h). *)
Definition UART01x_DR : Z := 0x00.
Definition UART01x_FR : Z := 0x18.
Definition UART011_IBRD : Z := 0x24.
Definition UART011_FBRD : Z := 0x28.
Definition UART011_LCRH : Z := 0x2c.
Definition UART011_CR : Z := 0x30.
Definition UART011_IFLS : Z := 0x34.
Definition UART011_IMSC : Z := 0x38.
Definition UART011_MIS : Z := 0x40.
Definition UART011_ICR : Z := 0x44.
Definition UART01x_FR_BUSY : Z := BIT 3.
Definition UART01x_FR_RXFE : Z := BIT 4.
Definition UART01x_FR_TXFF : Z := BIT 5.
Definition UART011_DR_FE : Z := BIT 8.
Definition UART011_DR_PE : Z := BIT 9.
Definition UART011_DR_BE : Z := BIT 10.
Definition UART011_DR_OE : Z := BIT 11.
Definition UART01x_CR_UARTEN : Z := BIT 0.
Definition UART01x_CR_SIREN : Z := BIT 1.
Definition UART01x_CR_IIRLP : Z := BIT 2.
Definition UART011_CR_TXE : Z := BIT 8.
Definition UART011_CR_RXE : Z := BIT 9.
Definition UART011_CR_DTR : Z := BIT 10.
Definition UART011_CR_OUT1 : Z := BIT 12.
Definition UART011_CR_OUT2 : Z := BIT 13.
Definition UART01x_LCRH_FEN : Z := BIT 4.
Definition UART01x_LCRH_WLEN_8 : Z := 0x60.
Definition UART011_IFLS_RX1_8 : Z := 0.
Definition UART011_IFLS_TX2_8 : Z := 1.
Definition UART011_RIMIM : Z := BIT 0.
Definition UART011_DCDMIM : Z := BIT 2.
Definition UART011_DSRMIM : Z := BIT 3.
Definition UART011_RXIM : Z := BIT 4.
Definition UART011_TXIM : Z := BIT 5.
Definition UART011_RTIM : Z := BIT 6.
Definition UART011_FEIM : Z := BIT 7.
Definition UART011_BEIM : Z := BIT 9.
Definition UART011_OEIM : Z := BIT 10.
Definition UART011_RXIS : Z := BIT 4.
Definition UART011_TXIS : Z := BIT 5.
Definition UART011_RTIS : Z := BIT 6.
Definition UART011_TXIC : Z := BIT 5.

Definition TX_CHUNK_SIZE : Z := 11.

(** Writing to these registers does not touch the receive FIFO. *)
Definition map : uart_map := UartMap UART01x_DR UART01x_DR UART01x_FR
  (fun v => has v UART01x_FR_TXFF) (fun v => has v UART01x_FR_RXFE) true 0
  (fun a => existsb (Z.eqb a)
     [UART011_IBRD; UART011_FBRD; UART011_LCRH; UART011_CR; UART011_IFLS; UART011_IMSC])
  (fun _ a => existsb (Z.eqb a) [UART011_ICR; UART011_IMSC]).

Section Driver.
Context {H : Type} `{!Platform H} `{!Arch}.

(** The divisor in 64ths, for a clock of [rate]. *)
Definition bauddiv (rate : Z) : Z := u32 (DIV_ROUND_CLOSEST (ulong (rate * 4)) BAUD).

Definition busy : M H bool :=
  cr ← rd UART011_CR;
  if has cr UART01x_CR_UARTEN then fr ← rd UART01x_FR; mret (has fr UART01x_FR_BUSY) else mret false.

Definition wait_idle : M H unit := _ ← wait_while patience busy; mret tt.

Definition pl011_raw_uart_start_connection : M H Z :=
  h ← get;
  let div := bauddiv (clk_get_rate h) in
  wr (Z.land div 0x3f) UART011_FBRD;;
  wr (Z.shiftr div 6) UART011_IBRD;;
  wr 0 UART011_IMSC;;
  wr 0x7ff UART011_ICR;;
  ret ← request_irq;
  if negb (ret =? 0) then mret ret else
  wait_idle;;
  uart_cr ← rd UART011_CR;
  let uart_cr := Z.ldiff uart_cr (Z.lor (Z.lor (Z.lor (Z.lor UART011_CR_OUT2 UART011_CR_OUT1)
                   UART011_CR_DTR) UART01x_CR_IIRLP) UART01x_CR_SIREN) in
  let uart_cr := Z.ldiff uart_cr UART01x_CR_UARTEN in
  wr uart_cr UART011_CR;;
  wr 0 UART011_LCRH;;
  wr (Z.lor UART011_IFLS_RX1_8 UART011_IFLS_TX2_8) UART011_IFLS;;
  let uart_cr := Z.lor uart_cr (Z.lor UART011_CR_RXE UART011_CR_TXE) in
  wr uart_cr UART011_CR;;
  wr (Z.lor UART01x_LCRH_FEN UART01x_LCRH_WLEN_8) UART011_LCRH;;
  let uart_cr := Z.lor uart_cr UART01x_CR_UARTEN in
  wr uart_cr UART011_CR;;
  wr (Z.lor (Z.lor (Z.lor (Z.lor UART011_OEIM UART011_BEIM) UART011_FEIM) UART011_RTIM)
        UART011_RXIM) UART011_IMSC;;
  mret 0.

Definition pl011_raw_uart_stop_connection : M H unit :=
  wait_idle;;
  wr 0 UART011_CR;;
  wr 0 UART011_IMSC;;
  modify free_irq.

(** The modem status bits, which must be written as 0. *)
Definition ro_bits : Z := Z.lor (Z.lor UART011_DSRMIM UART011_DCDMIM) UART011_RIMIM.

Definition pl011_raw_uart_stop_tx : M H unit :=
  imsc ← rd UART011_IMSC;
  wr (Z.ldiff (Z.ldiff imsc ro_bits) UART011_TXIM) UART011_IMSC.

Definition pl011_raw_uart_isready_for_tx : M H bool :=
  fr ← rd UART01x_FR; mret (negb (has fr UART01x_FR_TXFF)).

Definition pl011_raw_uart_tx_chars (chr : list Z) (index len : Z) : M H unit :=
  wr (chr @@ index) UART01x_DR.

Definition pl011_raw_uart_init_tx : M H unit :=
  wr UART011_TXIC UART011_ICR;;
  imsc ← rd UART011_IMSC;
  wr (Z.lor (Z.ldiff imsc ro_bits) UART011_TXIM) UART011_IMSC.

Definition pl011_raw_uart : RawUartDriver H := {|
  drv_owner := true;
  start_connection := pl011_raw_uart_start_connection;
  stop_connection h := (pl011_raw_uart_stop_connection h).2;
  init_tx h := (pl011_raw_uart_init_tx h).2;
  isready_for_tx := pl011_raw_uart_isready_for_tx;
  tx_chars h chr index len := (pl011_raw_uart_tx_chars chr index len h).2;
  stop_tx h := (pl011_raw_uart_stop_tx h).2;
  get_led_gpio_index := None;
  reset_radio_module := None;
  tx_chunk_size := TX_CHUNK_SIZE;
  tx_bulktransfer_size := 1;
  get_device_type := None
|}.
#[local] Existing Instance pl011_raw_uart.

(** *** Receiving *)

(** The flags a data word adds. *)
Definition rx_error (data : Z) : Z :=
  if has data UART011_DR_BE then RX_STATE_BREAK else
  Z.lor (Z.lor (if has data UART011_DR_PE then RX_STATE_PARITY else 0)
               (if has data UART011_DR_FE then RX_STATE_FRAME else 0))
        (if has data UART011_DR_OE then RX_STATE_OVERRUN else 0).

Context `{CB : CircBuf}.

(** The loop, which ends when the receiver is empty. *)
Fixpoint rx_loop (fuel : nat) (flags : Z) (u : uart H) : exec (uart H) :=
  match fuel with
  | O => NoFuel
  | S fuel =>
    let '(status, h) := readl UART01x_FR (drv u) in
    if has status UART01x_FR_RXFE then Ok (with_drv h u) else
    let '(data, h) := readl UART01x_DR h in
    let flags := Z.lor flags (rx_error data) in
    rx_loop fuel flags (on_inst (generic_raw_uart_handle_rx_char flags (u8 data)) (with_drv h u))
  end.

Definition pl011_raw_uart_rx_chars (fuel : nat) (u : uart H) : exec (uart H) :=
  let? u := rx_loop fuel RX_STATE_NONE u in Ok (on_inst generic_raw_uart_rx_completed u).

(** The answer says whether writers are woken. *)
Definition pl011_raw_uart_irq_handle (fuel : nat) (u : uart H) : exec (bool * uart H) :=
  let '(istat, h) := readl UART011_MIS (drv u) in
  let u := with_drv (writel istat UART011_ICR h) u in
  let? u := if has istat (Z.lor UART011_RXIS UART011_RTIS)
            then pl011_raw_uart_rx_chars fuel u else Ok u in
  if has istat UART011_TXIS then generic_raw_uart_tx_queued u else Ok (false, u).

(** *** Binding *)

Record probe_env := ProbeEnv {
  kzalloc_ok : bool;
  io_resource : bool;         (* platform_get_resource *)
  platform_irq : Z;           (* platform_get_irq: a number or an error *)
  clk_rc : Z                  (* 0 or the error in the pointer of devm_clk_get *)
}.

Definition pl011_raw_uart_probe (e : probe_env) : Z * soc :=
  if negb (kzalloc_ok e) then (- ENOMEM, no_soc) else
  if negb (io_resource e) then (- ENOENT, no_soc) else
  let irq := ulong (platform_irq e) in
  let s := Soc (Some irq) 1 0 0 false in
  if irq <=? 0 then (- ENOENT, free_port s) else
  if negb (clk_rc e =? 0) then (clk_rc e, free_port s) else
  (0, Soc (Some irq) 1 1 0 false).

Definition pl011_raw_uart_remove (s : soc) : Z * soc :=
  (0, Soc None (mappings s) (sclk_users s - 1) (pclk_users s) (out_of_reset s)).
End Driver.

(** ** Against the hardware *)

Section Spec.
Context {H : Type} `{!Platform H} `{!Arch} {HW : UartHw H map}.
#[local] Existing Instance pl011_raw_uart.

Lemma line_wait g n : preserves (line_is g n) (wait_idle (H := H)).
Proof. unfold wait_idle, busy. line_all. Qed.

Lemma pl011_line_start g n : preserves (line_is g n) (pl011_raw_uart_start_connection (H := H)).
Proof. unfold pl011_raw_uart_start_connection, wait_idle, busy. line_all. Qed.

Lemma pl011_line_stop g n : preserves (line_is g n) (pl011_raw_uart_stop_connection (H := H)).
Proof. unfold pl011_raw_uart_stop_connection, wait_idle, busy. line_all. Qed.

Lemma pl011_line_init_tx g n : preserves (line_is g n) (pl011_raw_uart_init_tx (H := H)).
Proof. unfold pl011_raw_uart_init_tx. line_all. Qed.

Lemma pl011_line_stop_tx g n : preserves (line_is g n) (pl011_raw_uart_stop_tx (H := H)).
Proof. unfold pl011_raw_uart_stop_tx. line_all. Qed.

(** A UART driver that polls before it writes. *)
Instance pl011_soc : SocDriver H map pl011_raw_uart.
Proof.
  split; simpl; try done.
  - apply pl011_line_start.
  - intros h. by apply (pl011_line_stop (given h) (losses h)).
  - intros h. by apply (pl011_line_init_tx (given h) (losses h)).
  - intros h. by apply (pl011_line_stop_tx (given h) (losses h)).
  - intros h. unfold pl011_raw_uart_isready_for_tx, rd, mbind, state_bind. by destruct (readl _ h).
Qed.

#[export] Instance pl011_ok : RawUartDriverOk H := soc_ok pl011_raw_uart.
#[export] Instance pl011_fifo : FifoDriver H := soc_fifo pl011_raw_uart.

(** *** Connections *)

Lemma reg_rd x r a : preserves (fun h => reg h x = r) (rd (H := H) a).
Proof. intros h <-. apply read_reg. Qed.

Lemma reg_wait x r : preserves (fun h => reg h x = r) (wait_idle (H := H)).
Proof.
  unfold wait_idle, busy. pres ltac:(idtac; lazymatch goal with
    | |- preserves _ (rd _) => apply reg_rd
    | |- preserves _ (wait_while _ _) => apply wait_preserves end).
Qed.

(** A UART that is busy has a bounded number of polls to go. *)
Definition drains (polls : H -> nat) : Prop :=
  (forall h, (polls h <= pred patience)%nat) /\ (0 < patience)%nat /\
  (forall a h, (polls (readl a h).2 <= polls h)%nat) /\
  (forall h, has (readl UART01x_FR h).1 UART01x_FR_BUSY = true ->
     (polls (readl UART01x_FR h).2 < polls h)%nat).

Lemma busy_polls polls h : drains polls -> (busy h).1 = true -> (polls (busy h).2 < polls h)%nat.
Proof.
  intros (_ & _ & P1 & P2). unfold busy, rd, mbind, state_bind.
  pose proof (P1 UART011_CR h) as L. destruct (readl UART011_CR h) as [cr h1]. cbn [snd] in L.
  destruct (has cr UART01x_CR_UARTEN); [|done]. specialize (P2 h1).
  destruct (readl UART01x_FR h1) as [fr h2]. simpl in *. intros E. specialize (P2 E). lia.
Qed.

Lemma wait_ends polls h : drains polls -> (wait_while patience busy h).1 = true.
Proof.
  intros Hd. pose proof Hd as (P0 & Pp & _). assert (polls h < patience)%nat as Hlt by (pose proof (P0 h); lia).
  revert h Hlt. generalize patience as n. induction n as [|n IH]; intros h Hlt; [lia|].
  cbn [wait_while]. unfold mbind, state_bind. pose proof (busy_polls polls h Hd) as B.
  destruct (busy h) as [b h']. destruct b; [|done]. apply IH. specialize (B eq_refl). simpl in B. lia.
Qed.

(** Read the configuration registers off a sequence of accesses. *)
Ltac regs := rewrite ?read_reg;
  repeat first [rewrite (write_reg (m := map)) by reflexivity
               | rewrite (write_reg_ne (m := map)) by discriminate | rewrite read_reg].

Lemma start_runs h :
  let '(ret, h') := pl011_raw_uart_start_connection h in
  (ret <> 0 -> reg h' UART011_IMSC = 0) /\
  (ret = 0 ->
    reg h' UART011_IMSC = 0x6d0 /\ reg h' UART011_LCRH = 0x70 /\
    (exists cr, reg h' UART011_CR = Z.lor cr 0x301) /\
    reg h' UART011_IBRD = Z.shiftr (bauddiv (clk_get_rate h)) 6 /\
    reg h' UART011_FBRD = Z.land (bauddiv (clk_get_rate h)) 0x3f).
Proof.
  enough (W : wp pl011_raw_uart_start_connection (fun ret h' =>
    (ret <> 0 -> reg h' UART011_IMSC = 0) /\
    (ret = 0 ->
    reg h' UART011_IMSC = 0x6d0 /\ reg h' UART011_LCRH = 0x70 /\
    (exists cr, reg h' UART011_CR = Z.lor cr 0x301) /\
    reg h' UART011_IBRD = Z.shiftr (bauddiv (clk_get_rate h)) 6 /\
    reg h' UART011_FBRD = Z.land (bauddiv (clk_get_rate h)) 0x3f)) h).
  { unfold wp in W. by destruct (pl011_raw_uart_start_connection h). }
  unfold pl011_raw_uart_start_connection. soc_steps.
  set (h1 := writel 0x7ff UART011_ICR _).
  assert (R1 : reg h1 UART011_IMSC = 0 /\ reg h1 UART011_IBRD = Z.shiftr (bauddiv (clk_get_rate h)) 6 /\
    reg h1 UART011_FBRD = Z.land (bauddiv (clk_get_rate h)) 0x3f) by (unfold h1; by regs).
  clearbody h1. destruct (irq_keeps h1) as (_ & _ & K). set (h2 := (request_irq h1).2) in *. clearbody h2.
  destruct (Z.eqb_spec (request_irq h1).1 0) as [->|Hne]; soc_steps.
  2: { split; [|done]. intros _. rewrite K. apply R1. }
  cbn [negb]. apply wp_bind, wp_here. assert (W : forall x, reg (wait_idle h2).2 x = reg h2 x) by (intros x; by apply reg_wait). set (h3 := (wait_idle h2).2) in *. clearbody h3.
  soc_steps. split; [done|]. intros _. split_and!; [by regs|by regs|eexists; regs; by rewrite <- Z.lor_assoc| |];
    regs; rewrite W, K; apply R1.
Qed.

(** Opening a connection masks the interrupts and sets the baud
    rate divisor to the nearest 64th below or above the exact ratio of the
    clock and 115200 baud; if the interrupt is refused they stay masked and the
    error is returned; otherwise the UART is enabled in both directions with
    8N1 framing, FIFOs and the receive interrupts.  The wait for a busy UART
    ends if the UART needs a bounded number of polls. *)
Theorem pl011_connection_started (polls : H -> nat) (h : H) :
  drains polls -> 0 <= clk_get_rate h < 2 ^ 29 ->
  (wait_while patience busy h).1 = true /\
  let '(ret, h') := pl011_raw_uart_start_connection h in
  (ret <> 0 -> reg h' UART011_IMSC = 0) /\
  (ret = 0 ->
    reg h' UART011_IMSC = 0x6d0 /\ reg h' UART011_LCRH = 0x70 /\
    (exists cr, reg h' UART011_CR = Z.lor cr 0x301) /\
    0 <= reg h' UART011_FBRD < 64 /\
    2 * Z.abs ((64 * reg h' UART011_IBRD + reg h' UART011_FBRD) * BAUD - 4 * clk_get_rate h) <= BAUD).
Proof.
  intros Hd Hc. split; [by apply (wait_ends polls)|].
  pose proof (start_runs h) as S. destruct (pl011_raw_uart_start_connection h) as [ret h'].
  destruct S as [S1 S2]. split; [done|]. intros E. destruct (S2 E) as (A & B & C & I & F).
  split_and!; try done.
  - rewrite F. change 0x3f with (2 ^ 6 - 1). rewrite land_pred_pow2 by lia. zdiv_lia.
  - rewrite F. change 0x3f with (2 ^ 6 - 1). rewrite land_pred_pow2 by lia. zdiv_lia.
  - rewrite I, F. change 0x3f with (2 ^ 6 - 1). rewrite land_pred_pow2, Z.shiftr_div_pow2 by lia.
    change (2 ^ 6) with 64. rewrite <- Z.div_mod by lia. unfold bauddiv.
    rewrite ulong_small by (unfold is_word; lia).
    rewrite u32_small; [|unfold is_word, DIV_ROUND_CLOSEST, BAUD; zdiv_lia].
    rewrite (Z.mul_comm (clk_get_rate h)). apply div_round_closest; unfold BAUD; lia.
Qed.

Context `{CB : CircBuf}.

(** The loop ends once per character of the burst and hands each over with the
    errors seen so far. *)
Lemma pl011_rx_loop_serves fuel : forall flags (u : uart H), (length (burst (drv u)) < fuel)%nat ->
  exists h, rx_loop fuel flags u =
      Ok (Uart (serve rx_error flags (burst (drv u)) (inst u)) (conns u) h (module_refs u)) /\
    given h = given (drv u) /\ losses h = losses (drv u).
Proof.
  induction fuel as [|fuel IH]; intros flags u Hf; [lia|]. simpl.
  pose proof (read_empty (m := map) (drv u)) as E. pose proof (read_tx (m := map) UART01x_FR (drv u)) as [G L].
  pose proof (read_burst (m := map) UART01x_FR (drv u) ltac:(discriminate)) as B.
  cbn [status_reg map rx_empty] in E. destruct (readl UART01x_FR (drv u)) as [fr h]. cbn [fst snd] in *.
  rewrite E. case_bool_decide as Hb.
  { exists h. rewrite Hb. done. }
  destruct (burst (drv u)) as [|[s d] l] eqn:Eb; [done|].
  destruct (read_data (m := map) h s d l B) as [D1 D2]. destruct (read_tx (m := map) UART01x_DR h) as [G' L'].
  pose proof (read_status (m := map) h s d l B) as ->. cbn [rx_reg map] in *.
  destruct (readl UART01x_DR h) as [data h']. cbn [fst snd] in *. subst data.
  destruct (IH (Z.lor flags (rx_error d)) (on_inst (generic_raw_uart_handle_rx_char
    (Z.lor flags (rx_error d)) (u8 d)) (with_drv h' u))) as (h'' & Hr & G'' & L'').
  { simpl. rewrite D2. simpl in Hf. lia. }
  simpl in Hr, G'', L''. rewrite D2 in Hr. exists h''. rewrite Hr. split_and!; [done|congruence|congruence].
Qed.

(** C24 (functional). With fuel for the burst the receiver holds, the
    interrupt handler of the PL011 driver ends, touches no freed connection
    and no full FIFO: if the receive bits are set it passes the whole burst to
    the generic driver, of which the characters before the first break enter
    the ring as far as it has room, and if the transmit bit is set it lets the
    generic driver send the next characters of the current message. *)
Theorem pl011_interrupt (fuel : nat) (u : uart H) :
  uart_ok u -> rx_ok (inst u) -> (length (burst (drv u)) < fuel)%nat ->
  let istat := (readl UART011_MIS (drv u)).1 in
  exists woken u', pl011_raw_uart_irq_handle fuel u = Ok (woken, u') /\
    irq_served rx_error (has istat (Z.lor UART011_RXIS UART011_RTIS)) (has istat UART011_TXIS)
      (burst (drv u)) u woken u'.
Proof.
  intros Hu Hi Hf. cbv zeta. unfold pl011_raw_uart_irq_handle.
  pose proof (read_tx (m := map) UART011_MIS (drv u)) as [G L].
  pose proof (read_burst (m := map) UART011_MIS (drv u) ltac:(discriminate)) as B.
  destruct (readl UART011_MIS (drv u)) as [istat h]. cbn [fst snd] in *.
  destruct (write_other (m := map) istat UART011_ICR h ltac:(discriminate)) as [G1 L1].
  pose proof (write_burst (m := map) istat UART011_ICR h eq_refl) as B1.
  set (h1 := writel istat UART011_ICR h) in *.
  destruct (has istat (Z.lor UART011_RXIS UART011_RTIS)).
  - unfold pl011_raw_uart_rx_chars.
    destruct (pl011_rx_loop_serves fuel RX_STATE_NONE (with_drv h1 u)) as (h2 & -> & G2 & L2).
    { simpl. by rewrite B1, B. }
    cbn [exec_bind]. apply tx_half; try done; simpl in *; [by rewrite B1, B|congruence|congruence].
  - cbn [exec_bind]. apply tx_half; try done; simpl; congruence.
Qed.
End Spec.
End Pl011.

(** ** On a simulated UART *)

Module Sample.
Definition norm (c : Z * Z) : Z * Z := (c.2, c.2).
Definition enc (f : bool) (o : option Z) : Z :=
  (if f then Pl011.UART01x_FR_TXFF else 0) +
  match o with None => Pl011.UART01x_FR_RXFE | Some _ => 0 end.

Lemma pl011_sim_sound : sim_sound Pl011.map norm enc.
Proof.
  split.
  - intros [] []; done.
  - intros [] []; done.
  - done.
  - done.
  - intros a. simpl. rewrite !orb_true_iff, !Z.eqb_eq. intros Ha.
    repeat destruct Ha as [-> | Ha]; try done.
Qed.

#[export] Instance platform : Platform sim := sim_platform Pl011.map norm enc.
#[export] Instance hw : UartHw sim Pl011.map := sim_hw Pl011.map norm enc pl011_sim_sound.
#[export] Existing Instances arch32 linux_circ.

(** A 48 MHz UART with [room] free places and a burst of data words. *)
Definition port_with (room : Z) (words : list Z) (mis : Z) : sim :=
  Sim [] 0 room ((fun d => (0, d)) <$> words)
    (fun a => if a =? Pl011.UART011_MIS then mis else 0) 48000000 0.
End Sample.
Import Sample.

Lemma sample_drains : Pl011.drains (fun _ : sim => 0%nat).
Proof.
  split_and!; [intros; simpl; lia | simpl; lia | done |]. intros h. simpl. unfold sim_read, enc. simpl.
  by destruct (sim_full h), (fst <$> hd_error (sim_burst norm h)).
Qed.

Lemma pl011_connection_started_witness :
  let '(ret, h') := Pl011.pl011_raw_uart_start_connection (port_with 16 [] 0) in
  ret = 0 -> reg h' Pl011.UART011_IMSC = 0x6d0.
Proof.
  assert (C : 0 <= clk_get_rate (port_with 16 [] 0) < 2 ^ 29) by (cbn; lia).
  pose proof (Pl011.pl011_connection_started (fun _ => 0%nat) (port_with 16 [] 0) sample_drains C) as T.
  destruct T as [_ T]. revert T.
  destruct (Pl011.pl011_raw_uart_start_connection (port_with 16 [] 0)) as [ret h'].
  intros [_ T] E. apply (T E).
Defined.

(** Ten characters to send into eight places; a break among the received. *)
Lemma pl011_interrupt_witness :
  exists woken u', Pl011.pl011_raw_uart_irq_handle 4 (sending (replicate 10 85)
    (port_with 8 [65; 0x400; 66] 0x30)) = Ok (woken, u') /\
    pending (inst u') = [65] /\ losses (drv u') = 0.
Proof.
  set (u := sending _ _).
  destruct (Pl011.pl011_interrupt 4 u) as (w & u' & E & _ & L & P & _).
  - apply sending_ok. discriminate.
  - apply sending_rx_ok.
  - simpl. lia.
  - exists w, u'. split; [exact E|]. split; [rewrite P; reflexivity | exact L].
Defined.
