(* ===== verification/DwApb.v ===== *)
(** The driver for DesignWare APB UARTs (src/kernel/dw_apb_raw_uart.c): its
    functions, the instance of [RawUartDriver] they make, that it keeps the
    promises the generic driver relies on and loses no character, and the
    interrupt handler. *)
From S2P Require Import Prelude Kernel Effects Ring RawUart RawUartRx RawUartTx SocUart.

Module DwApb.
(** Registers and bits (linux/serial_reg.h and the head of the source file).
    Register 0 is the divisor latch while [UART_LCR_DLAB] is set, which only
    the probe does. *)
Definition UART_RX : Z := 0.
Definition UART_TX : Z := 0.
Definition UART_DLL : Z := 0.
Definition UART_DLM : Z := 1.
Definition UART_IER : Z := 1.
Definition UART_IIR : Z := 2.
Definition UART_FCR : Z := 2.
Definition UART_LCR : Z := 3.
Definition UART_LSR : Z := 5.
Definition UART_IER_RDI : Z := 0x01.
Definition UART_IER_THRI : Z := 0x02.
Definition UART_IIR_NO_INT : Z := 0x01.
Definition UART_IIR_THRI : Z := 0x02.
Definition UART_IIR_RDI : Z := 0x04.
Definition UART_FCR_ENABLE_FIFO : Z := 0x01.
Definition UART_FCR_T_TRIG_01 : Z := 0x10.
Definition UART_LCR_WLEN8 : Z := 0x03.
Definition UART_LCR_SPAR : Z := 0x20.
Definition UART_LCR_DLAB : Z := 0x80.
Definition UART_LSR_DR : Z := 0x01.
Definition UART_LSR_OE : Z := 0x02.
Definition UART_LSR_PE : Z := 0x04.
Definition UART_LSR_FE : Z := 0x08.
Definition UART_LSR_BI : Z := 0x10.
Definition UART_LSR_THRE : Z := 0x20.

Definition TX_CHUNK_SIZE : Z := 9.
Definition DW_UART_USR : Z := 0x1f.
Definition DW_UART_USR_BUSY : Z := 1.
Definition DW_UART_SRR : Z := 0x22.
Definition DW_UART_SRR_UR : Z := 1.
Definition DW_UART_SRR_RFR : Z := Z.shiftl 1 1.
Definition DW_UART_SRR_XFR : Z := Z.shiftl 1 2.
Definition DW_UART_IER_PTIME : Z := Z.shiftl 1 7.
Definition DW_UART_IIR_IID : Z := 0x0f.
Definition DW_UART_IIR_CTO : Z := 0x0c.

Definition DATA_OR_BREAK : Z := Z.lor UART_LSR_DR UART_LSR_BI.

(** The clock framework, for the one clock the driver sets. *)
Class ClockCtl (H : Type) := {
  clk_round_rate : Z -> H -> Z;
  clk_set_rate : Z -> H -> H;
  clk_prepare_enable : H -> H;
  clk_disable_unprepare : H -> H
}.

Section Driver.
Context {H : Type} `{!Platform H} `{!Arch} (regshift : Z).

Definition addr (offset : Z) : Z := Z.shiftl offset regshift.

Definition dw_apb_raw_uart_writeb (value offset : Z) : M H unit := wr value (addr offset).
Definition dw_apb_raw_uart_readb (offset : Z) : M H Z := rd (addr offset).

(** [while (tries--)] of [dw_apb_raw_uart_write_lcr]. *)
Fixpoint write_lcr_loop (tries : nat) (value : Z) : M H unit :=
  match tries with
  | O => mret tt
  | S tries =>
    v ← dw_apb_raw_uart_readb UART_LCR;
    if Z.ldiff v UART_LCR_SPAR =? Z.ldiff value UART_LCR_SPAR then mret tt else
    dw_apb_raw_uart_writeb (Z.lor DW_UART_SRR_RFR DW_UART_SRR_XFR) DW_UART_SRR;;
    _ ← dw_apb_raw_uart_readb UART_RX;
    dw_apb_raw_uart_writeb value UART_LCR;;
    write_lcr_loop tries value
  end.

Definition dw_apb_raw_uart_write_lcr (value : Z) : M H unit :=
  dw_apb_raw_uart_writeb value UART_LCR;;
  v ← dw_apb_raw_uart_readb UART_LCR;
  if Z.ldiff v UART_LCR_SPAR =? Z.ldiff value UART_LCR_SPAR then mret tt else
  write_lcr_loop 1000 value.

(** The divisor for a baud clock of [rate]. *)
Definition divisor (rate : Z) : Z := s32 (DIV_ROUND_CLOSEST (ulong rate) (BAUD * 16)).

Definition dw_apb_raw_uart_init_uart `{!ClockCtl H} : M H unit :=
  dw_apb_raw_uart_writeb DW_UART_SRR_UR DW_UART_SRR;;
  h ← get;
  let rate := clk_round_rate (BAUD * 16) h in
  modify clk_disable_unprepare;;
  modify (clk_set_rate rate);;
  modify clk_prepare_enable;;
  h ← get;
  let div := divisor (clk_get_rate h) in
  dw_apb_raw_uart_write_lcr UART_LCR_DLAB;;
  dw_apb_raw_uart_writeb (Z.land div 0xff) UART_DLL;;
  dw_apb_raw_uart_writeb (Z.land (Z.shiftr div 8) 0xff) UART_DLM;;
  dw_apb_raw_uart_write_lcr UART_LCR_WLEN8.

Definition dw_apb_raw_uart_start_connection : M H Z :=
  dw_apb_raw_uart_writeb DW_UART_IER_PTIME UART_IER;;
  dw_apb_raw_uart_writeb 0 UART_FCR;;
  ret ← request_irq;
  if negb (ret =? 0) then mret ret else
  dw_apb_raw_uart_writeb (Z.lor UART_IER_RDI DW_UART_IER_PTIME) UART_IER;;
  dw_apb_raw_uart_writeb (Z.lor UART_FCR_ENABLE_FIFO UART_FCR_T_TRIG_01) UART_FCR;;
  mret 0.

Definition busy : M H bool :=
  usr ← dw_apb_raw_uart_readb DW_UART_USR; mret (has usr DW_UART_USR_BUSY).

Definition dw_apb_raw_uart_stop_connection : M H unit :=
  _ ← wait_while patience busy;
  dw_apb_raw_uart_writeb 0 UART_IER;;
  modify free_irq;;
  dw_apb_raw_uart_writeb 0 UART_FCR.

Definition dw_apb_raw_uart_stop_tx : M H unit :=
  dw_apb_raw_uart_writeb (Z.lor UART_IER_RDI DW_UART_IER_PTIME) UART_IER.

(** With [DW_UART_IER_PTIME] the bit says that the FIFO is full. *)
Definition dw_apb_raw_uart_isready_for_tx : M H bool :=
  lsr ← dw_apb_raw_uart_readb UART_LSR; mret (negb (has lsr UART_LSR_THRE)).

Definition dw_apb_raw_uart_tx_chars (chr : list Z) (index len : Z) : M H unit :=
  dw_apb_raw_uart_writeb (chr @@ index) UART_TX.

Definition dw_apb_raw_uart_init_tx : M H unit :=
  dw_apb_raw_uart_writeb (Z.lor (Z.lor UART_IER_RDI DW_UART_IER_PTIME) UART_IER_THRI) UART_IER.

Definition dw_apb_raw_uart : RawUartDriver H := {|
  drv_owner := true;
  start_connection := dw_apb_raw_uart_start_connection;
  stop_connection h := (dw_apb_raw_uart_stop_connection h).2;
  init_tx h := (dw_apb_raw_uart_init_tx h).2;
  isready_for_tx := dw_apb_raw_uart_isready_for_tx;
  tx_chars h chr index len := (dw_apb_raw_uart_tx_chars chr index len h).2;
  stop_tx h := (dw_apb_raw_uart_stop_tx h).2;
  get_led_gpio_index := None;
  reset_radio_module := None;
  tx_chunk_size := TX_CHUNK_SIZE;
  tx_bulktransfer_size := 1;
  get_device_type := None
|}.
#[local] Existing Instance dw_apb_raw_uart.

(** *** Receiving *)

Definition rx_error (status : Z) : Z :=
  if has status UART_LSR_BI then RX_STATE_BREAK else
  Z.lor (Z.lor (if has status UART_LSR_PE then RX_STATE_PARITY else 0)
               (if has status UART_LSR_FE then RX_STATE_FRAME else 0))
        (if has status UART_LSR_OE then RX_STATE_OVERRUN else 0).

Context `{CB : CircBuf}.

(** The loop; [status] was read before. *)
Fixpoint rx_loop (fuel : nat) (flags status : Z) (u : uart H) : exec (uart H) :=
  match fuel with
  | O => NoFuel
  | S fuel =>
    if negb (has status DATA_OR_BREAK) then Ok u else
    let flags := Z.lor flags (rx_error status) in
    let '(data, h) := dw_apb_raw_uart_readb UART_RX (drv u) in
    let u := on_inst (generic_raw_uart_handle_rx_char flags (u8 data)) (with_drv h u) in
    let '(status, h) := dw_apb_raw_uart_readb UART_LSR (drv u) in
    rx_loop fuel flags status (with_drv h u)
  end.

Definition dw_apb_raw_uart_rx_chars (fuel : nat) (u : uart H) : exec (uart H) :=
  let '(status, h) := dw_apb_raw_uart_readb UART_LSR (drv u) in
  let? u := rx_loop fuel RX_STATE_NONE status (with_drv h u) in
  Ok (on_inst generic_raw_uart_rx_completed u).

Definition dw_apb_raw_uart_irq_handle (fuel : nat) (u : uart H) : exec (bool * uart H) :=
  let '(iir, h) := dw_apb_raw_uart_readb UART_IIR (drv u) in
  let u := with_drv h u in
  let iid := Z.land iir DW_UART_IIR_IID in
  if iid =? DW_UART_IIR_CTO then
    let '(status, h) := dw_apb_raw_uart_readb UART_LSR (drv u) in
    let h := if negb (has status DATA_OR_BREAK) then (dw_apb_raw_uart_readb UART_RX h).2 else h in
    let? u := dw_apb_raw_uart_rx_chars fuel (with_drv h u) in Ok (false, u)
  else if iid =? UART_IIR_RDI then
    let? u := dw_apb_raw_uart_rx_chars fuel u in Ok (false, u)
  else if iid =? UART_IIR_THRI then generic_raw_uart_tx_queued u
  else Ok (false, u).

(** *** Binding *)

(** Error codes in the pointers the clock and reset frameworks return, 0 for
    a valid one; [baud_clk_rc] is for "baudclk", [clk_rc] for the fallback. *)
Record probe_env := ProbeEnv {
  kzalloc_ok : bool;
  io_resource : bool;
  platform_irq : Z;
  baud_clk_rc : Z;
  clk_rc : Z;
  pclk_rc : Z;
  rst_rc : Z
}.

(** Without the register accesses of [dw_apb_raw_uart_init_uart]. *)
Definition dw_apb_raw_uart_probe (e : probe_env) : Z * soc :=
  if negb (kzalloc_ok e) then (- ENOMEM, no_soc) else
  if negb (io_resource e) then (- ENOENT, no_soc) else
  let irq := ulong (platform_irq e) in
  let s := Soc (Some irq) 1 0 0 false in
  if irq <=? 0 then (- ENOENT, free_port s) else
  let sclk := if negb (baud_clk_rc e =? 0) && negb (baud_clk_rc e =? - EPROBE_DEFER)
              then clk_rc e else baud_clk_rc e in
  if negb (sclk =? 0) then (sclk, free_port s) else
  let s := Soc (Some irq) 1 1 0 false in
  let sclk_off s := Soc (port_irq s) (mappings s) (sclk_users s - 1) (pclk_users s) (out_of_reset s) in
  if pclk_rc e =? - EPROBE_DEFER then (- EPROBE_DEFER, free_port (sclk_off s)) else
  let s := Soc (Some irq) 1 1 (b2z (pclk_rc e =? 0)) false in
  if rst_rc e =? - EPROBE_DEFER then (- EPROBE_DEFER, free_port (sclk_off s)) else
  (0, Soc (Some irq) 1 1 (b2z (pclk_rc e =? 0)) (rst_rc e =? 0)).

(** [pclk_rc] and [rst_rc]: the pointers kept by the probe. *)
Definition dw_apb_raw_uart_remove (pclk_rc rst_rc : Z) (s : soc) : Z * soc :=
  (0, Soc None (mappings s) (sclk_users s - 1)
        (if pclk_rc =? 0 then pclk_users s - 1 else pclk_users s)
        (if rst_rc =? 0 then false else out_of_reset s)).
End Driver.

(** ** Against the hardware *)

(** The registers at their place; no write of the interrupt path touches the
    receive FIFO. *)
Definition map (regshift : Z) : uart_map := UartMap (addr regshift UART_TX) (addr regshift UART_RX)
  (addr regshift UART_LSR) (fun v => has v UART_LSR_THRE) (fun v => negb (has v DATA_OR_BREAK)) false 0x1f
  (fun a => a =? addr regshift UART_IER) (fun _ a => a =? addr regshift UART_IER).

Section Spec.
Context {H : Type} `{!Platform H} `{!Arch} (regshift : Z) (Hshift : 0 <= regshift).
Context {HW : UartHw H (map regshift)}.
#[local] Instance driver : RawUartDriver H := dw_apb_raw_uart regshift.

Lemma addr_ne a b : a <> b -> addr regshift a <> addr regshift b.
Proof.
  unfold addr. intros N E. apply N. rewrite !Z.shiftl_mul_pow2 in E by done.
  apply Z.mul_cancel_r in E; [done|]. lia.
Qed.

Ltac port_all := unfold busy, dw_apb_raw_uart_writeb, dw_apb_raw_uart_readb;
  pres ltac:(idtac; lazymatch goal with
    | |- preserves _ (wr _ _) => apply line_wr, addr_ne; discriminate
    | |- _ => line_leaf
    end).

Lemma dw_apb_line_start g n : preserves (line_is g n) (dw_apb_raw_uart_start_connection (H := H) regshift).
Proof. unfold dw_apb_raw_uart_start_connection. port_all. Qed.

Lemma dw_apb_line_stop g n : preserves (line_is g n) (dw_apb_raw_uart_stop_connection (H := H) regshift).
Proof. unfold dw_apb_raw_uart_stop_connection. port_all. Qed.

Lemma dw_apb_line_init_tx g n : preserves (line_is g n) (dw_apb_raw_uart_init_tx (H := H) regshift).
Proof. unfold dw_apb_raw_uart_init_tx. port_all. Qed.

Lemma dw_apb_line_stop_tx g n : preserves (line_is g n) (dw_apb_raw_uart_stop_tx (H := H) regshift).
Proof. unfold dw_apb_raw_uart_stop_tx. port_all. Qed.

(** A UART driver that polls before it writes. *)
Instance dw_apb_soc : SocDriver H (map regshift) driver.
Proof.
  split; simpl; try done.
  - apply dw_apb_line_start.
  - intros h. by apply (dw_apb_line_stop (given h) (losses h)).
  - intros h. by apply (dw_apb_line_init_tx (given h) (losses h)).
  - intros h. by apply (dw_apb_line_stop_tx (given h) (losses h)).
  - intros h. unfold dw_apb_raw_uart_isready_for_tx, dw_apb_raw_uart_readb, rd, mbind, state_bind. by destruct (readl _ h).
Qed.

#[export] Instance dw_apb_ok : RawUartDriverOk H := soc_ok driver.
#[export] Instance dw_apb_fifo : FifoDriver H := soc_fifo driver.

Context `{CB : CircBuf}.

Lemma dw_apb_has_mask v b : Z.land b 0x1f = b -> has (Z.land v 0x1f) b = has v b.
Proof. unfold has. intros E. by rewrite <- Z.land_assoc, (Z.land_comm 0x1f), E. Qed.

Lemma dw_apb_rx_error_mask v : rx_error (Z.land v 0x1f) = rx_error v.
Proof. unfold rx_error. by rewrite !dw_apb_has_mask. Qed.

(** What reading the status register tells. *)
Lemma read_lsr h : let '(status, h') := readl (addr regshift UART_LSR) h in
  burst h' = burst h /\ given h' = given h /\ losses h' = losses h /\
  negb (has status DATA_OR_BREAK) = bool_decide (burst h = []) /\
  forall s d l, burst h = (s, d) :: l -> rx_error s = rx_error status.
Proof.
  pose proof (read_empty (m := map regshift) h) as E. pose proof (read_tx (m := map regshift) (addr regshift UART_LSR) h) as [G L].
  pose proof (read_burst (m := map regshift) (addr regshift UART_LSR) h ltac:(by apply addr_ne)) as B.
  pose proof (read_status (m := map regshift) h) as S. cbn [status_reg map rx_empty status_with_data rx_mask] in *.
  destruct (readl (addr regshift UART_LSR) h) as [status h']. cbn [fst snd] in *. split_and!; try done.
  intros s d l Eb. rewrite <- (S s d l Eb). apply dw_apb_rx_error_mask.
Qed.

Lemma dw_apb_rx_loop_serves fuel : forall flags status (u : uart H), (length (burst (drv u)) < fuel)%nat ->
  negb (has status DATA_OR_BREAK) = bool_decide (burst (drv u) = []) ->
  (forall s d l, burst (drv u) = (s, d) :: l -> rx_error s = rx_error status) ->
  exists h, rx_loop regshift fuel flags status u =
      Ok (Uart (serve rx_error flags (burst (drv u)) (inst u)) (conns u) h (module_refs u)) /\
    given h = given (drv u) /\ losses h = losses (drv u).
Proof.
  induction fuel as [|fuel IH]; intros flags status u Hf He Hs; [lia|]. simpl.
  rewrite He. case_bool_decide as Hb.
  { exists (drv u). rewrite Hb. by destruct u. }
  destruct (burst (drv u)) as [|[s d] l] eqn:Eb; [done|]. specialize (Hs s d l eq_refl).
  destruct (read_data (m := map regshift) (drv u) s d l Eb) as [D1 D2].
  destruct (read_tx (m := map regshift) (addr regshift UART_RX) (drv u)) as [G' L'].
  unfold dw_apb_raw_uart_readb, rd. cbn [rx_reg map] in *.
  destruct (readl (addr regshift UART_RX) (drv u)) as [data h1]. cbn [fst snd] in *. subst data.
  pose proof (read_lsr h1) as R. simpl. destruct (readl (addr regshift UART_LSR) h1) as [status' h2].
  destruct R as (R1 & R2 & R3 & R4 & R5). rewrite D2 in *.
  edestruct (IH (Z.lor flags (rx_error status)) status' (with_drv h2 (on_inst (generic_raw_uart_handle_rx_char
    (Z.lor flags (rx_error status)) (u8 d)) (with_drv h1 u)))) as (h & Hr & G'' & L''); simpl in *;
    rewrite ?R1 in *; [lia|done|done|].
  exists h. rewrite Hr, Hs. split_and!; [done|congruence|congruence].
Qed.

Lemma rx_chars_serves fuel (u : uart H) : (length (burst (drv u)) < fuel)%nat ->
  exists h, dw_apb_raw_uart_rx_chars regshift fuel u =
      Ok (Uart (received rx_error true (burst (drv u)) (inst u)) (conns u) h (module_refs u)) /\
    given h = given (drv u) /\ losses h = losses (drv u).
Proof.
  intros Hf. unfold dw_apb_raw_uart_rx_chars, dw_apb_raw_uart_readb, rd.
  pose proof (read_lsr (drv u)) as R. destruct (readl (addr regshift UART_LSR) (drv u)) as [status h1].
  destruct R as (R1 & R2 & R3 & R4 & R5).
  destruct (dw_apb_rx_loop_serves fuel RX_STATE_NONE status (with_drv h1 u)) as (h & -> & G & L); simpl in *;
    rewrite ?R1 in *; [done..|].
  exists h. cbn [exec_bind]. split_and!; [done|congruence|congruence].
Qed.

(** With fuel for the burst the receiver holds, the
    interrupt handler of the DesignWare driver ends, touches no freed
    connection and no full FIFO.  The interrupt identification decides: on
    received data and on a character time-out it passes the burst to the
    generic driver, of which the characters before the first break enter the
    ring as far as it has room; on an empty transmitter it lets the generic
    driver send the next characters; on anything else it does nothing. *)
Theorem dw_apb_interrupt (fuel : nat) (u : uart H) :
  uart_ok u -> rx_ok (inst u) -> (length (burst (drv u)) < fuel)%nat ->
  let iid := Z.land (readl (addr regshift UART_IIR) (drv u)).1 DW_UART_IIR_IID in
  exists woken u', dw_apb_raw_uart_irq_handle regshift fuel u = Ok (woken, u') /\
    irq_served rx_error ((iid =? DW_UART_IIR_CTO) || (iid =? UART_IIR_RDI)) (iid =? UART_IIR_THRI)
      (burst (drv u)) u woken u'.
Proof.
  intros Hu Hi Hf. cbv zeta. unfold dw_apb_raw_uart_irq_handle, dw_apb_raw_uart_readb, rd.
  pose proof (read_tx (m := map regshift) (addr regshift UART_IIR) (drv u)) as [G L].
  pose proof (read_burst (m := map regshift) (addr regshift UART_IIR) (drv u) ltac:(by apply addr_ne)) as B.
  destruct (readl (addr regshift UART_IIR) (drv u)) as [iir h]. cbn [fst snd] in *.
  set (iid := Z.land iir DW_UART_IIR_IID).
  destruct (Z.eqb_spec iid DW_UART_IIR_CTO) as [E|_]; simpl.
  - pose proof (read_lsr h) as R. destruct (readl (addr regshift UART_LSR) h) as [status h1].
    destruct R as (R1 & R2 & R3 & R4 & _). rewrite R4. set (h2 := if bool_decide _ then _ else _).
    assert (Hh2 : burst h2 = burst (drv u) /\ given h2 = given (drv u) /\ losses h2 = losses (drv u)).
    { unfold h2. case_bool_decide as Hb; [|split_and!; congruence].
      destruct (read_tx (m := map regshift) (addr regshift UART_RX) h1) as [G1 L1].
      rewrite <- R1 in Hb. pose proof (read_dry (m := map regshift) h1 Hb) as D. simpl in D.
      split_and!; congruence. }
    clearbody h2. destruct Hh2 as (B2 & G2 & L2).
    destruct (rx_chars_serves fuel (with_drv h2 (with_drv h u))) as (h3 & -> & G3 & L3); [simpl; by rewrite B2|].
    cbn [exec_bind]. simpl in *. rewrite E. apply (tx_half rx_error true false); try done; simpl; congruence.
  - destruct (Z.eqb_spec iid UART_IIR_RDI) as [E|_].
    + destruct (rx_chars_serves fuel (with_drv h u)) as (h3 & -> & G3 & L3); [simpl; by rewrite B|].
      cbn [exec_bind]. simpl in *. rewrite E. apply (tx_half rx_error true false); try done; simpl; congruence.
    + apply (tx_half rx_error false (iid =? UART_IIR_THRI)); try done; simpl; congruence.
Qed.
End Spec.
End DwApb.

(** ** On a simulated UART *)

Module DwSample.
Definition norm (c : Z * Z) : Z * Z := (Z.lor (Z.land c.1 0x1f) DwApb.UART_LSR_DR, c.2).
Definition enc (f : bool) (o : option Z) : Z :=
  Z.lor (if f then DwApb.UART_LSR_THRE else 0) (default 0 o).

Lemma dw_apb_norm_land c : Z.land (norm c).1 0x1f = (norm c).1.
Proof. simpl. by rewrite Z.land_lor_distr_l, <- Z.land_assoc. Qed.

Lemma norm_thre c : has (norm c).1 DwApb.UART_LSR_THRE = false.
Proof. unfold has. rewrite <- dw_apb_norm_land, <- Z.land_assoc. simpl. by rewrite Z.land_0_r. Qed.

Lemma norm_data c : has (norm c).1 DwApb.DATA_OR_BREAK = true.
Proof.
  change (flagged (norm c).1 DwApb.DATA_OR_BREAK = true). simpl. rewrite flagged_lor. apply orb_true_r.
Qed.

Lemma dw_apb_sim_sound : sim_sound (DwApb.map 2) norm enc.
Proof.
  split; cbn [tx_full rx_empty status_with_data rx_mask DwApb.map].
  - intros f o Ho. change (flagged (enc f o) DwApb.UART_LSR_THRE = f). unfold enc. rewrite flagged_lor.
    destruct o as [s|]; cbn [default from_option id]; [|by destruct f]. destruct (Ho s eq_refl) as [c ->].
    change (flagged (norm c).1 DwApb.UART_LSR_THRE) with (has (norm c).1 DwApb.UART_LSR_THRE).
    rewrite norm_thre. by destruct f.
  - intros f o Ho. change (negb (flagged (enc f o) DwApb.DATA_OR_BREAK) = bool_decide (o = None)).
    unfold enc. rewrite flagged_lor. destruct o as [s|]; cbn [default from_option id]; [|by destruct f].
    destruct (Ho s eq_refl) as [c ->].
    change (flagged (norm c).1 DwApb.DATA_OR_BREAK) with (has (norm c).1 DwApb.DATA_OR_BREAK).
    rewrite norm_data. by destruct f.
  - intros f c. unfold enc. cbn [default from_option id]. rewrite Z.land_lor_distr_l.
    rewrite dw_apb_norm_land. by destruct f.
  - done.
  - intros a Ha%Z.eqb_eq. subst. by split_and!.
Qed.

#[export] Instance platform : Platform sim := sim_platform (DwApb.map 2) norm enc.
#[export] Instance hw : UartHw sim (DwApb.map 2) := sim_hw (DwApb.map 2) norm enc dw_apb_sim_sound.
#[export] Existing Instances arch32 linux_circ.

(** A UART with [room] free places, a burst and an interrupt identification. *)
Definition port_with (room : Z) (b : list (Z * Z)) (iir : Z) : sim :=
  Sim [] 0 room b (fun a => if a =? DwApb.addr 2 DwApb.UART_IIR then iir else 0) 1843200 0.
End DwSample.
Import DwSample.

Lemma dw_apb_interrupt_witness :
  exists woken u', DwApb.dw_apb_raw_uart_irq_handle 2 4 (sending (replicate 10 85)
    (port_with 8 [(1, 65); (4, 66); (0x10, 0); (1, 67)] 0xc4) : uart sim) = NoFuel /\
  DwApb.dw_apb_raw_uart_irq_handle 2 5 (sending (replicate 10 85)
    (port_with 8 [(1, 65); (4, 66); (0x10, 0); (1, 67)] 0xc4) : uart sim) = Ok (woken, u') /\
    pending (inst u') = [65; 66] /\ losses (drv u') = 0.
Proof.
  set (u := sending _ _).
  destruct (DwApb.dw_apb_interrupt 2 ltac:(lia) 5 u) as (w & u' & E & _ & L & P & _).
  - apply sending_ok. discriminate.
  - apply sending_rx_ok.
  - simpl. lia.
  - exists w, u'. split; [reflexivity|]. split; [exact E|]. split; [rewrite P; reflexivity | exact L].
Defined.
