(* ===== verification/Meson.v ===== *)
(** The driver for Amlogic Meson UARTs (src/kernel/meson_raw_uart.c): its
    functions, the instance of [RawUartDriver] they make, that it keeps the
    promises the generic driver relies on and loses no character, the baud rate
    and the interrupt handler. *)
From S2P Require Import Prelude Kernel Effects Ring RawUart RawUartRx RawUartTx SocUart.

Module Meson.
Definition TX_CHUNK_SIZE : Z := 11.
Definition MESON_WFIFO : Z := 0x00.
Definition MESON_RFIFO : Z := 0x04.
Definition MESON_CONTROL : Z := 0x08.
Definition MESON_STATUS : Z := 0x0c.
Definition MESON_MISC : Z := 0x10.
Definition MESON_REG5 : Z := 0x14.
Definition MESON_TX_FULL : Z := BIT 21.
Definition MESON_RX_EMPTY : Z := BIT 20.
Definition MESON_RX_EN : Z := BIT 13.
Definition MESON_TX_EN : Z := BIT 12.
Definition MESON_TX_INT_EN : Z := BIT 28.
Definition MESON_RX_INT_EN : Z := BIT 27.
Definition MESON_TX_INT_TRESH : Z := Z.shiftl 8 8.
Definition MESON_RX_INT_TRESH : Z := 1.
Definition MESON_CLEAR_ERROR : Z := BIT 24.
Definition MESON_PARITY_ERR : Z := BIT 16.
Definition MESON_FRAME_ERR : Z := BIT 17.
Definition MESON_OVERRUN_ERR : Z := BIT 24.
Definition MESON_RX_RST : Z := BIT 23.
Definition MESON_TX_RST : Z := BIT 22.

Section Driver.
Context {H : Type} `{!Platform H} `{!Arch}.

(** The value of [MESON_REG5] for a clock of [clkrate]. *)
Definition baud_register (clkrate : Z) : Z :=
  Z.lor
    (if clkrate =? 24000000
     then Z.lor (ulong (ulong clkrate / 3 / BAUD - 1)) (BIT 24)
     else ulong ((ulong (clkrate * 10) / (BAUD * 4) + 5) / 10 - 1))
    (BIT 23).

Definition RESETS : Z := Z.lor (Z.lor MESON_CLEAR_ERROR MESON_RX_RST) MESON_TX_RST.

Definition meson_raw_uart_start_connection : M H Z :=
  val ← rd MESON_CONTROL;
  let val := Z.lor val RESETS in
  wr val MESON_CONTROL;;
  let val := Z.ldiff val RESETS in
  wr val MESON_CONTROL;;
  let val := Z.lor val (Z.lor MESON_RX_EN MESON_TX_EN) in
  wr val MESON_CONTROL;;
  let val := Z.lor (Z.ldiff val (Z.shiftl 0x3f 16)) (BIT 15) in
  wr val MESON_CONTROL;;
  let val := Z.lor val MESON_RX_INT_EN in
  wr val MESON_CONTROL;;
  wr (Z.lor MESON_RX_INT_TRESH MESON_TX_INT_TRESH) MESON_MISC;;
  h ← get;
  wr (u32 (baud_register (clk_get_rate h))) MESON_REG5;;
  request_irq.

Definition meson_raw_uart_stop_connection : M H unit :=
  wr 0 MESON_CONTROL;;
  wr 0 MESON_MISC;;
  modify free_irq.

Definition meson_raw_uart_stop_tx : M H unit :=
  control ← rd MESON_CONTROL;
  wr (Z.ldiff control MESON_TX_INT_EN) MESON_CONTROL.

Definition meson_raw_uart_isready_for_tx : M H bool :=
  status ← rd MESON_STATUS; mret (negb (has status MESON_TX_FULL)).

Definition meson_raw_uart_tx_chars (chr : list Z) (index len : Z) : M H unit :=
  wr (chr @@ index) MESON_WFIFO.

Definition meson_raw_uart_init_tx : M H unit :=
  control ← rd MESON_CONTROL;
  wr (Z.lor control MESON_TX_INT_EN) MESON_CONTROL.

Definition meson_raw_uart : RawUartDriver H := {|
  drv_owner := true;
  start_connection := meson_raw_uart_start_connection;
  stop_connection h := (meson_raw_uart_stop_connection h).2;
  init_tx h := (meson_raw_uart_init_tx h).2;
  isready_for_tx := meson_raw_uart_isready_for_tx;
  tx_chars h chr index len := (meson_raw_uart_tx_chars chr index len h).2;
  stop_tx h := (meson_raw_uart_stop_tx h).2;
  get_led_gpio_index := None;
  reset_radio_module := None;
  tx_chunk_size := TX_CHUNK_SIZE;
  tx_bulktransfer_size := 1;
  get_device_type := None
|}.
#[local] Existing Instance meson_raw_uart.

(** *** Receiving *)

Definition rx_error (status : Z) : Z :=
  Z.lor (Z.lor (if has status MESON_PARITY_ERR then RX_STATE_PARITY else 0)
               (if has status MESON_FRAME_ERR then RX_STATE_FRAME else 0))
        (if has status MESON_OVERRUN_ERR then RX_STATE_OVERRUN else 0).

(** Resets the error bits of the status register. *)
Definition clear_error : M H unit :=
  control ← rd MESON_CONTROL;
  let control := Z.lor control MESON_CLEAR_ERROR in
  wr control MESON_CONTROL;;
  wr (Z.ldiff control MESON_CLEAR_ERROR) MESON_CONTROL.

Context `{CB : CircBuf}.

Fixpoint rx_loop (fuel : nat) (flags : Z) (u : uart H) : exec (uart H) :=
  match fuel with
  | O => NoFuel
  | S fuel =>
    let '(status, h) := readl MESON_STATUS (drv u) in
    if has status MESON_RX_EMPTY then Ok (with_drv h u) else
    let '(data, h) := readl MESON_RFIFO h in
    let flags := Z.lor flags (rx_error status) in
    let h := if negb (flags =? RX_STATE_NONE) then (clear_error h).2 else h in
    rx_loop fuel flags (on_inst (generic_raw_uart_handle_rx_char flags (u8 data)) (with_drv h u))
  end.

Definition meson_raw_uart_rx_chars (fuel : nat) (u : uart H) : exec (uart H) :=
  let? u := rx_loop fuel RX_STATE_NONE u in Ok (on_inst generic_raw_uart_rx_completed u).

Definition meson_raw_uart_irq_handle (fuel : nat) (u : uart H) : exec (bool * uart H) :=
  let '(status, h) := readl MESON_STATUS (drv u) in
  let u := with_drv h u in
  let? u := if negb (has status MESON_RX_EMPTY) then meson_raw_uart_rx_chars fuel u else Ok u in
  let '(control, h) := readl MESON_CONTROL (drv u) in
  let u := with_drv h u in
  if has control MESON_TX_INT_EN then
    let '(status, h) := readl MESON_STATUS (drv u) in
    let u := with_drv h u in
    if negb (has status MESON_TX_FULL) then generic_raw_uart_tx_queued u else Ok (false, u)
  else Ok (false, u).

(** *** Binding *)

(** Results of [devm_clk_get], [clk_prepare_enable] and [devm_add_action]. *)
Record clk_env := ClkEnv { get_rc : Z; prepare_rc : Z; action_rc : Z }.

(** The error in the returned pointer, and whether the clock stays enabled;
    when the clean-up action cannot be added the clock is switched off but
    returned as valid. *)
Definition meson_raw_uart_probe_clk (c : clk_env) : Z * bool :=
  if negb (get_rc c =? 0) then (get_rc c, false) else
  if negb (prepare_rc c =? 0) then (prepare_rc c, false) else
  if negb (action_rc c =? 0) then (0, false) else (0, true).

Record probe_env := ProbeEnv {
  kzalloc_ok : bool;
  io_resource : bool;
  platform_irq : Z;
  pclk : clk_env;
  xtal : clk_env;
  baud : clk_env;
  rst_rc : Z
}.

(** [sclk_users] counts the three clocks, which the device resources release. *)
Definition meson_raw_uart_probe (e : probe_env) : Z * soc :=
  if negb (kzalloc_ok e) then (- ENOMEM, no_soc) else
  if negb (io_resource e) then (- ENOENT, no_soc) else
  let irq := ulong (platform_irq e) in
  let s n := Soc (Some irq) 1 n 0 false in
  if irq <=? 0 then (- ENOENT, free_port (s 0)) else
  let '(err1, on1) := meson_raw_uart_probe_clk (pclk e) in
  if negb (err1 =? 0) then (err1, free_port (s (b2z on1))) else
  let '(err2, on2) := meson_raw_uart_probe_clk (xtal e) in
  if negb (err2 =? 0) then (err2, free_port (s (b2z on1 + b2z on2))) else
  let '(err3, on3) := meson_raw_uart_probe_clk (baud e) in
  let n := b2z on1 + b2z on2 + b2z on3 in
  if negb (err3 =? 0) then (err3, free_port (s n)) else
  (0, Soc (Some irq) 1 n 0 (rst_rc e =? 0)).

Definition meson_raw_uart_remove (s : soc) : Z * soc := (0, free_port s).
End Driver.

(** ** Against the hardware *)

Definition map : uart_map := UartMap MESON_WFIFO MESON_RFIFO MESON_STATUS
  (fun v => has v MESON_TX_FULL) (fun v => has v MESON_RX_EMPTY) false 0x01030000
  (fun a => existsb (Z.eqb a) [MESON_CONTROL; MESON_MISC; MESON_REG5])
  (fun v a => (a =? MESON_CONTROL) && negb (has v MESON_RX_RST)).

Section Spec.
Context {H : Type} `{!Platform H} `{!Arch} {HW : UartHw H map}.
#[local] Instance driver : RawUartDriver H := meson_raw_uart.

Lemma meson_line_start g n : preserves (line_is g n) (meson_raw_uart_start_connection (H := H)).
Proof. unfold meson_raw_uart_start_connection. line_all. Qed.

Lemma meson_line_stop g n : preserves (line_is g n) (meson_raw_uart_stop_connection (H := H)).
Proof. unfold meson_raw_uart_stop_connection. line_all. Qed.

Lemma meson_line_init_tx g n : preserves (line_is g n) (meson_raw_uart_init_tx (H := H)).
Proof. unfold meson_raw_uart_init_tx. line_all. Qed.

Lemma meson_line_stop_tx g n : preserves (line_is g n) (meson_raw_uart_stop_tx (H := H)).
Proof. unfold meson_raw_uart_stop_tx. line_all. Qed.

Lemma line_clear_error g n : preserves (line_is g n) (clear_error (H := H)).
Proof. unfold clear_error. line_all. Qed.

(** A UART driver that polls before it writes. *)
Instance meson_soc : SocDriver H map driver.
Proof.
  split; simpl; try done.
  - apply meson_line_start.
  - intros h. by apply (meson_line_stop (given h) (losses h)).
  - intros h. by apply (meson_line_init_tx (given h) (losses h)).
  - intros h. by apply (meson_line_stop_tx (given h) (losses h)).
  - intros h. unfold meson_raw_uart_isready_for_tx, rd, mbind, state_bind. by destruct (readl _ h).
Qed.

#[export] Instance meson_ok : RawUartDriverOk H := soc_ok driver.
#[export] Instance meson_fifo : FifoDriver H := soc_fifo driver.

(** *** The baud rate *)

(** The divisor of the generic branch is the nearest to the exact ratio up to
    the tenth the integer arithmetic drops; the 24 MHz branch is off by less
    than one percent. *)
Lemma baud_register_close rate : 0 <= rate < 400000000 ->
  let div := ulong ((ulong (rate * 10) / (BAUD * 4) + 5) / 10 - 1) in
  2 * BAUD <= rate -> 40 * Z.abs ((div + 1) * 4 * BAUD - rate) <= 24 * 4 * BAUD.
Proof.
  intros Hr div Hb. unfold div. rewrite !(ulong_small (rate * 10)) by (unfold is_word; lia).
  unfold BAUD in *. rewrite ulong_small by (unfold is_word; zdiv_lia). zdiv_lia.
Qed.

Lemma baud_register_24MHz : baud_register 24000000 = Z.lor (Z.lor 68 (BIT 24)) (BIT 23) /\
  100 * Z.abs (24000000 - 69 * 3 * BAUD) < 24000000.
Proof.
  split; [|reflexivity]. unfold baud_register. simpl.
  rewrite (ulong_small 24000000) by (unfold is_word; lia).
  change (24000000 / 3 / BAUD - 1) with 68. by rewrite ulong_small by (unfold is_word; lia).
Qed.

(** *** Receiving *)

Context `{CB : CircBuf}.

Lemma meson_has_mask v b : Z.land b 0x01030000 = b -> has (Z.land v 0x01030000) b = has v b.
Proof. unfold has. intros E. by rewrite <- Z.land_assoc, (Z.land_comm 0x01030000), E. Qed.

Lemma meson_rx_error_mask v : rx_error (Z.land v 0x01030000) = rx_error v.
Proof. unfold rx_error. by rewrite !meson_has_mask. Qed.

(** Neither receive reset nor a change of the transmit interrupt. *)
Definition control_is (tx : bool) (h : H) : Prop :=
  has (reg h MESON_CONTROL) MESON_RX_RST = false /\ has (reg h MESON_CONTROL) MESON_TX_INT_EN = tx.

Lemma has_ldiff_lor v a b : Z.land a b = 0 -> has (Z.lor v a) b = has v b /\ has (Z.ldiff v a) b = has v b.
Proof.
  intros E. unfold has. split; do 2 f_equal; apply Z.bits_inj'; intros n Hn;
    apply (f_equal (fun x => Z.testbit x n)) in E; rewrite Z.land_spec, Z.bits_0 in E;
    rewrite !Z.land_spec, ?Z.lor_spec, ?Z.ldiff_spec;
    by destruct (Z.testbit v n), (Z.testbit a n), (Z.testbit b n).
Qed.

Lemma clear_error_keeps tx h : control_is tx h ->
  let h' := (clear_error h).2 in
  control_is tx h' /\ burst h' = burst h /\ given h' = given h /\ losses h' = losses h.
Proof.
  intros [R T]. cbv zeta. destruct (line_clear_error (given h) (losses h) h) as [G L]; [done|].
  unfold clear_error, rd, wr, modify, mbind, state_bind in *.
  pose proof (read_config (m := map) MESON_CONTROL h eq_refl) as C.
  pose proof (read_burst (m := map) MESON_CONTROL h ltac:(discriminate)) as B.
  destruct (readl MESON_CONTROL h) as [control h1]. cbn [fst snd] in *. subst control.
  destruct (has_ldiff_lor (reg h MESON_CONTROL) MESON_CLEAR_ERROR MESON_RX_RST eq_refl) as [R1 _].
  destruct (has_ldiff_lor (reg h MESON_CONTROL) MESON_CLEAR_ERROR MESON_TX_INT_EN eq_refl) as [T1 _].
  set (c := Z.lor (reg h MESON_CONTROL) MESON_CLEAR_ERROR) in *.
  destruct (has_ldiff_lor c MESON_CLEAR_ERROR MESON_RX_RST eq_refl) as [_ R2].
  destruct (has_ldiff_lor c MESON_CLEAR_ERROR MESON_TX_INT_EN eq_refl) as [_ T2].
  assert (N : forall v g, has v MESON_RX_RST = false -> burst (writel v MESON_CONTROL g) = burst g).
  { intros v g E. apply (write_burst (m := map)). cbn. by rewrite E. }
  split_and!; [|rewrite !N, B; congruence|done|done].
  unfold control_is. rewrite !(write_reg (m := map)) by reflexivity. split; congruence.
Qed.

(** What reading the status register tells. *)
Lemma read_status_reg h : let '(status, h') := readl MESON_STATUS h in
  burst h' = burst h /\ given h' = given h /\ losses h' = losses h /\
  (forall x, reg h' x = reg h x) /\
  has status MESON_RX_EMPTY = bool_decide (burst h = []) /\
  (has status MESON_TX_FULL = full h') /\
  forall s d l, burst h = (s, d) :: l -> rx_error s = rx_error status.
Proof.
  pose proof (read_empty (m := map) h) as E. pose proof (read_tx (m := map) MESON_STATUS h) as [G L].
  pose proof (read_burst (m := map) MESON_STATUS h ltac:(discriminate)) as B.
  pose proof (read_full (m := map) h) as F. pose proof (read_reg (m := map) MESON_STATUS h) as R.
  pose proof (read_status (m := map) h) as S.
  cbn [status_reg map rx_empty tx_full status_with_data rx_mask] in *.
  destruct (readl MESON_STATUS h) as [status h']. cbn [fst snd] in *. split_and!; try done.
  intros s d l Eb. rewrite <- (S s d l Eb). apply meson_rx_error_mask.
Qed.

Lemma meson_rx_loop_serves tx fuel : forall flags (u : uart H), (length (burst (drv u)) < fuel)%nat ->
  control_is tx (drv u) ->
  exists h, rx_loop fuel flags u =
      Ok (Uart (serve rx_error flags (burst (drv u)) (inst u)) (conns u) h (module_refs u)) /\
    given h = given (drv u) /\ losses h = losses (drv u) /\ control_is tx h.
Proof.
  induction fuel as [|fuel IH]; intros flags u Hf Hc; [lia|]. simpl.
  pose proof (read_status_reg (drv u)) as R. destruct (readl MESON_STATUS (drv u)) as [status h].
  destruct R as (B & G & L & K & E & _ & S). rewrite E.
  assert (Hc' : control_is tx h) by (unfold control_is in *; by rewrite K).
  case_bool_decide as Hb.
  { exists h. by rewrite Hb. }
  destruct (burst (drv u)) as [|[s d] l] eqn:Eb; [done|]. specialize (S s d l eq_refl).
  destruct (read_data (m := map) h s d l B) as [D1 D2]. destruct (read_tx (m := map) MESON_RFIFO h) as [G' L'].
  pose proof (read_reg (m := map) MESON_RFIFO h) as K'. cbn [rx_reg map] in *.
  destruct (readl MESON_RFIFO h) as [data h']. cbn [fst snd] in *. subst data.
  assert (Hc2 : control_is tx h') by (unfold control_is in *; by rewrite K').
  set (h2 := if negb _ then _ else h').
  assert (H2 : control_is tx h2 /\ burst h2 = burst h' /\ given h2 = given h' /\ losses h2 = losses h').
  { unfold h2. destruct (negb _); [by apply clear_error_keeps | done]. }
  clearbody h2. destruct H2 as (C2 & B2 & G2 & L2).
  destruct (IH (Z.lor flags (rx_error status)) (on_inst (generic_raw_uart_handle_rx_char
    (Z.lor flags (rx_error status)) (u8 d)) (with_drv h2 u))) as (h3 & Hr & G3 & L3 & C3); [|done|].
  { simpl in *. rewrite B2, D2. lia. }
  simpl in *. rewrite B2, D2 in Hr. exists h3. rewrite Hr, S. split_and!; [done|congruence|congruence|done].
Qed.

(** With fuel for the burst the receiver holds and a control
    register without a pending receiver reset, the interrupt handler of the
    Meson driver ends, touches no freed connection and no full FIFO.  It
    passes a burst that has begun to the generic driver, which takes it as far
    as the ring has room, and leaves the transmit interrupt as it was; if that
    is enabled and the FIFO has room, the generic driver sends the next
    characters. *)
Theorem meson_interrupt (fuel : nat) (u : uart H) :
  uart_ok u -> rx_ok (inst u) -> (length (burst (drv u)) < fuel)%nat ->
  has (reg (drv u) MESON_CONTROL) MESON_RX_RST = false ->
  exists room woken u', meson_raw_uart_irq_handle fuel u = Ok (woken, u') /\
    irq_served rx_error (negb (bool_decide (burst (drv u) = [])))
      (has (reg (drv u) MESON_CONTROL) MESON_TX_INT_EN && room) (burst (drv u)) u woken u'.
Proof.
  intros Hu Hi Hf Hc. unfold meson_raw_uart_irq_handle.
  set (tx := has (reg (drv u) MESON_CONTROL) MESON_TX_INT_EN).
  assert (C : control_is tx (drv u)) by done.
  pose proof (read_status_reg (drv u)) as R. destruct (readl MESON_STATUS (drv u)) as [status h].
  destruct R as (B & G & L & K & E & _ & _). rewrite E.
  assert (Hc' : control_is tx h) by (unfold control_is in *; by rewrite K).
  set (rx := negb (bool_decide (burst (drv u) = []))).
  assert (exists h1, (if rx then meson_raw_uart_rx_chars fuel (with_drv h u) else Ok (with_drv h u))
      = Ok (Uart (received rx_error rx (burst (drv u)) (inst u)) (conns u) h1 (module_refs u)) /\
    given h1 = given (drv u) /\ losses h1 = losses (drv u) /\ control_is tx h1) as (h1 & -> & G1 & L1 & C1).
  { destruct rx; [|by exists h]. unfold meson_raw_uart_rx_chars.
    destruct (meson_rx_loop_serves tx fuel RX_STATE_NONE (with_drv h u)) as (h2 & -> & G2 & L2 & C2);
      [simpl; by rewrite B|done|].
    simpl in *. rewrite B. exists h2. split_and!; [done|congruence|congruence|done]. }
  cbn [exec_bind drv].
  pose proof (read_config (m := map) MESON_CONTROL h1 eq_refl) as V.
  destruct (read_tx (m := map) MESON_CONTROL h1) as [G2 L2].
  destruct (readl MESON_CONTROL h1) as [control h2]. cbn [fst snd] in *. subst control.
  rewrite (proj2 C1). destruct tx; cbn [andb].
  - pose proof (read_status_reg h2) as R. cbn [with_drv drv].
    destruct (readl MESON_STATUS h2) as [status' h3]. destruct R as (_ & G3 & L3 & _).
    exists (negb (has status' MESON_TX_FULL)). apply tx_half; try done; simpl; congruence.
  - exists false. apply (tx_half rx_error rx false); try done; simpl; congruence.
Qed.
End Spec.
End Meson.

(** ** On a simulated UART *)

Module MesonSample.
Definition norm (c : Z * Z) : Z * Z := (Z.land c.1 0x01030000, c.2).
Definition enc (f : bool) (o : option Z) : Z :=
  Z.lor (if f then Meson.MESON_TX_FULL else 0)
    (match o with None => Meson.MESON_RX_EMPTY | Some s => s end).

Lemma meson_norm_land c m : Z.land 0x01030000 m = 0 -> Z.land (norm c).1 m = 0.
Proof. simpl. intros E. by rewrite <- Z.land_assoc, E, Z.land_0_r. Qed.

Lemma meson_sim_sound : sim_sound Meson.map norm enc.
Proof.
  split; cbn [tx_full rx_empty status_with_data rx_mask Meson.map].
  - intros f o Ho. change (flagged (enc f o) Meson.MESON_TX_FULL = f). unfold enc. rewrite flagged_lor.
    destruct o as [s|]; [|by destruct f]. destruct (Ho s eq_refl) as [c ->].
    unfold flagged at 2. rewrite meson_norm_land by done. by destruct f.
  - intros f o Ho. change (flagged (enc f o) Meson.MESON_RX_EMPTY = bool_decide (o = None)).
    unfold enc. rewrite flagged_lor. destruct o as [s|]; [|by destruct f].
    destruct (Ho s eq_refl) as [c ->]. unfold flagged at 2. rewrite meson_norm_land by done. by destruct f.
  - intros f c. unfold enc. rewrite Z.land_lor_distr_l. simpl. rewrite <- Z.land_assoc. by destruct f.
  - done.
  - intros a. simpl. rewrite !orb_true_iff, !Z.eqb_eq. intros Ha. by repeat destruct Ha as [-> | Ha].
Qed.

#[export] Instance platform : Platform sim := sim_platform Meson.map norm enc.
#[export] Instance hw : UartHw sim Meson.map := sim_hw Meson.map norm enc meson_sim_sound.
#[export] Existing Instances arch32 linux_circ.

(** A UART with [room] free places, a burst and a control register. *)
Definition port_with (room : Z) (b : list (Z * Z)) (control : Z) : sim :=
  Sim [] 0 room b (fun a => if a =? Meson.MESON_CONTROL then control else 0) 24000000 0.
End MesonSample.
Import MesonSample.

Lemma meson_interrupt_witness :
  exists woken u', Meson.meson_raw_uart_irq_handle 4 (sending (replicate 10 85)
    (port_with 8 [(0, 65); (Meson.MESON_FRAME_ERR, 66); (0, 67)] (BIT 28)) : uart sim) = Ok (woken, u') /\
    pending (inst u') = [65; 66; 67] /\ losses (drv u') = 0.
Proof.
  set (u := sending _ _).
  destruct (Meson.meson_interrupt 4 u) as (r & w & u' & E & _ & L & P & _).
  - apply sending_ok. discriminate.
  - apply sending_rx_ok.
  - simpl. lia.
  - reflexivity.
  - exists w, u'. split; [exact E|]. split; [rewrite P; reflexivity | exact L].
Defined.
