(* ===== verification/SocBind.v ===== *)
(** Binding the three on-chip UART drivers: which probes succeed, what failing
    and successful probes hold, and what removal gives back. *)
From S2P Require Import Prelude Kernel Effects RawUart SocUart Pl011 DwApb Meson.

(** [platform_get_irq] returns an [int]: a number, or a negative error. *)
Definition is_int (z : Z) : Prop := - 2 ^ 31 <= z < 2 ^ 31.

(** The port is freed and no clock it took stays enabled. *)
Definition released (s : soc) : Prop := port_irq s = None /\ sclk_users s = 0 /\ pclk_users s = 0.

Section Binding.
Context `{!Arch}.

Lemma ulong_zero z : is_int z -> (ulong z <=? 0) = (z =? 0).
Proof.
  unfold is_int, ulong. intros Hz. destruct bits_per_long_law as [-> | ->]; cases_Z; zdiv_lia.
Qed.

Lemma ulong_negative z : is_int z -> z < 0 -> ulong z = 2 ^ BITS_PER_LONG + z.
Proof.
  unfold is_int, ulong. intros Hz Hn. symmetry. apply (Z.mod_unique _ _ (-1)).
  - destruct bits_per_long_law as [-> | ->]; lia.
  - lia.
Qed.

Lemma pl011_outcome e : is_int (Pl011.platform_irq e) ->
  let '(r, s) := Pl011.pl011_raw_uart_probe e in
  (r = 0 <-> Pl011.kzalloc_ok e = true /\ Pl011.io_resource e = true /\
     Pl011.platform_irq e <> 0 /\ Pl011.clk_rc e = 0) /\
  (r = 0 -> port_irq s = Some (ulong (Pl011.platform_irq e)) /\
     released (Pl011.pl011_raw_uart_remove s).2) /\
  (r <> 0 -> released s) /\
  (Pl011.kzalloc_ok e = true -> Pl011.io_resource e = true ->
   mappings (Pl011.pl011_raw_uart_remove s).2 = 1).
Proof.
  intros Hi. unfold Pl011.pl011_raw_uart_probe, released.
  destruct (Pl011.kzalloc_ok e), (Pl011.io_resource e); simpl; rewrite ?ulong_zero by done;
    try (destruct (Z.eqb_spec (Pl011.platform_irq e) 0), (Z.eqb_spec (Pl011.clk_rc e) 0); simpl);
    intuition (done || lia || congruence).
Qed.

Lemma dw_apb_outcome e : is_int (DwApb.platform_irq e) ->
  let '(r, s) := DwApb.dw_apb_raw_uart_probe e in
  (r = 0 <-> DwApb.kzalloc_ok e = true /\ DwApb.io_resource e = true /\
     DwApb.platform_irq e <> 0 /\
     (DwApb.baud_clk_rc e = 0 \/ DwApb.baud_clk_rc e <> - EPROBE_DEFER /\ DwApb.clk_rc e = 0) /\
     DwApb.pclk_rc e <> - EPROBE_DEFER /\ DwApb.rst_rc e <> - EPROBE_DEFER) /\
  (r = 0 -> port_irq s = Some (ulong (DwApb.platform_irq e)) /\
     released (DwApb.dw_apb_raw_uart_remove (DwApb.pclk_rc e) (DwApb.rst_rc e) s).2) /\
  (r <> 0 -> port_irq s = None /\ sclk_users s = 0 /\
     (pclk_users s <> 0 -> r = - EPROBE_DEFER /\ DwApb.rst_rc e = - EPROBE_DEFER /\ DwApb.pclk_rc e = 0)).
Proof.
  intros Hi. unfold DwApb.dw_apb_raw_uart_probe, released.
  destruct (DwApb.kzalloc_ok e), (DwApb.io_resource e); simpl; rewrite ?ulong_zero by done;
    try by (split; [split; [done | intuition congruence]|]).
  destruct (Z.eqb_spec (DwApb.platform_irq e) 0); simpl; [by intuition|].
  unfold DwApb.dw_apb_raw_uart_remove, EPROBE_DEFER. simpl Z.opp.
  destruct (Z.eqb_spec (DwApb.baud_clk_rc e) 0), (Z.eqb_spec (DwApb.baud_clk_rc e) (-517)),
    (Z.eqb_spec (DwApb.clk_rc e) 0); try lia; simpl;
    repeat match goal with |- context [DwApb.baud_clk_rc e =? 0] =>
      destruct (Z.eqb_spec (DwApb.baud_clk_rc e) 0); try lia; simpl end;
    repeat match goal with |- context [DwApb.clk_rc e =? 0] =>
      destruct (Z.eqb_spec (DwApb.clk_rc e) 0); try lia; simpl end;
    destruct (Z.eqb_spec (DwApb.pclk_rc e) (-517)), (Z.eqb_spec (DwApb.rst_rc e) (-517));
    destruct (Z.eqb_spec (DwApb.pclk_rc e) 0); try lia; simpl;
    intuition (done || lia || congruence).
Qed.

Lemma meson_clk_rc c : (Meson.meson_raw_uart_probe_clk c).1 = 0 <->
  Meson.get_rc c = 0 /\ Meson.prepare_rc c = 0.
Proof.
  unfold Meson.meson_raw_uart_probe_clk.
  destruct (Z.eqb_spec (Meson.get_rc c) 0), (Z.eqb_spec (Meson.prepare_rc c) 0), (Meson.action_rc c =? 0);
    simpl; intuition congruence.
Qed.

Lemma meson_outcome e : is_int (Meson.platform_irq e) ->
  let '(r, s) := Meson.meson_raw_uart_probe e in
  (r = 0 <-> Meson.kzalloc_ok e = true /\ Meson.io_resource e = true /\ Meson.platform_irq e <> 0 /\
     (Meson.meson_raw_uart_probe_clk (Meson.pclk e)).1 = 0 /\
     (Meson.meson_raw_uart_probe_clk (Meson.xtal e)).1 = 0 /\
     (Meson.meson_raw_uart_probe_clk (Meson.baud e)).1 = 0) /\
  (r = 0 -> port_irq s = Some (ulong (Meson.platform_irq e))) /\
  (r <> 0 -> port_irq s = None).
Proof.
  intros Hi. unfold Meson.meson_raw_uart_probe.
  destruct (Meson.kzalloc_ok e), (Meson.io_resource e); simpl; rewrite ?ulong_zero by done;
    try by (split; [split; [done | intuition congruence]|]).
  destruct (Z.eqb_spec (Meson.platform_irq e) 0); simpl; [by intuition|].
  destruct (Meson.meson_raw_uart_probe_clk (Meson.pclk e)) as [r1 o1],
    (Meson.meson_raw_uart_probe_clk (Meson.xtal e)) as [r2 o2],
    (Meson.meson_raw_uart_probe_clk (Meson.baud e)) as [r3 o3]; simpl.
  destruct (Z.eqb_spec r1 0), (Z.eqb_spec r2 0), (Z.eqb_spec r3 0); simpl; intuition congruence.
Qed.

(** Each of the three probes succeeds exactly if every step it
    takes does, where the interrupt lookup counts as failed only if it returns
    0: a negative error number is accepted and kept as a huge unsigned
    interrupt.  A failing probe frees its port and returns an error; the clocks
    it enabled are given back, except that the DesignWare driver keeps its bus
    clock when the reset controller is deferred.  The register mapping is never
    given back, and a failing generic probe leaves the port in place. *)
Theorem soc_probe_outcome (e1 : Pl011.probe_env) (e2 : DwApb.probe_env) (e3 : Meson.probe_env) :
  is_int (Pl011.platform_irq e1) -> is_int (DwApb.platform_irq e2) -> is_int (Meson.platform_irq e3) ->
  (let '(r, s) := Pl011.pl011_raw_uart_probe e1 in
   (r = 0 <-> Pl011.kzalloc_ok e1 = true /\ Pl011.io_resource e1 = true /\
      Pl011.platform_irq e1 <> 0 /\ Pl011.clk_rc e1 = 0) /\
   (r = 0 -> Pl011.platform_irq e1 < 0 -> port_irq s = Some (2 ^ BITS_PER_LONG + Pl011.platform_irq e1)) /\
   (r = 0 -> released (Pl011.pl011_raw_uart_remove s).2 /\
      mappings (Pl011.pl011_raw_uart_remove s).2 = 1 /\
      forall err, module_probe (r, s) (RawErr err) = (err, s)) /\
   (r <> 0 -> released s)) /\
  (let '(r, s) := DwApb.dw_apb_raw_uart_probe e2 in
   (r = 0 -> released (DwApb.dw_apb_raw_uart_remove (DwApb.pclk_rc e2) (DwApb.rst_rc e2) s).2) /\
   (r <> 0 -> port_irq s = None /\ sclk_users s = 0 /\
     (pclk_users s <> 0 -> DwApb.rst_rc e2 = - EPROBE_DEFER /\ DwApb.pclk_rc e2 = 0))) /\
  (let '(r, s) := Meson.meson_raw_uart_probe e3 in
   (r = 0 -> port_irq s = Some (ulong (Meson.platform_irq e3))) /\ (r <> 0 -> port_irq s = None)).
Proof.
  intros H1 H2 H3. split_and!.
  - pose proof (pl011_outcome e1 H1) as P. destruct (Pl011.pl011_raw_uart_probe e1) as [r s].
    destruct P as (P1 & P2 & P3 & P4). split_and!; [done| | |done].
    + intros E N. destruct (P2 E) as [-> _]. by rewrite ulong_negative.
    + intros E. destruct (P2 E) as [_ R]. pose proof (proj1 P1 E) as (? & ? & _).
      split_and!; auto. intros err. unfold module_probe. by rewrite E.
  - pose proof (dw_apb_outcome e2 H2) as P. destruct (DwApb.dw_apb_raw_uart_probe e2) as [r s].
    destruct P as (_ & P2 & P3). split; [intros E; by apply P2|].
    intros E. destruct (P3 E) as (A & B & C). split_and!; [done|done|]. intros U. by destruct (C U) as (_ & ? & ?).
  - pose proof (meson_outcome e3 H3) as P. destruct (Meson.meson_raw_uart_probe e3) as [r s].
    by destruct P as (_ & P2 & P3).
Qed.
End Binding.

#[local] Existing Instance arch32.

(** An interrupt lookup that fails with [-ENODEV] gives interrupt 2^32 - 19. *)
Lemma soc_probe_outcome_witness :
  let '(r, s) := Pl011.pl011_raw_uart_probe (Pl011.ProbeEnv true true (- ENODEV) 0) in
  r = 0 -> port_irq s = Some 4294967277.
Proof.
  destruct (soc_probe_outcome (Pl011.ProbeEnv true true (- ENODEV) 0)
    (DwApb.ProbeEnv true true 7 0 0 0 0)
    (Meson.ProbeEnv true true 7 (Meson.ClkEnv 0 0 0) (Meson.ClkEnv 0 0 0) (Meson.ClkEnv 0 0 0) 0)) as [P _];
    [split; [discriminate | reflexivity]..|].
  revert P. destruct (Pl011.pl011_raw_uart_probe (Pl011.ProbeEnv true true (- ENODEV) 0)) as [r s].
  intros (_ & P & _) E. by rewrite (P E).
Defined.
