(* ===== verification/Usb.v ===== *)
(** What the drivers of the two USB adapters share (src/kernel/hb_rf_usb.c,
    hb_rf_usb_2.c): the host controller they talk to, the part of their port
    structures that carries transfers and counts references, and the interface
    [UsbDriver] of a driver built on it. *)
From S2P Require Import Prelude Kernel Effects Ring RawUart RawUartRx RawUartTx.

(** ** The USB host

    A control request with the data it carries. *)
Record request := Request {
  bRequestType : Z; bRequest : Z; wValue : Z; wIndex : Z; payload : list Z
}.

(** What can be seen of it: whether the two URBs of a port are in flight, and
    what has been accepted for transfer to the device, oldest first. *)
Record traffic := Traffic {
  out_busy : bool;
  in_busy : bool;
  transfers : list (list Z);
  requests : list request
}.

Definition set_out_busy (b : bool) (t : traffic) : traffic :=
  Traffic b (in_busy t) (transfers t) (requests t).
Definition set_in_busy (b : bool) (t : traffic) : traffic :=
  Traffic (out_busy t) b (transfers t) (requests t).
Definition add_transfer (l : list Z) (t : traffic) : traffic :=
  Traffic true (in_busy t) (transfers t ++ [l]) (requests t).
Definition add_request (r : request) (t : traffic) : traffic :=
  Traffic (out_busy t) (in_busy t) (transfers t) (requests t ++ [r]).

(** The calls answer 0 or a negative error number; a URB that is in flight is
    refused, and a refused call changes nothing that can be seen.
    [online]: the device is there and submissions are not being rejected.
    [usb_control_in] reads: it gives what the device has sent, which may be
    less than asked for, or nothing when the request fails.
    [giveback_*]: a URB has completed and is given back.
    [usb_kill_*] cancel a URB that is in flight. *)
Class UsbHost (H : Type) := {
  traffic_of : H -> traffic;
  online : H -> Prop;
  usb_submit_write : list Z -> H -> Z * H;
  usb_submit_read : H -> Z * H;
  usb_submit_control : request -> H -> Z * H;
  usb_control_msg : request -> H -> Z * H;
  usb_control_in : request -> Z -> H -> list Z * H;
  usb_kill_write : H -> H;
  usb_kill_read : H -> H;
  giveback_write : H -> H;
  giveback_read : H -> H;

  submit_write_law l h : traffic_of (usb_submit_write l h).2 =
    if (usb_submit_write l h).1 =? 0 then add_transfer l (traffic_of h) else traffic_of h;
  submit_write_busy l h : out_busy (traffic_of h) = true -> (usb_submit_write l h).1 <> 0;
  submit_write_online l h : online h -> out_busy (traffic_of h) = false ->
    (usb_submit_write l h).1 = 0 /\ online (usb_submit_write l h).2;
  submit_read_law h : traffic_of (usb_submit_read h).2 =
    if (usb_submit_read h).1 =? 0 then set_in_busy true (traffic_of h) else traffic_of h;
  submit_control_law r h : traffic_of (usb_submit_control r h).2 =
    if (usb_submit_control r h).1 =? 0 then add_request r (traffic_of h) else traffic_of h;
  control_msg_law r h : traffic_of (usb_control_msg r h).2 =
    if 0 <=? (usb_control_msg r h).1 then add_request r (traffic_of h) else traffic_of h;
  control_in_law r n h : 0 <= n ->
    zlen (usb_control_in r n h).1 <= n /\ bytes (usb_control_in r n h).1;
  kill_write_law h : traffic_of (usb_kill_write h) = set_out_busy false (traffic_of h);
  kill_read_law h : traffic_of (usb_kill_read h) = set_in_busy false (traffic_of h);
  giveback_write_law h : traffic_of (giveback_write h) = set_out_busy false (traffic_of h);
  giveback_write_online h : online h -> online (giveback_write h);
  giveback_read_law h : traffic_of (giveback_read h) = set_in_busy false (traffic_of h)
}.

(** ** Ports

    The fields both port structures have.  [write_buffer] is the part of the
    transfer buffer that is to be sent; [deleted]: the [delete] function has
    run, which frees the port and the instance of the generic driver.
    [handed] is a ghost: all bytes the generic driver has handed over. *)
Record link (H : Type) := Link {
  is_in_tx : bool;
  write_buffer : list Z;
  kref : Z;
  deleted : bool;
  host : H;
  handed : list Z
}.
Arguments Link {H}.
Arguments is_in_tx {H}.
Arguments write_buffer {H}.
Arguments kref {H}.
Arguments deleted {H}.
Arguments host {H}.
Arguments handed {H}.

Section Link.
Context {H : Type}.
Definition with_in_tx (b : bool) (l : link H) : link H :=
  Link b (write_buffer l) (kref l) (deleted l) (host l) (handed l).
Definition load_buffer (d : list Z) (l : link H) : link H :=
  Link (is_in_tx l) d (kref l) (deleted l) (host l) (handed l ++ d).
Definition with_kref (n : Z) (l : link H) : link H :=
  Link (is_in_tx l) (write_buffer l) n (deleted l) (host l) (handed l).
Definition with_deleted (b : bool) (l : link H) : link H :=
  Link (is_in_tx l) (write_buffer l) (kref l) b (host l) (handed l).
Definition with_host (h : H) (l : link H) : link H :=
  Link (is_in_tx l) (write_buffer l) (kref l) (deleted l) h (handed l).
Definition link_traffic `{!UsbHost H} (l : link H) : traffic := traffic_of (host l).
End Link.

(** A port structure [P] and its link. *)
Class Port (P H : Type) := {
  link_of : P -> link H;
  on_link : (link H -> link H) -> P -> P;
  link_of_on_link f p : link_of (on_link f p) = f (link_of p)
}.

(** ** Commands *)

Section Commands.
Context {P H : Type} `{!UsbHost H} `{!Port P H}.

(** A call of the host, with its answer. *)
Definition call (f : H -> Z * H) : M P Z := fun p =>
  let (e, h) := f (host (link_of p)) in (e, on_link (with_host h) p).

Definition submit_write : M P Z := fun p => call (usb_submit_write (write_buffer (link_of p))) p.
Definition submit_read : M P Z := call usb_submit_read.

(** Cancelling the write URB runs its completion handler, which clears the
    flag; what that handler does next is a step of its own. *)
Definition kill_write : M P unit := fun p =>
  let l := link_of p in
  (tt, on_link (fun l => with_in_tx (is_in_tx l && negb (out_busy (link_traffic l)))
                           (with_host (usb_kill_write (host l)) l)) p).
Definition kill_read : M P unit :=
  modify (on_link (fun l => with_host (usb_kill_read (host l)) l)).

Definition kref_get : M P unit := modify (on_link (fun l => with_kref (kref l + 1) l)).

(** [kref_put(&port->kref, delete)] *)
Definition kref_put (delete : M P unit) : M P unit :=
  modify (on_link (fun l => with_kref (kref l - 1) l));;
  p ← get;
  when (kref (link_of p) =? 0) delete.
End Commands.

(** [snprintf] with a bound [n]: the length of the whole text, and the text as
    far as it fits. *)
Definition snprintf (n : Z) (text : list Z) : Z * list Z := (zlen text, take (Z.to_nat (n - 1)) text).

(** ** Devices

    What enumeration found out about a device, whose strings are missing when
    the device has none, and [struct hb_usb_device_info],
    what the drivers know about it.  Words of a key are 32 bits, lowest first. *)
Record usb_device := UsbDevice {
  idVendor : Z; idProduct : Z; bcdDevice : Z;
  manufacturer : option (list Z); product : option (list Z); serial : option (list Z);
  bus_name : list Z; devpath : list Z
}.

Record hb_usb_device_info := DeviceInfo {
  vendorhash : Z; enforce_verification : bool; pkey : list Z
}.

(** A string that is used without asking whether it is there. *)
Definition string_of (s : option (list Z)) : exec (list Z) :=
  match s with Some l => Ok l | None => NullDeref end.

(** What [%s] prints for it: "(null)" when it is missing. *)
Definition printed (s : option (list Z)) : list Z := default [40; 110; 117; 108; 108; 41] s.

(** "%s@usb-%s-%s" *)
Definition device_text (dev : usb_device) : list Z :=
  printed (product dev) ++ [64; 117; 115; 98; 45] ++ bus_name dev ++ [45] ++ devpath dev.

(** Is the maker one the driver does not know?  [crc32] is the kernel's. *)
Definition wrong_vendor (crc32 : Z -> list Z -> Z) (dev : usb_device) (info : hb_usb_device_info)
    : exec bool :=
  if vendorhash info =? 0 then Ok false else
  let? m := string_of (manufacturer dev) in
  Ok (negb (vendorhash info =? Z.lxor (crc32 0xffffffff m) 0xffffffff)).

(** An entry of an [HB_USB_DEVICE] table; words of [pkey] not given are 0. *)
Record usb_device_id := UsbDeviceId { id_vendor : Z; id_product : Z; driver_info : hb_usb_device_info }.

Definition HB_USB_DEVICE (vend prod vendorhash : Z) (enforce : bool) (pkey : list Z) : usb_device_id :=
  UsbDeviceId vend prod (DeviceInfo vendorhash enforce (pkey ++ replicate (16 - length pkey) 0)).

(** [usb_match_id] for entries made by [USB_DEVICE]: the first with the
    vendor and the product of the device. *)
Fixpoint usb_match_id (dev : usb_device) (ids : list usb_device_id) : option hb_usb_device_info :=
  match ids with
  | [] => None
  | id :: ids =>
    if (id_vendor id =? idVendor dev) && (id_product id =? idProduct dev)
    then Some (driver_info id) else usb_match_id dev ids
  end.

(** The endpoints of an interface, and the URBs of a port (for reading, for
    writing) with the one that is made for an endpoint. *)
Inductive endpoint := BulkIn | BulkOut | OtherEndpoint.

Definition add_urb (made : bool * bool) (e : endpoint) : bool * bool :=
  match e with
  | BulkIn => (true, made.2)
  | BulkOut => (made.1, true)
  | OtherEndpoint => made
  end.

(** The bytes of a 32-bit number in memory. *)
Definition le32 (z : Z) : list Z :=
  [u8 z; u8 (Z.shiftr z 8); u8 (Z.shiftr z 16); u8 (Z.shiftr z 24)].

(** How a probe ends.  [WildFree]: [kfree] of a pointer that was never set.
    [Ready]: bound, with an instance of the generic driver under the device
    number; [Broken]: bound, and the pointer to that instance is an error. *)
Inductive probe_end (P : Type) :=
| Refused (err : Z)
| WildFree
| Ready (dev_no : nat) (u : uart P)
| Broken (err : Z) (p : P).
Arguments Refused {P}.
Arguments WildFree {P}.
Arguments Ready {P}.
Arguments Broken {P}.

(** With what it leaves behind: references to the device and buffers. *)
Record probed (P : Type) := Probed_ { probe_ends : probe_end P; device_refs : Z; buffers : Z }.
Arguments Probed_ {P}.
Arguments probe_ends {P}.
Arguments device_refs {P}.
Arguments buffers {P}.

(** ** A host to run the drivers with

    Every request of a device that is there is accepted at once; what the
    device sends in reply to control requests is given beforehand. *)
Module SimUsb.
Record sim := Sim { seen : traffic; there : bool; replies : list (list Z) }.

Definition with_seen (t : traffic) (s : sim) : sim := Sim t (there s) (replies s).
Definition refuse (s : sim) : Z * sim := (- ENODEV, s).

Definition submit_write (l : list Z) (s : sim) : Z * sim :=
  if there s && negb (out_busy (seen s)) then (0, with_seen (add_transfer l (seen s)) s) else refuse s.
Definition submit_read (s : sim) : Z * sim :=
  if there s then (0, with_seen (set_in_busy true (seen s)) s) else refuse s.
Definition control (r : request) (s : sim) : Z * sim :=
  if there s then (0, with_seen (add_request r (seen s)) s) else refuse s.
Definition control_in (r : request) (n : Z) (s : sim) : list Z * sim :=
  match replies s with
  | [] => ([], s)
  | l :: ls => (take (Z.to_nat n) (u8 <$> l), Sim (seen s) (there s) ls)
  end.

#[export] Program Instance sim_host : UsbHost sim := {|
  traffic_of := seen;
  online s := there s = true;
  usb_submit_write := submit_write;
  usb_submit_read := submit_read;
  usb_submit_control := control;
  usb_control_msg := control;
  usb_control_in := control_in;
  usb_kill_write s := with_seen (set_out_busy false (seen s)) s;
  usb_kill_read s := with_seen (set_in_busy false (seen s)) s;
  giveback_write s := with_seen (set_out_busy false (seen s)) s;
  giveback_read s := with_seen (set_in_busy false (seen s)) s
|}.
Next Obligation. intros. unfold submit_write. by destruct (_ && _). Qed.
Next Obligation. intros l h Hb. unfold submit_write. rewrite Hb, andb_false_r. done. Qed.
Next Obligation. intros l h Ho Hb. unfold submit_write. rewrite Hb. simpl in Ho. by rewrite Ho. Qed.
Next Obligation. intros. unfold submit_read. by destruct (there h). Qed.
Next Obligation. intros. unfold control. by destruct (there h). Qed.
Next Obligation. intros. unfold control. by destruct (there h). Qed.
Next Obligation.
  intros r n h Hn. unfold control_in. destruct (replies h) as [|l ls]; simpl; [split; [done|constructor]|].
  split; [unfold zlen; rewrite length_take; lia|].
  apply Forall_take, Forall_fmap, Forall_true. intros. apply u8_byte.
Qed.
Next Obligation. done. Qed.
Next Obligation. done. Qed.
Next Obligation. done. Qed.
Next Obligation. done. Qed.
Next Obligation. done. Qed.

(** A device that has just been plugged in. *)
Definition fresh (replies : list (list Z)) : sim := Sim (Traffic false false [] []) true replies.
End SimUsb.
