(* ===== verification/HbRfUsb.v ===== *)
(** The driver for the HB-RF-USB adapter (src/kernel/hb_rf_usb.c), which has an
    FTDI serial converter: its functions, the instance of [RawUartDriver] they
    make, what a received transfer is taken for, and its pins. *)
From S2P Require Import Prelude Kernel Effects Ring RawUart RawUartRx RawUartTx Usb.

Module HbRfUsb.
Definition FTDI_SIO_RESET_REQUEST_TYPE : Z := 0x40.
Definition FTDI_SIO_RESET_REQUEST : Z := 0.
Definition FTDI_SIO_RESET_SIO : Z := 0.
Definition FTDI_SIO_SET_BITMODE_REQUEST_TYPE : Z := 0x40.
Definition FTDI_SIO_SET_BITMODE_REQUEST : Z := 0x0b.
Definition FTDI_SIO_SET_EVENT_CHAR_REQUEST_TYPE : Z := 0x40.
Definition FTDI_SIO_SET_EVENT_CHAR_REQUEST : Z := 0x06.
Definition FTDI_SIO_SET_ERROR_CHAR_REQUEST_TYPE : Z := 0x40.
Definition FTDI_SIO_SET_ERROR_CHAR_REQUEST : Z := 0x07.
Definition FTDI_SIO_SET_BAUDRATE_REQUEST_TYPE : Z := 0x40.
Definition FTDI_SIO_SET_BAUDRATE_REQUEST : Z := 0x03.
Definition FTDI_SIO_SET_LATENCY_TIMER_REQUEST_TYPE : Z := 0x40.
Definition FTDI_SIO_SET_LATENCY_TIMER_REQUEST : Z := 0x09.
Definition FTDI_SIO_SET_DATA_REQUEST_TYPE : Z := 0x40.
Definition FTDI_SIO_SET_DATA_REQUEST : Z := 0x04.
Definition FTDI_SIO_SET_DATA_PARITY_NONE : Z := Z.shiftl 0x0 8.
Definition FTDI_SIO_SET_DATA_STOP_BITS_1 : Z := Z.shiftl 0x0 11.
Definition FTDI_SIO_READ_EEPROM_REQUEST_TYPE : Z := 0xc0.
Definition FTDI_SIO_READ_EEPROM_REQUEST : Z := 0x90.
Definition FTDI_RS_OE : Z := Z.shiftl 1 1.
Definition FTDI_RS_PE : Z := Z.shiftl 1 2.
Definition FTDI_RS_FE : Z := Z.shiftl 1 3.
Definition FTDI_RS_BI : Z := Z.shiftl 1 4.
Definition FTDI_SIO_BITMODE_RESET : Z := 0x00.
Definition FTDI_SIO_BITMODE_CBUS : Z := 0x20.
Definition TX_CHUNK_SIZE : Z := 11.
Definition BUFFER_SIZE : Z := 256.

Definition usbid : list usb_device_id := [
  HB_USB_DEVICE 0x0403 0x6f70 0x60d01cf9 false [0x79338567; 0x4c9aeef2; 0xbe863d22; 0x385ab451;
    0x7b87ff1b; 0x371aa2cf; 0x181b2441; 0xfe6af4c7]
].

(** [struct hb_rf_usb_port_s]; [gc_base]: the first number of the GPIO chip. *)
Record hb_rf_usb_port_s (H : Type) := Port_ {
  plink : link H;
  gpio_value : Z;
  gpio_direction : Z;
  gc_base : Z;
  udev : usb_device
}.
Arguments Port_ {H}.
Arguments plink {H}.
Arguments gpio_value {H}.
Arguments gpio_direction {H}.
Arguments gc_base {H}.
Arguments udev {H}.

Section Driver.
Context {H : Type} `{!UsbHost H}.
Abbreviation port := (hb_rf_usb_port_s H).

#[export] Instance hb_rf_usb_port : Port port H := {|
  link_of := plink;
  on_link f p := Port_ (f (plink p)) (gpio_value p) (gpio_direction p) (gc_base p) (udev p);
  link_of_on_link f p := eq_refl
|}.

Definition with_value (v : Z) (p : port) : port :=
  Port_ (plink p) v (gpio_direction p) (gc_base p) (udev p).
Definition with_direction (d : Z) (p : port) : port :=
  Port_ (plink p) (gpio_value p) d (gc_base p) (udev p).

(** *** Pins

    [wValue] of the request that sets them. *)
Definition bitmode (mode : Z) (p : port) : Z :=
  u16 (Z.lor (Z.lor (Z.shiftl mode 8) (Z.shiftl (gpio_direction p) 4)) (gpio_value p)).

(** The allocations, whose success the code does not check, succeed. *)
Definition hb_rf_usb_set_gpio_on_device : M port unit :=
  p ← get;
  call (usb_submit_control (Request FTDI_SIO_SET_BITMODE_REQUEST_TYPE FTDI_SIO_SET_BITMODE_REQUEST
    (bitmode FTDI_SIO_BITMODE_CBUS p) 0 []));;
  mret tt.

Definition hb_rf_usb_set_bitmode (mode : Z) : M port Z :=
  p ← get;
  call (usb_control_msg (Request FTDI_SIO_SET_BITMODE_REQUEST_TYPE FTDI_SIO_SET_BITMODE_REQUEST
    (bitmode mode p) 0 [])).

(** [owned]: the chip has an owner, a module; [mod_ok]: [try_module_get]. *)
Definition hb_rf_usb_gpio_request (owned mod_ok : bool) (offset : Z) : Z :=
  if 2 <? offset then - ENODEV else if owned && negb mod_ok then - ENODEV else 0.
Definition hb_rf_usb_gpio_direction_get (gpio : Z) : Z := 0.
Definition hb_rf_usb_gpio_direction_input (gpio : Z) : Z := - EPERM.
Definition hb_rf_usb_gpio_direction_output (gpio value : Z) : Z := 0.

Definition hb_rf_usb_gpio_get (gpio : Z) (p : port) : Z := Z.land (gpio_value p) (BIT gpio).

Definition hb_rf_usb_gpio_set (gpio value : Z) : M port unit :=
  modify (fun p => with_value (if negb (value =? 0) then u8 (Z.lor (gpio_value p) (BIT gpio))
                               else u8 (Z.ldiff (gpio_value p) (BIT gpio))) p);;
  hb_rf_usb_set_gpio_on_device.

Definition hb_rf_usb_gpio_get_multiple (mask : Z) (p : port) : Z := Z.land (gpio_value p) mask.

Definition hb_rf_usb_gpio_set_multiple (mask bits : Z) : M port unit :=
  modify (fun p => with_value (u8 (Z.ldiff (gpio_value p) mask)) p);;
  modify (fun p => with_value (u8 (Z.lor (gpio_value p) (Z.land bits mask))) p);;
  hb_rf_usb_set_gpio_on_device.

(** The three steps of a reset, each under the lock, with 50 ms after each. *)
Definition reset_low : M port unit :=
  modify (with_direction 0x0f);;
  modify (fun p => with_value (Z.land (gpio_value p) 0x07) p);;
  hb_rf_usb_set_gpio_on_device.
Definition reset_high : M port unit :=
  modify (with_direction 0x0f);;
  modify (fun p => with_value (Z.lor (gpio_value p) 0x08) p);;
  hb_rf_usb_set_gpio_on_device.
Definition reset_release : M port unit :=
  modify (with_direction 0x07);;
  modify (fun p => with_value (Z.land (gpio_value p) 0x07) p);;
  hb_rf_usb_set_gpio_on_device.

Definition hb_rf_usb_reset_radio_module : M port Z :=
  reset_low;; reset_high;; reset_release;; mret 0.

Definition hb_rf_usb_get_led_gpio_index (p : port) (led : generic_raw_uart_led) : Z :=
  match led with
  | LED_RED => gc_base p + 2
  | LED_GREEN => gc_base p + 1
  | LED_BLUE => gc_base p
  end.

(** *** The line *)

(** A control request without data. *)
Definition command (type request value : Z) : M port Z :=
  call (usb_control_msg (Request type request value 0 [])).

(** The answer: which URBs there are now. *)
Definition hb_rf_usb_init_uart (endpoints : list endpoint) : M port (bool * bool) :=
  command FTDI_SIO_RESET_REQUEST_TYPE FTDI_SIO_RESET_REQUEST FTDI_SIO_RESET_SIO;;
  command FTDI_SIO_SET_BAUDRATE_REQUEST_TYPE FTDI_SIO_SET_BAUDRATE_REQUEST 26;;
  command FTDI_SIO_SET_DATA_REQUEST_TYPE FTDI_SIO_SET_DATA_REQUEST
    (Z.lor (Z.lor 8 FTDI_SIO_SET_DATA_PARITY_NONE) FTDI_SIO_SET_DATA_STOP_BITS_1);;
  command FTDI_SIO_SET_EVENT_CHAR_REQUEST_TYPE FTDI_SIO_SET_EVENT_CHAR_REQUEST 0;;
  command FTDI_SIO_SET_ERROR_CHAR_REQUEST_TYPE FTDI_SIO_SET_ERROR_CHAR_REQUEST 0;;
  command FTDI_SIO_SET_LATENCY_TIMER_REQUEST_TYPE FTDI_SIO_SET_LATENCY_TIMER_REQUEST 1;;
  mret (foldl add_urb (false, false) endpoints).

(** Everything the port holds is freed. *)
Definition hb_rf_usb_delete : M port unit :=
  modify (on_link (with_deleted true));;
  modify (with_value 0);;
  hb_rf_usb_set_bitmode FTDI_SIO_BITMODE_RESET;;
  mret tt.

Definition hb_rf_usb_start_connection : M port Z :=
  kref_get;; submit_read;; mret 0.

Definition hb_rf_usb_stop_connection : M port unit :=
  kill_write;; kill_read;; kref_put hb_rf_usb_delete.

Definition hb_rf_usb_stop_tx : M port unit := mret tt.

Definition hb_rf_usb_isready_for_tx : M port bool :=
  p ← get; mret (negb (is_in_tx (plink p))).

Definition hb_rf_usb_tx_chars (chr : list Z) (index len : Z) : M port unit :=
  modify (on_link (with_in_tx true));;
  modify (on_link (load_buffer (slice chr index len)));;
  submit_write;; mret tt.

Definition hb_rf_usb_init_tx : M port unit := mret tt.

Definition hb_rf_usb_get_device_type (p : port) : Z * list Z :=
  snprintf MAX_DEVICE_TYPE_LEN (device_text (udev p)).

Definition hb_rf_usb : RawUartDriver port := {|
  drv_owner := true;
  start_connection := hb_rf_usb_start_connection;
  stop_connection p := (hb_rf_usb_stop_connection p).2;
  init_tx p := (hb_rf_usb_init_tx p).2;
  isready_for_tx := hb_rf_usb_isready_for_tx;
  tx_chars p chr index len := (hb_rf_usb_tx_chars chr index len p).2;
  stop_tx p := (hb_rf_usb_stop_tx p).2;
  get_led_gpio_index := Some hb_rf_usb_get_led_gpio_index;
  reset_radio_module := Some hb_rf_usb_reset_radio_module;
  tx_chunk_size := TX_CHUNK_SIZE;
  tx_bulktransfer_size := TX_CHUNK_SIZE;
  get_device_type := Some hb_rf_usb_get_device_type
|}.
#[local] Existing Instance hb_rf_usb.

(** *** Completion handlers *)

Context `{CB : CircBuf}.

(** [for (i = k; i < k + n; i++)] *)
Fixpoint read_chars (n k : nat) (data : list Z) (i : instance) : exec instance :=
  match n with
  | O => Ok i
  | S n =>
    let? c := entry (data !! k) in
    read_chars n (S k) data (generic_raw_uart_handle_rx_char RX_STATE_NONE (u8 c) i)
  end.

(** [data]: the transfer buffer.  It is read as [char], whose sign does not
    matter for the bits that are looked at. *)
Definition hb_rf_usb_process_read_urb (data : list Z) (actual_length : Z) (u : uart port)
    : exec (uart port) :=
  let? status := entry (data !! 1%nat) in
  let flags := RX_STATE_NONE in
  let '(i, flags) :=
    if has status FTDI_RS_BI
    then (generic_raw_uart_handle_rx_char RX_STATE_BREAK 0 (inst u), flags)
    else
      let flags := if has status FTDI_RS_PE then Z.lor flags RX_STATE_PARITY else flags in
      let flags := if has status FTDI_RS_FE then Z.lor flags RX_STATE_FRAME else flags in
      (inst u, if has status FTDI_RS_OE then Z.lor flags RX_STATE_OVERRUN else flags) in
  let? i := if 2 <? actual_length
            then let? c := entry (data !! 2%nat) in
                 Ok (generic_raw_uart_handle_rx_char flags (u8 c) i)
            else Ok i in
  let? i := read_chars (Z.to_nat (actual_length - 3)) 3 data i in
  Ok (with_drv (submit_read (drv u)).2 (on_inst (fun _ => generic_raw_uart_rx_completed i) u)).

Definition hb_rf_usb_process_write_urb (u : uart port) : exec (bool * uart port) :=
  generic_raw_uart_tx_queued (with_drv (on_link (with_in_tx false) (drv u)) u).

(** *** Binding *)

(** One word of the EEPROM to [buffer + off]; [index] is truncated to 16 bits. *)
Definition read_eeprom (index off : Z) (s : list Z * H) : exec (list Z * H) :=
  let '(buffer, h) := s in
  if zlen buffer <? off + 2 then OutOfBounds else
  let '(d, h) := usb_control_in (Request FTDI_SIO_READ_EEPROM_REQUEST_TYPE
    FTDI_SIO_READ_EEPROM_REQUEST 0 (u16 index) []) 2 h in
  Ok (splice buffer off d, h).

(** A loop over the values its variable takes. *)
Fixpoint for_each {A} (vals : list Z) (body : Z -> A -> exec A) (a : A) : exec A :=
  match vals with
  | [] => Ok a
  | i :: vals => let? a := body i a in for_each vals body a
  end.

(** The serial number of the chip and the signature over it, which is spread
    over the EEPROM; [stale]: what the new buffer holds. *)
Definition read_signature (stale : list Z) (h : H) : exec (list Z * H) :=
  let? s := read_eeprom 0x43 32 (stale, h) in
  let? s := read_eeprom 0x00 18 s in
  let? s := read_eeprom 0x07 24 s in
  let? s := read_eeprom (s.1 @@ 19 + 4) 34 s in
  let? s := read_eeprom 0x0d 2 s in
  let? s := for_each [2; 3; 4; 5; 6; 7; 8; 9; 10]
    (fun i s => read_eeprom (i + 0x0c + Z.shiftr (s.1 @@ 25) 1) (i * 2) s) s in
  let? s := read_eeprom 0x09 36 s in
  let? s := read_eeprom 0x0c 0 s in
  let? s := read_eeprom (Z.shiftr (s.1 @@ 37 + Z.land (s.1 @@ 36) 0x7f) 1) 30 s in
  for_each [-8; -6; -4; -2]
    (fun i s => read_eeprom (Z.land (Z.shiftr (s.1 @@ 36 + i) 1) 0x3f) (30 + i) s) s.

(** What the probe meets: its allocations, the endpoints of the interface, the
    number the GPIO chip gets. *)
Record probe_env := ProbeEnv {
  stale : list Z;                 (* contents of the buffer allocated *)
  buffer_ok : bool;
  port_ok : bool;
  endpoints : list endpoint;
  gpio_base : Z
}.

Section Probe.
(** [crc32] of the kernel, the check of the signature (whether it ends, and
    with what), and [generic_raw_uart_probe] with the rest of its arguments. *)
Variable crc32 : Z -> list Z -> Z.
Variable verify_dkey : list Z -> list Z -> list Z -> Z -> option bool.
Variable raw_probe : port -> probe_result (D := port).

(** The check of the maker and of the signature: the value to return early, if
    any, and the host. *)
Definition check_device (e : probe_env) (dev : usb_device) (info : hb_usb_device_info) (h : H)
    : exec (option Z * H) :=
  let? wrong := wrong_vendor crc32 dev info in
  if wrong : bool then Ok (Some (- ENODEV), h)
  else if negb (pkey info @@ 0 =? 0) then
    if negb (buffer_ok e) then Ok (Some (- ENOMEM), h) else
    let? (buffer, h) := read_signature (stale e) h in
    match verify_dkey (slice buffer 32 4) buffer (pkey info) 16 with
    | None => NoFuel
    | Some true => Ok (None, h)
    | Some false => Ok (if enforce_verification info then Some (- ENODEV) else None, h)
    end
  else Ok (None, h).

Definition new_port (dev : usb_device) (h : H) : port :=
  Port_ (Link false [] 1 false h []) 0x06 0x0f (-1) dev.

Definition hb_rf_usb_probe (e : probe_env) (dev : usb_device) (h : H) : exec (probed port) :=
  let refuse err := Ok (Probed_ (Refused err) 1 0) in
  match usb_match_id dev usbid with
  | None => refuse ENODEV
  | Some info =>
    if negb (bcdDevice dev =? 0x0600) then Ok (Probed_ WildFree 1 0) else
    let? (early, h) := check_device e dev info h in
    match early with
    | Some err => refuse err
    | None =>
      if negb (port_ok e) then NullDeref else
      let p := (hb_rf_usb_set_gpio_on_device (new_port dev h)).2 in
      let p := Port_ (plink p) (gpio_value p) (gpio_direction p) (gpio_base e) (udev p) in
      match raw_probe p with
      | Probed n u =>
        Ok (Probed_ (Ready n (with_drv (hb_rf_usb_init_uart (endpoints e) (drv u)).2 u)) 1 0)
      | ProbeErr err => Ok (Probed_ (Broken err (hb_rf_usb_init_uart (endpoints e) p).2) 1 0)
      end
    end
  end.
End Probe.

(** The state of the generic driver is told after the transfers have stopped,
    and the reference of the probe is given back. *)
Definition hb_rf_usb_disconnect (u : uart port) : uart port :=
  let u := with_drv (kill_read (kill_write (drv u)).2).2 u in
  let u := generic_raw_uart_set_connection_state false u in
  with_drv (kref_put hb_rf_usb_delete (drv u)).2 u.
End Driver.
End HbRfUsb.
