(* ===== verification/HbRfUsb2.v ===== *)
(** The driver for the HB-RF-USB-2 and HB-RF-USB-TK adapters
    (src/kernel/hb_rf_usb_2.c), which have a CP2102N serial converter: its
    functions, the instance of [RawUartDriver] they make, the decoding of the
    events the converter embeds in what it receives, and its pins. *)
From S2P Require Import Prelude Kernel Effects Ring RawUart RawUartRx RawUartTx Usb.

Module HbRfUsb2.
Definition TX_CHUNK_SIZE : Z := 11.
Definition BUFFER_SIZE : Z := 256.
Definition REQTYPE_HOST_TO_INTERFACE : Z := 0x41.
Definition REQTYPE_HOST_TO_DEVICE : Z := 0x40.
Definition REQTYPE_DEVICE_TO_HOST : Z := 0xc0.
Definition CP2102N_IFC_ENABLE : Z := 0x00.
Definition CP2102N_SET_LINE_CTL : Z := 0x03.
Definition CP2102N_PURGE : Z := 0x12.
Definition CP2102N_EMBED_EVENTS : Z := 0x15.
Definition CP2102N_SET_BAUDRATE : Z := 0x1e.
Definition CP2102N_VENDOR_SPECIFIC : Z := 0xff.
Definition UART_ENABLE : Z := 0x0001.
Definition UART_DISABLE : Z := 0x0000.
Definition PURGE_ALL : Z := 0x000f.
Definition BITS_DATA_8 : Z := 0x0800.
Definition BITS_PARITY_NONE : Z := 0x0000.
Definition BITS_STOP_1 : Z := 0x0000.
Definition CP2102N_WRITE_LATCH : Z := 0x37E1.
Definition CP2102N_READ_CONFIG : Z := 0x000e.
Definition CP2102N_GET_CHIPTYPE : Z := 0x370B.
Definition CP2102N_CONFIG_SIZE : Z := 0x02a6.
Definition LED_GPIO_MASK : Z := Z.lor (Z.lor (BIT 1) (BIT 2)) (BIT 3).
Definition RESET_GPIO_MASK : Z := BIT 0.
Definition EMBED_EVENT_CHAR : Z := 0xff.

Definition usbid : list usb_device_id := [
  HB_USB_DEVICE 0x10c4 0x8c07 0x60d01cf9 false [0xd7cc3f44; 0xf50048a8; 0x3cf61d60; 0xae8460d1; 0x272a5876; 0x2dc161f5; 0x7737fbae; 0x88c996b2;
    0xed521e88; 0xdd24b0ac; 0x4b7c49a4; 0xcc457acb; 0xb2079847; 0x6745032a; 0xaf25d41f; 0xbecfb9f3];
  HB_USB_DEVICE 0x1b1f 0xc020 0 false [];
  HB_USB_DEVICE 0x10c4 0x8d81 0 true [0x08b1480e; 0x8f349c82; 0xe56ba2d8; 0x84fe66b7; 0x0f102855; 0x79bd41d5; 0x8d8905e0; 0xe9c16cc3;
    0xbb188368; 0x4167f9bf; 0x05084458; 0x24a171da; 0xfdbf5b3b; 0xec31efea; 0x1653f3ef; 0x495f8104];
  HB_USB_DEVICE 0x10c4 0x8d91 0 true [0x263fb637; 0x01f31c2c; 0xf413b1f1; 0x9e1bfd39; 0x4d3bdd3b; 0xc6f9859c; 0xfd9a1fd8; 0xfe4dea4d;
    0x7d2777d8; 0x53be386d; 0xfbf7255e; 0x1c8a39fe; 0xbdf5be92; 0x535f9fc1; 0x56bb3a13; 0x752d919e];
  HB_USB_DEVICE 0x10c4 0x8e4a 0 true [0x14590d07; 0xd4e76fa9; 0xd735d146; 0xe34e05bc; 0xc5fe3795; 0xbd4c207b; 0xab016dd9; 0xf95b2d4f;
    0x919eb09d; 0x809882a8; 0xdc43c1b6; 0xea21e52c; 0x564fce21; 0x5c64b1d7; 0xb07ddc57; 0x62bd9b64]
].

(** [struct hb_rf_usb_2_port_s]; [gc_base]: the first number of the GPIO chip,
    0 when there is none. *)
Record hb_rf_usb_2_port_s (H : Type) := Port_ {
  plink : link H;
  invert_reset : bool;
  part_num : Z;
  gpio_value : Z;
  gc_base : Z;
  udev : usb_device
}.
Arguments Port_ {H}.
Arguments plink {H}.
Arguments invert_reset {H}.
Arguments part_num {H}.
Arguments gpio_value {H}.
Arguments gc_base {H}.
Arguments udev {H}.

(** The parts with pins. *)
Definition has_gpio (part : Z) : bool := (0x20 <=? part) && (part <=? 0x22).

Section Driver.
Context {H : Type} `{!UsbHost H}.
Abbreviation port := (hb_rf_usb_2_port_s H).

#[export] Instance hb_rf_usb_2_port : Port port H := {|
  link_of := plink;
  on_link f p := Port_ (f (plink p)) (invert_reset p) (part_num p) (gpio_value p) (gc_base p) (udev p);
  link_of_on_link f p := eq_refl
|}.

Definition with_value (v : Z) (p : port) : port :=
  Port_ (plink p) (invert_reset p) (part_num p) v (gc_base p) (udev p).
Definition with_base (b : Z) (p : port) : port :=
  Port_ (plink p) (invert_reset p) (part_num p) (gpio_value p) b (udev p).

(** *** Pins

    Mask and value are bytes.  The allocations, whose success the code does
    not check, succeed. *)
Definition hb_rf_usb_2_set_gpio_on_device (mask value : Z) : M port unit :=
  call (usb_submit_control (Request REQTYPE_HOST_TO_DEVICE CP2102N_VENDOR_SPECIFIC
    CP2102N_WRITE_LATCH (u16 (Z.lor (Z.shiftl (u8 value) 8) (u8 mask))) []));;
  mret tt.

(** [owned]: the chip has an owner, a module; [mod_ok]: [try_module_get]. *)
Definition hb_rf_usb_2_gpio_request (owned mod_ok : bool) (offset : Z) : Z :=
  if 2 <? offset then - ENODEV else if owned && negb mod_ok then - ENODEV else 0.
Definition hb_rf_usb_2_gpio_direction_get (gpio : Z) : Z := 0.
Definition hb_rf_usb_2_gpio_direction_input (gpio : Z) : Z := - EPERM.
Definition hb_rf_usb_2_gpio_direction_output (gpio value : Z) : Z := 0.

Definition hb_rf_usb_2_gpio_get (gpio : Z) (p : port) : Z := Z.land (gpio_value p) (BIT gpio).

Definition hb_rf_usb_2_gpio_set (gpio value : Z) : M port unit :=
  modify (fun p => with_value (if negb (value =? 0) then u8 (Z.lor (gpio_value p) (BIT gpio))
                               else u8 (Z.ldiff (gpio_value p) (BIT gpio))) p);;
  p ← get;
  hb_rf_usb_2_set_gpio_on_device LED_GPIO_MASK (Z.shiftl (gpio_value p) 1).

Definition hb_rf_usb_2_gpio_get_multiple (mask : Z) (p : port) : Z := Z.land (gpio_value p) mask.

Definition hb_rf_usb_2_gpio_set_multiple (mask bits : Z) : M port unit :=
  modify (fun p => with_value (u8 (Z.ldiff (gpio_value p) mask)) p);;
  modify (fun p => with_value (u8 (Z.lor (gpio_value p) (Z.land bits mask))) p);;
  p ← get;
  hb_rf_usb_2_set_gpio_on_device LED_GPIO_MASK (Z.shiftl (gpio_value p) 1).

Definition hb_rf_usb_2_get_led_gpio_index (p : port) (led : generic_raw_uart_led) : Z :=
  if has_gpio (part_num p) then
    match led with
    | LED_RED => gc_base p
    | LED_GREEN => gc_base p + 1
    | LED_BLUE => gc_base p + 2
    end
  else 0.

(** 50 ms after each of the two. *)
Definition hb_rf_usb_2_reset_radio_module : M port Z :=
  p ← get;
  if has_gpio (part_num p) then
    hb_rf_usb_2_set_gpio_on_device RESET_GPIO_MASK (if invert_reset p then 0 else 1);;
    hb_rf_usb_2_set_gpio_on_device RESET_GPIO_MASK (if invert_reset p then 1 else 0);;
    mret 0
  else mret (- ENOSYS).

(** *** The line *)

(** A request to the interface. *)
Definition command (request value : Z) (data : list Z) : M port Z :=
  call (usb_control_msg (Request REQTYPE_HOST_TO_INTERFACE request value 0 data)).

(** The answer: which URBs there are now. *)
Definition hb_rf_usb_2_init_uart (endpoints : list endpoint) : M port (bool * bool) :=
  command CP2102N_SET_LINE_CTL (Z.lor (Z.lor BITS_DATA_8 BITS_PARITY_NONE) BITS_STOP_1) [];;
  command CP2102N_SET_BAUDRATE 0 (le32 115200);;
  mret (foldl add_urb (false, false) endpoints).

(** Everything the port holds is freed. *)
Definition hb_rf_usb_2_delete : M port unit := modify (on_link (with_deleted true)).

Definition hb_rf_usb_2_start_connection : M port Z :=
  kref_get;;
  command CP2102N_IFC_ENABLE UART_ENABLE [];;
  command CP2102N_EMBED_EVENTS EMBED_EVENT_CHAR [];;
  submit_read;;
  mret 0.

Definition hb_rf_usb_2_stop_connection : M port unit :=
  kill_write;; kill_read;;
  command CP2102N_PURGE PURGE_ALL [];;
  command CP2102N_IFC_ENABLE UART_DISABLE [];;
  kref_put hb_rf_usb_2_delete.

Definition hb_rf_usb_2_stop_tx : M port unit := mret tt.

Definition hb_rf_usb_2_isready_for_tx : M port bool :=
  p ← get; mret (negb (is_in_tx (plink p))).

Definition hb_rf_usb_2_tx_chars (chr : list Z) (index len : Z) : M port unit :=
  modify (on_link (with_in_tx true));;
  modify (on_link (load_buffer (slice chr index len)));;
  submit_write;; mret tt.

Definition hb_rf_usb_2_init_tx : M port unit := mret tt.

Definition hb_rf_usb_2_get_device_type (p : port) : Z * list Z :=
  snprintf MAX_DEVICE_TYPE_LEN (device_text (udev p)).

Definition hb_rf_usb_2 : RawUartDriver port := {|
  drv_owner := true;
  start_connection := hb_rf_usb_2_start_connection;
  stop_connection p := (hb_rf_usb_2_stop_connection p).2;
  init_tx p := (hb_rf_usb_2_init_tx p).2;
  isready_for_tx := hb_rf_usb_2_isready_for_tx;
  tx_chars p chr index len := (hb_rf_usb_2_tx_chars chr index len p).2;
  stop_tx p := (hb_rf_usb_2_stop_tx p).2;
  get_led_gpio_index := Some hb_rf_usb_2_get_led_gpio_index;
  reset_radio_module := Some hb_rf_usb_2_reset_radio_module;
  tx_chunk_size := TX_CHUNK_SIZE;
  tx_bulktransfer_size := TX_CHUNK_SIZE;
  get_device_type := Some hb_rf_usb_2_get_device_type
|}.
#[local] Existing Instance hb_rf_usb_2.

(** *** Completion handlers *)

Context `{CB : CircBuf}.

(** The flags of a line status. *)
Definition status_flags (status : Z) : Z :=
  let flags := RX_STATE_NONE in
  let flags := if has status (BIT 1) then Z.lor flags RX_STATE_OVERRUN else flags in
  let flags := if has status (BIT 2) then Z.lor flags RX_STATE_PARITY else flags in
  let flags := if has status (BIT 3) then Z.lor flags RX_STATE_FRAME else flags in
  if has status (BIT 4) then Z.lor flags RX_STATE_BREAK else flags.

(** The loop over the transfer buffer [data]; what follows an event character
    is read without a look at the length of the transfer. *)
Fixpoint read_loop (fuel : nat) (k : Z) (data : list Z) (actual_length : Z) (i : instance)
    : exec instance :=
  match fuel with
  | O => NoFuel
  | S fuel =>
    if negb (k <? actual_length) then Ok i else
    let? c := entry (data !! Z.to_nat k) in
    if c =? EMBED_EVENT_CHAR then
      let k := k + 1 in
      let? e := entry (data !! Z.to_nat k) in
      if e =? 0 then
        read_loop fuel (k + 1) data actual_length
          (generic_raw_uart_handle_rx_char RX_STATE_NONE EMBED_EVENT_CHAR i)
      else if (e =? 1) || (e =? 2) then
        let k := k + 1 in
        let? status := entry (data !! Z.to_nat k) in
        let flags := status_flags status in
        if has status (BIT 0) then
          let k := k + 1 in
          let? c := entry (data !! Z.to_nat k) in
          read_loop fuel (k + 1) data actual_length (generic_raw_uart_handle_rx_char flags c i)
        else read_loop fuel (k + 1) data actual_length (generic_raw_uart_handle_rx_char flags 0 i)
      else read_loop fuel (k + 1) data actual_length i
    else read_loop fuel (k + 1) data actual_length (generic_raw_uart_handle_rx_char RX_STATE_NONE c i)
  end.

Definition hb_rf_usb_2_process_read_urb (data : list Z) (actual_length : Z) (u : uart port)
    : exec (uart port) :=
  let? i := read_loop (S (Z.to_nat actual_length)) 0 data actual_length (inst u) in
  Ok (with_drv (submit_read (drv u)).2 (on_inst (fun _ => generic_raw_uart_rx_completed i) u)).

Definition hb_rf_usb_2_process_write_urb (u : uart port) : exec (bool * uart port) :=
  generic_raw_uart_tx_queued (with_drv (on_link (with_in_tx false) (drv u)) u).

(** *** Binding *)

Record probe_env := ProbeEnv {
  stale : list Z;                 (* contents of the buffer allocated *)
  buffer_ok : bool;
  port_ok : bool;
  endpoints : list endpoint;
  gpio_base : Z
}.

Section Probe.
(** [crc32] of the kernel, the check of the signature (whether it ends, and
    with what), [generic_raw_uart_probe] with the rest of its arguments, and
    what a [memcpy] between overlapping ranges leaves. *)
Variable crc32 : Z -> list Z -> Z.
Variable verify_dkey : list Z -> list Z -> list Z -> Z -> option bool.
Variable raw_probe : port -> probe_result (D := port).
Variable overlapping : list Z -> Z -> Z -> Z -> list Z.

(** [memcpy(buffer + dst, buffer + src, n)] *)
Definition memcpy (dst src n : Z) (buffer : list Z) : exec (list Z) :=
  if (zlen buffer <? dst + n) || (zlen buffer <? src + n) then OutOfBounds
  else if (dst + n <=? src) || (src + n <=? dst)
  then Ok (splice buffer dst (slice buffer src n))
  else Ok (overlapping buffer dst src n).

(** A request that reads [n] bytes to the beginning of the buffer. *)
Definition read_device (value n : Z) (s : list Z * H) : list Z * H :=
  let '(buffer, h) := s in
  let '(d, h) := usb_control_in (Request REQTYPE_DEVICE_TO_HOST CP2102N_VENDOR_SPECIFIC value 0 []) n h in
  (splice buffer 0 d, h).

Definition reset_inverted (part : Z) (buffer : list Z) : bool :=
  if (part =? 0x20) || (part =? 0x21) then has (buffer @@ 587) 8
  else if part =? 0x22 then has (buffer @@ 586) 1
  else false.

(** The signature is put together from parts of the configuration; [plen] is
    the length of the product string. *)
Definition assemble (plen : Z) (buffer : list Z) : exec (list Z) :=
  let? b := memcpy (buffer @@ 191 + 245) (331 + plen * 2) 20 buffer in
  let? b := memcpy (231 + b @@ 191) (62 + b @@ 60) (b @@ 45) b in
  let? b := memcpy (245 + plen * 2) (452 + b @@ 450) (b @@ 192 * 10) b in
  memcpy (b @@ 191 + 257) 518 (b @@ 60) b.

(** The check of the signature, with its answer. *)
Definition check_signature (dev : usb_device) (info : hb_usb_device_info) (buffer : list Z)
    : exec bool :=
  let? product := string_of (product dev) in
  let plen := zlen product in
  let? b := assemble plen buffer in
  if negb (b @@ 449 =? 0xff) then Ok false else
  let? serial := string_of (serial dev) in
  let off := b @@ 192 + 192 + plen * 2 in
  if zlen b <? off + 64 then OutOfBounds else
  match verify_dkey serial (slice b off 64) (pkey info) 32 with
  | None => NoFuel
  | Some r => Ok r
  end.

(** The pins of a new port and the chip that makes them available. *)
Definition setup_gpio (e : probe_env) (p : port) : port :=
  if has_gpio (part_num p) then
    let p := with_value 0x03 p in
    let p := (hb_rf_usb_2_set_gpio_on_device (Z.lor LED_GPIO_MASK RESET_GPIO_MASK)
                (Z.lor (Z.shiftl (gpio_value p) 1) (if invert_reset p then 0 else 1)) p).2 in
    with_base (gpio_base e) p
  else p.

Definition new_port (inverted : bool) (part : Z) (dev : usb_device) (h : H) : port :=
  Port_ (Link false [] 1 false h []) inverted part 0 0 dev.

(** From the allocation of the port on. *)
Definition bind_port (e : probe_env) (inverted : bool) (part : Z) (dev : usb_device) (h : H)
    : probed port :=
  if negb (port_ok e) then Probed_ (Refused (- ENOMEM)) 1 0 else
  let p := setup_gpio e (new_port inverted part dev h) in
  match raw_probe p with
  | Probed n u =>
    Probed_ (Ready n (with_drv (hb_rf_usb_2_init_uart (endpoints e) (drv u)).2 u)) 1 0
  | ProbeErr err => Probed_ (Broken err (hb_rf_usb_2_init_uart (endpoints e) p).2) 1 0
  end.

Definition hb_rf_usb_2_probe (e : probe_env) (dev : usb_device) (h : H) : exec (probed port) :=
  let refuse err := Ok (Probed_ (Refused err) 1 0) in
  match usb_match_id dev usbid with
  | None => refuse ENODEV
  | Some info =>
    let? wrong := wrong_vendor crc32 dev info in
    if wrong : bool then Ok (Probed_ WildFree 1 0) else
    if negb (buffer_ok e) then refuse (- ENOMEM) else
    let '(buffer, h) := read_device CP2102N_GET_CHIPTYPE 1 (stale e, h) in
    let part := buffer @@ 0 in
    if has_gpio part then
      let '(buffer, h) := read_device CP2102N_READ_CONFIG CP2102N_CONFIG_SIZE (buffer, h) in
      let inverted := reset_inverted part buffer in
      if negb (pkey info @@ 0 =? 0) then
        let? verified := check_signature dev info buffer in
        if negb verified && (negb (part =? 0x22) || enforce_verification info)
        then refuse (- ENODEV)
        else Ok (bind_port e inverted part dev h)
      else Ok (bind_port e inverted part dev h)
    else if negb (part =? 0x02) then refuse (- ENODEV)
    else Ok (bind_port e false part dev h)
  end.
End Probe.

Definition hb_rf_usb_2_disconnect (u : uart port) : uart port :=
  let u := with_drv (kill_read (kill_write (drv u)).2).2 u in
  let u := generic_raw_uart_set_connection_state false u in
  with_drv (kref_put hb_rf_usb_2_delete (drv u)).2 u.
End Driver.
End HbRfUsb2.
