(* ===== verification/UsbRx.v ===== *)
(** The USB adapters: what a received transfer is taken for.

    The FTDI converter puts two status bytes in front of the characters; the
    CP2102N embeds events in them, marked by an event character.  The theorems
    say what the handlers of both drivers feed to the generic driver, and when
    they read memory they must not. *)
From S2P Require Import Prelude Kernel Effects Ring RawUart RawUartRx RawUartTx Usb HbRfUsb HbRfUsb2.

(** A run that has a result or reads behind the buffer. *)
Definition fine_or_outside {A} (r : exec A) : Prop := (exists a, r = Ok a) \/ r = OutOfBounds.

Section Burst.
Context `{CB : CircBuf}.

Lemma rx_burst_app l1 l2 i : rx_burst (l1 ++ l2) i = rx_burst l2 (rx_burst l1 i).
Proof. apply fold_left_app. Qed.

Lemma rx_completed_counts i : let i' := generic_raw_uart_rx_completed i in
  count_rx i' = count_rx i /\ count_brk i' = count_brk i /\ count_parity i' = count_parity i /\
  count_frame i' = count_frame i /\ count_overrun i' = count_overrun i.
Proof. cbv zeta. unfold generic_raw_uart_rx_completed. by destruct (dump_traffic i). Qed.
End Burst.

(** ** The FTDI converter *)

Module Ftdi.
Import HbRfUsb.

(** The errors of a status byte, which go to the first character. *)
Definition errors (status : Z) : Z :=
  if has status FTDI_RS_BI then RX_STATE_NONE else
  Z.lor (Z.lor (if has status FTDI_RS_PE then RX_STATE_PARITY else 0)
               (if has status FTDI_RS_FE then RX_STATE_FRAME else 0))
        (if has status FTDI_RS_OE then RX_STATE_OVERRUN else 0).

(** The received characters with their flags. *)
Definition chars (status : Z) (l : list Z) : list (Z * Z) :=
  (if has status FTDI_RS_BI then [(RX_STATE_BREAK, 0)] else []) ++
  match l with
  | [] => []
  | c :: l => (errors status, u8 c) :: ((fun c => (RX_STATE_NONE, u8 c)) <$> l)
  end.

Section Spec.
Context `{CB : CircBuf} {H : Type} `{!UsbHost H}.

Lemma read_chars_spec n : forall k data i, (k + n <= length data)%nat ->
  read_chars n k data i = Ok (rx_burst ((fun c => (RX_STATE_NONE, u8 c)) <$> take n (drop k data)) i).
Proof.
  induction n as [|n IH]; intros k data i Hk; [done|]. cbn [read_chars].
  destruct (lookup_lt_is_Some_2 data k) as [c Hc]; [lia|]. rewrite Hc. cbn [entry exec_bind].
  rewrite IH by lia. by rewrite (drop_S _ c k) by done.
Qed.

Lemma read_chars_any n : forall k data i i', read_chars n k data i = Ok i' -> exists l, i' = rx_burst l i.
Proof.
  induction n as [|n IH]; intros k data i i'; cbn [read_chars]; [intros [= <-]; by exists []|].
  destruct (data !! k) as [c|]; cbn [entry exec_bind]; [|done]. intros [l ->]%IH.
  by exists ((RX_STATE_NONE, u8 c) :: l).
Qed.

Lemma ftdi_read_fine data n (u : uart (hb_rf_usb_port_s H)) :
  fine_or_outside (hb_rf_usb_process_read_urb data n u).
Proof.
  assert (Hc : forall m k i, fine_or_outside (read_chars m k data i)).
  { induction m as [|m IH]; intros k i; cbn [read_chars]; [left; by eexists|].
    destruct (data !! k); cbn [entry exec_bind]; [apply IH | by right]. }
  unfold hb_rf_usb_process_read_urb. destruct (data !! 1%nat) as [status|]; [|by right]. cbn [entry exec_bind].
  destruct (if has status FTDI_RS_BI then _ else _) as [i flags].
  assert (Hl : forall i, fine_or_outside (let? i := read_chars (Z.to_nat (n - 3)) 3 data i in
    Ok (with_drv (submit_read (drv u)).2 (on_inst (fun _ => generic_raw_uart_rx_completed i) u)))).
  { intros i1. destruct (Hc (Z.to_nat (n - 3)) 3%nat i1) as [[i2 ->] | ->]; [left; by eexists | by right]. }
  destruct (2 <? n); [|apply Hl]. destruct (data !! 2%nat); [apply Hl | by right].
Qed.

Lemma ftdi_read_any data n (u u' : uart (hb_rf_usb_port_s H)) :
  hb_rf_usb_process_read_urb data n u = Ok u' ->
  exists l, u' = with_drv (submit_read (drv u)).2
    (on_inst (fun i => generic_raw_uart_rx_completed (rx_burst l i)) u).
Proof.
  unfold hb_rf_usb_process_read_urb. intros (status & _ & E)%exec_bind_ok. revert E.
  set (first := if has status FTDI_RS_BI then _ else _).
  assert (F : exists l flags, first = (rx_burst l (inst u), flags)).
  { unfold first. destruct (has status FTDI_RS_BI); [by exists [(RX_STATE_BREAK, 0)]; eexists|].
    by exists []; eexists. }
  destruct F as (l1 & flags & ->). intros (i1 & E1 & (i2 & E2 & [= <-])%exec_bind_ok)%exec_bind_ok.
  assert (F : exists l, i1 = rx_burst l (inst u)).
  { destruct (2 <? n); [|injection E1 as <-; by exists l1].
    apply exec_bind_ok in E1 as (c & _ & [= <-]). exists (l1 ++ [(flags, u8 c)]). by rewrite rx_burst_app. }
  destruct F as [l2 ->]. apply read_chars_any in E2 as [l3 ->].
  exists (l2 ++ l3). unfold on_inst. by rewrite rx_burst_app.
Qed.

Lemma errors_flags status :
  (if has status FTDI_RS_BI then RX_STATE_NONE else
    let flags := if has status FTDI_RS_PE then Z.lor RX_STATE_NONE RX_STATE_PARITY else RX_STATE_NONE in
    let flags := if has status FTDI_RS_FE then Z.lor flags RX_STATE_FRAME else flags in
    if has status FTDI_RS_OE then Z.lor flags RX_STATE_OVERRUN else flags) = errors status.
Proof.
  unfold errors. by destruct (has status FTDI_RS_BI), (has status FTDI_RS_PE), (has status FTDI_RS_FE),
    (has status FTDI_RS_OE).
Qed.

(** Good characters and breaks of a transfer. *)
Lemma chars_good status l : good_chars (chars status l) = u8 <$> l.
Proof.
  unfold good_chars, chars.
  assert (Hr : forall l : list Z, map snd (List.filter (fun c : Z * Z => negb (is_break c.1))
    ((fun c => (RX_STATE_NONE, u8 c)) <$> l)) = u8 <$> l).
  { clear. intros l. induction l as [|c l IH]; [done|]. cbn [fmap list_fmap List.filter map].
    cbn [fst is_break]. change (negb (is_break RX_STATE_NONE)) with true. cbn. f_equal. apply IH. }
  rewrite List.filter_app, map_app. transitivity ([] ++ (u8 <$> l)); [|done]. f_equal.
  { by destruct (has status FTDI_RS_BI). }
  destruct l as [|c l]; [done|]. cbn [List.filter map fst].
  assert (He : is_break (errors status) = false).
  { unfold errors. by destruct (has status FTDI_RS_BI), (has status FTDI_RS_PE),
      (has status FTDI_RS_FE), (has status FTDI_RS_OE). }
  rewrite He. cbn. f_equal. apply Hr.
Qed.

Lemma chars_breaks status l : tally is_break (chars status l) = b2z (has status FTDI_RS_BI).
Proof.
  unfold chars, tally. rewrite List.filter_app, zlen_app.
  assert (Hr : forall l : list Z, List.filter (fun c : Z * Z => is_break c.1)
    ((fun c => (RX_STATE_NONE, u8 c)) <$> l) = []).
  { clear. intros l. induction l as [|c l IH]; [done|]. cbn. apply IH. }
  assert (He : is_break (errors status) = false).
  { unfold errors. by destruct (has status FTDI_RS_BI), (has status FTDI_RS_PE),
      (has status FTDI_RS_FE), (has status FTDI_RS_OE). }
  destruct l as [|c l]; cbn [List.filter fst]; rewrite ?He, ?Hr; by destruct (has status FTDI_RS_BI).
Qed.

Lemma zlen_chars status l : zlen (chars status l) = b2z (has status FTDI_RS_BI) + zlen l.
Proof.
  unfold chars. rewrite zlen_app. f_equal; [by destruct (has status FTDI_RS_BI)|].
  destruct l as [|c l]; [done|]. unfold zlen. simpl. by rewrite length_fmap.
Qed.

(** The handler feeds the characters of the transfer. *)
Lemma ftdi_read_spec data n (u : uart (hb_rf_usb_port_s H)) : zlen data = BUFFER_SIZE -> n <= BUFFER_SIZE ->
  exists status, data !! 1%nat = Some status /\
  hb_rf_usb_process_read_urb data n u = Ok (with_drv (submit_read (drv u)).2
    (on_inst (fun i => generic_raw_uart_rx_completed (rx_burst (chars status (slice data 2 (n - 2))) i)) u)).
Proof.
  intros Hl Hn. unfold BUFFER_SIZE, zlen in *.
  destruct (lookup_lt_is_Some_2 data 1) as [status Hs]; [lia|]. exists status. split; [done|].
  unfold hb_rf_usb_process_read_urb. rewrite Hs. cbn [entry exec_bind].
  set (first := if has status FTDI_RS_BI then [(RX_STATE_BREAK, 0)] else []).
  transitivity (let i := rx_burst first (inst u) in
    let? i := if 2 <? n then let? c := entry (data !! 2%nat) in
      Ok (generic_raw_uart_handle_rx_char (errors status) (u8 c) i) else Ok i in
    let? i := read_chars (Z.to_nat (n - 3)) 3 data i in
    Ok (with_drv (submit_read (drv u)).2 (on_inst (fun _ => generic_raw_uart_rx_completed i) u))).
  { rewrite <- errors_flags. unfold first. by destruct (has status FTDI_RS_BI). }
  cbv zeta. destruct (Z.ltb_spec 2 n) as [H2|H2].
  - destruct (lookup_lt_is_Some_2 data 2) as [c Hc]; [lia|]. rewrite Hc. cbn [entry exec_bind].
    rewrite read_chars_spec by lia. cbn [exec_bind]. do 2 f_equal.
    unfold slice, chars. change (Z.to_nat 2) with 2%nat. rewrite (drop_S data c 2 Hc).
    replace (Z.to_nat (n - 2)) with (S (Z.to_nat (n - 3))) by lia. cbn [take].
    unfold on_inst. by rewrite rx_burst_app.
  - replace (Z.to_nat (n - 3)) with 0%nat by lia. cbn [read_chars exec_bind].
    unfold slice, chars. replace (Z.to_nat (n - 2)) with 0%nat by lia. rewrite take_0, app_nil_r. done.
Qed.

Lemma chars_errors bit mask status l :
  flagged (errors status) bit = negb (has status FTDI_RS_BI) && has status mask ->
  flagged RX_STATE_BREAK bit = false ->
  tally (is_error bit) (chars status l) =
    b2z (negb (has status FTDI_RS_BI) && has status mask && negb (bool_decide (l = []))).
Proof.
  intros He Hb. unfold chars, tally. rewrite List.filter_app, zlen_app.
  assert (Hr : forall l : list Z, List.filter (fun c : Z * Z => is_error bit c.1)
    ((fun c => (RX_STATE_NONE, u8 c)) <$> l) = []).
  { clear. intros l. induction l as [|c l IH]; [done|]. cbn. apply IH. }
  assert (Hn : is_break (errors status) = false).
  { unfold errors. by destruct (has status FTDI_RS_BI), (has status FTDI_RS_PE),
      (has status FTDI_RS_FE), (has status FTDI_RS_OE). }
  transitivity (0 + b2z (negb (has status FTDI_RS_BI) && has status mask && negb (bool_decide (l = []))));
    [|done]. f_equal.
  { destruct (has status FTDI_RS_BI); [|done]. cbn. by destruct (flagged _ _). }
  destruct l as [|c l]; [by rewrite andb_false_r|]. rewrite bool_decide_false by done. rewrite andb_true_r.
  cbn [List.filter fst]. rewrite Hr. unfold is_error at 1. rewrite Hn, He. cbn [negb andb].
  by destruct (negb _ && _).
Qed.

(** A completed transfer of an FTDI adapter: everything from
    the third byte on is received, as far as the ring has room; the errors of
    the status byte are counted with the first character only, and a break
    once, without one.  The status byte is looked at whatever the length of
    the transfer: after one that brought nothing, it is that of an earlier
    transfer and its break is counted again; the status bytes of further
    packets of the same transfer are taken for characters. *)
Theorem ftdi_transfer_received data n (u : uart (hb_rf_usb_port_s H)) :
  zlen data = BUFFER_SIZE -> 0 <= n <= BUFFER_SIZE -> rx_ok (inst u) -> counters_ok (inst u) ->
  exists status u', data !! 1%nat = Some status /\ hb_rf_usb_process_read_urb data n u = Ok u' /\
    let line := slice data 2 (n - 2) in
    let broken := has status FTDI_RS_BI in
    let first mask := b2z (negb broken && has status mask && negb (bool_decide (line = []))) in
    rx_ok (inst u') /\
    pending (inst u') =
      pending (inst u) ++ take (Z.to_nat (rx_capacity - zlen (pending (inst u)))) (u8 <$> line) /\
    count_rx (inst u') = s32 (count_rx (inst u) + (b2z broken + zlen line)) /\
    count_brk (inst u') = s32 (count_brk (inst u) + b2z broken) /\
    count_parity (inst u') = s32 (count_parity (inst u) + first FTDI_RS_PE) /\
    count_frame (inst u') = s32 (count_frame (inst u) + first FTDI_RS_FE) /\
    count_overrun (inst u') = s32 (count_overrun (inst u) + first FTDI_RS_OE).
Proof.
  intros Hl Hn Hu Hc. destruct (ftdi_read_spec data n u Hl ltac:(lia)) as (status & Hs & E).
  exists status. eexists. split; [done|]. split; [done|]. cbv zeta. cbn [with_drv on_inst inst].
  set (line := slice data 2 (n - 2)).
  destruct (rx_completed_counts (rx_burst (chars status line) (inst u))) as (-> & -> & -> & -> & ->).
  pose proof (counters_ok_burst (chars status line) (inst u) Hu Hc) as C'.
  pose proof (rx_burst_counts (chars status line) (inst u) Hu) as (E1 & E2 & E3 & E4 & E5 & _).
  unfold counters_ok in C'. rewrite !Forall_cons in C'.
  destruct C' as (R1 & R2 & R3 & R4 & R5 & _). rewrite R1, R2, R3, R4, R5 in *.
  rewrite zlen_chars in E1. rewrite chars_breaks in E2.
  assert (F : forall m b, m = FTDI_RS_PE /\ b = RX_STATE_PARITY \/ m = FTDI_RS_FE /\ b = RX_STATE_FRAME \/
      m = FTDI_RS_OE /\ b = RX_STATE_OVERRUN ->
      flagged (errors status) b = negb (has status FTDI_RS_BI) && has status m).
  { unfold errors. intros m b [[-> ->]|[[-> ->]|[-> ->]]];
      by destruct (has status FTDI_RS_BI), (has status FTDI_RS_PE), (has status FTDI_RS_FE),
        (has status FTDI_RS_OE). }
  rewrite (chars_errors _ FTDI_RS_PE) in E3 by (done || apply F; auto).
  rewrite (chars_errors _ FTDI_RS_FE) in E4 by (done || apply F; auto).
  rewrite (chars_errors _ FTDI_RS_OE) in E5 by (done || apply F; auto).
  split; [by apply rx_completed_ok, rx_burst_ok|].
  split; [by rewrite rx_completed_pending, rx_burst_pending, chars_good|].
  by rewrite E1, E2, E3, E4, E5.
Qed.
End Spec.
End Ftdi.

(** ** The CP2102N converter *)

Module Cp2102n.
Import HbRfUsb2.

(** What the converter embeds: a character, a line status with or without the
    character it belongs to, or an event of another kind. *)
Inductive event :=
| Char (c : Z)
| Line (kind status : Z) (c : option Z)
| Other (kind : Z).

Definition embed (ev : event) : list Z :=
  match ev with
  | Char c => if c =? EMBED_EVENT_CHAR then [EMBED_EVENT_CHAR; 0] else [c]
  | Line kind status (Some c) => [EMBED_EVENT_CHAR; kind; status; c]
  | Line kind status None => [EMBED_EVENT_CHAR; kind; status]
  | Other kind => [EMBED_EVENT_CHAR; kind]
  end.

(** Bit 0 of a status announces the character. *)
Definition event_ok (ev : event) : Prop :=
  match ev with
  | Char _ => True
  | Line kind status c => (kind = 1 \/ kind = 2) /\ has status (BIT 0) = bool_decide (is_Some c)
  | Other kind => kind <> 0 /\ kind <> 1 /\ kind <> 2
  end.

(** The characters the generic driver is to get; a status that comes alone
    counts as a character 0. *)
Definition chars (ev : event) : list (Z * Z) :=
  match ev with
  | Char c => [(RX_STATE_NONE, c)]
  | Line _ status c => [(status_flags status, default 0 c)]
  | Other _ => []
  end.

Lemma lookup_in_middle {A} (l1 l2 l3 : list A) k (j : nat) x : k = zlen l1 + Z.of_nat j -> l2 !! j = Some x ->
  (l1 ++ l2 ++ l3) !! Z.to_nat k = Some x.
Proof.
  intros -> Hx. unfold zlen. rewrite <- Nat2Z.inj_add, Nat2Z.id.
  rewrite lookup_app_r by lia. replace (length l1 + j - length l1)%nat with j by lia.
  rewrite lookup_app_l; [done|]. by apply lookup_lt_Some in Hx.
Qed.

Section Spec.
Context `{CB : CircBuf} {H : Type} `{!UsbHost H}.

(** One event. *)
Lemma read_loop_event fuel ev pre rest n i : event_ok ev -> zlen pre < n ->
  read_loop (S fuel) (zlen pre) (pre ++ embed ev ++ rest) n i =
  read_loop fuel (zlen pre + zlen (embed ev)) (pre ++ embed ev ++ rest) n (rx_burst (chars ev) i).
Proof.
  intros Hev Hn. cbn [read_loop]. destruct (Z.ltb_spec (zlen pre) n); [|lia]. cbn [negb].
  assert (Hat : forall j x k, embed ev !! j = Some x -> k = zlen pre + Z.of_nat j ->
    entry ((pre ++ embed ev ++ rest) !! Z.to_nat k) = Ok x).
  { intros j x k Hx Hk. by rewrite (lookup_in_middle _ _ _ k j x Hk Hx). }
  destruct ev as [c|kind status [c|]|kind]; cbn [embed chars event_ok] in *.
  - destruct (c =? EMBED_EVENT_CHAR) eqn:E.
    + rewrite (Hat 0%nat EMBED_EVENT_CHAR), (Hat 1%nat 0) by (done || lia). cbn [exec_bind].
      apply Z.eqb_eq in E. subst c. cbn -[read_loop zlen]. f_equal. unfold zlen. simpl. lia.
    + rewrite (Hat 0%nat c) by (done || lia). cbn [exec_bind]. rewrite E. done.
  - destruct Hev as [Hk Hs]. rewrite (Hat 0%nat EMBED_EVENT_CHAR), (Hat 1%nat kind), (Hat 2%nat status),
      (Hat 3%nat c) by (done || lia). cbn [exec_bind]. rewrite Hs.
    destruct Hk as [-> | ->]; cbn -[read_loop zlen Z.add]; f_equal; unfold zlen; simpl; lia.
  - destruct Hev as [Hk Hs]. rewrite (Hat 0%nat EMBED_EVENT_CHAR), (Hat 1%nat kind), (Hat 2%nat status)
      by (done || lia). cbn [exec_bind]. rewrite Hs.
    destruct Hk as [-> | ->]; cbn -[read_loop zlen Z.add]; f_equal; unfold zlen; simpl; lia.
  - destruct Hev as (N0 & N1 & N2). apply Z.eqb_neq in N0, N1, N2.
    rewrite (Hat 0%nat EMBED_EVENT_CHAR), (Hat 1%nat kind) by (done || lia). cbn [exec_bind].
    rewrite N0, N1, N2. cbn -[read_loop zlen Z.add]. f_equal. unfold zlen. simpl. lia.
Qed.

Lemma embed_length ev : 0 < zlen (embed ev).
Proof. destruct ev as [c|kind status []|kind]; cbn; try done. by destruct (c =? _). Qed.

(** Any number of them. *)
Lemma read_loop_events evs : forall fuel pre rest n i, Forall event_ok evs ->
  zlen pre + zlen (concat (embed <$> evs)) <= n -> (length evs <= fuel)%nat ->
  read_loop fuel (zlen pre) (pre ++ concat (embed <$> evs) ++ rest) n i =
  read_loop (fuel - length evs) (zlen pre + zlen (concat (embed <$> evs)))
    (pre ++ concat (embed <$> evs) ++ rest) n (rx_burst (concat (chars <$> evs)) i).
Proof.
  induction evs as [|ev evs IH]; intros fuel pre rest n i Hev Hn Hf.
  { change (zlen (concat (embed <$> []))) with 0. by rewrite Z.add_0_r, Nat.sub_0_r. }
  inversion_clear Hev as [|? ? Hev1 Hev2]. cbn [fmap list_fmap concat length] in *.
  pose proof (embed_length ev). rewrite zlen_app in Hn. pose proof (zlen_nonneg (concat (embed <$> evs))).
  destruct fuel as [|fuel]; [lia|]. rewrite <- !app_assoc, read_loop_event by (done || lia).
  rewrite (app_assoc pre (embed ev)). rewrite <- (zlen_app pre).
  rewrite IH by (done || rewrite ?zlen_app; lia). rewrite rx_burst_app, !zlen_app, Z.add_assoc. done.
Qed.

(** The loop ends within as many rounds as bytes, and beyond the received bytes
    it reads at most three. *)
Lemma read_loop_ends fuel : forall k data n i, 0 <= k -> Z.max 0 (n - k) < Z.of_nat fuel ->
  fine_or_outside (read_loop fuel k data n i) /\
  (n + 2 < zlen data -> exists l, read_loop fuel k data n i = Ok (rx_burst l i)) /\
  forall i', read_loop fuel k data n i = Ok i' -> exists l, i' = rx_burst l i.
Proof.
  induction fuel as [|fuel IH]; intros k data n i Hk Hf; [lia|]. cbn [read_loop].
  destruct (Z.ltb_spec k n) as [Hn|Hn]; cbn [negb].
  2: { split; [left; by eexists|]. split; [intros _; by exists []|]. intros i' [= <-]. by exists []. }
  assert (Hrec : forall k' l1, k < k' -> 0 <= k' ->
    let r := read_loop fuel k' data n (rx_burst l1 i) in
    fine_or_outside r /\ (n + 2 < zlen data -> exists l, r = Ok (rx_burst l i)) /\
    forall i', r = Ok i' -> exists l, i' = rx_burst l i).
  { intros k' l1 H1 H2. cbv zeta. destruct (IH k' data n (rx_burst l1 i)) as (R1 & R2 & R3); [lia..|].
    split; [done|]. split.
    - intros Hd. destruct (R2 Hd) as [l ->]. exists (l1 ++ l). by rewrite rx_burst_app.
    - intros i' E. destruct (R3 _ E) as [l ->]. exists (l1 ++ l). by rewrite rx_burst_app. }
  assert (Hent : forall j (K : Z -> exec instance), k <= j <= n + 2 ->
    (forall x, fine_or_outside (K x) /\ (n + 2 < zlen data -> exists l, K x = Ok (rx_burst l i)) /\
      forall i', K x = Ok i' -> exists l, i' = rx_burst l i) ->
    let r := exec_bind (entry (data !! Z.to_nat j)) K in
    fine_or_outside r /\ (n + 2 < zlen data -> exists l, r = Ok (rx_burst l i)) /\
    forall i', r = Ok i' -> exists l, i' = rx_burst l i).
  { intros j K Hj HK. cbv zeta. destruct (data !! Z.to_nat j) as [x|] eqn:E; [apply HK|].
    split; [by right|]. split; [|done]. intros Hd. apply lookup_ge_None in E. unfold zlen in Hd. lia. }
  apply Hent; [lia|]. intros c. destruct (c =? EMBED_EVENT_CHAR).
  2: { apply (Hrec (k + 1) [(RX_STATE_NONE, c)]); lia. }
  apply Hent; [lia|]. intros e. destruct (e =? 0).
  { apply (Hrec (k + 1 + 1) [(RX_STATE_NONE, EMBED_EVENT_CHAR)]); lia. }
  destruct (_ || _); [|apply (Hrec (k + 1 + 1) []); lia].
  apply Hent; [lia|]. intros status. destruct (has status (BIT 0)).
  - apply Hent; [lia|]. intros c'. apply (Hrec (k + 1 + 1 + 1 + 1) [(status_flags status, c')]); lia.
  - apply (Hrec (k + 1 + 1 + 1) [(status_flags status, 0)]); lia.
Qed.

Lemma cp2102n_read_any data n (u u' : uart (hb_rf_usb_2_port_s H)) :
  hb_rf_usb_2_process_read_urb data n u = Ok u' ->
  exists l, u' = with_drv (submit_read (drv u)).2
    (on_inst (fun i => generic_raw_uart_rx_completed (rx_burst l i)) u).
Proof.
  unfold hb_rf_usb_2_process_read_urb. intros (i & E & [= <-])%exec_bind_ok.
  destruct (read_loop_ends (S (Z.to_nat n)) 0 data n (inst u)) as (_ & _ & R); [lia..|].
  destruct (R _ E) as [l ->]. by exists l.
Qed.

Lemma cp2102n_read_fine data n (u : uart (hb_rf_usb_2_port_s H)) :
  fine_or_outside (hb_rf_usb_2_process_read_urb data n u).
Proof.
  unfold hb_rf_usb_2_process_read_urb.
  destruct (read_loop_ends (S (Z.to_nat n)) 0 data n (inst u)) as (R & _); [lia..|].
  destruct R as [[i ->] | ->]; [left; by eexists | by right].
Qed.

Lemma embed_count evs : Z.of_nat (length evs) <= zlen (concat (embed <$> evs)).
Proof.
  induction evs as [|ev evs IH]; [done|]. cbn [fmap list_fmap concat length].
  rewrite zlen_app. pose proof (embed_length ev). lia.
Qed.

Lemma read_loop_all evs rest n i : Forall event_ok evs -> n = zlen (concat (embed <$> evs)) ->
  read_loop (S (Z.to_nat n)) 0 (concat (embed <$> evs) ++ rest) n i =
  Ok (rx_burst (concat (chars <$> evs)) i).
Proof.
  intros Hev Hn. pose proof (embed_count evs).
  pose proof (read_loop_events evs (S (Z.to_nat n)) [] rest n i Hev) as E.
  change (zlen []) with 0 in E. rewrite !Z.add_0_l in E. cbn [app] in E. rewrite E by lia.
  replace (S (Z.to_nat n) - length evs)%nat with (S (Z.to_nat n - length evs)) by lia.
  cbn [read_loop]. rewrite <- Hn, (proj2 (Z.ltb_ge _ _)) by lia. done.
Qed.

(** C27 (roundtrip). A transfer that holds whole events, as the converter
    embeds them, is decoded to exactly these events: an escaped event
    character is that character, a line status gives its flags to the
    character it announces, and what the buffer holds behind the transfer does
    not matter. *)
Theorem cp2102n_events_received evs rest n (u : uart (hb_rf_usb_2_port_s H)) :
  Forall event_ok evs -> n = zlen (concat (embed <$> evs)) -> rx_ok (inst u) ->
  exists u', hb_rf_usb_2_process_read_urb (concat (embed <$> evs) ++ rest) n u = Ok u' /\
    inst u' = generic_raw_uart_rx_completed (rx_burst (concat (chars <$> evs)) (inst u)) /\
    rx_ok (inst u') /\
    pending (inst u') = pending (inst u) ++
      take (Z.to_nat (rx_capacity - zlen (pending (inst u)))) (good_chars (concat (chars <$> evs))) /\
    conns u' = conns u.
Proof.
  intros Hev Hn Hu. unfold hb_rf_usb_2_process_read_urb. rewrite read_loop_all by done.
  eexists. split; [done|]. cbn [with_drv on_inst inst conns]. split; [done|].
  split; [by apply rx_completed_ok, rx_burst_ok|].
  by rewrite rx_completed_pending, rx_burst_pending.
Qed.

(** The decoder ends.  It stays within the buffer when the
    transfer is at least three bytes shorter than it; a transfer that fills the
    buffer and ends in the event character makes it read behind the buffer. *)
Theorem cp2102n_reads_bounded data n (u : uart (hb_rf_usb_2_port_s H)) :
  zlen data = BUFFER_SIZE -> 0 <= n <= BUFFER_SIZE ->
  hb_rf_usb_2_process_read_urb data n u <> NoFuel /\
  (n <= BUFFER_SIZE - 3 -> exists u', hb_rf_usb_2_process_read_urb data n u = Ok u') /\
  (forall evs, Forall event_ok evs -> data = concat (embed <$> evs) ++ [EMBED_EVENT_CHAR] ->
    n = BUFFER_SIZE -> hb_rf_usb_2_process_read_urb data n u = OutOfBounds).
Proof.
  intros Hd Hn. unfold BUFFER_SIZE in *.
  destruct (read_loop_ends (S (Z.to_nat n)) 0 data n (inst u)) as (R1 & R2 & _); [lia..|].
  unfold hb_rf_usb_2_process_read_urb. split; [|split].
  - by destruct R1 as [[i' ->] | ->].
  - intros Hs. destruct R2 as [l ->]; [lia|]. by eexists.
  - intros evs Hev -> ->. rewrite zlen_app in Hd. change (zlen [EMBED_EVENT_CHAR]) with 1 in Hd.
    pose proof (read_loop_events evs (S (Z.to_nat 256)) [] [EMBED_EVENT_CHAR] 256 (inst u) Hev) as E.
    pose proof (embed_count evs).
    change (zlen []) with 0 in E. rewrite !Z.add_0_l in E. cbn [app] in E. rewrite E by lia.
    replace (S (Z.to_nat 256) - length evs)%nat with (S (Z.to_nat 256 - length evs)) by lia.
    cbn [read_loop]. rewrite (proj2 (Z.ltb_lt _ _)) by lia. cbn [negb].
    rewrite lookup_app_r by (unfold zlen; lia). unfold zlen. rewrite Nat2Z.id, Nat.sub_diag.
    cbn [lookup list_lookup entry exec_bind]. rewrite Z.eqb_refl.
    rewrite (proj2 (lookup_ge_None _ _)) by (rewrite length_app; simpl; lia). done.
Qed.

(** An event that is cut by the end of a transfer is misread: the event
    character at the end is completed with the byte [stale] an earlier transfer
    left in the buffer, and its second byte, at the beginning of the next
    transfer, is taken for a character.  A literal [0xff] arrives as [0]. *)
Theorem cut_event_misread stale rest1 rest2 (u : uart (hb_rf_usb_2_port_s H)) :
  stale <> 0 -> stale <> 1 -> stale <> 2 ->
  exists u1 u2,
    hb_rf_usb_2_process_read_urb (EMBED_EVENT_CHAR :: stale :: rest1) 1 u = Ok u1 /\
    hb_rf_usb_2_process_read_urb (0 :: rest2) 1 u1 = Ok u2 /\
    inst u2 = generic_raw_uart_rx_completed
      (rx_burst [(RX_STATE_NONE, 0)] (generic_raw_uart_rx_completed (inst u))).
Proof.
  intros N0%Z.eqb_neq N1%Z.eqb_neq N2%Z.eqb_neq.
  assert (E1 : forall i, read_loop 2 0 (EMBED_EVENT_CHAR :: stale :: rest1) 1 i = Ok i).
  { intros i. cbn [read_loop]. change (Z.to_nat (0 + 1)) with 1%nat. change (Z.to_nat 0) with 0%nat.
    cbn [lookup list_lookup entry exec_bind]. change (EMBED_EVENT_CHAR =? EMBED_EVENT_CHAR) with true.
    cbv iota zeta. rewrite N0, N1, N2. done. }
  unfold hb_rf_usb_2_process_read_urb. change (S (Z.to_nat 1)) with 2%nat. rewrite E1.
  do 2 eexists. done.
Qed.
End Spec.
End Cp2102n.

(** ** The theorems on concrete transfers *)

Module UsbRxSamples.
Import SimUsb.

Definition sample_device (vend prod : Z) : usb_device :=
  UsbDevice vend prod 0x0600 (Some [101; 81]) (Some [72; 66]) (Some [49; 50]) [49] [50].

Definition ftdi_uart : uart (HbRfUsb.hb_rf_usb_port_s sim) :=
  Uart new_instance ∅ (HbRfUsb.new_port (sample_device 0x0403 0x6f70) (fresh [])) 0.
Definition cp2102n_uart : uart (HbRfUsb2.hb_rf_usb_2_port_s sim) :=
  Uart new_instance ∅ (HbRfUsb2.new_port false 0x20 (sample_device 0x10c4 0x8d81) (fresh [])) 0.

(** A break, a parity error that is not looked at because of it, two characters. *)
Definition ftdi_transfer : list Z := [0x01; 0x14; 65; 66] ++ replicate 252 0.

(** A character, an escaped event character, a parity error, an overrun alone. *)
Definition cp2102n_events : list Cp2102n.event :=
  [Cp2102n.Char 65; Cp2102n.Char 0xff; Cp2102n.Line 1 0x05 (Some 66); Cp2102n.Line 2 0x02 None].

Lemma ftdi_transfer_received_witness : exists u',
  HbRfUsb.hb_rf_usb_process_read_urb (CB := linux_circ) ftdi_transfer 4 ftdi_uart = Ok u' /\
  pending (inst u') = [65; 66] /\ count_rx (inst u') = 3 /\ count_brk (inst u') = 1 /\
  count_parity (inst u') = 0.
Proof.
  destruct (Ftdi.ftdi_transfer_received (CB := linux_circ) ftdi_transfer 4 ftdi_uart)
    as (status & u' & Hs & E & _ & H1 & H2 & H3 & H4 & _).
  - reflexivity.
  - done.
  - apply new_instance_rx_ok.
  - by repeat constructor.
  - injection Hs as <-. exists u'. split; [done|]. rewrite H1, H2, H3, H4. done.
Defined.

Lemma cp2102n_events_received_witness : exists u',
  HbRfUsb2.hb_rf_usb_2_process_read_urb (CB := linux_circ)
    ([65; 0xff; 0; 0xff; 1; 5; 66; 0xff; 2; 2] ++ [1; 2; 3]) 10 cp2102n_uart = Ok u' /\
  pending (inst u') = [65; 0xff; 66; 0].
Proof.
  destruct (Cp2102n.cp2102n_events_received (CB := linux_circ) cp2102n_events [1; 2; 3] 10 cp2102n_uart)
    as (u' & E & _ & _ & H & _).
  - repeat constructor; done.
  - done.
  - apply new_instance_rx_ok.
  - exists u'. split; [done|]. rewrite H. done.
Defined.

Lemma cp2102n_reads_bounded_witness :
  HbRfUsb2.hb_rf_usb_2_process_read_urb (CB := linux_circ) (replicate 255 65 ++ [0xff]) 256 cp2102n_uart
    = OutOfBounds.
Proof.
  apply (Cp2102n.cp2102n_reads_bounded (CB := linux_circ) (replicate 255 65 ++ [0xff]) 256 cp2102n_uart)
    with (evs := replicate 255 (Cp2102n.Char 65)); try done.
  by apply Forall_replicate.
Defined.
End UsbRxSamples.
