(* ===== verification/UsbTx.v ===== *)
(** The USB adapters: what the generic driver gets from either of them, and how
    a message travels.

    [UsbDriver] is the interface of a driver built on a [Port]; both drivers
    are instances.  Against it: the promises of [RawUartDriverOk], the delivery
    of a message in bulk transfers, and what a refused submission does. *)
From S2P Require Import Prelude Kernel Effects Ring RawUart RawUartRx RawUartTx Usb HbRfUsb HbRfUsb2 UsbRx.

(** ** The interface *)

Section Links.
Context {H : Type} `{!UsbHost H}.

(** The sending half of a link is the same. *)
Definition same_tx (l l' : link H) : Prop :=
  is_in_tx l' = is_in_tx l /\ handed l' = handed l /\
  out_busy (link_traffic l') = out_busy (link_traffic l) /\
  transfers (link_traffic l') = transfers (link_traffic l).
(** So are the references. *)
Definition same_refs (l l' : link H) : Prop := kref l' = kref l /\ deleted l' = deleted l.

(** What handing [d] over does. *)
Definition transmit (d : list Z) (l : link H) : link H :=
  Link true d (kref l) (deleted l) (usb_submit_write d (host l)).2 (handed l ++ d).

(** Both URBs cancelled. *)
Record killed (l l' : link H) : Prop := {
  killed_in_tx : is_in_tx l' = is_in_tx l && negb (out_busy (link_traffic l));
  killed_handed : handed l' = handed l;
  killed_out : out_busy (link_traffic l') = false;
  killed_transfers : transfers (link_traffic l') = transfers (link_traffic l)
}.
(** One reference given back. *)
Record released (l l' : link H) : Prop := {
  released_kref : kref l' = kref l - 1;
  released_deleted : deleted l' = deleted l || (kref l - 1 =? 0)
}.
End Links.

Class UsbDriver (P H : Type) `{!UsbHost H} `{!Port P H} `{CB : CircBuf} (DR : RawUartDriver P) := {
  write_done : uart P -> exec (bool * uart P);      (* process_write_urb *)
  read_done : list Z -> Z -> uart P -> exec (uart P);  (* process_read_urb *)
  disconnect : uart P -> uart P;

  usb_owner : drv_owner = true;
  usb_chunk : tx_chunk_size = 11;
  usb_bulk : tx_bulktransfer_size = 11;
  usb_ready p : isready_for_tx p = (negb (is_in_tx (link_of p)), p);
  usb_init_tx p : init_tx p = p;
  usb_stop_tx p : stop_tx p = p;
  usb_tx_chars p l i n : link_of (tx_chars p l i n) = transmit (slice l i n) (link_of p);
  usb_start p : (start_connection p).1 = 0 /\ same_tx (link_of p) (link_of (start_connection p).2) /\
    kref (link_of (start_connection p).2) = kref (link_of p) + 1 /\
    deleted (link_of (start_connection p).2) = deleted (link_of p);
  usb_stop p : killed (link_of p) (link_of (stop_connection p)) /\
    released (link_of p) (link_of (stop_connection p));
  usb_reset f p : reset_radio_module = Some f ->
    same_tx (link_of p) (link_of (f p).2) /\ same_refs (link_of p) (link_of (f p).2);
  usb_write_done u :
    write_done u = generic_raw_uart_tx_queued (with_drv (on_link (with_in_tx false) (drv u)) u);
  usb_read_done data n u u' : read_done data n u = Ok u' ->
    conns u' = conns u /\ module_refs u' = module_refs u /\
    (exists l, inst u' = generic_raw_uart_rx_completed (rx_burst l (inst u))) /\
    same_tx (link_of (drv u)) (link_of (drv u')) /\ same_refs (link_of (drv u)) (link_of (drv u'));
  usb_read_fine data n u : fine_or_outside (read_done data n u);
  usb_disconnect u : conns (disconnect u) = conns u /\ module_refs (disconnect u) = module_refs u /\
    inst (disconnect u) = set_connection_state false (inst u) /\
    killed (link_of (drv u)) (link_of (drv (disconnect u))) /\
    released (link_of (drv u)) (link_of (drv (disconnect u)))
}.

(** ** Both drivers *)

Section Instances.
Context {H : Type} `{!UsbHost H} {P : Type} `{!Port P H}.

Lemma same_tx_refl (l : link H) : same_tx l l.
Proof. done. Qed.
Lemma same_tx_trans (l1 l2 l3 : link H) : same_tx l1 l2 -> same_tx l2 l3 -> same_tx l1 l3.
Proof. unfold same_tx. intros (-> & -> & -> & ->) (-> & -> & -> & ->). done. Qed.
Lemma same_refs_trans (l1 l2 l3 : link H) : same_refs l1 l2 -> same_refs l2 l3 -> same_refs l1 l3.
Proof. unfold same_refs. intros [-> ->] [-> ->]. done. Qed.

(** The commands that leave sending and references alone. *)
Definition quiet {A} (m : M P A) : Prop := forall p,
  same_tx (link_of p) (link_of (m p).2) /\ same_refs (link_of p) (link_of (m p).2).

Lemma quiet_ret {A} (a : A) : quiet (mret a).
Proof. done. Qed.
Lemma quiet_get : quiet get.
Proof. done. Qed.
Lemma quiet_bind {A B} (m : M P A) (k : A -> M P B) : quiet m -> (forall a, quiet (k a)) -> quiet (m ≫= k).
Proof.
  intros Hm Hk p. unfold mbind, state_bind. destruct (Hm p) as [H1 H2]. destruct (m p) as [a p1].
  destruct (Hk a p1) as [H3 H4]. split; [by eapply same_tx_trans | by eapply same_refs_trans].
Qed.
Lemma quiet_call f : (forall h, out_busy (traffic_of (f h).2) = out_busy (traffic_of h) /\
    transfers (traffic_of (f h).2) = transfers (traffic_of h)) -> quiet (call f).
Proof.
  intros Hf p. unfold call. specialize (Hf (host (link_of p))). destruct (f _) as [e h].
  simpl in *. unfold same_tx, same_refs, link_traffic. rewrite link_of_on_link. simpl. tauto.
Qed.
Lemma quiet_modify f : (forall p, link_of (f p) = link_of p) -> quiet (modify f).
Proof. intros Hf p. simpl. by rewrite Hf. Qed.
Lemma quiet_submit_read : quiet submit_read.
Proof.
  apply quiet_call. intros h. rewrite submit_read_law. by destruct (_ =? 0).
Qed.
Lemma quiet_submit_control r : quiet (call (usb_submit_control r)).
Proof. apply quiet_call. intros h. rewrite submit_control_law. by destruct (_ =? 0). Qed.
Lemma quiet_control_msg r : quiet (call (usb_control_msg r)).
Proof. apply quiet_call. intros h. rewrite control_msg_law. by destruct (0 <=? _). Qed.

(** The commands that delete the port, and those that give back a reference. *)
Definition deletes (m : M P unit) : Prop := forall p,
  same_tx (link_of p) (link_of (m p).2) /\
  kref (link_of (m p).2) = kref (link_of p) /\ deleted (link_of (m p).2) = true.
Definition puts (m : M P unit) : Prop := forall p,
  same_tx (link_of p) (link_of (m p).2) /\ released (link_of p) (link_of (m p).2).

Lemma puts_kref_put delete : deletes delete -> puts (kref_put delete).
Proof.
  intros Hd p. unfold kref_put, mbind, state_bind, modify, get. rewrite link_of_on_link.
  cbn [with_kref kref]. set (q := on_link _ p).
  assert (Eq : link_of q = with_kref (kref (link_of p) - 1) (link_of p))
    by (unfold q; by rewrite link_of_on_link).
  destruct (Hd q) as (H1 & H2 & H3). rewrite Eq in H1, H2. unfold when.
  destruct (Z.eqb_spec (kref (link_of p) - 1) 0) as [E|E].
  - split; [done|]. split; [by rewrite H2 | by rewrite H3, E, orb_true_r].
  - cbn [mret state_ret snd]. apply Z.eqb_neq in E. rewrite Eq.
    split; [done|]. split; [done | by rewrite E, orb_false_r].
Qed.

Lemma puts_bind {A} (m : M P A) (k : A -> M P unit) : quiet m -> (forall a, puts (k a)) -> puts (m ≫= k).
Proof.
  intros Hm Hk p. unfold mbind, state_bind. destruct (Hm p) as [H1 [H2 H3]].
  destruct (m p) as [a p1]. destruct (Hk a p1) as [H4 [H5 H6]].
  split; [by eapply same_tx_trans|]. simpl in *. split; congruence.
Qed.

(** Cancelling first. *)
Lemma kill_then_put (m : M P unit) (p : P) : puts m ->
  killed (link_of p) (link_of (((kill_write;; (kill_read;; m)) : M P unit) p).2) /\
  released (link_of p) (link_of (((kill_write;; (kill_read;; m)) : M P unit) p).2).
Proof.
  intros Hm. unfold kill_write, kill_read, mbind, state_bind, modify.
  set (p2 := on_link _ (on_link _ p)). destruct (Hm p2) as [(E1 & E2 & E3 & E4) [R1 R2]].
  assert (E : link_of p2 = with_host (usb_kill_read (usb_kill_write (host (link_of p))))
    (with_in_tx (is_in_tx (link_of p) && negb (out_busy (link_traffic (link_of p)))) (link_of p)))
    by (unfold p2; rewrite !link_of_on_link; done).
  rewrite E in *. split; [|by split]. unfold link_traffic in *. cbn [with_host with_in_tx host] in *.
  rewrite kill_read_law, kill_write_law in E3, E4. by split; rewrite ?E1, ?E2, ?E3, ?E4.
Qed.
End Instances.

(** Prove that a command is quiet, or that it ends with giving back a
    reference. *)
Ltac quiet :=
  lazymatch goal with
  | |- quiet (mret _) => apply quiet_ret
  | |- quiet get => apply quiet_get
  | |- quiet (_ ≫= _) => apply quiet_bind; [|intros ?]; quiet
  | |- quiet (if ?b then _ else _) => destruct b; quiet
  | |- quiet (call (usb_control_msg _)) => apply quiet_control_msg
  | |- quiet (call (usb_submit_control _)) => apply quiet_submit_control
  | |- quiet submit_read => apply quiet_submit_read
  | |- quiet (modify _) => by apply quiet_modify
  | |- puts (kref_put _) => apply puts_kref_put
  | |- puts (_ ≫= _) => apply puts_bind; [|intros ?]; quiet
  | |- quiet ?m => let h := head_of m in unfold h; quiet
  end
with head_of m := lazymatch m with ?f _ => head_of f | _ => m end.

Section Starts.
Context {H : Type} `{!UsbHost H} {P : Type} `{!Port P H}.

Lemma transmit_spec (d : list Z) (p : P) :
  link_of ((modify (on_link (with_in_tx true));; (modify (on_link (load_buffer d));; (submit_write;; mret tt))) p).2
  = transmit d (link_of p).
Proof.
  unfold submit_write, call, mbind, state_bind, modify. rewrite !link_of_on_link.
  cbn [host write_buffer load_buffer with_in_tx]. destruct (usb_submit_write d _) as [e h] eqn:E.
  cbn [snd mret state_ret]. rewrite !link_of_on_link. unfold transmit. by rewrite E.
Qed.

Lemma kref_get_then (m : M P Z) (p : P) : quiet m ->
  same_tx (link_of p) (link_of ((kref_get ≫= fun _ => m) p).2) /\
  kref (link_of ((kref_get ≫= fun _ => m) p).2) = kref (link_of p) + 1 /\
  deleted (link_of ((kref_get ≫= fun _ => m) p).2) = deleted (link_of p).
Proof.
  intros Hm. unfold kref_get, mbind, state_bind, modify.
  set (q := on_link _ p). destruct (Hm q) as [H1 [H2 H3]].
  assert (Eq : link_of q = with_kref (kref (link_of p) + 1) (link_of p))
    by (unfold q; by rewrite link_of_on_link).
  rewrite Eq in *. done.
Qed.

(** The fields of the generic part after a completed reception. *)
Lemma read_done_spec (d : P) (l : list (Z * Z)) `{CB : CircBuf} (u : uart P) :
  let u' := with_drv (submit_read d).2
    (on_inst (fun i => generic_raw_uart_rx_completed (rx_burst l i)) u) in
  d = drv u ->
  conns u' = conns u /\ module_refs u' = module_refs u /\
  (exists l, inst u' = generic_raw_uart_rx_completed (rx_burst l (inst u))) /\
  same_tx (link_of (drv u)) (link_of (drv u')) /\ same_refs (link_of (drv u)) (link_of (drv u')).
Proof.
  cbv zeta. intros ->. split; [done|]. split; [done|]. split; [by exists l|]. apply quiet_submit_read.
Qed.
End Starts.

#[export] Existing Instances HbRfUsb.hb_rf_usb_port HbRfUsb2.hb_rf_usb_2_port.

Section Both.
Context {H : Type} `{!UsbHost H} `{CB : CircBuf}.

Lemma hb_rf_usb_deletes : deletes (HbRfUsb.hb_rf_usb_delete (H := H)).
Proof.
  intros p. unfold HbRfUsb.hb_rf_usb_delete, mbind, state_bind, modify.
  set (q := HbRfUsb.with_value 0 _).
  assert (Q : quiet (HbRfUsb.hb_rf_usb_set_bitmode (H := H) HbRfUsb.FTDI_SIO_BITMODE_RESET)) by quiet.
  destruct (Q q) as [H1 [H2 H3]]. destruct (HbRfUsb.hb_rf_usb_set_bitmode _ q) as [e q'].
  cbn [snd mret state_ret] in *. by rewrite H3.
Qed.

Lemma hb_rf_usb_2_deletes : deletes (HbRfUsb2.hb_rf_usb_2_delete (H := H)).
Proof. done. Qed.

#[export] Program Instance hb_rf_usb_usb : UsbDriver (HbRfUsb.hb_rf_usb_port_s H) H HbRfUsb.hb_rf_usb := {|
  write_done := HbRfUsb.hb_rf_usb_process_write_urb;
  read_done := HbRfUsb.hb_rf_usb_process_read_urb;
  disconnect := HbRfUsb.hb_rf_usb_disconnect
|}.
Next Obligation. done. Qed.
Next Obligation. done. Qed.
Next Obligation. done. Qed.
Next Obligation. done. Qed.
Next Obligation. done. Qed.
Next Obligation. done. Qed.
Next Obligation. intros. apply (transmit_spec (slice l i n) p). Qed.
Next Obligation.
  intros p. split; [|apply (kref_get_then _ p); quiet].
  unfold start_connection, HbRfUsb.hb_rf_usb, HbRfUsb.hb_rf_usb_start_connection.
  unfold mbind, state_bind. by repeat case_match.
Qed.
Next Obligation.
  intros p. apply (kill_then_put (kref_put HbRfUsb.hb_rf_usb_delete) p).
  apply puts_kref_put, hb_rf_usb_deletes.
Qed.
Next Obligation.
  intros f p [= <-].
  assert (Q : quiet (HbRfUsb.hb_rf_usb_reset_radio_module (H := H))) by quiet. apply Q.
Qed.
Next Obligation. done. Qed.
Next Obligation.
  intros data n u u' E. destruct (Ftdi.ftdi_read_any data n u u' E) as [l ->].
  by apply (read_done_spec (drv u) l u).
Qed.
Next Obligation. apply Ftdi.ftdi_read_fine. Qed.
Next Obligation.
  intros u. split; [done|]. split; [done|]. split; [done|].
  unfold HbRfUsb.hb_rf_usb_disconnect, generic_raw_uart_set_connection_state. cbn [on_inst with_drv drv].
  apply (kill_then_put (kref_put HbRfUsb.hb_rf_usb_delete) (drv u)).
  apply puts_kref_put, hb_rf_usb_deletes.
Qed.

#[export] Program Instance hb_rf_usb_2_usb : UsbDriver (HbRfUsb2.hb_rf_usb_2_port_s H) H HbRfUsb2.hb_rf_usb_2 := {|
  write_done := HbRfUsb2.hb_rf_usb_2_process_write_urb;
  read_done := HbRfUsb2.hb_rf_usb_2_process_read_urb;
  disconnect := HbRfUsb2.hb_rf_usb_2_disconnect
|}.
Next Obligation. done. Qed.
Next Obligation. done. Qed.
Next Obligation. done. Qed.
Next Obligation. done. Qed.
Next Obligation. done. Qed.
Next Obligation. done. Qed.
Next Obligation. intros. apply (transmit_spec (slice l i n) p). Qed.
Next Obligation.
  intros p. split; [|apply (kref_get_then _ p); quiet].
  unfold start_connection, HbRfUsb2.hb_rf_usb_2, HbRfUsb2.hb_rf_usb_2_start_connection.
  unfold mbind, state_bind. by repeat case_match.
Qed.
Next Obligation.
  intros p. apply (kill_then_put _ p). quiet. apply hb_rf_usb_2_deletes.
Qed.
Next Obligation.
  intros f p [= <-].
  assert (Q : quiet (HbRfUsb2.hb_rf_usb_2_reset_radio_module (H := H))) by quiet. apply Q.
Qed.
Next Obligation. done. Qed.
Next Obligation.
  intros data n u u' E. destruct (Cp2102n.cp2102n_read_any data n u u' E) as [l ->].
  by apply (read_done_spec (drv u) l u).
Qed.
Next Obligation. apply Cp2102n.cp2102n_read_fine. Qed.
Next Obligation.
  intros u. split; [done|]. split; [done|]. split; [done|].
  unfold HbRfUsb2.hb_rf_usb_2_disconnect, generic_raw_uart_set_connection_state. cbn [on_inst with_drv drv].
  apply (kill_then_put (kref_put HbRfUsb2.hb_rf_usb_2_delete) (drv u)).
  apply puts_kref_put, hb_rf_usb_2_deletes.
Qed.
End Both.

(** ** Delivery *)

Fixpoint chunks (n : nat) (l : list Z) : list (list Z) :=
  match n with
  | O => []
  | S n => take 11 l :: chunks n (drop 11 l)
  end.

Section Transport.
Context {P H : Type} `{!UsbHost H} `{!Port P H} `{CB : CircBuf} {DR : RawUartDriver P} {UD : UsbDriver P H DR}.

#[export] Program Instance usb_ok : RawUartDriverOk P := {| sent p := handed (link_of p) |}.
Next Obligation. intros. by rewrite usb_ready. Qed.
Next Obligation. intros. by rewrite usb_init_tx. Qed.
Next Obligation. intros. by rewrite usb_stop_tx. Qed.
Next Obligation. intros d. by destruct (usb_start d) as (_ & (_ & E & _) & _). Qed.
Next Obligation. intros d. by destruct (usb_stop d) as [[] _]. Qed.
Next Obligation. intros f d E. by destruct (usb_reset f d E) as [(_ & -> & _) _]. Qed.
Next Obligation. intros. cbv beta. by rewrite usb_tx_chars. Qed.
Next Obligation. rewrite usb_chunk. lia. Qed.
Next Obligation. rewrite usb_bulk. lia. Qed.

(** The line is free for a transfer. *)
Definition line_idle (p : P) : Prop :=
  is_in_tx (link_of p) = false /\ out_busy (link_traffic (link_of p)) = false.
Definition line_busy (p : P) : Prop :=
  is_in_tx (link_of p) = true /\ out_busy (link_traffic (link_of p)) = true.
Definition line_online (p : P) : Prop := online (host (link_of p)).

(** The host gives the write URB back. *)
Definition giveback (u : uart P) : uart P :=
  with_drv (on_link (fun l => with_host (giveback_write (host l)) l) (drv u)) u.
Definition complete_write (u : uart P) : exec (bool * uart P) := write_done (giveback u).

Fixpoint completions (n : nat) (u : uart P) : exec (uart P) :=
  match n with
  | O => Ok u
  | S n => let? (_, u) := complete_write u in completions n u
  end.

Lemma tx_loop_busy fuel cnt u : is_in_tx (link_of (drv u)) = true -> tx_loop (S fuel) cnt u = Ok u.
Proof.
  intros Hi. cbn [tx_loop]. destruct (negb _); [done|]. rewrite usb_ready, Hi. by destruct u.
Qed.

(** One pass of the transmit loop makes one transfer, of the next [n] bytes. *)
Lemma tx_loop_once fuel u p c : uart_ok u -> tx_connection (inst u) = Some p -> conns u !! p = Some c ->
  is_in_tx (link_of (drv u)) = false -> 0 < unsent c ->
  exists u1, tx_loop (S (S fuel)) 0 u = Ok u1 /\ tx_connection (inst u1) = Some p /\
    link_of (drv u1) = transmit (slice (txbuf c) (tx_buf_index c) (Z.min 11 (unsent c))) (link_of (drv u)).
Proof.
  intros Hu Ht Hp Hi Hun. destruct (uart_conns _ Hu _ _ Hp) as [B1 B2 B3].
  assert (HC : CON_DATA_TX_BUF_SIZE = 4096) by done.
  remember (S fuel) as k eqn:Ek. cbn [tx_loop]. rewrite usb_chunk.
  change (negb (0 <? 11)) with false. cbv iota. rewrite usb_ready, Hi. cbn [negb with_drv inst conns drv].
  rewrite Ht, Hp. cbn [deref exec_bind]. unfold unsent in *.
  rewrite (proj2 (Z.ltb_lt _ _)) by lia. rewrite s32_small by lia. rewrite usb_bulk. subst k.
  set (n := Z.min 11 _). set (u1 := Uart _ _ _ _).
  assert (Hk : link_of (drv u1) = transmit (slice (txbuf c) (tx_buf_index c) n) (link_of (drv u)))
    by apply usb_tx_chars.
  exists u1. split; [|done]. apply tx_loop_busy. by rewrite Hk.
Qed.

Lemma tx_once u p c : uart_ok u -> tx_connection (inst u) = Some p -> conns u !! p = Some c ->
  is_in_tx (link_of (drv u)) = false -> 0 < unsent c ->
  let n := Z.min 11 (unsent c) in
  exists w u', generic_raw_uart_tx_queued_unlocked u = Ok (w, u') /\ uart_ok u' /\
    tx_result p c n w u u' /\
    link_of (drv u') = transmit (slice (txbuf c) (tx_buf_index c) n) (link_of (drv u)).
Proof.
  intros Hu Ht Hp Hi Hun. cbv zeta. set (n := Z.min 11 (unsent c)).
  destruct (uart_conns _ Hu _ _ Hp) as [B1 B2 B3].
  destruct (tx_queued_result u p c Hu Ht Hp) as (m & w & u' & E & Hu' & R & _).
  exists w, u'. split; [done|]. split; [done|].
  assert (Hl : link_of (drv u') = transmit (slice (txbuf c) (tx_buf_index c) n) (link_of (drv u))).
  { destruct (tx_loop_once 10 u p c Hu Ht Hp Hi Hun) as (u1 & E1 & Ht1 & Hk).
    revert E. unfold generic_raw_uart_tx_queued_unlocked. rewrite usb_chunk.
    change (S (Z.to_nat 11)) with 12%nat. rewrite E1. cbn [exec_bind]. rewrite Ht1.
    intros (c1 & _ & E)%exec_bind_ok. destruct (_ <=? _); injection E as <- <-; [|done].
    cbn [on_inst with_drv drv]. by rewrite usb_stop_tx. }
  split; [|done].
  assert (Em : m = n); [|by subst m].
  pose proof (txr_sent _ _ _ _ _ _ R) as Es. cbn [sent usb_ok] in Es. rewrite Hl in Es.
  cbn [transmit handed] in Es. apply app_inv_head in Es. apply (f_equal zlen) in Es.
  pose proof (txr_range _ _ _ _ _ _ R). unfold unsent in *.
  rewrite !zlen_slice in Es by lia. done.
Qed.

Lemma transmit_online l d : online (host l) -> out_busy (link_traffic l) = false ->
  is_in_tx (transmit d l) = true /\ out_busy (link_traffic (transmit d l)) = true /\
  transfers (link_traffic (transmit d l)) = transfers (link_traffic l) ++ [d] /\
  online (host (transmit d l)).
Proof.
  intros Ho Hb. unfold link_traffic, transmit in *. cbn [host is_in_tx].
  destruct (submit_write_online d (host l) Ho Hb) as [E1 E2].
  pose proof (submit_write_law d (host l)) as E. rewrite E1 in E. rewrite E. done.
Qed.

Lemma giveback_idle u : let u' := with_drv (on_link (with_in_tx false) (drv (giveback u))) (giveback u) in
  conns u' = conns u /\ inst u' = inst u /\ line_idle (drv u') /\
  transfers (link_traffic (link_of (drv u'))) = transfers (link_traffic (link_of (drv u))) /\
  (line_online (drv u) -> line_online (drv u')).
Proof.
  cbv zeta. unfold giveback, line_idle, line_online, link_traffic. cbn [with_drv drv conns inst].
  rewrite !link_of_on_link. cbn [with_in_tx is_in_tx with_host host]. rewrite giveback_write_law.
  split_and!; try done. apply giveback_write_online.
Qed.

(** A completion while nobody sends. *)
Lemma tx_queued_none u : tx_connection (inst u) = None ->
  generic_raw_uart_tx_queued u = Ok (false, u).
Proof.
  intros Ht. unfold generic_raw_uart_tx_queued, generic_raw_uart_tx_queued_unlocked.
  assert (E : forall fuel, tx_loop (S fuel) 0 u = Ok u).
  { intros fuel. cbn [tx_loop]. destruct (negb _); [done|]. rewrite usb_ready.
    destruct (negb _); cbn [negb with_drv inst]; rewrite ?Ht; by destruct u. }
  rewrite E. cbn [exec_bind]. by rewrite Ht.
Qed.

Lemma complete_none u : tx_connection (inst u) = None ->
  exists u', complete_write u = Ok (false, u') /\ inst u' = inst u /\ conns u' = conns u /\
    line_idle (drv u') /\ (line_online (drv u) -> line_online (drv u')) /\
    transfers (link_traffic (link_of (drv u'))) = transfers (link_traffic (link_of (drv u))).
Proof.
  intros Ht. unfold complete_write. rewrite usb_write_done.
  destruct (giveback_idle u) as (E1 & E2 & E3 & E4 & E5). eexists. split; [by apply tx_queued_none|].
  done.
Qed.

(** A completion while [p] sends submits the next chunk. *)
Lemma complete_next u p c : uart_ok u -> tx_connection (inst u) = Some p -> conns u !! p = Some c ->
  line_online (drv u) -> 0 < unsent c ->
  let n := Z.min 11 (unsent c) in
  exists u', complete_write u = Ok (bool_decide (n = unsent c), u') /\ uart_ok u' /\
    conns u' = <[p := set_tx_index (tx_buf_index c + n) c]> (conns u) /\
    tx_connection (inst u') = (if bool_decide (n = unsent c) then None else Some p) /\
    line_busy (drv u') /\ line_online (drv u') /\
    transfers (link_traffic (link_of (drv u'))) =
      transfers (link_traffic (link_of (drv u))) ++ [slice (txbuf c) (tx_buf_index c) n].
Proof.
  intros Hu Ht Hp Ho Hun. cbv zeta. unfold complete_write. rewrite usb_write_done.
  destruct (giveback_idle u) as (E1 & E2 & [E3 E3'] & E4 & E5). set (u0 := with_drv _ _) in *.
  assert (Hu0 : uart_ok u0) by (destruct Hu; by split).
  destruct (tx_once u0 p c Hu0 Ht Hp E3 Hun) as (w & u' & E & Hu' & [R1 R2 R3 R4 R5 _ _] & Hl).
  destruct (transmit_online _ (slice (txbuf c) (tx_buf_index c) (Z.min 11 (unsent c))) (E5 Ho) E3')
    as (T1 & T2 & T3 & T4).
  unfold generic_raw_uart_tx_queued. rewrite E. subst w. exists u'. split; [done|]. split; [done|].
  split; [done|]. split; [done|]. unfold line_busy, line_online. rewrite Hl, T3, E4. done.
Qed.

Lemma completions_drain n : forall u p c, uart_ok u -> tx_connection (inst u) = Some p ->
  conns u !! p = Some c -> line_online (drv u) -> line_busy (drv u) ->
  11 * (Z.of_nat n - 1) < unsent c <= 11 * Z.of_nat n -> 0 < unsent c ->
  exists u', completions n u = Ok u' /\ tx_connection (inst u') = None /\
    conns u' = <[p := set_tx_index (tx_buf_length c) c]> (conns u) /\
    line_busy (drv u') /\ line_online (drv u') /\
    transfers (link_traffic (link_of (drv u'))) =
      transfers (link_traffic (link_of (drv u))) ++ chunks n (slice (txbuf c) (tx_buf_index c) (unsent c)).
Proof.
  induction n as [|n IH]; intros u p c Hu Ht Hp Ho Hb Hn Hun; [lia|]. cbn [completions chunks].
  destruct (uart_conns _ Hu _ _ Hp) as [B1 B2 B3].
  destruct (complete_next u p c Hu Ht Hp Ho Hun) as (u1 & E & Hu1 & C1 & S1 & Hb1 & Ho1 & T1).
  rewrite E. cbn [exec_bind].
  assert (Et : take 11 (slice (txbuf c) (tx_buf_index c) (unsent c))
    = slice (txbuf c) (tx_buf_index c) (Z.min 11 (unsent c))).
  { unfold slice. rewrite take_take. f_equal. lia. }
  rewrite Et. destruct (decide (unsent c <= 11)) as [Hs|Hs].
  - assert (n = 0%nat) as -> by lia. rewrite Z.min_r in * by lia. rewrite bool_decide_true in S1 by done.
    exists u1. cbn [completions chunks]. split; [done|]. split; [done|]. split; [|done].
    rewrite C1. unfold unsent. do 2 f_equal. lia.
  - rewrite Z.min_l in * by lia. rewrite bool_decide_false in S1 by lia.
    assert (Hp1 : conns u1 !! p = Some (set_tx_index (tx_buf_index c + 11) c))
      by (by rewrite C1, lookup_insert_eq).
    assert (U1 : unsent (set_tx_index (tx_buf_index c + 11) c) = unsent c - 11) by (unfold unsent; simpl; lia).
    destruct (IH u1 p _ Hu1 S1 Hp1 Ho1 Hb1) as (u' & E' & Ht' & C' & Hb' & Ho' & T'); [lia..|].
    exists u'. split; [done|]. split; [done|]. split.
    { rewrite C', C1, insert_insert_eq. done. }
    split; [done|]. split; [done|]. rewrite T', T1, <- app_assoc, U1. do 3 f_equal.
    unfold slice. cbn [txbuf set_tx_index tx_buf_index]. rewrite skipn_firstn_comm, drop_drop.
    f_equal; [lia|]. f_equal. lia.
Qed.

(** A writer that finds the adapter idle becomes the sender and hands the first
    chunk over. *)
Lemma write_starts p c data (u : uart P) :
  uart_ok u -> tx_connection (inst u) = None -> conns u !! p = Some c ->
  0 < zlen data <= CON_DATA_TX_BUF_SIZE -> line_idle (drv u) -> line_online (drv u) ->
  exists c' u1 u2, let n := Z.min 11 (zlen data) in
    write_begin false Copied data p u = Ok (None, u1) /\
    generic_raw_uart_acquire_sender p u1 = Ok (1, bool_decide (n = zlen data), u2) /\ uart_ok u2 /\
    conn_ok c' /\ tx_buf_length c' = zlen data /\ slice (txbuf c') 0 (zlen data) = data /\
    conns u2 !! p = Some (set_tx_index n c') /\
    tx_connection (inst u2) = (if bool_decide (n = zlen data) then None else Some p) /\
    line_busy (drv u2) /\ line_online (drv u2) /\
    transfers (link_traffic (link_of (drv u2))) = transfers (link_traffic (link_of (drv u))) ++ [slice data 0 n].
Proof.
  intros Hu Ht Hp Hd [Hi Hi'] Ho.
  destruct (write_begin_ok p c u data Hu Hp ltac:(lia)) as (c' & u1 & E1 & Hu1 & -> & Hc' & Hx & Hlen & _ & Hsl).
  set (u1 := with_conns _ u) in *. set (u1' := on_inst (set_tx_connection (Some p)) u1).
  assert (Hp1 : conns u1' !! p = Some c') by (simpl; by rewrite lookup_insert_eq).
  assert (Hu1' : uart_ok u1') by (destruct Hu1 as [G1 G2]; split; [done|]; intros q [= <-]; by exists c').
  assert (Hun : unsent c' = zlen data) by (unfold unsent; lia).
  destruct (tx_once u1' p c' Hu1' eq_refl Hp1 Hi ltac:(lia)) as (w & u2 & E2 & Hu2 & [R1 R2 R3 R4 R5 _ _] & Hl).
  rewrite Hx, Hun in *. rewrite Z.add_0_l in R2.
  destruct (transmit_online (link_of (drv u1')) (slice (txbuf c') 0 (Z.min 11 (zlen data))) Ho Hi')
    as (T1 & T2 & T3 & T4). rewrite <- Hl in *. subst w.
  exists c', u1, u2. cbv zeta. split; [done|]. split.
  { unfold generic_raw_uart_acquire_sender. change (tx_connection (inst u1)) with (tx_connection (inst u)).
    rewrite Ht, usb_init_tx. change (with_drv _ _) with u1'. by rewrite E2. }
  split_and!; try done; [by rewrite R2, lookup_insert_eq|].
  rewrite T3. do 2 f_equal. rewrite <- Hsl at 2. unfold slice. change (Z.to_nat 0) with 0%nat.
  rewrite !drop_0, take_take. f_equal. f_equal. lia.
Qed.

(** C25 (liveness). A message written to an idle adapter that stays online:
    the write hands the first 11 bytes over, every completed transfer starts
    the next, and when the last one is submitted the write returns the length
    of the message; what has been sent are the chunks of the message in order,
    and after one more completion the adapter is idle again. *)
Theorem usb_write_delivers p c data n (u : uart P) :
  uart_ok u -> tx_connection (inst u) = None -> conns u !! p = Some c ->
  zlen data <= CON_DATA_TX_BUF_SIZE -> 11 * Z.of_nat n < zlen data <= 11 * Z.of_nat (S n) ->
  line_idle (drv u) -> line_online (drv u) ->
  exists u1 w u2 u3 u4,
    write_begin false Copied data p u = Ok (None, u1) /\
    generic_raw_uart_acquire_sender p u1 = Ok (1, w, u2) /\
    completions n u2 = Ok u3 /\
    generic_raw_uart_send_completed p u3 = true /\
    write_finish p u3 = Ok (zlen data) /\
    transfers (link_traffic (link_of (drv u3))) =
      transfers (link_traffic (link_of (drv u))) ++ chunks (S n) data /\
    complete_write u3 = Ok (false, u4) /\ line_idle (drv u4) /\ line_online (drv u4).
Proof.
  intros Hu Ht Hp Hd Hn Hi Ho.
  destruct (write_starts p c data u Hu Ht Hp ltac:(lia) Hi Ho)
    as (c' & u1 & u2 & E1 & E2 & Hu2 & Hc' & Hlen & Hsl & Hp2 & S2 & Hb2 & Ho2 & T2).
  assert (HC : CON_DATA_TX_BUF_SIZE = 4096) by done.
  assert (Hfin : exists u3, completions n u2 = Ok u3 /\ tx_connection (inst u3) = None /\
    conns u3 !! p = Some (set_tx_index (zlen data) c') /\ line_online (drv u3) /\
    transfers (link_traffic (link_of (drv u3))) = transfers (link_traffic (link_of (drv u))) ++ chunks (S n) data).
  { destruct n as [|n].
    - rewrite Z.min_r, bool_decide_true in * by lia. exists u2. rewrite T2. cbn [chunks].
      split_and!; try done. unfold slice. change (Z.to_nat 0) with 0%nat. rewrite drop_0.
      do 2 f_equal. rewrite !take_ge by (unfold zlen in *; lia). done.
    - rewrite Z.min_l, bool_decide_false in * by lia.
      destruct (completions_drain (S n) u2 p _ Hu2 S2 Hp2 Ho2 Hb2) as (u3 & E3 & Ht3 & C3 & _ & Ho3 & T3);
        [unfold unsent in *; simpl; lia..|].
      exists u3. split; [done|]. split; [done|]. split; [by rewrite C3, lookup_insert_eq, <- Hlen|].
      assert (Es : slice (txbuf (set_tx_index 11 c')) 11 (unsent (set_tx_index 11 c')) = drop 11 data).
      { rewrite <- (f_equal (drop 11) Hsl). unfold slice, unsent. cbn [txbuf set_tx_index tx_buf_index tx_buf_length].
        rewrite skipn_firstn_comm, drop_drop, Hlen. f_equal. lia. }
      cbn [tx_buf_index set_tx_index] in *. split; [done|]. by rewrite T3, T2, <- app_assoc, Es. }
  destruct Hfin as (u3 & E3 & Ht3 & C3 & Ho3 & T3).
  destruct (complete_none u3 Ht3) as (u4 & E4 & _ & _ & Hi4 & Ho4 & _).
  eexists u1, _, u2, u3, u4. split; [done|]. split; [done|]. split; [done|].
  unfold generic_raw_uart_send_completed, write_finish. rewrite Ht3, C3. split; [done|].
  split; [simpl; by rewrite s32_small by lia|]. auto.
Qed.
End Transport.
