(* ===== verification/UsbSys.v ===== *)
(** The USB adapters as a whole: open files, completions of transfers and the
    removal of the adapter in any order.

    A port counts its references: one for the binding to the device, one for
    the open files together.  The last one deletes the port and the instance of
    the generic driver.  [usb_kill_urb] waits until the completion handler of
    the URB has run, so closing the last file and disconnecting wait while the
    write URB is in flight. *)
From S2P Require Import Prelude Kernel Effects Ring RawUart RawUartRx RawUartTx RawUartSys.
From S2P Require Import Usb HbRfUsb HbRfUsb2 UsbRx UsbTx.

Record usb_sys (P : Type) := UsbSys { gen : sys P; bound : bool }.
Arguments UsbSys {P}.
Arguments gen {P}.
Arguments bound {P}.

Inductive usb_action :=
| UGeneric (a : action)                (* a call of a process *)
| UWriteDone                           (* the write URB completes *)
| UReadDone (data : list Z) (n : Z)    (* the read URB completes *)
| UDisconnect.

(** The actions that are calls of processes; the others reach the generic
    driver through the completion handlers and [disconnect] only. *)
Definition from_process (a : action) : bool :=
  match a with ATxQueued | ARxChar _ _ | AConnection _ => false | _ => true end.

Section UsbSystem.
Context {P H : Type} `{!UsbHost H} `{!Port P H} `{CB : CircBuf} {DR : RawUartDriver P} {UD : UsbDriver P H DR}.

Definition port_link (s : usb_sys P) : link H := link_of (drv (su (gen s))).
Definition usb_traffic (s : usb_sys P) : traffic := link_traffic (port_link s).
Definition users (s : usb_sys P) : Z := open_count (inst (su (gen s))).

(** Does the call have to wait for the write URB? *)
Definition waits (a : action) (s : usb_sys P) : bool :=
  match a with AClose _ _ _ => (users s =? 1) && out_busy (usb_traffic s) | _ => false end.

Definition giveback_reading (u : uart P) : uart P :=
  with_drv (on_link (fun l => with_host (giveback_read (host l)) l) (drv u)) u.

(** What is left once the port is deleted: a call through an open file uses
    freed memory; the device node is gone. *)
Definition perform_deleted (a : usb_action) (s : usb_sys P) : exec (usb_sys P) :=
  match a with
  | UGeneric (AOpen _ _ _ _) => Ok s
  | UGeneric a => if from_process a && negb (bool_decide (pcs (gen s) = ∅)) then UseAfterFree else Ok s
  | _ => Ok s
  end.

(** [generic_raw_uart_close] goes on to use the instance after
    [stop_connection]. *)
Definition perform_usb (a : usb_action) (s : usb_sys P) : exec (usb_sys P) :=
  let g := gen s in
  if deleted (port_link s) then perform_deleted a s else
  match a with
  | UGeneric a =>
    if negb (from_process a) || waits a s then Ok s else
    let? g' := perform a g in
    let s' := UsbSys g' (bound s) in
    if deleted (port_link s') then UseAfterFree else Ok s'
  | UWriteDone =>
    if negb (out_busy (usb_traffic s)) then Ok s else
    let? (_, u') := complete_write (su g) in
    Ok (UsbSys (Sys u' (credit (su g) u' (tx_connection (inst (su g))) (pcs g)) (writes g)) (bound s))
  | UReadDone data n =>
    if negb (in_busy (usb_traffic s)) then Ok s else
    let? u' := read_done data n (giveback_reading (su g)) in
    Ok (UsbSys (with_su u' g) (bound s))
  | UDisconnect =>
    if negb (bound s) || out_busy (usb_traffic s) then Ok s else
    Ok (UsbSys (with_su (disconnect (su g)) g) false)
  end.

Fixpoint perform_usb_all (l : list usb_action) (s : usb_sys P) : exec (usb_sys P) :=
  match l with
  | [] => Ok s
  | a :: l => let? s := perform_usb a s in perform_usb_all l s
  end.

(** After a probe. *)
Definition after_probe (u : uart P) : usb_sys P := UsbSys (Sys u ∅ []) true.

Definition usb_orderly (a : usb_action) : Prop :=
  match a with UGeneric a => orderly a | _ => True end.

(** ** References *)

(** Neither the references, nor the number of users, nor the connection state
    change. *)
Definition same_life (u u' : uart P) : Prop :=
  same_refs (link_of (drv u)) (link_of (drv u')) /\
  open_count (inst u') = open_count (inst u) /\
  connection_state (inst u') = connection_state (inst u).

Lemma same_life_trans u1 u2 u3 : same_life u1 u2 -> same_life u2 u3 -> same_life u1 u3.
Proof.
  unfold same_life. intros (R1 & -> & ->) (R2 & -> & ->).
  split; [by eapply same_refs_trans|]. done.
Qed.

Lemma tx_loop_life fuel : forall cnt u u', tx_loop fuel cnt u = Ok u' -> same_life u u'.
Proof.
  induction fuel as [|fuel IH]; intros cnt u u'; [done|]. cbn [tx_loop].
  destruct (negb _); [by intros [= <-]|]. rewrite usb_ready.
  destruct (negb _); cbn [negb]; [by intros [= <-]|].
  destruct (tx_connection _) as [p|]; [|by intros [= <-]].
  intros (c & _ & E)%exec_bind_ok. destruct (_ <? _); [|by injection E as <-].
  eapply same_life_trans; [|by eapply IH]. split; [|done]. cbn [drv with_drv].
  rewrite usb_tx_chars. done.
Qed.

Lemma tx_queued_life u w u' : generic_raw_uart_tx_queued_unlocked u = Ok (w, u') -> same_life u u'.
Proof.
  intros (u1 & E%tx_loop_life & E')%exec_bind_ok. eapply same_life_trans; [done|].
  destruct (tx_connection (inst u1)) as [p|]; [|by injection E' as <- <-].
  apply exec_bind_ok in E' as (c & _ & E'). destruct (_ <=? _); injection E' as <- <-; [|done].
  split; [|done]. cbn [on_inst with_drv drv]. by rewrite usb_stop_tx.
Qed.

Lemma acquire_life p u r w u' : generic_raw_uart_acquire_sender p u = Ok (r, w, u') -> same_life u u'.
Proof.
  unfold generic_raw_uart_acquire_sender. destruct (tx_connection (inst u)) as [q|].
  - intros (cq & _ & (c & _ & E)%exec_bind_ok)%exec_bind_ok.
    by destruct (priority cq <? priority c); injection E as <- <- <-.
  - intros ([w' u1] & E & [= <- <- <-])%exec_bind_ok. apply tx_queued_life in E.
    eapply same_life_trans; [|done]. split; [|done]. cbn [on_inst with_drv drv]. by rewrite usb_init_tx.
Qed.

Lemma write_begin_life intr copy data p u r u' : write_begin intr copy data p u = Ok (r, u') -> same_life u u'.
Proof.
  intros (c & _ & E)%exec_bind_ok. cbv zeta in E. by repeat case_match; simplify_eq.
Qed.

Lemma read_connection intr nb fl n i :
  connection_state (generic_raw_uart_read intr nb fl n i).2 = connection_state i.
Proof. unfold generic_raw_uart_read. repeat case_match; by simplify_eq. Qed.

Lemma reset_life intr m u : same_life u (generic_raw_uart_reset_radio_module intr m u).2.
Proof.
  unfold generic_raw_uart_reset_radio_module. destruct intr; [done|]. destruct (m <? _); [done|].
  destruct reset_radio_module as [f|] eqn:E; [|by destruct (negb _)].
  destruct (usb_reset f (drv u) E) as [_ R]. by destruct (f (drv u)).
Qed.

(** All calls but opening and closing. *)
Lemma perform_life a s s' : from_process a = true ->
  (forall mod_ok intr oom p, a <> AOpen mod_ok intr oom p) -> (forall i1 i2 p, a <> AClose i1 i2 p) ->
  perform a s = Ok s' -> same_life (su s) (su s').
Proof.
  intros Hf Ho Hc E. destruct a; try done; cbn [perform] in E.
  - by destruct (Ho mod_ok intr oom p).
  - by destruct (Hc intr1 intr2 p).
  - destruct (pcs s !! p) as [[]|]; try by injection E as <-.
    apply exec_bind_ok in E as ([r u'] & E1 & E2). injection E2 as <-.
    apply write_begin_life in E1. by destruct r.
  - destruct (pcs s !! p) as [[]|]; try by injection E as <-.
    apply exec_bind_ok in E as ([[r w] u'] & E1 & E2). injection E2 as <-.
    apply acquire_life in E1. by destruct (r =? 1).
  - destruct (pcs s !! p) as [[]|]; try by injection E as <-.
    destruct (generic_raw_uart_send_completed p (su s)); [|by injection E as <-].
    apply exec_bind_ok in E as (r & _ & E). by injection E as <-.
  - destruct (pcs s !! p) as [[]|]; by injection E as <-.
  - destruct (pcs s !! p) as [[]|]; by injection E as <-.
  - destruct (pcs s !! p) as [[]|]; try by injection E as <-.
    apply exec_bind_ok in E as (c & Hp & E). by injection E as <-.
  - pose proof (read_count intr nonblock fault count (inst (su s))) as R1.
    pose proof (read_connection intr nonblock fault count (inst (su s))) as R2.
    destruct (generic_raw_uart_read _ _ _ _ _) as [[o d] i]. by injection E as <-.
  - pose proof (reset_life intr max_open_count (su s)) as R.
    destruct (generic_raw_uart_reset_radio_module _ _ _) as [[r acts] u']. by injection E as <-.
Qed.

(** Opening starts the transfers for the first user. *)
Lemma open_life mod_ok intr p u r u' : generic_raw_uart_open mod_ok intr false p u = Ok (r, u') ->
  same_life u u' \/
  connection_state (inst u) = true /\ connection_state (inst u') = true /\
  open_count (inst u') = open_count (inst u) + 1 /\
  kref (link_of (drv u')) = kref (link_of (drv u)) + b2z (open_count (inst u) =? 0) /\
  deleted (link_of (drv u')) = deleted (link_of (drv u)).
Proof.
  unfold generic_raw_uart_open. rewrite usb_owner. destruct mod_ok; cbn [andb negb]; [|intros [= <- <-]; by left].
  destruct intr; [intros [= <- <-]; by left|]. destruct (_ <=? _); [intros [= <- <-]; by left|].
  destruct (connection_state _) eqn:Ec; [|intros [= <- <-]; by left]. cbn [negb].
  cbn [inst with_refs] in *. destruct (open_count (inst u) =? 0) eqn:Eo.
  - destruct (usb_start (drv (with_refs (module_refs u + 1) u))) as (S1 & _ & S3 & S4).
    destruct (start_connection _) as [ret d]. cbn [fst snd] in *. subst ret. cbn.
    intros [= <- <-]. right. cbn. rewrite Ec, S3, S4. done.
  - cbn. intros [= <- <-]. right. cbn. rewrite Ec, Z.add_0_r. done.
Qed.

(** Closing stops them for the last one, who gives back the reference. *)
Lemma close_life i1 i2 p u r u' : 0 < open_count (inst u) ->
  generic_raw_uart_close i1 i2 p u = Ok (r, u') ->
  connection_state (inst u') = connection_state (inst u) /\
  (same_life u u' \/
   i1 = false /\ i2 = false /\ open_count (inst u') = open_count (inst u) - 1 /\
   ((1 < open_count (inst u) /\ same_refs (link_of (drv u)) (link_of (drv u'))) \/
    open_count (inst u) = 1 /\ released (link_of (drv u)) (link_of (drv u')))).
Proof.
  intros Hn. unfold generic_raw_uart_close. intros (c & _ & E)%exec_bind_ok.
  destruct i1; [injection E as <- <-; split; [done|by left]|].
  destruct i2; [injection E as <- <-; split; [done|by left]|].
  rewrite usb_owner in E. cbn [with_conns inst] in E.
  rewrite (proj2 (Z.eqb_neq (open_count (inst u)) 0)) in E by lia. cbn [negb on_inst set_open_count inst open_count] in E.
  destruct (Z.eqb_spec (open_count (inst u) - 1) 0) as [E1|E1]; injection E as <- <-;
    (split; [done|]); right; (split; [done|]); (split; [done|]); (split; [done|]).
  - right. split; [lia|]. apply usb_stop.
  - left. split; [lia|done].
Qed.

(** ** The invariant *)

Record life_inv (s : usb_sys P) : Prop := {
  li_gen : inv (gen s);
  li_files : files_ok (su (gen s));
  li_deleted : deleted (port_link s) = negb (bound s) && (users s =? 0);
  li_kref : deleted (port_link s) = false -> kref (port_link s) = b2z (bound s) + b2z (0 <? users s);
  li_unbound : bound s = false -> connection_state (inst (su (gen s))) = false
}.

Lemma users_nonneg s : life_inv s -> 0 <= users s.
Proof. intros L. destruct (li_files _ L) as [H1 _]. unfold users. lia. Qed.

(** Without users no file is open. *)
Lemma no_users s p : life_inv s -> users s = 0 -> pcs (gen s) !! p = None.
Proof.
  intros L Hn. destruct (pcs (gen s) !! p) as [t|] eqn:E; [|done].
  destruct (inv_threads _ (li_gen _ L) _ _ E) as (c & Hc & _).
  destruct (li_files _ L) as [H1 _]. unfold users in Hn. rewrite Hn in H1.
  assert (size (dom (conns (su (gen s)))) = 0%nat) as Hz by lia.
  apply size_empty_inv in Hz. exfalso. apply (not_elem_of_empty (C := gset nat) p).
  apply Hz, elem_of_dom. by exists c.
Qed.

Lemma life_inv_same s g b : life_inv s -> inv g -> files_ok (su g) -> b = bound s ->
  same_life (su (gen s)) (su g) -> life_inv (UsbSys g b).
Proof.
  intros [] Hg Hf -> ([E1 E2] & E3 & E4).
  split; unfold port_link, users in *; cbn [gen bound]; rewrite ?E1, ?E2, ?E3, ?E4; done.
Qed.

(** The file that opens the transfers, and a further one. *)
Lemma opened_life s g : life_inv s -> deleted (port_link s) = false -> inv g -> files_ok (su g) ->
  connection_state (inst (su (gen s))) = true -> connection_state (inst (su g)) = true ->
  open_count (inst (su g)) = open_count (inst (su (gen s))) + 1 ->
  kref (link_of (drv (su g))) = kref (port_link s) + b2z (open_count (inst (su (gen s))) =? 0) ->
  deleted (link_of (drv (su g))) = deleted (port_link s) ->
  life_inv (UsbSys g (bound s)) /\ deleted (port_link (UsbSys g (bound s))) = false.
Proof.
  intros L Hd I1 I2 C1 C2 C3 C4 C5. pose proof (users_nonneg s L) as Hn. destruct L as [_ _ _ Hk Hu].
  assert (Hb : bound s = true) by (destruct (bound s) eqn:Eb; [done|]; rewrite Hu in C1; done).
  unfold users, port_link in *. cbn [gen] in *. split; [|by rewrite C5].
  split; unfold users, port_link; cbn [gen bound]; try done; rewrite ?C5, ?C3, ?C4, ?C2, ?Hb; [done| |done].
  intros _. rewrite Hk, Hb by done. rewrite (proj2 (Z.ltb_lt 0 (_ + 1))) by lia.
  destruct (Z.eqb_spec (open_count (inst (su (gen s)))) 0), (Z.ltb_spec 0 (open_count (inst (su (gen s)))));
    simpl; lia.
Qed.

(** The last file closed: the port survives when the device is still bound. *)
Lemma closed_life s g : life_inv s -> deleted (port_link s) = false -> inv g -> files_ok (su g) ->
  connection_state (inst (su g)) = connection_state (inst (su (gen s))) ->
  open_count (inst (su g)) = users s - 1 ->
  (1 < users s /\ same_refs (port_link s) (link_of (drv (su g)))) \/
  (users s = 1 /\ released (port_link s) (link_of (drv (su g)))) ->
  (life_inv (UsbSys g (bound s)) /\ deleted (port_link (UsbSys g (bound s))) = false) \/
  (bound s = false /\ users s = 1 /\ deleted (port_link (UsbSys g (bound s))) = true).
Proof.
  intros L Hd I1 I2 C1 C2 C3. destruct L as [_ _ _ Hk Hu]. unfold users, port_link in *.
  destruct C3 as [[C3 [R1 R2]]|[C3 [R1 R2]]]; cbn [gen].
  - left. split; [|by rewrite R2].
    split; unfold users, port_link; cbn [gen bound]; rewrite ?R1, ?R2, ?C2, ?C1; try done.
    + rewrite Hd. by rewrite (proj2 (Z.eqb_neq _ _)), andb_false_r by lia.
    + intros _. rewrite Hk by done. rewrite !(proj2 (Z.ltb_lt 0 _)) by lia. done.
  - rewrite Hk, C3 in R1 by done. rewrite Hd, Hk, C3 in R2 by done. cbn in R1, R2.
    destruct (bound s) eqn:Eb; cbn in R1, R2; [left|by right].
    split; [|done]. split; unfold users, port_link; cbn [gen bound]; rewrite ?R1, ?R2, ?C2, ?C3, ?C1; done.
Qed.

(** A call of a process that does not crash. *)
Lemma generic_life a s g : life_inv s -> deleted (port_link s) = false -> from_process a = true ->
  orderly a -> perform a (gen s) = Ok g ->
  (life_inv (UsbSys g (bound s)) /\ deleted (port_link (UsbSys g (bound s))) = false) \/
  (bound s = false /\ users s = 1 /\ deleted (port_link (UsbSys g (bound s))) = true /\
   exists p, a = AClose false false p /\ pcs (gen s) !! p = Some PIdle).
Proof.
  intros L Hd Hf Ho E. pose proof (li_gen _ L) as Hg. pose proof (li_files _ L) as Hfi.
  destruct (perform_inv a (gen s) Ho Hg) as (g' & E' & Hg'). rewrite E in E'. injection E' as <-.
  pose proof (perform_files a (gen s) g Hfi E) as Hfi'.
  assert (Hsame : same_life (su (gen s)) (su g) ->
    life_inv (UsbSys g (bound s)) /\ deleted (port_link (UsbSys g (bound s))) = false).
  { intros Hs. split; [by apply life_inv_same with s|]. destruct Hs as ([_ R] & _).
    unfold port_link in *. cbn [gen]. by rewrite R. }
  destruct a as [mod_ok intr oom p|i1 i2 p| | | | | | | | | | |]; try done;
    try (left; apply Hsame; eapply perform_life; by eauto); cbn [perform] in E.
  - left. simpl in Ho. subst oom.
    destruct (conns (su (gen s)) !! p); [injection E as <-; by apply Hsame|].
    apply exec_bind_ok in E as ([r u'] & E1 & E2). injection E2 as <-.
    destruct (open_life mod_ok intr p _ r u' E1) as [Hs|(C1 & C2 & C3 & C4 & C5)];
      destruct (r =? 0); (by apply Hsame) || by apply opened_life.
  - destruct (pcs (gen s) !! p) as [[]|] eqn:Ep; try (injection E as <-; left; by apply Hsame).
    apply exec_bind_ok in E as ([r u'] & E1 & E2). injection E2 as <-. cbn [su] in *.
    assert (Hpos : 0 < users s).
    { pose proof (users_nonneg s L). destruct (Z.eq_dec (users s) 0) as [E0|]; [|lia].
      pose proof (no_users s p L E0). congruence. }
    destruct (close_life i1 i2 p _ r u' Hpos E1) as (C1 & [Hs|(-> & -> & C2 & C3)]); [left; by apply Hsame|].
    edestruct (closed_life s (Sys u' (delete p (pcs (gen s))) (writes (gen s)))) as [R|(R1 & R2 & R3)];
      [done..|by left|right]. split; [done|]. split; [done|]. split; [done|]. by exists p.
Qed.

(** ** Completions and removal *)

Lemma rx_burst_keeps l i : tx_connection (rx_burst l i) = tx_connection i /\
  open_count (rx_burst l i) = open_count i /\ connection_state (rx_burst l i) = connection_state i.
Proof.
  revert i. induction l as [|[f d] l IH]; intros i; [done|]. cbn [rx_burst fold_left fst snd].
  destruct (IH (generic_raw_uart_handle_rx_char f d i)) as (E1 & E2 & E3). unfold rx_burst in *.
  rewrite E1, E2, E3. split; [apply handle_rx_char_sender|]. split; [apply handle_rx_char_count|].
  unfold generic_raw_uart_handle_rx_char. by repeat case_match.
Qed.

Lemma rx_completed_keeps i : let i' := generic_raw_uart_rx_completed i in
  tx_connection i' = tx_connection i /\ open_count i' = open_count i /\
  connection_state i' = connection_state i.
Proof. cbv zeta. unfold generic_raw_uart_rx_completed. by destruct (dump_traffic i). Qed.

Lemma write_done_life s s' : life_inv s -> deleted (port_link s) = false ->
  perform_usb UWriteDone s = Ok s' -> life_inv s'.
Proof.
  intros L Hd. unfold perform_usb. rewrite Hd. destruct (negb _); [by intros [= <-]|].
  intros ([w u'] & E & [= <-])%exec_bind_ok. unfold complete_write in E. rewrite usb_write_done in E.
  destruct (giveback_idle (su (gen s))) as (G1 & G2 & _). set (u0 := with_drv _ (giveback _)) in *.
  assert (G3 : sent (drv u0) = sent (drv (su (gen s)))).
  { unfold u0, giveback. cbn [sent usb_ok with_drv drv]. by rewrite !link_of_on_link. }
  assert (Hs : same_life (su (gen s)) u0).
  { unfold u0, giveback. split; [|done]. cbn [with_drv drv]. by rewrite !link_of_on_link. }
  pose proof (inv_frame (gen s) u0 (li_gen _ L) G1 ltac:(by rewrite G2)) as I0.
  assert (E' : perform ATxQueued (with_su u0 (gen s)) =
    Ok (Sys u' (credit (su (gen s)) u' (tx_connection (inst (su (gen s)))) (pcs (gen s))) (writes (gen s)))).
  { cbn [perform with_su su pcs writes]. rewrite E. cbn [exec_bind]. rewrite G2.
    unfold credit, newly_sent. by rewrite G3. }
  destruct (perform_inv ATxQueued _ I I0) as (g' & E2 & I'). rewrite E' in E2. injection E2 as <-.
  assert (F0 : files_ok u0) by (eapply same_files_ok; [|apply L]; split; [by rewrite G1|by rewrite G2]).
  apply life_inv_same with s; [done|done|by eapply (perform_files ATxQueued (with_su u0 (gen s)))|done|].
  eapply same_life_trans; [done|]. by eapply tx_queued_life.
Qed.

Lemma read_done_life s s' data n : life_inv s -> deleted (port_link s) = false ->
  perform_usb (UReadDone data n) s = Ok s' -> life_inv s'.
Proof.
  intros L Hd. unfold perform_usb. rewrite Hd. destruct (negb _); [by intros [= <-]|].
  intros (u' & E & [= <-])%exec_bind_ok.
  destruct (usb_read_done _ _ _ _ E) as (G1 & _ & [l G2] & _ & G4). cbn [giveback_reading with_drv conns inst drv] in *.
  destruct (rx_completed_keeps (rx_burst l (inst (su (gen s))))) as (K1 & K2 & K3).
  destruct (rx_burst_keeps l (inst (su (gen s)))) as (B1 & B2 & B3). rewrite <- G2, B1, B2, B3 in *.
  apply life_inv_same with s; cbn [su with_su]; [done|by apply inv_frame; [apply L|..]| |done|].
  - eapply same_files_ok; [|apply L]. split; [by rewrite G1|done].
  - split; [|done]. rewrite link_of_on_link in G4. by destruct G4.
Qed.

Lemma disconnect_life s s' : life_inv s -> deleted (port_link s) = false ->
  perform_usb UDisconnect s = Ok s' -> life_inv s'.
Proof.
  intros L Hd. unfold perform_usb. rewrite Hd. destruct (bound s) eqn:Eb; cbn [negb orb]; [|by intros [= <-]].
  destruct (out_busy _); [by intros [= <-]|]. intros [= <-]. pose proof (users_nonneg s L) as Hn.
  destruct (usb_disconnect (su (gen s))) as (G1 & _ & G3 & _ & [R1 R2]). pose proof L as [Hg Hf _ Hk _].
  unfold users, port_link in *. rewrite Hk, Eb in R1 by done. rewrite Hd, Hk, Eb in R2 by done.
  split; unfold users, port_link; cbn [gen with_su su bound]; rewrite ?G3; cbn [set_connection_state open_count connection_state].
  - apply inv_frame; [done|done|by rewrite G3].
  - eapply same_files_ok; [|done]. split; [by rewrite G1|by rewrite G3].
  - rewrite R2. destruct (Z.ltb_spec 0 (open_count (inst (su (gen s))))), (Z.eqb_spec (open_count (inst (su (gen s)))) 0);
      simpl; done || lia.
  - intros _. rewrite R1. destruct (0 <? _); simpl; lia.
  - done.
Qed.

Lemma perform_usb_life a s s' : usb_orderly a -> life_inv s -> perform_usb a s = Ok s' -> life_inv s'.
Proof.
  intros Ho L E. destruct (deleted (port_link s)) eqn:Hd.
  - unfold perform_usb in E. rewrite Hd in E. unfold perform_deleted in E. repeat case_match; by simplify_eq.
  - destruct a as [a| | |]; [|by eapply write_done_life|by eapply read_done_life|by eapply disconnect_life].
    unfold perform_usb in E. rewrite Hd in E. destruct (from_process a) eqn:Ef; [|by injection E as <-].
    cbn [negb orb] in E. destruct (waits a s); [by injection E as <-|].
    apply exec_bind_ok in E as (g & E1 & E2).
    destruct (generic_life a s g L Hd Ef Ho E1) as [[L' D']|(_ & _ & D' & _)]; rewrite D' in E2; by simplify_eq.
Qed.

(** What a probe leaves. *)
Record probed_uart (u : uart P) : Prop := {
  pu_conns : conns u = ∅;
  pu_sender : tx_connection (inst u) = None;
  pu_users : open_count (inst u) = 0;
  pu_kref : kref (link_of (drv u)) = 1;
  pu_deleted : deleted (link_of (drv u)) = false
}.

Lemma after_probe_life u : probed_uart u -> life_inv (after_probe u).
Proof.
  intros [E1 E2 E3 E4 E5]. split; unfold port_link, users, files_ok; cbn [gen after_probe su bound];
    rewrite ?E1, ?E3, ?E4, ?E5; try done.
  split; cbn [su pcs writes]; try done; [|by intros p; rewrite E2]. split; [by rewrite E1|].
  intros p. by rewrite E2.
Qed.

Lemma perform_usb_all_life l : forall s s', Forall usb_orderly l -> life_inv s ->
  perform_usb_all l s = Ok s' -> life_inv s'.
Proof.
  induction l as [|a l IH]; intros s s' Hl L E; [by injection E as <-|].
  inversion_clear Hl as [|? ? Ha Hl']. apply exec_bind_ok in E as (s1 & E1 & E2).
  apply (IH s1); [done| |done]. by eapply perform_usb_life.
Qed.

(** The one call that ends in freed memory. *)
Definition last_close (a : usb_action) (s : usb_sys P) : Prop :=
  exists p, a = UGeneric (AClose false false p) /\ pcs (gen s) !! p = Some PIdle /\
    bound s = false /\ users s = 1 /\ out_busy (usb_traffic s) = false.

Lemma last_close_crashes a s : life_inv s -> last_close a s -> perform_usb a s = UseAfterFree.
Proof.
  intros L (p & -> & Hp & Hb & Hu & Ho). pose proof (li_deleted _ L) as Hd.
  rewrite Hu, andb_false_r in Hd. unfold perform_usb, waits. rewrite Hd, Ho, andb_false_r. cbn [from_process negb orb].
  destruct (perform_inv (AClose false false p) (gen s) I (li_gen _ L)) as (g & E & _). rewrite E. cbn [exec_bind].
  destruct (generic_life (AClose false false p) s g L Hd eq_refl I E) as [[L' D']|(_ & _ & -> & _)]; [|done].
  exfalso. pose proof (li_deleted _ L') as F. rewrite D' in F. cbn [bound] in F. rewrite Hb in F.
  cbn [perform] in E. rewrite Hp in E. destruct (inv_threads _ (li_gen _ L) _ _ Hp) as (c & Hc & _).
  destruct (close_spec false false p c _ Hc) as (r & u' & E' & _ & _ & Hn & _).
  rewrite E' in E. cbn [exec_bind] in E. injection E as <-. unfold users in *. cbn [gen su] in F.
  rewrite Hu in Hn. cbn in Hn. by rewrite Hn in F.
Qed.

Lemma crash_is_last_close a s : usb_orderly a -> life_inv s -> perform_usb a s = UseAfterFree -> last_close a s.
Proof.
  intros Ho L. destruct (deleted (port_link s)) eqn:Hd; unfold perform_usb; rewrite Hd.
  - pose proof (li_deleted _ L) as F. rewrite Hd in F. symmetry in F. apply andb_prop in F as [_ F%Z.eqb_eq].
    assert (Hpc : pcs (gen s) = ∅) by (apply map_empty; intros p; by apply no_users).
    unfold perform_deleted. rewrite Hpc, bool_decide_true by done.
    by destruct a as [[]| | |].
  - destruct a as [a| |data n|].
    + destruct (from_process a) eqn:Ef; [|done]. cbn [negb orb]. destruct (waits a s) eqn:Ew; [done|].
      destruct (perform_inv a (gen s) Ho (li_gen _ L)) as (g & E & _). rewrite E. cbn [exec_bind].
      destruct (generic_life a s g L Hd Ef Ho E) as [[_ ->]|(Hb & Hu & _ & p & -> & Hp)]; [done|].
      intros _. exists p. cbn [waits] in Ew. rewrite Hu in Ew. done.
    + destruct (negb _); [done|]. unfold complete_write. rewrite usb_write_done.
      destruct (giveback_idle (su (gen s))) as (G1 & G2 & _). set (u0 := with_drv _ (giveback _)) in *.
      pose proof (inv_frame (gen s) u0 (li_gen _ L) G1 ltac:(by rewrite G2)) as I0.
      destruct (perform_inv ATxQueued _ I I0) as (g & E & _). cbn [perform with_su su] in E.
      by destruct (generic_raw_uart_tx_queued u0) as [[]| | | |].
    + destruct (negb _); [done|].
      destruct (usb_read_fine data n (giveback_reading (su (gen s)))) as [[u' ->] | ->]; done.
    + by destruct (_ || _).
Qed.


(** ** A refused submission *)

(** The driver believes in a transfer that is not there. *)
Definition stuck (T : list (list Z)) (p : P) : Prop :=
  is_in_tx (link_of p) = true /\ out_busy (link_traffic (link_of p)) = false /\
  transfers (link_traffic (link_of p)) = T.

Lemma stuck_same T p p' : same_tx (link_of p) (link_of p') -> stuck T p -> stuck T p'.
Proof. unfold stuck. intros (-> & _ & -> & ->). done. Qed.
Lemma stuck_killed T p p' : killed (link_of p) (link_of p') -> stuck T p -> stuck T p'.
Proof. intros [E1 _ E2 E3] (S1 & S2 & S3). split; [|by rewrite E3]. by rewrite E1, S1, S2. Qed.

(** While it does, nothing is handed over. *)
Lemma tx_queued_stuck T u w u' : stuck T (drv u) -> generic_raw_uart_tx_queued_unlocked u = Ok (w, u') ->
  drv u' = drv u.
Proof.
  intros [Hi _]. unfold generic_raw_uart_tx_queued_unlocked. rewrite tx_loop_busy by done. cbn [exec_bind].
  destruct (tx_connection (inst u)) as [p|]; [|by intros [= <- <-]].
  intros (c & _ & E)%exec_bind_ok. destruct (_ <=? _); injection E as <- <-; [|done]. apply usb_stop_tx.
Qed.

Lemma open_stuck T mod_ok intr oom p u r u' : stuck T (drv u) ->
  generic_raw_uart_open mod_ok intr oom p u = Ok (r, u') -> stuck T (drv u').
Proof.
  intros Hs. unfold generic_raw_uart_open. rewrite usb_owner.
  destruct (usb_start (drv (with_refs (module_refs u + 1) u))) as (_ & S2 & _).
  destruct (start_connection _) as [ret d]. cbn in *. intros E.
  repeat case_match; simplify_eq; try done; by eapply stuck_same.
Qed.

Lemma close_stuck T i1 i2 p u r u' : stuck T (drv u) ->
  generic_raw_uart_close i1 i2 p u = Ok (r, u') -> stuck T (drv u').
Proof.
  intros Hs (c & _ & E)%exec_bind_ok. rewrite usb_owner in E.
  destruct i1; [by injection E as <- <-|]. destruct i2; [by injection E as <- <-|].
  cbv zeta in E. set (v := if negb _ then _ else _) in E.
  assert (Hv : drv v = drv u) by (unfold v; by destruct (negb _)).
  destruct (usb_stop (drv u)) as [S1 _].
  destruct (open_count (inst v) =? 0); injection E as <- <-; cbn [with_refs with_drv drv]; rewrite Hv;
    [by eapply stuck_killed|done].
Qed.

Lemma acquire_stuck T p u r w u' : stuck T (drv u) ->
  generic_raw_uart_acquire_sender p u = Ok (r, w, u') -> drv u' = drv u.
Proof.
  intros Hs. unfold generic_raw_uart_acquire_sender. destruct (tx_connection (inst u)) as [q|].
  - intros (cq & _ & (c & _ & E)%exec_bind_ok)%exec_bind_ok.
    by destruct (priority cq <? priority c); injection E as <- <- <-.
  - intros ([w' u1] & E & [= <- <- <-])%exec_bind_ok. rewrite usb_init_tx in E.
    by apply (tx_queued_stuck T) in E.
Qed.

Lemma reset_stuck T intr m u : stuck T (drv u) -> stuck T (drv (generic_raw_uart_reset_radio_module intr m u).2).
Proof.
  intros Hs. unfold generic_raw_uart_reset_radio_module. destruct intr; [done|]. destruct (m <? _); [done|].
  destruct reset_radio_module as [f|] eqn:Er; [|by destruct (negb _)].
  destruct (usb_reset f (drv u) Er) as [R _]. destruct (f (drv u)) as [ret d]. by eapply stuck_same.
Qed.

Lemma perform_stuck T a s s' : from_process a = true -> stuck T (drv (su s)) -> perform a s = Ok s' ->
  stuck T (drv (su s')).
Proof.
  intros Hf Hs E. destruct a as [mod_ok intr oom p|i1 i2 p| |p|p|p|p|prio p| | |intr nb fl n|intr m|];
    try done; cbn [perform] in E.
  - destruct (conns (su s) !! p); [by injection E as <-|].
    apply exec_bind_ok in E as ([r u'] & E1%(open_stuck T) & E2); [|done]. by destruct (r =? 0); injection E2 as <-.
  - destruct (pcs s !! p) as [[]|]; try by injection E as <-.
    apply exec_bind_ok in E as ([r u'] & E1%(close_stuck T) & E2); [|done]. by injection E2 as <-.
  - destruct (pcs s !! p) as [[]|]; try by injection E as <-.
    apply exec_bind_ok in E as ([r u'] & E1 & E2). injection E2 as <-.
    apply exec_bind_ok in E1 as (c & _ & E1). cbv zeta in E1. by repeat case_match; simplify_eq.
  - destruct (pcs s !! p) as [[]|]; try by injection E as <-.
    apply exec_bind_ok in E as ([[r w] u'] & E1%(acquire_stuck T) & E2); [|done]. injection E2 as <-.
    destruct (r =? 1); cbn [goto with_su su]; by rewrite E1.
  - destruct (pcs s !! p) as [[]|]; try by injection E as <-.
    destruct (generic_raw_uart_send_completed p (su s)); [|by injection E as <-].
    apply exec_bind_ok in E as (r & _ & E). by injection E as <-.
  - destruct (pcs s !! p) as [[]|]; by injection E as <-.
  - destruct (pcs s !! p) as [[]|]; by injection E as <-.
  - destruct (pcs s !! p) as [[]|]; try by injection E as <-.
    apply exec_bind_ok in E as (c & Hp & E). by injection E as <-.
  - destruct (generic_raw_uart_read _ _ _ _ _) as [[o d] i]. by injection E as <-.
  - pose proof (reset_stuck T intr m (su s) Hs) as R.
    destruct (generic_raw_uart_reset_radio_module _ _ _) as [[r acts] u']. by injection E as <-.
Qed.

Lemma perform_usb_stuck T a s s' : stuck T (drv (su (gen s))) -> perform_usb a s = Ok s' ->
  stuck T (drv (su (gen s'))).
Proof.
  intros Hs. unfold perform_usb. destruct (deleted (port_link s)).
  { unfold perform_deleted. intros E. repeat case_match; by simplify_eq. }
  destruct a as [a| |data n|].
  - destruct (from_process a) eqn:Ef; [|by intros [= <-]]. cbn [negb orb].
    destruct (waits a s); [by intros [= <-]|]. intros (g & E1 & E2)%exec_bind_ok.
    destruct (deleted _); [done|]. injection E2 as <-. by eapply perform_stuck.
  - unfold usb_traffic, port_link. destruct Hs as (S1 & S2 & S3). rewrite S2. by intros [= <-].
  - destruct (negb _); [by intros [= <-]|]. intros (u' & E & [= <-])%exec_bind_ok.
    destruct (usb_read_done _ _ _ _ E) as (_ & _ & _ & G & _). eapply stuck_same; [done|].
    unfold stuck, link_traffic, giveback_reading in *. cbn [with_drv drv]. rewrite link_of_on_link.
    cbn [with_host host is_in_tx]. rewrite giveback_read_law. done.
  - destruct (_ || _); [by intros [= <-]|]. intros [= <-].
    destruct (usb_disconnect (su (gen s))) as (_ & _ & _ & K & _). by eapply stuck_killed.
Qed.

(** When the host refuses the transfer of a short message, as
    it does when the adapter has just been pulled out, the write reports the
    whole message as sent although nothing was; and from then on nothing is
    ever sent again, whatever happens, closing and opening the device
    included. *)
Theorem refused_submission_stalls p c data (u : uart P) :
  uart_ok u -> tx_connection (inst u) = None -> conns u !! p = Some c -> 0 < zlen data <= 11 ->
  line_idle (drv u) -> (usb_submit_write data (host (link_of (drv u)))).1 <> 0 ->
  exists u1 u2,
    write_begin false Copied data p u = Ok (None, u1) /\
    generic_raw_uart_acquire_sender p u1 = Ok (1, true, u2) /\
    write_finish p u2 = Ok (zlen data) /\
    transfers (link_traffic (link_of (drv u2))) = transfers (link_traffic (link_of (drv u))) /\
    forall s l s', drv (su (gen s)) = drv u2 -> perform_usb_all l s = Ok s' ->
      transfers (usb_traffic s') = transfers (usb_traffic s).
Proof.
  intros Hu Ht Hp Hd [Hi Hi'] He. assert (HC : CON_DATA_TX_BUF_SIZE = 4096) by done.
  destruct (write_begin_ok p c u data Hu Hp ltac:(lia)) as (c' & u1 & E1 & Hu1 & -> & _ & Hx & Hlen & _ & Hsl).
  set (u1 := with_conns _ u) in *. set (u1' := on_inst (set_tx_connection (Some p)) u1).
  assert (Hp1 : conns u1' !! p = Some c') by (simpl; by rewrite lookup_insert_eq).
  assert (Hu1' : uart_ok u1') by (destruct Hu1 as [G1 G2]; split; [done|]; intros q [= <-]; by exists c').
  assert (Hun : unsent c' = zlen data) by (unfold unsent; lia).
  destruct (tx_once u1' p c' Hu1' eq_refl Hp1 Hi ltac:(lia)) as (w & u2 & E2 & Hu2 & [R1 R2 R3 R4 R5 _ _] & Hl).
  rewrite Hx, Hun, Z.min_r, Hsl in * by lia. rewrite Z.add_0_l, bool_decide_true in * by done. subst w.
  assert (Hs : stuck (transfers (link_traffic (link_of (drv u)))) (drv u2)).
  { unfold stuck, link_traffic. rewrite Hl. cbn [transmit is_in_tx host]. rewrite submit_write_law.
    apply Z.eqb_neq in He. cbn [u1' u1 on_inst with_conns drv]. by rewrite He. }
  exists u1, u2. split; [done|]. split.
  { unfold generic_raw_uart_acquire_sender. change (tx_connection (inst u1)) with (tx_connection (inst u)).
    rewrite Ht, usb_init_tx. change (with_drv _ _) with u1'. by rewrite E2. }
  split; [unfold write_finish; rewrite R2, lookup_insert_eq; simpl; by rewrite s32_small by lia|].
  split; [apply Hs|]. intros s l. rewrite <- (proj2 (proj2 Hs)) in Hs. intros s' Es. rewrite <- Es in Hs.
  unfold usb_traffic, port_link. generalize dependent (transfers (link_traffic (link_of (drv (su (gen s)))))).
  clear -UD. revert s. induction l as [|a l IH]; intros s T Hs E; [injection E as <-; by apply Hs|].
  apply exec_bind_ok in E as (s1 & E1 & E2). eapply IH; [|done]. by eapply perform_usb_stuck.
Qed.
End UsbSystem.

(** ** The theorems on concrete adapters *)

Module UsbSamples.
Import SimUsb UsbRxSamples.

Abbreviation port2 := (HbRfUsb2.hb_rf_usb_2_port_s sim).
#[local] Existing Instances HbRfUsb2.hb_rf_usb_2 linux_circ.

(** A bound adapter, and one with an open file. *)
Definition plugged : uart port2 := on_inst (set_connection_state true) cp2102n_uart.
Definition opened : uart port2 :=
  match generic_raw_uart_open true false false 1 plugged with Ok (_, u) => u | _ => plugged end.
(** The same after the adapter has been pulled out without notice. *)
Definition unplugged : uart port2 :=
  with_drv (on_link (fun l => with_host (Sim (seen (host l)) false (replies (host l))) l) (drv opened)) opened.

Definition pull_out : list usb_action := [UGeneric (AOpen true false false 1); UDisconnect].
Definition pulled_out : usb_sys port2 :=
  match perform_usb_all pull_out (after_probe plugged) with Ok s => s | _ => after_probe plugged end.

Lemma opened_ok : uart_ok opened.
Proof. split; [|done]. apply map_Forall_singleton, new_conn_ok. Qed.

Lemma unplugged_ok : uart_ok unplugged.
Proof. split; [|done]. apply map_Forall_singleton, new_conn_ok. Qed.

Lemma plugged_probed : probed_uart plugged.
Proof. by split. Qed.

Lemma usb_write_delivers_witness : exists u3 : uart port2,
  transfers (link_traffic (link_of (drv u3))) = [replicate 11 85; replicate 11 85; replicate 3 85] /\
  write_finish 1 u3 = Ok 25.
Proof.
  destruct (usb_write_delivers (DR := HbRfUsb2.hb_rf_usb_2) 1 new_conn (replicate 25 85) 2 opened opened_ok eq_refl eq_refl)
    as (u1 & w & u2 & u3 & u4 & _ & _ & _ & _ & H1 & H2 & _); [done..|].
  exists u3. split; [|done]. by rewrite H2.
Defined.


Lemma refused_submission_stalls_witness : exists u2 : uart port2,
  write_finish 1 u2 = Ok 5 /\ transfers (link_traffic (link_of (drv u2))) = [] /\
  forall s', perform_usb_all [UGeneric (AClose false false 1); UGeneric (AOpen true false false 1);
      UGeneric (AWrite false Copied [1; 2] 1); UGeneric (AAcquire 1)] (UsbSys (Sys u2 {[1%nat := PIdle]} []) true) = Ok s' ->
    transfers (usb_traffic s') = [].
Proof.
  destruct (refused_submission_stalls (DR := HbRfUsb2.hb_rf_usb_2) 1 new_conn (replicate 5 85) unplugged unplugged_ok eq_refl eq_refl)
    as (u1 & u2 & _ & _ & H1 & H2 & H3); [done..|].
  exists u2. split; [done|]. split; [by rewrite H2|]. intros s' E. rewrite (H3 (UsbSys (Sys u2 {[1%nat := PIdle]} []) true) _ s' eq_refl E). exact H2.
Defined.
End UsbSamples.
