(* ===== verification/UsbPins.v ===== *)
(** The USB adapters: pins.

    Both adapters have three pins for LEDs, which they offer as a GPIO chip,
    and one for the reset of the radio module.  An abstract state says what the
    pins show; the theorems are that both drivers keep it, whatever the order
    of LED changes and of the steps of a reset, and that the requests they send
    carry it to the converter. *)
From S2P Require Import Prelude Kernel Effects Ring RawUart RawUartRx RawUartTx Usb HbRfUsb HbRfUsb2 UsbRx UsbTx.

(** ** What the pins show *)

Inductive drive := DriveLow | DriveHigh | Float.

Record pins := Pins { leds : list bool; reset_pin : drive }.

(** What can be asked for: one LED, some LEDs by a mask, a step of a reset. *)
Inductive pin_op :=
| PinSet (gpio value : Z)
| PinSetMultiple (mask bits : Z)
| PinDrive (d : drive).

Definition pin_step (op : pin_op) (s : pins) : pins :=
  match op with
  | PinSet gpio value => Pins (<[Z.to_nat gpio := negb (value =? 0)]> (leds s)) (reset_pin s)
  | PinSetMultiple mask bits =>
    Pins (imap (fun i b => if Z.testbit mask (Z.of_nat i) then Z.testbit bits (Z.of_nat i) else b) (leds s))
         (reset_pin s)
  | PinDrive d => Pins (leds s) d
  end.

(** The states after each of some operations, and after all of them. *)
Fixpoint history (ops : list pin_op) (s : pins) : list pins :=
  match ops with
  | [] => []
  | op :: ops => pin_step op s :: history ops (pin_step op s)
  end.
Definition after_pins (ops : list pin_op) (s : pins) : pins := foldl (flip pin_step) s ops.

(** The kernel calls a GPIO chip with three pins for those only. *)
Definition on_chip (op : pin_op) : Prop :=
  match op with
  | PinSet gpio _ => 0 <= gpio < 3
  | PinSetMultiple mask _ => 0 <= mask < 8
  | PinDrive _ => True
  end.

Definition no_float (op : pin_op) : Prop := op <> PinDrive Float.

(** The number with the LEDs as its lowest bits. *)
Fixpoint bits_value (l : list bool) : Z :=
  match l with [] => 0 | b :: l => Z.b2z b + 2 * bits_value l end.

Definition all_bits : list (list bool) :=
  [[false; false; false]; [true; false; false]; [false; true; false]; [true; true; false];
   [false; false; true]; [true; false; true]; [false; true; true]; [true; true; true]].

Lemma all_bits_elem l : length l = 3%nat -> l ∈ all_bits.
Proof.
  destruct l as [|[] [|[] [|[] [|]]]]; try done; intros _;
    (apply (bool_decide_unpack _); vm_compute; exact I).
Qed.

Lemma small_elem n x : 0 <= x < Z.of_nat n -> x ∈ Z.of_nat <$> seq 0 n.
Proof. intros. apply list_elem_of_fmap. exists (Z.to_nat x). split; [lia|]. apply elem_of_seq. lia. Qed.

(** A statement on the LEDs and two small numbers is decided by trying all. *)
Lemma by_enumeration n m (f : list bool -> Z -> Z -> bool) :
  forallb (fun l => forallb (fun x => forallb (f l x) (Z.of_nat <$> seq 0 m)) (Z.of_nat <$> seq 0 n)) all_bits = true ->
  forall l x y, length l = 3%nat -> 0 <= x < Z.of_nat n -> 0 <= y < Z.of_nat m -> f l x y = true.
Proof.
  intros E l x y Hl Hx Hy. rewrite forallb_forall in E.
  specialize (E l (proj1 (list_elem_of_In _ _) (all_bits_elem l Hl))). rewrite forallb_forall in E.
  specialize (E x (proj1 (list_elem_of_In _ _) (small_elem _ _ Hx))). rewrite forallb_forall in E.
  apply E, list_elem_of_In, small_elem. done.
Qed.

Lemma length_pin_step op s : length (leds (pin_step op s)) = length (leds s).
Proof. destruct op; cbn; rewrite ?length_insert, ?length_imap; done. Qed.

Lemma masked_bits mask bits : 0 <= mask < 8 -> Z.land bits mask = Z.land (bits mod 8) mask.
Proof.
  intros Hm. rewrite <- (Z.mod_small mask (2 ^ 3)) by lia. rewrite <- !Z.land_ones by lia.
  change 8 with (2 ^ 3). rewrite <- Z.land_ones by lia. apply Z.bits_inj'. intros k _.
  rewrite !Z.land_spec. by destruct (Z.testbit bits k), (Z.testbit mask k), (Z.testbit (Z.ones 3) k).
Qed.

(** The code's bit operations on a value whose bits from 3 on are those of [d]. *)
Lemma set_value l gpio v d : length l = 3%nat -> 0 <= gpio < 3 -> d = 0 \/ d = 8 ->
  (if negb (v =? 0) then u8 (Z.lor (bits_value l + d) (BIT gpio)) else u8 (Z.ldiff (bits_value l + d) (BIT gpio))) =
  bits_value (<[Z.to_nat gpio := negb (v =? 0)]> l) + d.
Proof.
  intros Hl Hg Hd. set (b := negb (v =? 0)). clearbody b.
  enough (forall x, 0 <= x < 2 ->
    ((if b then u8 (Z.lor (bits_value l + 8 * x) (BIT gpio))
      else u8 (Z.ldiff (bits_value l + 8 * x) (BIT gpio))) =?
     bits_value (<[Z.to_nat gpio := b]> l) + 8 * x) = true) as E.
  { apply Z.eqb_eq. destruct Hd as [-> | ->]; [apply (E 0) | apply (E 1)]; lia. }
  intros x Hx. revert l gpio x Hl Hg Hx. apply (by_enumeration 3 2). by destruct b; vm_compute.
Qed.

Lemma set_multiple_value l mask bits d : length l = 3%nat -> 0 <= mask < 8 -> d = 0 \/ d = 8 ->
  u8 (Z.lor (u8 (Z.ldiff (bits_value l + d) mask)) (Z.land bits mask)) =
  bits_value (imap (fun i b => if Z.testbit mask (Z.of_nat i) then Z.testbit bits (Z.of_nat i) else b) l) + d.
Proof.
  intros Hl Hm Hd. rewrite masked_bits by done.
  transitivity (bits_value (imap (fun i b => if Z.testbit mask (Z.of_nat i)
    then Z.testbit (bits mod 8) (Z.of_nat i) else b) l) + d).
  - pose proof (Z.mod_pos_bound bits 8 ltac:(lia)) as Hr. set (r := bits mod 8) in *. clearbody r.
    apply Z.eqb_eq. revert l mask r Hl Hm Hr.
    destruct Hd as [-> | ->]; apply (by_enumeration 8 8); by vm_compute.
  - f_equal. f_equal. apply imap_ext. intros i b Hi%lookup_lt_Some. change 8 with (2 ^ 3).
    by rewrite Z.mod_pow2_bits_low by lia.
Qed.

Lemma pin_read l d gpio : length l = 3%nat -> 0 <= gpio < 3 -> d = 0 \/ d = 8 ->
  negb (Z.land (bits_value l + d) (BIT gpio) =? 0) = nth (Z.to_nat gpio) l false.
Proof.
  intros Hl Hg Hd. apply eqb_prop.
  enough (forall x, 0 <= x < 2 ->
    eqb (negb (Z.land (bits_value l + 8 * x) (BIT gpio) =? 0)) (nth (Z.to_nat gpio) l false) = true) as E.
  { destruct Hd as [-> | ->]; [apply (E 0) | apply (E 1)]; lia. }
  intros x Hx. revert l gpio x Hl Hg Hx. apply (by_enumeration 3 2). by vm_compute.
Qed.

(** ** Requests

    A port that has sent some of the requests [rs] in between. *)
Section Sent.
Context {P H : Type} `{!UsbHost H} `{!Port P H}.

Definition port_requests (p : P) : list request := requests (link_traffic (link_of p)).

Definition sent_some (rs : list request) (p p' : P) : Prop :=
  exists sent, sent `sublist_of` rs /\ port_requests p' = port_requests p ++ sent.

Lemma sent_trans rs1 rs2 p1 p2 p3 : sent_some rs1 p1 p2 -> sent_some rs2 p2 p3 -> sent_some (rs1 ++ rs2) p1 p3.
Proof.
  intros (s1 & S1 & E1) (s2 & S2 & E2). exists (s1 ++ s2). split; [by apply sublist_app|].
  by rewrite E2, E1, app_assoc.
Qed.

Lemma sent_nil p : sent_some [] p p.
Proof. exists []. by rewrite app_nil_r. Qed.

Lemma submit_sent r p p' : port_requests p' = port_requests p ->
  sent_some [r] p (call (usb_submit_control r) p').2.
Proof.
  unfold port_requests at 1 2, link_traffic. intros E. unfold call.
  pose proof (submit_control_law r (host (link_of p'))) as L.
  destruct (usb_submit_control r (host (link_of p'))) as [e h]. cbn [fst snd] in *.
  destruct (e =? 0); [exists [r] | exists []]; (split; [done || apply sublist_nil_l|]);
    unfold port_requests, link_traffic; rewrite link_of_on_link; cbn [host with_host]; rewrite L; cbn; by rewrite E, ?app_nil_r.
Qed.

Lemma bind_run {S A B} (m : M S A) (k : A -> M S B) s : (m ≫= k) s = k (m s).1 (m s).2.
Proof. unfold mbind, state_bind. by destruct (m s). Qed.

Lemma call_state (f : H -> Z * H) (p : P) : ((call f;; mret tt) p).2 = (call f p).2.
Proof. by rewrite bind_run. Qed.
End Sent.

(** ** HB-RF-USB *)

Module FtdiPins.
Import HbRfUsb.

(** The nibble of values, the nibble of directions, 1 for an output; the
    reset line is the highest of four. *)
Definition level (d : drive) : Z := match d with DriveHigh => 8 | _ => 0 end.
Definition direction (d : drive) : Z := match d with Float => 0x07 | _ => 0x0f end.

Definition bitmode_request (s : pins) : request :=
  Request 0x40 0x0b (0x2000 + 16 * direction (reset_pin s) + bits_value (leds s) + level (reset_pin s)) 0 [].

Section Pins.
Context {H : Type} `{!UsbHost H}.
Abbreviation port := (hb_rf_usb_port_s H).

Definition run_op (op : pin_op) : M port unit :=
  match op with
  | PinSet gpio value => hb_rf_usb_gpio_set gpio value
  | PinSetMultiple mask bits => hb_rf_usb_gpio_set_multiple mask bits
  | PinDrive DriveLow => reset_low
  | PinDrive DriveHigh => reset_high
  | PinDrive Float => reset_release
  end.
Definition run_ops (ops : list pin_op) (p : port) : port := foldl (fun p op => (run_op op p).2) p ops.

(** Three LEDs, and the pins of the port are those of the state. *)
Definition shows (p : port) (s : pins) : Prop :=
  length (leds s) = 3%nat /\
  gpio_value p = bits_value (leds s) + level (reset_pin s) /\
  gpio_direction p = direction (reset_pin s).

Lemma shown_bitmode p s : shows p s ->
  Request FTDI_SIO_SET_BITMODE_REQUEST_TYPE FTDI_SIO_SET_BITMODE_REQUEST
    (bitmode FTDI_SIO_BITMODE_CBUS p) 0 [] = bitmode_request s.
Proof.
  intros (Hl & Hv & Hd). unfold bitmode, bitmode_request. rewrite Hv, Hd. f_equal.
  destruct s as [l d]; cbn [leds reset_pin] in *. destruct l as [|[] [|[] [|[] [|]]]]; try done; by destruct d.
Qed.

Lemma set_gpio_spec p0 p s : shows p s -> port_requests p = port_requests p0 ->
  shows (hb_rf_usb_set_gpio_on_device p).2 s /\
  sent_some [bitmode_request s] p0 (hb_rf_usb_set_gpio_on_device p).2.
Proof.
  intros S E. set (r := Request FTDI_SIO_SET_BITMODE_REQUEST_TYPE FTDI_SIO_SET_BITMODE_REQUEST
    (bitmode FTDI_SIO_BITMODE_CBUS p) 0 []).
  change (hb_rf_usb_set_gpio_on_device p) with ((call (usb_submit_control r);; mret tt) p).
  rewrite call_state, <- (shown_bitmode _ _ S). split; [|by apply submit_sent].
  unfold call. by destruct (usb_submit_control r _).
Qed.

Lemma reset_bit l d : length l = 3%nat ->
  Z.land (bits_value l + level d) 0x07 = bits_value l /\ Z.lor (bits_value l + level d) 0x08 = bits_value l + 8.
Proof. intros Hl. destruct l as [|[] [|[] [|[] [|]]]]; try done; by destruct d. Qed.

Lemma level_cases d : level d = 0 \/ level d = 8.
Proof. destruct d; auto. Qed.

Lemma run_op_spec op p s : shows p s -> on_chip op ->
  shows (run_op op p).2 (pin_step op s) /\ sent_some [bitmode_request (pin_step op s)] p (run_op op p).2.
Proof.
  intros (Hl & Hv & Hd) Ho. pose proof (length_pin_step op s) as Hl'. rewrite Hl in Hl'.
  destruct (reset_bit (leds s) (reset_pin s) Hl) as [Rl Rh].
  destruct op as [gpio v | mask bits | []]; apply (set_gpio_spec p); try done;
    (split; [done|]); cbn [gpio_value gpio_direction with_value with_direction pin_step leds reset_pin level direction];
    (split; [rewrite Hv | done]).
  - by apply set_value, level_cases.
  - by apply set_multiple_value, level_cases.
  - by rewrite Rl, Z.add_0_r.
  - by rewrite Rh.
  - by rewrite Rl, Z.add_0_r.
Qed.

(** C29 (type). Whatever the order in which LEDs are changed and resets run,
    the pins of an HB-RF-USB are what was last asked for: three LEDs, and a
    reset line that is driven low, driven high or left alone.  The value and
    the direction kept are the nibbles the converter's request wants, and all
    requests sent are requests for the successive states, in their order; a
    pin reads back as it was set.  A reset is three steps of that kind, with
    the line left alone in the end. *)
Theorem ftdi_pins_well_formed ops p s : shows p s -> Forall on_chip ops ->
  let p' := run_ops ops p in let s' := after_pins ops s in
  shows p' s' /\
  sent_some (bitmode_request <$> history ops s) p p' /\
  (forall gpio, 0 <= gpio < 3 ->
    negb (hb_rf_usb_gpio_get gpio p' =? 0) = nth (Z.to_nat gpio) (leds s') false) /\
  hb_rf_usb_reset_radio_module p' = (0, run_ops [PinDrive DriveLow; PinDrive DriveHigh; PinDrive Float] p').
Proof.
  intros S Ho. cbv zeta.
  enough (shows (run_ops ops p) (after_pins ops s) /\
    sent_some (bitmode_request <$> history ops s) p (run_ops ops p)) as [S' E].
  { split; [done|]. split; [done|]. split; [|unfold hb_rf_usb_reset_radio_module; by rewrite !bind_run]. destruct S' as (Hl & Hv & _).
    intros gpio Hg. unfold hb_rf_usb_gpio_get. rewrite Hv. by apply pin_read, level_cases. }
  revert p s S. induction Ho as [|op ops H1 _ IH]; intros p s S; [split; [done | apply sent_nil]|].
  destruct (run_op_spec op p s S H1) as [S1 E1]. destruct (IH _ _ S1) as [S2 E2]. split; [done|].
  exact (sent_trans [_] _ _ _ _ E1 E2).
Qed.
End Pins.
End FtdiPins.

(** ** HB-RF-USB-2 and HB-RF-USB-TK *)

Module Cp2102nPins.
Import HbRfUsb2.

(** The converter has a latch for its pins.  A write gives a mask, the lower
    byte, and the values for the pins in it, the upper byte. *)
Definition latch_write (latch : Z) (r : request) : Z :=
  let mask := wIndex r mod 256 in
  let value := wIndex r / 256 in
  Z.lor (Z.ldiff latch mask) (Z.land value mask).

Definition level (d : drive) : Z := match d with DriveHigh => 1 | _ => 0 end.

(** The four lowest pins: the reset line, then the LEDs. *)
Definition latched (s : pins) : Z := 2 * bits_value (leds s) + level (reset_pin s).

Definition latch_request (mask value : Z) : request := Request 0x40 0xff 0x37e1 (256 * value + mask) [].

(** The write of an operation, which gives the state [s]. *)
Definition write_for (op : pin_op) (s : pins) : request :=
  match op with
  | PinDrive d => latch_request 1 (level d)
  | _ => latch_request 14 (2 * bits_value (leds s))
  end.

Fixpoint writes_for (ops : list pin_op) (s : pins) : list request :=
  match ops with
  | [] => []
  | op :: ops => write_for op (pin_step op s) :: writes_for ops (pin_step op s)
  end.

Section Pins.
Context {H : Type} `{!UsbHost H}.
Abbreviation port := (hb_rf_usb_2_port_s H).

(** The steps of a reset drive the line. *)
Definition run_op (op : pin_op) : M port unit :=
  match op with
  | PinSet gpio value => hb_rf_usb_2_gpio_set gpio value
  | PinSetMultiple mask bits => hb_rf_usb_2_gpio_set_multiple mask bits
  | PinDrive d => hb_rf_usb_2_set_gpio_on_device RESET_GPIO_MASK (level d)
  end.
Definition run_ops (ops : list pin_op) (p : port) : port := foldl (fun p op => (run_op op p).2) p ops.

Definition reset_ops (inverted : bool) : list pin_op :=
  if inverted then [PinDrive DriveLow; PinDrive DriveHigh] else [PinDrive DriveHigh; PinDrive DriveLow].

Definition shows (p : port) (s : pins) : Prop :=
  length (leds s) = 3%nat /\ gpio_value p = bits_value (leds s).

Lemma write_spec mask value r p0 p s : shows p s -> port_requests p = port_requests p0 ->
  Request REQTYPE_HOST_TO_DEVICE CP2102N_VENDOR_SPECIFIC CP2102N_WRITE_LATCH
    (u16 (Z.lor (Z.shiftl (u8 value) 8) (u8 mask))) [] = r ->
  shows (hb_rf_usb_2_set_gpio_on_device mask value p).2 s /\
  sent_some [r] p0 (hb_rf_usb_2_set_gpio_on_device mask value p).2.
Proof.
  intros S E Er. unfold hb_rf_usb_2_set_gpio_on_device. rewrite Er, call_state.
  split; [|by apply submit_sent]. unfold call. by destruct (usb_submit_control r _).
Qed.

Lemma led_request l : length l = 3%nat ->
  Request REQTYPE_HOST_TO_DEVICE CP2102N_VENDOR_SPECIFIC CP2102N_WRITE_LATCH
    (u16 (Z.lor (Z.shiftl (u8 (Z.shiftl (bits_value l) 1)) 8) (u8 LED_GPIO_MASK))) [] =
  latch_request 14 (2 * bits_value l).
Proof. intros Hl. by destruct l as [|[] [|[] [|[] [|]]]]. Qed.

Lemma latch_op_spec op p s : shows p s -> on_chip op ->
  shows (run_op op p).2 (pin_step op s) /\ sent_some [write_for op (pin_step op s)] p (run_op op p).2.
Proof.
  intros (Hl & Hv) Ho. pose proof (length_pin_step op s) as Hl'. rewrite Hl in Hl'.
  destruct op as [gpio v | mask bits | d].
  - pose proof (set_value (leds s) gpio v 0 Hl Ho (or_introl eq_refl)) as E. rewrite !Z.add_0_r, <- Hv in E.
    apply write_spec; [by split | done|]. cbn [gpio_value with_value]. rewrite E. by apply led_request.
  - pose proof (set_multiple_value (leds s) mask bits 0 Hl Ho (or_introl eq_refl)) as E.
    rewrite !Z.add_0_r, <- Hv in E.
    apply write_spec; [by split | done|]. cbn [gpio_value with_value]. rewrite E. by apply led_request.
  - apply write_spec; [by split | done|]. by destruct d.
Qed.

Lemma latch_low latch r :
  Z.land (latch_write latch r) 15 = Z.land (latch_write (Z.land latch 15) r) 15.
Proof.
  unfold latch_write. apply Z.bits_inj'. intros k _.
  rewrite !Z.land_spec, !Z.lor_spec, !Z.ldiff_spec, !Z.land_spec.
  by destruct (Z.testbit latch k), (Z.testbit 15 k), (Z.testbit (wIndex r mod 256) k),
    (Z.testbit (wIndex r / 256) k).
Qed.

Lemma led_write l l' d : length l = 3%nat -> length l' = 3%nat ->
  Z.land (latch_write (latched (Pins l d)) (latch_request 14 (2 * bits_value l'))) 15 = latched (Pins l' d).
Proof.
  intros Hl Hl'. destruct l as [|[] [|[] [|[] [|]]]]; try done;
    destruct l' as [|[] [|[] [|[] [|]]]]; try done; by destruct d.
Qed.

(** The pins of a device that has just been bound: two LEDs, and the radio
    module held in reset. *)
Definition bound_pins (inverted : bool) : pins :=
  Pins [true; true; false] (if inverted then DriveLow else DriveHigh).

(** A write to all four pins. *)
Lemma whole_write inverted x : 0 <= x < 16 ->
  Z.land (latch_write x (latch_request 15 (latched (bound_pins inverted)))) 15 = latched (bound_pins inverted).
Proof.
  intros Hx. assert (x ∈ Z.of_nat <$> seq 0 16) as E by (by apply small_elem).
  cbn in E. rewrite !elem_of_cons, elem_of_nil in E.
  destruct inverted; by decompose [or] E; subst.
Qed.

Lemma reset_write l d d' : length l = 3%nat ->
  Z.land (latch_write (latched (Pins l d)) (latch_request 1 (level d'))) 15 = latched (Pins l d').
Proof. intros Hl. destruct l as [|[] [|[] [|[] [|]]]]; try done; by destruct d, d'. Qed.

Lemma latch_write_for op s latch : length (leds s) = 3%nat -> Z.land latch 15 = latched s ->
  Z.land (latch_write latch (write_for op (pin_step op s))) 15 = latched (pin_step op s).
Proof.
  intros Hl E. pose proof (length_pin_step op s) as Hl'. rewrite Hl in Hl'. rewrite latch_low, E.
  destruct s as [l d]. destruct op; cbn [write_for pin_step leds reset_pin] in *.
  - by apply led_write.
  - by apply led_write.
  - by apply reset_write.
Qed.

Lemma latch_writes_for ops s latch : length (leds s) = 3%nat -> Z.land latch 15 = latched s ->
  Z.land (foldl latch_write latch (writes_for ops s)) 15 = latched (after_pins ops s).
Proof.
  revert s latch. induction ops as [|op ops IH]; intros s latch Hl E; [done|].
  apply IH; [by rewrite length_pin_step | by apply latch_write_for].
Qed.

Lemma run_ops_spec ops p s : shows p s -> Forall on_chip ops ->
  shows (run_ops ops p) (after_pins ops s) /\ sent_some (writes_for ops s) p (run_ops ops p).
Proof.
  intros S Ho. revert p s S. induction Ho as [|op ops H1 _ IH]; intros p s S; [split; [done | apply sent_nil]|].
  destruct (latch_op_spec op p s S H1) as [S1 E1]. destruct (IH _ _ S1) as [S2 E2]. split; [done|].
  exact (sent_trans [_] _ _ _ _ E1 E2).
Qed.

Lemma setup_spec (e : probe_env) part inverted dev (h : H) : has_gpio part = true ->
  let p := new_port inverted part dev h in
  shows (setup_gpio e p) (bound_pins inverted) /\
  sent_some [latch_request 15 (latched (bound_pins inverted))] p (setup_gpio e p).
Proof.
  intros Hg p. unfold setup_gpio. cbn [p part_num new_port]. rewrite Hg. fold (new_port inverted part dev h). fold p.
  apply (write_spec _ _ (latch_request 15 (latched (bound_pins inverted))) p (with_value 3 p) (bound_pins inverted));
    [done | done | by destruct inverted].
Qed.

(** What a port is told about its device stays. *)
Definition same_part (p p' : port) : Prop := part_num p' = part_num p /\ invert_reset p' = invert_reset p.

Lemma write_part mask value (p : port) : same_part p (hb_rf_usb_2_set_gpio_on_device mask value p).2.
Proof. unfold hb_rf_usb_2_set_gpio_on_device. rewrite call_state. unfold call. by destruct (usb_submit_control _ _). Qed.

Lemma run_ops_part ops (p : port) : same_part p (run_ops ops p).
Proof.
  revert p. induction ops as [|op ops IH]; intros p; [done|].
  destruct (IH (run_op op p).2) as [E1 E2]. unfold same_part.
  change (run_ops (op :: ops) p) with (run_ops ops (run_op op p).2). rewrite E1, E2.
  destruct op; exact (write_part _ _ (with_value _ p)) || exact (write_part _ _ p).
Qed.

Lemma setup_part e (p : port) : same_part p (setup_gpio e p).
Proof. unfold setup_gpio. destruct (has_gpio _); [|done]. exact (write_part _ _ (with_value 3 p)). Qed.

End Pins.
End Cp2102nPins.

(** ** Runs *)

Module PinSamples.
Import SimUsb UsbRxSamples.

(** A new HB-RF-USB: two LEDs on, the radio module held in reset. *)
Definition ftdi_port : HbRfUsb.hb_rf_usb_port_s sim := HbRfUsb.new_port (sample_device 0x0403 0x6f70) (fresh []).
Definition ftdi_pins : pins := Pins [false; true; true] DriveLow.

(** LEDs are changed in the middle of a reset. *)
Definition busy_reset : list pin_op :=
  [PinDrive DriveLow; PinSet 0 1; PinDrive DriveHigh; PinSetMultiple 6 5; PinDrive Float; PinSet 2 0].

Lemma ftdi_pins_well_formed_witness :
  let p := FtdiPins.run_ops busy_reset ftdi_port in
  HbRfUsb.gpio_value p = 1 /\ HbRfUsb.gpio_direction p = 7 /\
  wValue <$> port_requests p = [0x20f6; 0x20f7; 0x20ff; 0x20fd; 0x2075; 0x2071] /\
  sent_some (FtdiPins.bitmode_request <$> history busy_reset ftdi_pins) ftdi_port p.
Proof.
  destruct (FtdiPins.ftdi_pins_well_formed busy_reset ftdi_port ftdi_pins) as ((_ & H1 & H2) & H3 & _);
    [done | repeat constructor; done|].
  split; [done|]. split; [done|]. split; [vm_compute; reflexivity | done].
Defined.

Definition cp2102n_env : HbRfUsb2.probe_env := HbRfUsb2.ProbeEnv [] true true [BulkIn; BulkOut] 500.

End PinSamples.
