(* ===== verification/UsbBind.v ===== *)
(** The USB adapters: probing and pins.

    What the probes do with devices of any kind, how the configuration of a
    device steers copies in kernel memory before its signature is looked at,
    that a probe leaves a port in the state the runs of [UsbSys] start from,
    and that the pins of the devices show what the drivers keep. *)
From S2P Require Import Prelude Kernel Effects Ring RawUart RawUartRx RawUartTx RawUartSys.
From S2P Require Import Usb HbRfUsb HbRfUsb2 UsbRx UsbTx UsbSys.

(** ** The CP2102N configuration *)

Module Cp2102nConfig.
Import HbRfUsb2.

Lemma bytes_entry (l : list Z) i : bytes l -> 0 <= l @@ i <= 255.
Proof.
  intros Hl. rewrite list_lookup_total_alt. destruct (l !! Z.to_nat i) as [x|] eqn:E; cbn.
  - apply (Forall_lookup_1 _ _ _ _ Hl) in E. unfold is_byte in E. lia.
  - done.
Qed.

Section Config.
Context {H : Type} `{!UsbHost H} (overlapping : list Z -> Z -> Z -> Z -> list Z).

(** [b'] differs from [b] at most in [n] bytes from [dst] on. *)
Definition changed_in (dst n : Z) (b b' : list Z) : Prop :=
  zlen b' = zlen b /\ (bytes b -> bytes b') /\
  forall i, 0 <= i -> i < dst \/ dst + n <= i -> b' @@ i = b @@ i.

(** A [memcpy] writes to its destination only, whatever the overlap. *)
Hypothesis overlapping_law : forall b dst src n, 0 <= dst -> 0 <= n -> dst + n <= zlen b ->
  changed_in dst n b (overlapping b dst src n).

Lemma memcpy_inside dst src n b : 0 <= dst -> 0 <= src -> 0 <= n ->
  dst + n <= zlen b -> src + n <= zlen b ->
  exists b', memcpy overlapping dst src n b = Ok b' /\ changed_in dst n b b'.
Proof.
  intros Hd Hs Hn Hdn Hsn. unfold memcpy. rewrite !(proj2 (Z.ltb_ge _ _)) by lia. cbn [orb].
  destruct (_ || _); [|eexists; split; [done|]; by apply overlapping_law].
  eexists. split; [done|]. assert (Hl : zlen (slice b src n) = n) by (apply zlen_slice; lia).
  split; [|split].
  - unfold zlen at 1. rewrite length_splice by lia. done.
  - intros Hb. unfold splice. apply bytes_app. split; [by apply bytes_take|].
    apply bytes_app. split; [by apply bytes_slice | by apply bytes_drop].
  - intros i Hi Ho. rewrite splice_at by lia. rewrite Hl. case_decide; [lia|done].
Qed.

Lemma memcpy_outside dst src n b : zlen b < dst + n \/ zlen b < src + n ->
  memcpy overlapping dst src n b = OutOfBounds.
Proof.
  intros Ho. unfold memcpy. destruct (Z.ltb_spec (zlen b) (dst + n)), (Z.ltb_spec (zlen b) (src + n)); done || lia.
Qed.

(** The limits within which the pieces of the signature stay in the buffer. *)
Definition within_limits (plen : Z) (b : list Z) : Prop :=
  plen <= 163 /\ b @@ 191 + b @@ 45 <= 218 /\ b @@ 191 <= 184 /\
  452 + b @@ 450 + b @@ 192 * 10 <= CP2102N_CONFIG_SIZE /\
  245 + plen * 2 + b @@ 192 * 10 <= CP2102N_CONFIG_SIZE /\
  518 + b @@ 60 <= CP2102N_CONFIG_SIZE /\ b @@ 191 + 257 + b @@ 60 <= CP2102N_CONFIG_SIZE /\
  b @@ 192 + 192 + plen * 2 + 64 <= CP2102N_CONFIG_SIZE.

Lemma first_copy plen b : zlen b = CP2102N_CONFIG_SIZE -> bytes b -> 0 <= plen <= 163 ->
  exists b1, memcpy overlapping (b @@ 191 + 245) (331 + plen * 2) 20 b = Ok b1 /\
    changed_in (b @@ 191 + 245) 20 b b1.
Proof.
  intros Hl Hb Hp. pose proof (bytes_entry b 191 Hb). unfold CP2102N_CONFIG_SIZE in Hl.
  apply memcpy_inside; lia.
Qed.

Lemma assemble_overflow plen b : zlen b = CP2102N_CONFIG_SIZE -> bytes b -> 0 <= plen <= 163 ->
  447 < b @@ 191 + b @@ 45 -> assemble overlapping plen b = OutOfBounds.
Proof.
  intros Hl Hb Hp Ho. destruct (first_copy plen b Hl Hb Hp) as (b1 & E & L1 & _ & C1).
  unfold assemble. rewrite E. cbn [exec_bind]. pose proof (bytes_entry b 191 Hb).
  rewrite memcpy_outside; [done|]. rewrite !C1 by lia. unfold CP2102N_CONFIG_SIZE in Hl. lia.
Qed.

Lemma assemble_inside plen b : zlen b = CP2102N_CONFIG_SIZE -> bytes b -> 0 <= plen ->
  within_limits plen b ->
  exists b', assemble overlapping plen b = Ok b' /\ zlen b' = CP2102N_CONFIG_SIZE /\ b' @@ 192 = b @@ 192.
Proof.
  intros Hl Hb Hp (W1 & W2 & W3 & W4 & W5 & W6 & W7 & W8). unfold CP2102N_CONFIG_SIZE in *.
  pose proof (bytes_entry b 191 Hb). pose proof (bytes_entry b 45 Hb). pose proof (bytes_entry b 60 Hb).
  pose proof (bytes_entry b 192 Hb). pose proof (bytes_entry b 450 Hb).
  destruct (first_copy plen b Hl Hb ltac:(lia)) as (b1 & E1 & L1 & B1 & C1).
  unfold assemble. rewrite E1. cbn [exec_bind]. rewrite !C1 by lia.
  destruct (memcpy_inside (231 + b @@ 191) (62 + b @@ 60) (b @@ 45) b1) as (b2 & E2 & L2 & B2 & C2); [lia..|].
  rewrite E2. cbn [exec_bind]. rewrite !C2, !C1 by lia.
  destruct (memcpy_inside (245 + plen * 2) (452 + b @@ 450) (b @@ 192 * 10) b2) as (b3 & E3 & L3 & B3 & C3); [lia..|].
  rewrite E3. cbn [exec_bind]. rewrite !C3, !C2, !C1 by lia.
  destruct (memcpy_inside (b @@ 191 + 257) 518 (b @@ 60) b3) as (b4 & E4 & L4 & B4 & C4); [lia..|].
  exists b4. split; [done|]. split; [lia|]. by rewrite C4, C3, C2, C1 by lia.
Qed.
End Config.

Section Probe.
Context {H : Type} `{!UsbHost H}.
Variable crc32 : Z -> list Z -> Z.
Variable verify_dkey : list Z -> list Z -> list Z -> Z -> option bool.
Variable raw_probe : hb_rf_usb_2_port_s H -> probe_result (D := hb_rf_usb_2_port_s H).
Variable overlapping : list Z -> Z -> Z -> Z -> list Z.
Hypothesis overlapping_law : forall b dst src n, 0 <= dst -> 0 <= n -> dst + n <= zlen b ->
  changed_in dst n b (overlapping b dst src n).

Abbreviation probe := (hb_rf_usb_2_probe crc32 verify_dkey raw_probe overlapping).

Lemma read_device_spec value n (b b' : list Z) (h h' : H) : 0 <= n <= zlen b -> bytes b ->
  read_device value n (b, h) = (b', h') -> zlen b' = zlen b /\ bytes b'.
Proof.
  intros Hn Hb. unfold read_device. set (r := Request _ _ _ _ _).
  destruct (control_in_law r n h) as [L1 L2]; [lia|]. destruct (usb_control_in r n h) as [d h1].
  cbn [fst] in *. intros [= <- <-]. split.
  - unfold zlen at 1. rewrite length_splice by lia. done.
  - unfold splice. apply bytes_app. split; [by apply bytes_take|]. apply bytes_app.
    split; [done | by apply bytes_drop].
Qed.

(** The configuration [b] of a matching device with pins whose signature is to
    be checked, and the host [h'] after it was read. *)
Record configured (e : probe_env) (dev : usb_device) (info : hb_usb_device_info) (text : list Z) (h : H)
    (part : Z) (b : list Z) (h' : H) : Prop := {
  cf_match : usb_match_id dev usbid = Some info;
  cf_vendor : wrong_vendor crc32 dev info = Ok false;
  cf_key : pkey info @@ 0 <> 0;
  cf_product : product dev = Some text;
  cf_buffer : buffer_ok e = true;
  cf_stale : zlen (stale e) = CP2102N_CONFIG_SIZE /\ bytes (stale e);
  cf_part : part = (read_device CP2102N_GET_CHIPTYPE 1 (stale e, h)).1 @@ 0;
  cf_gpio : has_gpio part = true;
  cf_read : read_device CP2102N_READ_CONFIG CP2102N_CONFIG_SIZE
    (read_device CP2102N_GET_CHIPTYPE 1 (stale e, h)) = (b, h')
}.

Lemma configured_spec e dev info text h part b h' : configured e dev info text h part b h' ->
  zlen b = CP2102N_CONFIG_SIZE /\ bytes b /\
  probe e dev h = let? verified := check_signature verify_dkey overlapping dev info b in
    if negb verified && (negb (part =? 0x22) || enforce_verification info)
    then Ok (Probed_ (Refused (- ENODEV)) 1 0)
    else Ok (bind_port raw_probe e (reset_inverted part b) part dev h').
Proof.
  intros [C1 C2 C3 C4 C5 [C6 C6'] C7 C8 C9].
  destruct (read_device CP2102N_GET_CHIPTYPE 1 (stale e, h)) as [b1 h1] eqn:E1.
  destruct (read_device_spec CP2102N_GET_CHIPTYPE 1 _ _ _ _ ltac:(rewrite C6; done) C6' E1) as [L1 B1].
  destruct (read_device_spec CP2102N_READ_CONFIG CP2102N_CONFIG_SIZE _ _ _ _ ltac:(rewrite L1, C6; done) B1 C9) as [L2 B2].
  split; [congruence|]. split; [done|]. unfold hb_rf_usb_2_probe. rewrite C1, C2, C5. cbn [exec_bind negb].
  cbn [fst] in C7. subst part. rewrite E1. cbn [fst]. rewrite C8, C9. apply Z.eqb_neq in C3. by rewrite C3.
Qed.

(** C28 (safety). Where the pieces of the signature of an HB-RF-USB-2 lie is
    read from the device itself.  A device whose configuration gives a large
    offset and a large length makes the probe write behind its buffer, before
    any signature is looked at.  Within the limits nothing leaves the buffer,
    and the probe binds the device exactly when the marker is there and the
    signature is good, or when the part is not required to have one. *)
Theorem cp2102n_config_trusted e dev info text h part b h' : configured e dev info text h part b h' ->
  (zlen text <= 163 -> 447 < b @@ 191 + b @@ 45 -> probe e dev h = OutOfBounds) /\
  (within_limits (zlen text) b -> forall sn, serial dev = Some sn ->
   exists b', assemble overlapping (zlen text) b = Ok b' /\ zlen b' = CP2102N_CONFIG_SIZE /\
     let sig := slice b' (b' @@ 192 + 192 + zlen text * 2) 64 in
     zlen sig = 64 /\
     forall good, verify_dkey sn sig (pkey info) 32 = Some good ->
     probe e dev h = Ok (
       if negb ((b' @@ 449 =? 0xff) && good) && (negb (part =? 0x22) || enforce_verification info)
       then Probed_ (Refused (- ENODEV)) 1 0
       else bind_port raw_probe e (reset_inverted part b) part dev h')).
Proof.
  intros C. destruct (configured_spec _ _ _ _ _ _ _ _ C) as (Hl & Hb & ->).
  pose proof (cf_product _ _ _ _ _ _ _ _ C) as Ht. pose proof (zlen_nonneg text) as Hp.
  unfold check_signature. rewrite Ht. cbn [string_of exec_bind]. split.
  - intros H1 H2. by rewrite (assemble_overflow overlapping overlapping_law (zlen text) b Hl Hb (conj Hp H1) H2).
  - intros W sn Hs. pose proof W as (_ & _ & _ & _ & _ & _ & _ & W8).
    destruct (assemble_inside overlapping overlapping_law (zlen text) b Hl Hb Hp W) as (b' & E & L' & V').
    exists b'. split; [done|]. split; [done|]. rewrite E. cbn [exec_bind]. cbv zeta.
    pose proof (bytes_entry b 192 Hb). rewrite V'. split; [apply zlen_slice; lia|]. intros good Hg.
    destruct (b' @@ 449 =? 0xff); cbn [negb andb]; [|by destruct (_ || _)].
    rewrite Hs. cbn [string_of exec_bind]. rewrite (proj2 (Z.ltb_ge _ _)), Hg by lia.
    cbn [exec_bind]. by destruct (negb good && _).
Qed.
End Probe.
End Cp2102nConfig.

(** ** HB-RF-USB *)

Module FtdiProbe.
Import HbRfUsb.

Section Probe.
Context {H : Type} `{!UsbHost H}.
Variable crc32 : Z -> list Z -> Z.
Variable verify_dkey : list Z -> list Z -> list Z -> Z -> option bool.
Variable raw_probe : hb_rf_usb_port_s H -> probe_result (D := hb_rf_usb_port_s H).

Abbreviation probe := (hb_rf_usb_probe crc32 verify_dkey raw_probe).

(** The buffer keeps its 38 bytes. *)
Definition kept (x : exec (list Z * H)) : Prop := exists s, x = Ok s /\ zlen s.1 = 38.

Lemma kept_bind x (f : list Z * H -> exec (list Z * H)) :
  kept x -> (forall s, zlen s.1 = 38 -> kept (f s)) -> kept (exec_bind x f).
Proof. intros (s & -> & Hs) Hf. by apply Hf. Qed.

Lemma read_eeprom_kept index off s : 0 <= off <= 36 -> zlen s.1 = 38 -> kept (read_eeprom index off s).
Proof.
  destruct s as [b h]. cbn [fst]. intros Ho Hb. unfold read_eeprom. rewrite (proj2 (Z.ltb_ge _ _)) by lia.
  set (r := Request _ _ _ _ _). destruct (control_in_law r 2 h ltac:(lia)) as [L _].
  destruct (usb_control_in r 2 h) as [d h']. cbn [fst] in L. eexists. split; [done|]. cbn [fst].
  unfold zlen at 1. rewrite length_splice by lia. done.
Qed.

Lemma for_each_kept vals body s : zlen s.1 = 38 ->
  (forall i s, i ∈ vals -> zlen s.1 = 38 -> kept (body i s)) -> kept (for_each vals body s).
Proof.
  revert s. induction vals as [|i vals IH]; intros s Hs Hb; [by exists s|].
  apply kept_bind; [apply Hb; [by left | done]|]. intros s' Hs'. apply IH; [done|].
  intros j s'' Hj. apply Hb. by right.
Qed.

Lemma read_signature_kept b h : zlen b = 38 -> kept (read_signature b h).
Proof.
  intros Hb. unfold read_signature. repeat lazymatch goal with
  | |- kept (exec_bind _ _) => apply kept_bind; [|intros]
  | |- kept (read_eeprom _ _ _) => apply read_eeprom_kept; [lia | done]
  | |- kept (for_each _ _ _) => apply for_each_kept; [done|];
    intros i ? Hi ?; rewrite !elem_of_cons, elem_of_nil in Hi
  end.
Qed.

(** The port that is bound, from the state [h] of the host on. *)
Definition bind_port (e : probe_env) (dev : usb_device) (h : H) : probed (hb_rf_usb_port_s H) :=
  let p := (hb_rf_usb_set_gpio_on_device (new_port dev h)).2 in
  let p := Port_ (plink p) (gpio_value p) (gpio_direction p) (gpio_base e) (udev p) in
  Probed_ (match raw_probe p with
           | Probed n u => Ready n (with_drv (hb_rf_usb_init_uart (endpoints e) (drv u)).2 u)
           | ProbeErr err => Broken err (hb_rf_usb_init_uart (endpoints e) p).2
           end) 1 0.

(** How the probe of an HB-RF-USB ends, for any device, any
    contents of its EEPROM and any key check that ends: the refusals and
    crashes below and no others, before anything is allocated for good; and a
    device that gets past them is bound whatever its signature, because no
    entry of the driver's table enforces it.  Reading the EEPROM never leaves
    the buffer.  A refusal does not give the reference to the device back. *)
Theorem ftdi_probe_outcome e dev h : zlen (stale e) = 38 ->
  (forall skey dkey pkey n, verify_dkey skey dkey pkey n <> None) ->
  let refused err := Ok (Probed_ (Refused err) 1 0) in
  if negb ((idVendor dev =? 0x0403) && (idProduct dev =? 0x6f70)) then probe e dev h = refused ENODEV
  else if negb (bcdDevice dev =? 0x0600) then probe e dev h = Ok (Probed_ WildFree 1 0)
  else match manufacturer dev with
  | None => probe e dev h = NullDeref
  | Some m =>
    if negb (Z.lxor (crc32 0xffffffff m) 0xffffffff =? 0x60d01cf9) then probe e dev h = refused (- ENODEV)
    else if negb (buffer_ok e) then probe e dev h = refused (- ENOMEM)
    else if negb (port_ok e) then probe e dev h = NullDeref
    else exists h', probe e dev h = Ok (bind_port e dev h')
  end.
Proof.
  intros Hs Hv refused. unfold hb_rf_usb_probe. destruct (usb_match_id dev usbid) as [info|] eqn:E;
    cbn [usbid usb_match_id id_vendor id_product HB_USB_DEVICE] in E;
    rewrite (Z.eqb_sym 0x0403), (Z.eqb_sym 0x6f70) in E; destruct (_ && _); try done; cbn [negb].
  injection E as E. assert (vendorhash info = 0x60d01cf9 /\ enforce_verification info = false /\ pkey info @@ 0 <> 0)
    as (E1 & E2 & E3%Z.eqb_neq) by (by subst). clear E.
  destruct (bcdDevice dev =? 0x600); cbn [negb]; [|done]. unfold check_device, wrong_vendor. rewrite E1.
  change (0x60d01cf9 =? 0) with false. cbv iota.
  destruct (manufacturer dev) as [m|]; [|done]. cbn [string_of exec_bind].
  rewrite (Z.eqb_sym 0x60d01cf9). destruct (_ =? 0x60d01cf9); cbn [negb]; [|done].
  rewrite E2, E3. destruct (buffer_ok e); cbn [negb]; [|done].
  destruct (read_signature_kept (stale e) h Hs) as ([b h1] & -> & _). cbn [exec_bind].
  match goal with |- context [verify_dkey ?a ?b ?c ?d] => specialize (Hv a b c d); destruct (verify_dkey a b c d) as [v|] end;
    [|done].
  destruct v; (destruct (port_ok e); cbn [negb exec_bind]; [|done]); exists h1; unfold bind_port; by destruct (raw_probe _).
Qed.
End Probe.
End FtdiProbe.

(** ** From the probe to the runs

    With the probe of the generic driver as it is, a device that is bound is in
    the state from which the runs of [UsbSys] start. *)
Module Bound.
#[export] Existing Instances HbRfUsb.hb_rf_usb_port HbRfUsb2.hb_rf_usb_2_port.

Section Generic.
Context {P H : Type} `{!UsbHost H} `{!Port P H} `{CB : CircBuf} {DR : RawUartDriver P} {UD : UsbDriver P H DR}.
Context (gpio_reset gpio_led : Z -> Z).

Lemma quiet_probed {A} (m : M P A) u : quiet m -> probed_uart u -> probed_uart (with_drv (m (drv u)).2 u).
Proof.
  intros Hm [U1 U2 U3 U4 U5]. destruct (Hm (drv u)) as [_ [R1 R2]].
  split; cbn [with_drv conns inst drv]; try done; by rewrite ?R1, ?R2.
Qed.

Lemma generic_probe_probed rtc oom ce de intr refs d g n u :
  kref (link_of d) = 1 -> deleted (link_of d) = false ->
  (generic_raw_uart_probe gpio_reset gpio_led rtc oom ce de intr refs d g).1 = Probed n u -> probed_uart u.
Proof.
  intros Hk Hd. unfold generic_raw_uart_probe. destruct (generic_raw_uart_probe_rtc_device rtc) as [err alt].
  destruct (negb _); [done|]. destruct (take_slot _ _) as [[dev_no|] active]; [|done].
  destruct oom; [done|]. destruct (negb _); [done|]. destruct (negb _); [done|].
  set (i := set_led_pins _ _ _ _). set (u0 := Uart i ∅ d refs).
  assert (open_count i = 0 /\ tx_connection i = None) as [I1 I2] by (unfold i; by destruct reset_radio_module).
  pose proof (reset_life intr 0 u0) as (R & O & _).
  assert (forall r a u', generic_raw_uart_reset_radio_module intr 0 u0 = (r, a, u') ->
    conns u' = ∅ /\ tx_connection (inst u') = None) as K.
  { intros r a u'. unfold generic_raw_uart_reset_radio_module. repeat case_match; intros; by simplify_eq. }
  destruct (generic_raw_uart_reset_radio_module _ _ _) as [[r a] u'] eqn:E. destruct (K _ _ _ eq_refl) as [K1 K2].
  cbn [fst snd] in *. intros [= <- <-]. destruct R as [R1 R2].
  split; cbn [on_inst conns inst drv set_connection_state]; try done.
  - by rewrite <- I1.
  - rewrite R1. done.
  - by rewrite R2.
Qed.
End Generic.

Section Adapters.
Context {H : Type} `{!UsbHost H} `{CB : CircBuf}.
Context (gpio_reset gpio_led : Z -> Z) (crc32 : Z -> list Z -> Z).
Context (verify_dkey : list Z -> list Z -> list Z -> Z -> option bool).
Context (overlapping : list Z -> Z -> Z -> Z -> list Z).

Lemma hb_rf_usb_ready rtc oom ce de intr refs g e dev (h : H) n u r b :
  let raw p := (generic_raw_uart_probe (DR := HbRfUsb.hb_rf_usb) gpio_reset gpio_led rtc oom ce de intr refs p g).1 in
  HbRfUsb.hb_rf_usb_probe crc32 verify_dkey raw e dev h = Ok (Probed_ (Ready n u) r b) -> probed_uart u.
Proof.
  intros raw. unfold HbRfUsb.hb_rf_usb_probe. destruct (usb_match_id _ _) as [info|]; [|done].
  destruct (negb _); [done|]. intros ([early h1] & _ & E)%exec_bind_ok. destruct early; [done|].
  destruct (negb _); [done|]. set (p := HbRfUsb.Port_ _ _ _ _ _) in E. destruct (raw p) as [|n' u'] eqn:Er; [done|].
  injection E as <- <- _ _. apply quiet_probed; [quiet|].
  assert (quiet (HbRfUsb.hb_rf_usb_set_gpio_on_device (H := H))) as Q by quiet.
  destruct (Q (HbRfUsb.new_port dev h1)) as [_ [R1 R2]].
  assert (kref (link_of p) = 1) as K1 by (by transitivity (kref (link_of (HbRfUsb.new_port dev h1)))).
  assert (deleted (link_of p) = false) as K2 by (by transitivity (deleted (link_of (HbRfUsb.new_port dev h1)))).
  exact (generic_probe_probed gpio_reset gpio_led rtc oom ce de intr refs p g n' u' K1 K2 Er).
Qed.

Lemma hb_rf_usb_2_ready rtc oom ce de intr refs g e dev (h : H) n u r b :
  let raw p := (generic_raw_uart_probe (DR := HbRfUsb2.hb_rf_usb_2) gpio_reset gpio_led rtc oom ce de intr refs p g).1 in
  HbRfUsb2.hb_rf_usb_2_probe crc32 verify_dkey raw overlapping e dev h = Ok (Probed_ (Ready n u) r b) -> probed_uart u.
Proof.
  intros raw.
  assert (forall inv part h', HbRfUsb2.bind_port raw e inv part dev h' = Probed_ (Ready n u) r b -> probed_uart u) as B.
  { intros inv part h'. unfold HbRfUsb2.bind_port. destruct (negb _); [done|].
    set (p := HbRfUsb2.setup_gpio _ _). destruct (raw p) as [|n' u'] eqn:Er; [done|].
    intros E. injection E as <- <- _ _. apply quiet_probed; [quiet|].
    assert (kref (link_of p) = 1 /\ deleted (link_of p) = false) as [R1 R2].
    { unfold p, HbRfUsb2.setup_gpio. destruct (HbRfUsb2.has_gpio _); [|done].
      set (mask := Z.lor HbRfUsb2.LED_GPIO_MASK _). set (v := Z.lor (Z.shiftl _ 1) _).
      set (q := HbRfUsb2.with_value 3 _).
      assert (quiet (HbRfUsb2.hb_rf_usb_2_set_gpio_on_device (H := H) mask v)) as Q by quiet.
      destruct (Q q) as [_ [R1 R2]]. done. }
    exact (generic_probe_probed gpio_reset gpio_led rtc oom ce de intr refs p g n' u' R1 R2 Er). }
  unfold HbRfUsb2.hb_rf_usb_2_probe. destruct (usb_match_id _ _) as [info|]; [|done].
  intros (w & _ & E)%exec_bind_ok. destruct w; [done|]. destruct (negb _); [done|].
  destruct (HbRfUsb2.read_device _ _ _) as [buf h1]. destruct (HbRfUsb2.has_gpio _).
  - destruct (HbRfUsb2.read_device _ _ _) as [buf' h2]. destruct (negb _); [|injection E as E; by eapply B].
    apply exec_bind_ok in E as (v & _ & E). destruct (_ && _); [done|]. injection E as E. by eapply B.
  - destruct (negb _); [done|]. injection E as E. by eapply B.
Qed.
End Adapters.
End Bound.

(** ** The theorems on concrete devices *)

Module BindSamples.
Import SimUsb UsbRxSamples.

(** A copy from the lowest byte up, and one that goes wrong in the probe of
    the generic driver. *)
Definition copied (b : list Z) (dst src n : Z) : list Z := splice b dst (slice b src n).

Lemma copied_law b dst src n : 0 <= dst -> 0 <= n -> dst + n <= zlen b ->
  Cp2102nConfig.changed_in dst n b (copied b dst src n).
Proof.
  intros Hd Hn Hb. unfold copied. assert (Hl : zlen (slice b src n) <= n)
    by (unfold zlen, slice; rewrite length_take; lia).
  split; [|split].
  - unfold zlen at 1. rewrite length_splice by lia. done.
  - intros B. unfold splice. apply bytes_app. split; [by apply bytes_take|].
    apply bytes_app. split; [by apply bytes_slice | by apply bytes_drop].
  - intros i Hi Ho. rewrite splice_at by lia. case_decide; [lia|done].
Qed.

Definition no_memory {P} (p : P) : probe_result (D := P) := ProbeErr (- ENOMEM).

(** A configuration that gives [off] and [len]. *)
Definition config (off len : Z) : list Z :=
  <[45%nat := len]> (<[191%nat := off]> (replicate 678 0)).

Definition cp2102n_probe_env : HbRfUsb2.probe_env :=
  HbRfUsb2.ProbeEnv (replicate 678 0) true true [BulkIn; BulkOut] 500.

Abbreviation tk_probe cfg := (HbRfUsb2.hb_rf_usb_2_probe (fun _ _ => 0) (fun _ _ _ _ => Some true) no_memory copied
  cp2102n_probe_env (sample_device 0x10c4 0x8d81) (fresh [[0x20]; cfg])).

Definition tk_info : hb_usb_device_info :=
  default (DeviceInfo 0 false []) (usb_match_id (sample_device 0x10c4 0x8d81) HbRfUsb2.usbid).

Lemma tk_configured cfg : cfg = config 255 255 \/ cfg = config 0 0 ->
  Cp2102nConfig.configured (fun _ _ => 0) cp2102n_probe_env (sample_device 0x10c4 0x8d81) tk_info [72; 66]
    (fresh [[0x20]; cfg]) 0x20 cfg (fresh []).
Proof.
  intros Hc. split; try reflexivity; try discriminate.
  - split; [done|]. by apply Forall_replicate.
  - by destruct Hc as [-> | ->]; vm_compute.
Qed.

(** Offset and length as large as they can be; and an empty configuration. *)
Lemma cp2102n_config_trusted_witness :
  tk_probe (config 255 255) = OutOfBounds /\
  tk_probe (config 0 0) = Ok (Probed_ (Refused (- ENODEV)) 1 0).
Proof.
  pose proof (tk_configured (config 255 255) (or_introl eq_refl)) as C1.
  pose proof (tk_configured (config 0 0) (or_intror eq_refl)) as C2. split.
  - refine (proj1 (Cp2102nConfig.cp2102n_config_trusted _ (fun _ _ _ _ => Some true) no_memory copied copied_law
      _ _ _ _ _ _ _ _ C1) _ _); [done | by vm_compute].
  - destruct (proj2 (Cp2102nConfig.cp2102n_config_trusted _ (fun _ _ _ _ => Some true) no_memory copied copied_law
      _ _ _ _ _ _ _ _ C2)) with (sn := [49; 50]) as (b' & Eb & _ & _ & E); [|done|].
    + by split_and!; vm_compute.
    + rewrite (E true eq_refl). revert Eb. vm_compute. by intros [= <-].
Defined.

Definition ftdi_probe_env : HbRfUsb.probe_env :=
  HbRfUsb.ProbeEnv (replicate 38 0) true true [BulkIn; BulkOut] 500.

Lemma ftdi_probe_outcome_witness : exists r,
  HbRfUsb.hb_rf_usb_probe (fun _ _ => 0x9f2fe306) (fun _ _ _ _ => Some false) no_memory ftdi_probe_env
    (sample_device 0x0403 0x6f70) (fresh []) = Ok r /\ r = Probed_ (probe_ends r) 1 0.
Proof.
  pose proof (FtdiProbe.ftdi_probe_outcome (fun _ _ => 0x9f2fe306) (fun _ _ _ _ => Some false) no_memory ftdi_probe_env
    (sample_device 0x0403 0x6f70) (fresh []) eq_refl ltac:(done)) as E.
  destruct E as [h' E]. eexists. split; [exact E | done].
Defined.
End BindSamples.
