(* ===== verification/DetectFrame.v ===== *)
(** Frames of the radio module protocol, as the detection tool writes them
    (src/detect_radio_module/hmframe.cpp): the class [HMFrame], that it speaks
    the format of the kernel modules ([HmFrame]), and its escaping in place. *)
From S2P Require Import Prelude Kernel HmFrame.

Module HMFrame.

(** The class; [data] is what follows the pointer. *)
Record t := Frame { counter : Z; destination : Z; command : Z; data : list Z; data_len : Z }.

(** One round of the inner loop, on a [uint16_t]. *)
Definition crc_round (crc : Z) : Z :=
  if has crc 0x8000 then u16 (Z.lxor (u16 (Z.shiftl crc 1)) 0x8005) else u16 (Z.shiftl crc 1).

(** One round of the outer loop. *)
Definition crc_add (crc b : Z) : Z := Nat.iter 8 crc_round (u16 (Z.lxor crc (Z.shiftl b 8))).

Definition crc (buffer : list Z) (len : Z) : Z := fold_left crc_add (slice buffer 0 len) 0xd77f.

Definition TryParse (buffer : list Z) (len : Z) : option t :=
  if len <? 8 then None else
  if negb (buffer @@ 0 =? 0xfd) then None else
  let data_len := u16 (Z.lor (Z.shiftl (buffer @@ 1) 8) (buffer @@ 2) - 3) in
  if negb (data_len + 8 =? len) then None else
  let c := u16 (Z.lor (Z.shiftl (buffer @@ (len - 2)) 8) (buffer @@ (len - 1))) in
  if negb (c =? crc buffer (len - 2)) then None else
  Some (Frame (buffer @@ 4) (buffer @@ 3) (buffer @@ 5) (drop 6 buffer) data_len).

(** The escaping loop: [i] and [res] are [uint16_t]; the bytes from [i] on are
    moved up by one to make room for an escape byte. *)
Fixpoint escape_loop (fuel : nat) (i res : Z) (buffer : list Z) : exec (Z * list Z) :=
  match fuel with
  | O => NoFuel
  | S fuel =>
    if negb (i <? res) then Ok (res, buffer) else
    if (buffer @@ i =? 0xfc) || (buffer @@ i =? 0xfd) then
      if zlen buffer <? res + 1 then OutOfBounds else
      let buffer := splice buffer (i + 1) (slice buffer i (res - i)) in
      let buffer := put buffer i 0xfc in
      let i := u16 (i + 1) in
      let buffer := put buffer i (Z.land (buffer @@ i) 0x7f) in
      escape_loop fuel (u16 (i + 1)) (u16 (res + 1)) buffer
    else escape_loop fuel (u16 (i + 1)) res buffer
  end.

(** [buffer] is the array, [len] its announced length. *)
Definition encode (f : t) (buffer : list Z) (len : Z) (escaped : bool) : exec (Z * list Z) :=
  if len <? data_len f + 8 then Ok (0, buffer) else
  let buffer := put buffer 0 0xfd in
  let buffer := put buffer 1 (Z.land (Z.shiftr (data_len f + 3) 8) 0xff) in
  let buffer := put buffer 2 (Z.land (data_len f + 3) 0xff) in
  let buffer := put buffer 3 (destination f) in
  let buffer := put buffer 4 (counter f) in
  let buffer := put buffer 5 (command f) in
  let buffer := if 0 <? data_len f then splice buffer 6 (slice (data f) 0 (data_len f)) else buffer in
  let c := crc buffer (data_len f + 6) in
  let buffer := put buffer (data_len f + 6) (Z.land (Z.shiftr c 8) 0xff) in
  let buffer := put buffer (data_len f + 7) (Z.land c 0xff) in
  let res := u16 (data_len f + 8) in
  if escaped then escape_loop (S (Z.to_nat res)) 1 res buffer else Ok (res, buffer).
End HMFrame.

(** ** The same format as in the kernel

    The kernel counts the command byte to the data. *)
Definition to_kernel (f : HMFrame.t) : hm_frame :=
  HmFrame (HMFrame.destination f) (HMFrame.counter f) (HMFrame.command f :: HMFrame.data f)
    (HMFrame.data_len f + 1).

(** A frame that can be sent. *)
Record tool_frame_ok (f : HMFrame.t) : Prop := {
  tf_len : 0 <= HMFrame.data_len f <= zlen (HMFrame.data f);
  tf_max : HMFrame.data_len f + 3 < 2 ^ 16;
  tf_counter : is_byte (HMFrame.counter f);
  tf_destination : is_byte (HMFrame.destination f);
  tf_command : is_byte (HMFrame.command f);
  tf_data : bytes (HMFrame.data f)
}.

Lemma to_kernel_ok f : tool_frame_ok f -> frame_ok (to_kernel f).
Proof.
  intros []. split; cbn [to_kernel dst cnt cmd cmdlen]; rewrite ?zlen_cons; try lia; try done.
  by apply bytes_cons.
Qed.

Lemma crc_round_bit c : HMFrame.crc_round c = crc_bit c.
Proof.
  unfold HMFrame.crc_round, crc_bit, has. destruct (negb _); [|done]. apply u16_small.
  apply lxor_range; [lia | apply u16_range | lia].
Qed.

Lemma tool_crc buffer len : HMFrame.crc buffer len = hm_crc buffer len.
Proof.
  assert (forall c b, HMFrame.crc_add c b = crc_byte c b) as E.
  { intros c b. unfold HMFrame.crc_add, crc_byte. generalize (u16 (Z.lxor c (Z.shiftl b 8))).
    generalize 8%nat. intros n x. induction n as [|n IH]; [done|]. cbn [Nat.iter nat_rect]. unfold Nat.iter in *.
    cbn. by rewrite IH, crc_round_bit. }
  unfold HMFrame.crc, hm_crc. generalize (slice buffer 0 len), 0xd77f. intros l.
  induction l as [|b l IH]; intros c; cbn [fold_left]; [reflexivity|]. rewrite E. apply IH.
Qed.

(** What goes on the wire. *)
Definition tool_bytes (f : HMFrame.t) : list Z := frame_bytes (to_kernel f).

Lemma zlen_tool_bytes f : tool_frame_ok f -> zlen (tool_bytes f) = HMFrame.data_len f + 8.
Proof.
  intros []. unfold tool_bytes. rewrite zlen_frame_bytes; cbn [to_kernel cmdlen cmd]; rewrite ?zlen_cons; lia.
Qed.

(** Both parsers accept the same buffers and find the same frame. *)
Lemma tool_parses_like_kernel buffer len : bytes (take (Z.to_nat len) buffer) -> len <= zlen buffer ->
  len < 2 ^ 16 -> to_kernel <$> HMFrame.TryParse buffer len = tryParseFrame buffer len.
Proof.
  intros Hb Hl Hs. unfold HMFrame.TryParse, tryParseFrame. fold (be16 (buffer @@ 1) (buffer @@ 2)).
  fold (be16 (buffer @@ (len - 2)) (buffer @@ (len - 1))). rewrite tool_crc.
  destruct (Z.ltb_spec len 8); [done|]. destruct (negb (buffer @@ 0 =? 0xfd)); [done|].
  destruct (byte_at buffer len 1 Hb Hl ltac:(lia)) as [B1 _], (byte_at buffer len 2 Hb Hl ltac:(lia)) as [B2 _].
  rewrite be16_val by done. set (n := buffer @@ 1 * 256 + buffer @@ 2).
  assert (0 <= n < 2 ^ 16) as Hn by (unfold is_byte in *; lia).
  rewrite u64_small by lia.
  destruct (Z.le_gt_cases 3 n).
  - rewrite u16_small by lia. replace (n - 3 + 8) with (n - 2 + 7) by lia.
    destruct (negb (_ =? len)); [done|]. destruct (negb _); [done|].
    cbn [fmap option_fmap option_map]. unfold to_kernel. cbn [HMFrame.counter HMFrame.destination HMFrame.command HMFrame.data HMFrame.data_len].
    f_equal. f_equal; [|lia].
    destruct (drop 5 buffer) as [|b l] eqn:E; [apply (f_equal length) in E; rewrite length_drop in E; simpl in E; unfold zlen in Hl; lia|].
    rewrite <- (Nat.add_1_r 5), <- drop_drop, E. f_equal.
    rewrite <- (Nat.add_0_r (Z.to_nat 5)). change (Z.to_nat 5) with 5%nat. by rewrite <- lookup_total_drop, E.
  - unfold u16. rewrite <- (Z.mod_unique (n - 3) (2 ^ 16) (-1) (n - 3 + 2 ^ 16)) by lia.
    destruct (Z.eqb_spec (n - 3 + 2 ^ 16 + 8) len); [lia|]. destruct (Z.eqb_spec (n - 2 + 7) len); [lia|done].
Qed.

(** ** Escaping in place *)

Definition special (b : Z) : bool := (b =? 0xfc) || (b =? 0xfd).

(** Every byte that would be mistaken for a mark is announced and changed. *)
Fixpoint escape_all (l : list Z) : list Z :=
  match l with
  | [] => []
  | b :: l => (if special b then [0xfc; Z.land b 0x7f] else [b]) ++ escape_all l
  end.

Lemma escape_all_app l1 l2 : escape_all (l1 ++ l2) = escape_all l1 ++ escape_all l2.
Proof. induction l1 as [|b l1 IH]; [done|]. cbn [escape_all app]. by rewrite IH, app_assoc. Qed.

Definition specials (l : list Z) : Z := zlen (filter (fun b => special b = true) l).

Lemma zlen_escape_all l : zlen (escape_all l) = zlen l + specials l.
Proof.
  unfold specials. induction l as [|b l IH]; [done|]. cbn [escape_all]. rewrite filter_cons, zlen_app, IH.
  destruct (special b); [rewrite decide_True by done | rewrite decide_False by done]; rewrite !zlen_cons;
    unfold zlen; simpl; lia.
Qed.

Lemma specials_bounds l : 0 <= specials l <= zlen l.
Proof. unfold specials, zlen. pose proof (length_filter (fun b => special b = true) l). lia. Qed.

Lemma total_middle (l1 : list Z) b l2 i : i = zlen l1 -> (l1 ++ b :: l2) @@ i = b.
Proof. intros ->. unfold zlen. rewrite Nat2Z.id. by apply list_lookup_total_middle. Qed.

Lemma put_middle (l1 : list Z) b l2 i v : i = zlen l1 -> put (l1 ++ b :: l2) i v = l1 ++ v :: l2.
Proof. intros ->. unfold put, zlen. rewrite Nat2Z.id. by rewrite insert_app_r_alt, Nat.sub_diag by lia. Qed.

Ltac zlens := repeat first [rewrite zlen_cons | rewrite zlen_nil | rewrite zlen_app].

(** Making room: the bytes of [todo] move up by one. *)
Lemma move_up (l1 todo rest : list Z) r :
  splice (l1 ++ todo ++ r :: rest) (zlen l1 + 1) todo = l1 ++ hd r todo :: todo ++ rest.
Proof.
  unfold splice, zlen. replace (Z.to_nat (Z.of_nat (length l1) + 1)) with (S (length l1)) by lia.
  destruct todo as [|b todo].
  - cbn [app hd length]. rewrite Nat.add_0_r.
    rewrite (take_app_ge _ _ (S _)), (drop_app_ge _ _ (S _)) by lia.
    replace (S (length l1) - length l1)%nat with 1%nat by lia. cbn. by rewrite <- app_assoc.
  - rewrite take_app_ge by lia. replace (S (length l1) - length l1)%nat with 1%nat by lia.
    rewrite drop_app_ge by lia. replace (S (length l1) + length (b :: todo) - length l1)%nat with (S (length (b :: todo))) by lia.
    rewrite drop_app_ge by lia. replace (S (length (b :: todo)) - length (b :: todo))%nat with 1%nat by lia.
    cbn. by rewrite <- !app_assoc.
Qed.

Lemma escape_loop_ok fuel : forall todo l1 rest, (length todo < fuel)%nat ->
  zlen (l1 ++ todo ++ rest) < 2 ^ 16 ->
  HMFrame.escape_loop fuel (zlen l1) (zlen l1 + zlen todo) (l1 ++ todo ++ rest) =
    if zlen rest <? specials todo then OutOfBounds
    else Ok (zlen l1 + zlen (escape_all todo), l1 ++ escape_all todo ++ drop (Z.to_nat (specials todo)) rest).
Proof.
  induction fuel as [|fuel IH]; intros todo l1 rest Hf Hs; [lia|].
  cbn [HMFrame.escape_loop]. rewrite !zlen_app in Hs. pose proof (zlen_nonneg rest). pose proof (zlen_nonneg l1).
  destruct todo as [|b todo].
  { rewrite zlen_nil, Z.add_0_r, Z.ltb_irrefl. change (specials []) with 0.
    destruct (Z.ltb_spec (zlen rest) 0); [lia|]. cbn. by rewrite Z.add_0_r. }
  pose proof (zlen_nonneg todo) as Ht. rewrite zlen_cons in *. cbn [length] in Hf.
  destruct (Z.ltb_spec (zlen l1) (zlen l1 + (zlen todo + 1))); [|lia]. cbn [negb].
  rewrite <- app_comm_cons, total_middle by done. fold (special b). unfold specials. rewrite filter_cons. fold (specials todo).
  destruct (special b) eqn:Eb.
  - rewrite decide_True by done. rewrite zlen_cons. fold (specials todo).
    destruct rest as [|r rest].
    { rewrite app_nil_r. zlens.
      destruct (Z.ltb_spec (zlen l1 + (zlen todo + 1)) (zlen l1 + (zlen todo + 1) + 1)); [|lia].
      pose proof (specials_bounds todo). destruct (Z.ltb_spec 0 (specials todo + 1)); [done|lia]. }
    rewrite zlen_cons in *. pose proof (zlen_nonneg rest). zlens.
    destruct (Z.ltb_spec (zlen l1 + (zlen todo + (zlen rest + 1) + 1)) (zlen l1 + (zlen todo + 1) + 1)); [lia|].
    assert (Hsl : slice (l1 ++ b :: todo ++ r :: rest) (zlen l1) (zlen l1 + (zlen todo + 1) - zlen l1) = b :: todo).
    { unfold slice, zlen. rewrite Nat2Z.id, drop_app_length.
      replace (Z.to_nat _) with (length (b :: todo)) by (simpl; lia). apply (take_app_length (b :: todo)). }
    rewrite Hsl. change (l1 ++ b :: todo ++ r :: rest) with (l1 ++ (b :: todo) ++ r :: rest). rewrite move_up. cbn [hd]. rewrite put_middle by done. rewrite (u16_small (zlen l1 + 1)) by lia.
    change (l1 ++ 0xfc :: (b :: todo) ++ rest) with (l1 ++ [0xfc] ++ b :: todo ++ rest).
    rewrite app_assoc. assert (L : zlen (l1 ++ [0xfc]) = zlen l1 + 1) by (by rewrite zlen_app).
    rewrite total_middle, put_middle by done. rewrite !u16_small by lia.
    change ((l1 ++ [0xfc]) ++ Z.land b 0x7f :: todo ++ rest) with ((l1 ++ [0xfc]) ++ [Z.land b 0x7f] ++ todo ++ rest).
    rewrite app_assoc. set (l2 := (l1 ++ [0xfc]) ++ [Z.land b 0x7f]).
    assert (L2 : zlen l2 = zlen l1 + 1 + 1) by (unfold l2; rewrite zlen_app, L; done).
    rewrite <- L2. replace (zlen l1 + (zlen todo + 1) + 1) with (zlen l2 + zlen todo) by lia.
    rewrite IH by (rewrite ?zlen_app; lia). pose proof (specials_bounds todo).
    destruct (Z.ltb_spec (zlen rest) (specials todo)), (Z.ltb_spec (zlen rest + 1) (specials todo + 1)); try lia; [done|].
    cbn [escape_all]. rewrite Eb. rewrite zlen_app, L2. unfold l2. f_equal. f_equal; [change (zlen [_; _]) with 2; lia|].
    rewrite <- !app_assoc. cbn [app]. do 3 f_equal.
    replace (Z.to_nat (specials todo + 1)) with (S (Z.to_nat (specials todo))) by lia. done.
  - rewrite decide_False by done. fold (specials todo). rewrite u16_small by lia.
    change (l1 ++ b :: todo ++ rest) with (l1 ++ [b] ++ todo ++ rest). rewrite app_assoc.
    assert (L : zlen (l1 ++ [b]) = zlen l1 + 1) by (by rewrite zlen_app).
    rewrite <- L. replace (zlen l1 + (zlen todo + 1)) with (zlen (l1 ++ [b]) + zlen todo) by lia.
    rewrite IH by (rewrite ?zlen_app in *; change (zlen [b]) with 1 in *; lia).
    destruct (_ <? _); [done|]. cbn [escape_all]. rewrite Eb, L, zlen_app.
    f_equal. f_equal; [change (zlen [b]) with 1; lia|]. by rewrite <- !app_assoc.
Qed.

(** ** Encoding *)

Lemma tool_body f : tool_frame_ok f -> frame_body (to_kernel f) =
  [0xfd; Z.land (Z.shiftr (HMFrame.data_len f + 3) 8) 0xff; Z.land (HMFrame.data_len f + 3) 0xff;
   HMFrame.destination f; HMFrame.counter f; HMFrame.command f] ++ slice (HMFrame.data f) 0 (HMFrame.data_len f).
Proof.
  intros []. unfold frame_body. cbn [to_kernel dst cnt cmd cmdlen].
  replace (HMFrame.data_len f + 1 + 2) with (HMFrame.data_len f + 3) by lia. unfold slice. cbn [app]. do 5 f_equal.
  replace (Z.to_nat (HMFrame.data_len f + 1)) with (S (Z.to_nat (HMFrame.data_len f))) by lia. done.
Qed.

Lemma zlen_splice l i d : 0 <= i -> i + zlen d <= zlen l -> zlen (splice l i d) = zlen l.
Proof. intros. unfold zlen at 1. by rewrite length_splice. Qed.

(** Without escaping the frame is put at the beginning of the buffer. *)
Lemma encode_writes f buffer len : tool_frame_ok f -> HMFrame.data_len f + 8 <= len -> len <= zlen buffer ->
  forall escaped, HMFrame.encode f buffer len escaped =
    let n := u16 (zlen (tool_bytes f)) in
    let b := splice buffer 0 (tool_bytes f) in
    if escaped then HMFrame.escape_loop (S (Z.to_nat n)) 1 n b else Ok (n, b).
Proof.
  intros Hf Hl Hb escaped. pose proof Hf as [Hd _ _ _ _ _]. unfold HMFrame.encode.
  destruct (Z.ltb_spec len (HMFrame.data_len f + 8)); [lia|]. rewrite tool_crc, zlen_tool_bytes by done.
  set (n := HMFrame.data_len f) in *. pose proof (tool_body f Hf) as Eb. fold n in Eb.
  set (hi := Z.land (Z.shiftr (n + 3) 8) 0xff) in *. set (lo := Z.land (n + 3) 0xff) in *.
  set (d := slice (HMFrame.data f) 0 n) in *. assert (Hz : zlen d = n) by (apply zlen_slice; lia).
  set (hdr := put _ 5 _).
  assert (E : (if 0 <? n then splice hdr 6 d else hdr) = splice buffer 0 (frame_body (to_kernel f))).
  { transitivity (splice hdr 6 d).
    - destruct (Z.ltb_spec 0 n); [done|]. assert (d = []) as -> by (apply nil_length_inv; unfold zlen in Hz; lia).
      by rewrite splice_nil.
    - rewrite Eb. cbn [app]. repeat (rewrite splice_cons by (rewrite ?zlen_put; zlens; lia)). done. }
  rewrite E. assert (Hbody : zlen (frame_body (to_kernel f)) = n + 6) by (rewrite Eb; zlens; lia).
  rewrite crc_prefix by lia. unfold tool_bytes, frame_bytes.
  rewrite splice_app by (rewrite ?Hbody; change (zlen (crc_bytes _)) with 2; lia).
  rewrite Hbody, Z.add_0_l. unfold crc_bytes.
  assert (Hsp : zlen (splice buffer 0 (frame_body (to_kernel f))) = zlen buffer) by (apply zlen_splice; lia).
  rewrite splice_cons by (rewrite ?Hsp; change (zlen [_]) with 1; lia).
  rewrite <- put_splice by (rewrite ?zlen_put, ?Hsp; lia).
  replace (n + 6 + 1) with (n + 7) by lia. done.
Qed.

(** What goes out: the mark, and everything else escaped. *)
Definition tool_wire (f : HMFrame.t) : list Z := 0xfd :: escape_all (drop 1 (tool_bytes f)).

Lemma tool_bytes_head f : tool_bytes f = 0xfd :: drop 1 (tool_bytes f).
Proof. done. Qed.

(** The length field follows the mark. *)
Lemma tool_bytes_shape f : tool_frame_ok f -> exists hi lo rest, tool_bytes f = 0xfd :: hi :: lo :: rest /\
  be16 hi lo = HMFrame.data_len f + 3.
Proof.
  intros [? ? _ _ _ _]. destruct (be16_split (HMFrame.data_len f + 3) ltac:(lia)) as (_ & _ & E).
  unfold tool_bytes, frame_bytes, frame_body. cbn [to_kernel cmdlen].
  replace (HMFrame.data_len f + 1 + 2) with (HMFrame.data_len f + 3) by lia. cbn [app]. eauto.
Qed.

(** A buffer that begins with the bytes of a frame is parsed as this frame. *)
Lemma tool_parse_bytes f buffer : tool_frame_ok f -> HMFrame.data_len f + 8 < 2 ^ 16 ->
  take (length (tool_bytes f)) buffer = tool_bytes f ->
  exists data, HMFrame.TryParse buffer (HMFrame.data_len f + 8) =
      Some (HMFrame.Frame (HMFrame.counter f) (HMFrame.destination f) (HMFrame.command f) data (HMFrame.data_len f)) /\
    slice data 0 (HMFrame.data_len f) = slice (HMFrame.data f) 0 (HMFrame.data_len f).
Proof.
  intros Hf Hs Ht. pose proof (zlen_tool_bytes f Hf) as Hz. pose proof Hf as [Hn Hm _ _ _ _].
  pose proof (to_kernel_ok f Hf) as Hk. pose proof (frame_bytes_ok _ Hk) as Hby. fold (tool_bytes f) in Hby.
  assert (Hl : zlen (tool_bytes f) <= zlen buffer)
    by (apply (f_equal length) in Ht; rewrite length_take in Ht; unfold zlen; lia).
  assert (Hsp : splice buffer 0 (tool_bytes f) = buffer)
    by (rewrite splice_prefix by done; rewrite <- Ht at 1; apply take_drop).
  pose proof (tool_parses_like_kernel buffer (HMFrame.data_len f + 8)) as Ep.
  rewrite <- Hz in Ep at 1 2 3. unfold zlen at 1 in Ep. rewrite Nat2Z.id, Ht in Ep.
  specialize (Ep Hby ltac:(lia) ltac:(lia)). rewrite <- Hz in Ep at 1.
  pose proof (parse_frame_bytes buffer (to_kernel f) Hk Hl) as Ek. fold (tool_bytes f) in Ek. rewrite Hsp in Ek.
  destruct (frame_cmd_at buffer (to_kernel f)) as [rest Er]. fold (tool_bytes f) in Er. rewrite Hsp in Er.
  rewrite Hz in Ep, Ek. rewrite Ek in Ep. destruct (HMFrame.TryParse _ _) as [[c d cm da n]|]; [|done].
  cbn in Ep. injection Ep as -> -> Ec En. rewrite Er in Ec. cbn [to_kernel cmd cmdlen] in Ec, En.
  unfold slice in Ec. replace (Z.to_nat (HMFrame.data_len f + 1)) with (S (Z.to_nat (HMFrame.data_len f))) in Ec by lia.
  cbn in Ec. injection Ec as -> Ed. assert (n = HMFrame.data_len f) as -> by lia. exists da. split; [done|].
  rewrite Ed. unfold slice. change (Z.to_nat 0) with 0%nat. rewrite !drop_0. apply take_app_length'. rewrite length_take. unfold zlen in Hn. lia.
Qed.

Lemma escaped_plain l : bytes l -> Forall (fun b => b <> 0xfd) (escape_all l).
Proof.
  intros H. induction H as [|b l Hb H IH]; [constructor|]. cbn [escape_all]. apply Forall_app. split; [|done].
  unfold special. destruct (Z.eqb_spec b 0xfc) as [->|]; cbn [orb].
  { repeat constructor; done. }
  destruct (Z.eqb_spec b 0xfd) as [->|]; repeat constructor; done.
Qed.

(** C36 (equivalence). The tool and the kernel modules speak the same format.
    Both parsers accept the same bytes and find the same frame in them; and
    without escaping the tool puts the same bytes into its buffer as the
    kernel, or rejects the same frames for the same buffer. *)
Theorem tool_speaks_kernel_format buffer len f :
  bytes (take (Z.to_nat len) buffer) -> len <= zlen buffer -> len < 2 ^ 16 -> tool_frame_ok f ->
  to_kernel <$> HMFrame.TryParse buffer len = tryParseFrame buffer len /\
  if HMFrame.data_len f + 8 <=? len
  then HMFrame.encode f buffer len false = Ok (encodeFrame buffer len (to_kernel f)) /\
       encodeFrame buffer len (to_kernel f) = (HMFrame.data_len f + 8, splice buffer 0 (tool_bytes f))
  else HMFrame.encode f buffer len false = Ok (0, buffer) /\
       encodeFrame buffer len (to_kernel f) = (u64 (- EMSGSIZE), buffer).
Proof.
  intros Hb Hl Hs Hf. split; [by apply tool_parses_like_kernel|]. pose proof (zlen_tool_bytes f Hf) as Hz.
  pose proof Hf as [Hd Hm _ _ _ _]. destruct (Z.leb_spec (HMFrame.data_len f + 8) len).
  - assert (E : encodeFrame buffer len (to_kernel f) = (HMFrame.data_len f + 8, splice buffer 0 (tool_bytes f))).
    { rewrite encodeFrame_ok by (cbn [to_kernel cmd cmdlen]; rewrite ?zlen_cons; lia).
      cbn [to_kernel cmdlen]. f_equal. lia. }
    split; [|done]. rewrite E, encode_writes by done. cbv zeta. by rewrite Hz, u16_small by lia.
  - split; [unfold HMFrame.encode; by rewrite (proj2 (Z.ltb_lt _ _)) by lia|].
    unfold encodeFrame. cbn [to_kernel cmdlen]. by rewrite u64_small, (proj2 (Z.ltb_lt _ _)) by lia.
Qed.

Lemma tool_wire_length f : tool_frame_ok f ->
  zlen (tool_wire f) = HMFrame.data_len f + 8 + specials (drop 1 (tool_bytes f)) /\
  zlen (tool_wire f) <= 2 * HMFrame.data_len f + 15.
Proof.
  intros Hf. pose proof (zlen_tool_bytes f Hf) as Hz. rewrite tool_bytes_head, zlen_cons in Hz.
  unfold tool_wire. rewrite zlen_cons, zlen_escape_all. pose proof (specials_bounds (drop 1 (tool_bytes f))). lia.
Qed.

Lemma encode_escapes f buffer len : tool_frame_ok f -> HMFrame.data_len f + 8 <= len ->
  len <= zlen buffer -> zlen buffer < 2 ^ 16 ->
  HMFrame.encode f buffer len true =
    if zlen buffer <? zlen (tool_wire f) then OutOfBounds
    else Ok (zlen (tool_wire f), splice buffer 0 (tool_wire f)).
Proof.
  intros Hf Hl Hb Hs. pose proof (zlen_tool_bytes f Hf) as Hz. pose proof Hf as [Hd _ _ _ _ _].
  set (tl := drop 1 (tool_bytes f)) in *.
  rewrite tool_bytes_head in Hz. fold tl in Hz. rewrite zlen_cons in Hz.
  assert (Hw : zlen (tool_wire f) = HMFrame.data_len f + 8 + specials tl)
    by (unfold tool_wire; rewrite zlen_cons, zlen_escape_all; fold tl; lia).
  rewrite encode_writes by done. cbv zeta. rewrite tool_bytes_head. fold tl. rewrite zlen_cons.
  rewrite u16_small by lia. rewrite !splice_prefix by (rewrite zlen_cons; lia).
  set (rest := drop (length (0xfd :: tl)) buffer).
  assert (Hr : zlen rest = zlen buffer - (zlen tl + 1)).
  { unfold rest, zlen. rewrite length_drop. cbn [length]. unfold zlen in *. lia. }
  pose proof (escape_loop_ok (S (Z.to_nat (zlen tl + 1))) tl [0xfd] rest) as E.
  change (zlen [0xfd]) with 1 in E. change ([0xfd] ++ tl ++ rest) with ((0xfd :: tl) ++ rest) in E.
  rewrite (Z.add_comm 1 (zlen tl)) in E. pose proof (specials_bounds tl).
  rewrite E by (zlens; unfold zlen in *; lia). clear E.
  destruct (Z.ltb_spec (zlen rest) (specials tl)), (Z.ltb_spec (zlen buffer) (zlen (tool_wire f))); try lia; [done|].
  unfold tool_wire. fold tl. rewrite splice_prefix by (rewrite zlen_cons, zlen_escape_all; lia).
  assert (E1 : 1 + zlen (escape_all tl) = zlen (0xfd :: escape_all tl)) by (rewrite zlen_cons; lia).
  assert (E2 : [0xfd] ++ escape_all tl ++ drop (Z.to_nat (specials tl)) rest =
    (0xfd :: escape_all tl) ++ drop (length (0xfd :: escape_all tl)) buffer).
  { cbn [app]. do 2 f_equal. unfold rest. rewrite drop_drop. f_equal.
    pose proof (zlen_escape_all tl). cbn [length]. unfold zlen in *. lia. }
  by rewrite E1, E2.
Qed.

(** C37 (bounds). Escaping happens in the buffer of the frame, which has to
    have room for one more byte per byte escaped; the announced length is not
    looked at for that.  With the room the result is the mark and the escaped
    rest, in which the mark does not occur again; without it the loop writes
    behind the buffer. *)
Theorem escaping_in_place f buffer len : tool_frame_ok f -> HMFrame.data_len f + 8 <= len ->
  len <= zlen buffer -> zlen buffer < 2 ^ 16 ->
  Forall (fun b => b <> 0xfd) (drop 1 (tool_wire f)) /\
  zlen (tool_wire f) = HMFrame.data_len f + 8 + specials (drop 1 (tool_bytes f)) /\
  HMFrame.encode f buffer len true =
    if zlen buffer <? zlen (tool_wire f) then OutOfBounds
    else Ok (zlen (tool_wire f), splice buffer 0 (tool_wire f)).
Proof.
  intros Hf Hl Hb Hs. split; [|split; [by apply tool_wire_length | by apply encode_escapes]].
  apply escaped_plain, bytes_drop, (frame_bytes_ok _ (to_kernel_ok f Hf)).
Qed.

(** ** The theorems on concrete frames *)

Module DetectFrameSamples.
(** The request to identify oneself, with a counter that has to be escaped. *)
Definition identify : HMFrame.t := HMFrame.Frame 0xfc 0xfe 1 [] 0.

Lemma identify_ok : tool_frame_ok identify.
Proof. split; try done. constructor. Qed.

Lemma tool_speaks_kernel_format_witness :
  HMFrame.encode identify (get_version_bytes ++ replicate 10 0) 8 false =
    Ok (8, [0xfd; 0; 3; 0xfe; 0xfc; 1; 156; 17] ++ replicate 10 0) /\
  to_kernel <$> HMFrame.TryParse (get_version_bytes ++ replicate 10 0) 8 =
    Some (HmFrame 1 7 (2 :: 138 :: 27 :: replicate 10 0) 1).
Proof.
  destruct (tool_speaks_kernel_format (get_version_bytes ++ replicate 10 0) 8 identify) as [H1 [H2 H3]];
    [by apply bytes_check | done | done | apply identify_ok|].
  split; [rewrite H2, H3; vm_compute; reflexivity | rewrite H1; vm_compute; reflexivity].
Defined.

Lemma escaping_in_place_witness :
  HMFrame.encode identify (replicate 18 0) 18 true =
    Ok (9, [0xfd; 0; 3; 0xfe; 0xfc; 0x7c; 1; 156; 17] ++ replicate 9 0) /\
  HMFrame.encode identify (replicate 8 0) 8 true = OutOfBounds.
Proof.
  destruct (escaping_in_place identify (replicate 18 0) 18 identify_ok) as (_ & _ & H1); [done..|].
  destruct (escaping_in_place identify (replicate 8 0) 8 identify_ok) as (_ & _ & H2); [done..|].
  split; [rewrite H1; vm_compute; reflexivity | rewrite H2; vm_compute; reflexivity].
Defined.
End DetectFrameSamples.
