(* ===== verification/StreamParser.v ===== *)
(** The parser of the detection tool that cuts the received bytes into frames
    (src/detect_radio_module/streamparser.cpp): what it hands on, and where it
    writes. *)
From S2P Require Import Prelude Kernel HmFrame DetectFrame.

Module StreamParser.

Inductive state_t :=
| NO_DATA
| RECEIVE_LENGTH_HIGH_BYTE
| RECEIVE_LENGTH_LOW_BYTE
| RECEIVE_FRAME_DATA
| FRAME_COMPLETE.

#[export] Instance state_eq_dec : EqDecision state_t.
Proof. solve_decision. Defined.

Definition BUFFER_SIZE : Z := 2048.

Record t := Parser {
  _buffer : list Z;
  _bufferPos : Z;
  _framePos : Z;
  _frameLength : Z;
  _state : state_t;
  _isEscaped : bool;
  _decodeEscaped : bool
}.

Definition set_pos (v : Z) (p : t) : t :=
  Parser (_buffer p) v (_framePos p) (_frameLength p) (_state p) (_isEscaped p) (_decodeEscaped p).
Definition set_frame_pos (v : Z) (p : t) : t :=
  Parser (_buffer p) (_bufferPos p) v (_frameLength p) (_state p) (_isEscaped p) (_decodeEscaped p).
Definition set_frame_length (v : Z) (p : t) : t :=
  Parser (_buffer p) (_bufferPos p) (_framePos p) v (_state p) (_isEscaped p) (_decodeEscaped p).
Definition set_state (v : state_t) (p : t) : t :=
  Parser (_buffer p) (_bufferPos p) (_framePos p) (_frameLength p) v (_isEscaped p) (_decodeEscaped p).
Definition set_escaped (v : bool) (p : t) : t :=
  Parser (_buffer p) (_bufferPos p) (_framePos p) (_frameLength p) (_state p) v (_decodeEscaped p).
Definition store (v : Z) (p : t) : t :=
  Parser (put (_buffer p) (_bufferPos p) v) (_bufferPos p) (_framePos p) (_frameLength p) (_state p)
    (_isEscaped p) (_decodeEscaped p).

(** The constructor.  It sets neither the buffer nor the two frame variables,
    which hold whatever the memory held. *)
Definition create (decodeEscaped : bool) (memory : list Z) (framePos frameLength : Z) : t :=
  Parser memory 0 framePos frameLength NO_DATA false decodeEscaped.

Definition flush (p : t) : t := set_escaped false (set_pos 0 (set_state NO_DATA p)).
Definition getDecodeEscaped (p : t) : bool := _decodeEscaped p.
Definition setDecodeEscaped (v : bool) (p : t) : t :=
  Parser (_buffer p) (_bufferPos p) (_framePos p) (_frameLength p) (_state p) (_isEscaped p) v.

(** What the processor is called with: the buffer and a length. *)
Definition frame : Type := list Z * Z.

(** The end of [append], after the [switch]. *)
Definition append_store (chr : Z) (p : t) : exec (option frame * t) :=
  if zlen (_buffer p) <=? _bufferPos p then OutOfBounds else
  let p := store chr p in
  let p := set_pos (u16 (_bufferPos p + 1)) p in
  let p := if _bufferPos p =? BUFFER_SIZE then set_state FRAME_COMPLETE p else p in
  if decide (_state p = FRAME_COMPLETE)
  then Ok (Some (_buffer p, _bufferPos p), set_state NO_DATA p)
  else Ok (None, p).

(** The inner [switch]; [None]: the function returns. *)
Definition receive (chr : Z) (p : t) : option t :=
  let escaped := if _isEscaped p then Z.lor chr 0x80 else chr in
  match _state p with
  | NO_DATA | FRAME_COMPLETE => None
  | RECEIVE_LENGTH_HIGH_BYTE =>
    Some (set_state RECEIVE_LENGTH_LOW_BYTE (set_frame_length (u16 (Z.shiftl escaped 8)) p))
  | RECEIVE_LENGTH_LOW_BYTE =>
    let l := u16 (Z.lor (_frameLength p) escaped) in
    Some (set_state RECEIVE_FRAME_DATA (set_frame_pos 0 (set_frame_length (u16 (l + 2)) p)))
  | RECEIVE_FRAME_DATA =>
    let p := set_frame_pos (u16 (_framePos p + 1)) p in
    Some (set_state (if _framePos p =? _frameLength p then FRAME_COMPLETE else RECEIVE_FRAME_DATA) p)
  end.

Definition append (chr : Z) (p : t) : exec (option frame * t) :=
  if chr =? 0xfd then
    append_store chr (set_state RECEIVE_LENGTH_HIGH_BYTE (set_escaped false (set_pos 0 p)))
  else if chr =? 0xfc then
    let p := set_escaped true p in
    if _decodeEscaped p then Ok (None, p) else append_store chr p
  else
    let chr := if _isEscaped p && _decodeEscaped p then Z.lor chr 0x80 else chr in
    match receive chr p with
    | None => Ok (None, p)
    | Some p => append_store chr (set_escaped false p)
    end.

(** [append] of several bytes, with the calls of the processor. *)
Fixpoint append_all (l : list Z) (p : t) : exec (list frame * t) :=
  match l with
  | [] => Ok ([], p)
  | chr :: l =>
    let? (f, p) := append chr p in
    let? (fs, p) := append_all l p in
    Ok (match f with Some f => f :: fs | None => fs end, p)
  end.

Lemma append_all_app l1 l2 p : append_all (l1 ++ l2) p =
  let? (fs1, p) := append_all l1 p in
  let? (fs2, p) := append_all l2 p in
  Ok (fs1 ++ fs2, p).
Proof.
  revert p. induction l1 as [|b l1 IH]; intros p; cbn [app append_all exec_bind].
  - by destruct (append_all l2 p) as [[]| | | |].
  - destruct (append b p) as [[f p1]| | | |]; cbn [exec_bind]; try done. rewrite IH.
    destruct (append_all l1 p1) as [[fs1 p2]| | | |]; cbn [exec_bind]; try done.
    destruct (append_all l2 p2) as [[fs2 p3]| | | |]; cbn [exec_bind]; try done. by destruct f.
Qed.

(** ** Where it writes *)

(** Between two calls: the buffer is full only after the last frame. *)
Record safe (p : t) : Prop := {
  sf_buffer : zlen (_buffer p) = BUFFER_SIZE /\ bytes (_buffer p);
  sf_pos : 0 <= _bufferPos p <= BUFFER_SIZE;
  sf_room : _state p <> NO_DATA -> _bufferPos p < BUFFER_SIZE;
  sf_state : _state p <> FRAME_COMPLETE
}.

(** The one case in which a byte is written behind the buffer. *)
Definition overruns (chr : Z) (p : t) : Prop :=
  _decodeEscaped p = false /\ _state p = NO_DATA /\ _bufferPos p = BUFFER_SIZE /\ chr = 0xfc.

Lemma bytes_insert l i v : bytes l -> is_byte v -> bytes (put l i v).
Proof. intros. by apply Forall_insert. Qed.

(** Storing a byte when there is room. *)
Lemma append_store_ok chr p : zlen (_buffer p) = BUFFER_SIZE -> bytes (_buffer p) ->
  0 <= _bufferPos p < BUFFER_SIZE -> is_byte chr ->
  exists f p', append_store chr p = Ok (f, p') /\ safe p' /\ _decodeEscaped p' = _decodeEscaped p /\
    _buffer p' = put (_buffer p) (_bufferPos p) chr /\ _bufferPos p' = _bufferPos p + 1 /\
    _framePos p' = _framePos p /\ _frameLength p' = _frameLength p /\ _isEscaped p' = _isEscaped p /\
    if decide (_state p = FRAME_COMPLETE \/ _bufferPos p + 1 = BUFFER_SIZE)
    then f = Some (_buffer p', _bufferPos p + 1) /\ _state p' = NO_DATA
    else f = None /\ _state p' = _state p.
Proof.
  intros Hb Hby Hp Hc. unfold BUFFER_SIZE in *. unfold append_store. rewrite Hb.
  destruct (Z.leb_spec 2048 (_bufferPos p)); [lia|].
  change (_bufferPos (store chr p)) with (_bufferPos p). rewrite u16_small by lia. cbn [set_pos _bufferPos].
  assert (Hs : forall st, st <> FRAME_COMPLETE -> (st <> NO_DATA -> _bufferPos p + 1 < 2048) ->
    safe (set_state st (set_pos (_bufferPos p + 1) (store chr p)))).
  { intros st H1 H2. split; cbn; [|unfold BUFFER_SIZE; lia|done|done].
    split; [by rewrite zlen_put | by apply bytes_insert]. }
  unfold BUFFER_SIZE. destruct (Z.eqb_spec (_bufferPos p + 1) 2048) as [E|E].
  - rewrite decide_True by done. eexists _, _. split; [reflexivity|]. split; [by apply Hs|].
    rewrite decide_True by auto. done.
  - cbn [set_pos store _state]. destruct (decide (_state p = FRAME_COMPLETE)) as [Es|Es].
    + eexists _, _. split; [reflexivity|]. split; [by apply Hs|]. rewrite decide_True by auto. done.
    + eexists _, _. split; [reflexivity|]. split; [apply (Hs (_state p)); [done | lia]|].
      rewrite decide_False by (intros [?|?]; [congruence | lia]). done.
Qed.

(** A byte received leaves the buffer to [append_store]. *)
Lemma receive_same chr p q : receive chr p = Some q -> _buffer q = _buffer p /\ _bufferPos q = _bufferPos p /\
  _decodeEscaped q = _decodeEscaped p /\ _state p <> NO_DATA.
Proof. unfold receive. destruct (_state p); intros [= <-]; done. Qed.

Lemma is_byte_lor80 b : is_byte b -> is_byte (Z.lor b 0x80).
Proof.
  intros Hb. assert (H : all_below 256 (fun b => (0 <=? Z.lor b 0x80) && (Z.lor b 0x80 <? 256)) = true)
    by (by vm_compute).
  pose proof (all_below_spec _ _ H b Hb) as E. cbv beta in E. unfold is_byte. lia.
Qed.

(** What a byte does: one case runs over the buffer, in the others the parser
    stays within it. *)
Definition handed (f : option frame) : Prop :=
  match f with Some f => zlen f.1 = BUFFER_SIZE /\ bytes f.1 /\ 0 < f.2 <= BUFFER_SIZE | None => True end.

Definition appended (p : t) (r : exec (option frame * t)) : Prop :=
  exists f p', r = Ok (f, p') /\ safe p' /\ _decodeEscaped p' = _decodeEscaped p /\ handed f.

Lemma append_store_appended c q p : zlen (_buffer q) = BUFFER_SIZE -> bytes (_buffer q) ->
  0 <= _bufferPos q < BUFFER_SIZE -> is_byte c -> _decodeEscaped q = _decodeEscaped p ->
  appended p (append_store c q).
Proof.
  intros Q1 Q2 Q3 Q4 Q5. destruct (append_store_ok c q Q1 Q2 Q3 Q4) as (f & p' & E & S & D & B & _ & _ & _ & _ & M).
  exists f, p'. split; [done|]. split; [done|]. split; [congruence|].
  destruct (decide _); destruct M as [-> _]; [|done]. cbn. rewrite B, zlen_put. split; [done|].
  split; [by apply bytes_insert | lia].
Qed.

Lemma append_cases p chr : safe p -> is_byte chr ->
  (append chr p = OutOfBounds /\ overruns chr p) \/ (~ overruns chr p /\ appended p (append chr p)).
Proof.
  intros [[Hb Hby] Hp Hr Hst] Hc. unfold append. destruct (Z.eqb_spec chr 0xfd) as [->|H1].
  { right. split; [by intros (_ & _ & _ & ?)|]. by apply append_store_appended. }
  destruct (Z.eqb_spec chr 0xfc) as [->|H2].
  - cbn [set_escaped _decodeEscaped]. destruct (_decodeEscaped p) eqn:Ed.
    { right. split; [by intros (? & _); congruence|]. exists None, (set_escaped true p). by rewrite <- Ed. }
    destruct (decide (_bufferPos p = BUFFER_SIZE)) as [E|E].
    + left. split; [unfold append_store; cbn; by rewrite Hb, E|]. split; [done|]. split; [|done].
      destruct (decide (_state p = NO_DATA)) as [?|n]; [done|]. specialize (Hr n). lia.
    + right. split; [by intros (_ & _ & ? & _)|]. apply append_store_appended; cbn; try done. lia.
  - right. split; [by intros (_ & _ & _ & ?)|].
    assert (Hby' : is_byte (if _isEscaped p && _decodeEscaped p then Z.lor chr 0x80 else chr))
      by (destruct (_ && _); [by apply is_byte_lor80 | done]).
    set (c := if _ && _ then _ else _) in *. destruct (receive c p) as [q|] eqn:Eq.
    + destruct (receive_same _ _ _ Eq) as (B & P & D & N). specialize (Hr N).
      apply append_store_appended; cbn; rewrite ?B, ?P; try done. lia.
    + by exists None, p.
Qed.

(** Whatever is received, in both modes and from any state, a
    byte is written behind the buffer of 2048 bytes in exactly one case: while
    escapes are not decoded, when the buffer has been filled and no frame has
    begun since, by an escape byte.  In all other cases the parser stays within
    the buffer and hands on at most as many bytes as it has. *)
Theorem stream_parser_memory (p : t) (chr : Z) : safe p -> is_byte chr ->
  (append chr p = OutOfBounds <-> overruns chr p) /\
  (~ overruns chr p -> exists f p', append chr p = Ok (f, p') /\ safe p' /\
     _decodeEscaped p' = _decodeEscaped p /\
     match f with Some f => zlen f.1 = BUFFER_SIZE /\ 0 < f.2 <= BUFFER_SIZE | None => True end).
Proof.
  intros Hs Hc. destruct (append_cases p chr Hs Hc) as [[E O]|[O (f & p' & E & S' & D & H)]].
  - split; [done | by intros []].
  - split; [split; [by rewrite E | done]|]. intros _. exists f, p'. split_and!; try done.
    destruct f as [f|]; [|done]. by destruct H as (H1 & _ & H2).
Qed.

(** ** What it hands on *)

(** While escapes are decoded and none is pending: a parser that has received
    [pre] of the current frame. *)
Record receiving (pre : list Z) (st : state_t) (p : t) : Prop := {
  rc_safe : safe p;
  rc_decode : _decodeEscaped p = true;
  rc_plain : _isEscaped p = false;
  rc_pos : _bufferPos p = zlen pre;
  rc_pre : take (length pre) (_buffer p) = pre;
  rc_state : _state p = st
}.

Lemma take_put l n c : (n < length l)%nat -> take (S n) (put l (Z.of_nat n) c) = take n l ++ [c].
Proof.
  intros Hn. unfold put. rewrite Nat2Z.id. rewrite (take_S_r _ _ c) by (apply list_lookup_insert_eq; lia).
  by rewrite take_insert_ge by lia.
Qed.

(** The escape sequence of a byte has the effect of the byte. *)
Definition accept (b : Z) (p : t) : exec (option frame * t) :=
  match receive b p with None => Ok (None, p) | Some q => append_store b (set_escaped false q) end.

Lemma receive_escaped b p : Z.lor b 0x80 = b -> _isEscaped p = false ->
  receive b (set_escaped true p) = set_escaped true <$> receive b p.
Proof. intros Hb Hp. unfold receive. cbn. rewrite Hp, Hb. by destruct (_state p). Qed.

Lemma accept_escaped b p : _decodeEscaped p = true -> _isEscaped p = false -> _state p <> NO_DATA ->
  _state p <> FRAME_COMPLETE ->
  append_all (if special b then [0xfc; Z.land b 0x7f] else [b]) p =
    let? (f, q) := accept b p in Ok (match f with Some f => [f] | None => [] end, q).
Proof.
  intros Hd Hp Hs1 Hs2. unfold special.
  assert (Hr : forall q, append b q = accept b q -> append_all [b] q =
    let? (f, q) := accept b q in Ok (match f with Some f => [f] | None => [] end, q)).
  { intros q E. cbn [append_all]. rewrite E. by destruct (accept b q) as [[]| | | |]. }
  assert (Hx : forall c, c <> 0xfd -> c <> 0xfc -> Z.lor c 0x80 = b -> Z.lor b 0x80 = b ->
    append c (set_escaped true p) = accept b p).
  { intros c H1 H2 H3 H4. unfold append. apply Z.eqb_neq in H1, H2. rewrite H1, H2. cbn [set_escaped _isEscaped _decodeEscaped].
    rewrite Hd. cbn [andb]. rewrite H3. fold (set_escaped true p). rewrite receive_escaped by done.
    unfold accept. destruct (receive b p) as [q|] eqn:E; [done|].
    unfold receive in E. destruct (_state p); done. }
  destruct (Z.eqb_spec b 0xfc) as [->|H1]; cbn [orb].
  { cbn [append_all]. unfold append at 1. cbn [Z.eqb Pos.eqb]. cbn [set_escaped _decodeEscaped]. rewrite Hd.
    cbn [exec_bind]. fold (set_escaped true p). rewrite (Hx (Z.land 0xfc 0x7f)) by done.
    by destruct (accept 0xfc p) as [[]| | | |]. }
  destruct (Z.eqb_spec b 0xfd) as [->|H2].
  { cbn [append_all]. unfold append at 1. cbn [Z.eqb Pos.eqb]. cbn [set_escaped _decodeEscaped]. rewrite Hd.
    cbn [exec_bind]. fold (set_escaped true p). rewrite (Hx (Z.land 0xfd 0x7f)) by done.
    by destruct (accept 0xfd p) as [[]| | | |]. }
  apply Hr. unfold append, accept. apply Z.eqb_neq in H1, H2. by rewrite H1, H2, Hp.
Qed.

(** The next byte of a frame. *)
Lemma accept_byte pre st p b q : receiving pre st p -> st <> NO_DATA -> is_byte b -> receive b p = Some q ->
  exists f p', accept b p = Ok (f, p') /\ _framePos p' = _framePos q /\ _frameLength p' = _frameLength q /\
    if decide (_state q = FRAME_COMPLETE \/ zlen pre + 1 = BUFFER_SIZE)
    then f = Some (_buffer p', zlen pre + 1) /\ receiving (pre ++ [b]) NO_DATA p'
    else f = None /\ receiving (pre ++ [b]) (_state q) p'.
Proof.
  intros [[[Hb Hby] Hp Hr Hst] Hd He Epos Epre Es] Hn Hc E. subst st. specialize (Hr Hn). rewrite Epos in *.
  destruct (receive_same _ _ _ E) as (B & P & D & _). unfold accept. rewrite E.
  destruct (append_store_ok b (set_escaped false q)) as (f & p' & -> & S' & D' & B' & P' & F' & L' & I' & M);
    cbn [set_escaped _buffer _bufferPos _framePos _frameLength _decodeEscaped _isEscaped _state] in *;
    rewrite ?B, ?P, ?Epos; try done; [lia|]. rewrite B, P, Epos in *.
  exists f, p'. split; [done|]. split; [done|]. split; [done|].
  assert (Hx : forall st, _state p' = st -> receiving (pre ++ [b]) st p').
  { intros st Est. split; try done; [congruence | rewrite zlen_app; exact P' |].
    rewrite length_app, Nat.add_1_r, B'. unfold zlen. rewrite take_put; [by rewrite Epre|].
    unfold zlen, BUFFER_SIZE in *. lia. }
  destruct (decide _); destruct M as [-> Est]; (split; [done|]); by apply Hx.
Qed.

(** The bytes behind the length field. *)
Lemma receive_rest rest : forall pre p, receiving pre RECEIVE_FRAME_DATA p -> bytes rest -> rest <> [] ->
  0 <= _framePos p <= zlen pre -> _frameLength p = _framePos p + zlen rest -> zlen pre + zlen rest <= BUFFER_SIZE ->
  exists p', append_all (escape_all rest) p = Ok ([(_buffer p', zlen pre + zlen rest)], p') /\
    receiving (pre ++ rest) NO_DATA p'.
Proof.
  induction rest as [|b rest IH]; [done|]. intros pre p R Hby _ Hf Hl Hs. apply bytes_cons in Hby as [Hb Hby].
  rewrite zlen_cons in *. pose proof (zlen_nonneg rest). pose proof (zlen_nonneg pre). cbn [escape_all].
  rewrite append_all_app. destruct R as [Rs Rd Re Rp Rr Rst] eqn:ER. clear ER.
  rewrite accept_escaped by (done || by rewrite Rst).
  unfold BUFFER_SIZE in Hs. assert (Er : exists q, receive b p = Some q /\ _framePos q = _framePos p + 1 /\
    _frameLength q = _frameLength p /\ _state q = if decide (rest = []) then FRAME_COMPLETE else RECEIVE_FRAME_DATA).
  { unfold receive. rewrite Rst. eexists. split; [done|].
    cbn [set_state set_frame_pos _framePos _frameLength _state]. rewrite u16_small by lia. split; [done|]. split; [done|].
    rewrite Hl. destruct rest as [|c rest].
    - rewrite decide_True by done. by rewrite zlen_nil, Z.add_0_l, Z.eqb_refl.
    - rewrite decide_False by done. rewrite zlen_cons in *. pose proof (zlen_nonneg rest).
      by rewrite (proj2 (Z.eqb_neq _ _)) by lia. }
  destruct Er as (q & Eq & Q1 & Q2 & Q3).
  destruct (accept_byte pre RECEIVE_FRAME_DATA p b q) as (f & p1 & -> & F1 & F2 & M); [by split | done..|].
  cbn [exec_bind]. rewrite Q3 in M. destruct rest as [|c rest].
  - rewrite !(decide_True (P := [] = [])) in M by done. rewrite decide_True in M by auto. destruct M as [-> R1].
    exists p1. cbn. split; [|done]. by rewrite zlen_nil.
  - rewrite (decide_False (P := c :: rest = [])) in M by done. rewrite zlen_cons in *. pose proof (zlen_nonneg rest).
    rewrite decide_False in M by (intros [?|?]; [done | unfold BUFFER_SIZE in *; lia]). destruct M as [-> R1].
    destruct (IH (pre ++ [b]) p1 R1 Hby) as (p2 & -> & R2); [done | rewrite zlen_app; change (zlen [b]) with 1; lia | lia | |].
    { rewrite zlen_app. change (zlen [b]) with 1. unfold BUFFER_SIZE in *. lia. }
    exists p2. cbn [exec_bind]. rewrite <- app_assoc in R2. split; [|done].
    rewrite zlen_app. change (zlen [b]) with 1. by rewrite <- Z.add_assoc, (Z.add_comm 1).
Qed.

(** The mark begins a frame whatever has been received before. *)
Lemma receive_mark p : safe p -> _decodeEscaped p = true ->
  exists p', append 0xfd p = Ok (None, p') /\ receiving [0xfd] RECEIVE_LENGTH_HIGH_BYTE p'.
Proof.
  intros [[Hb Hby] Hp Hr Hst] Hd.
  destruct (append_store_ok 0xfd (set_state RECEIVE_LENGTH_HIGH_BYTE (set_escaped false (set_pos 0 p))))
    as (f & p' & E & S' & D' & B' & P' & F' & L' & I' & M); try done.
  exists p'. cbn in M. destruct M as [-> Est]. split; [exact E|]. split; try done; [by rewrite D'|].
  rewrite B'. cbn. unfold put. destruct (_buffer p) as [|x l]; [done|]. done.
Qed.

(** The length field. *)
Lemma receive_length hi lo p : receiving [0xfd] RECEIVE_LENGTH_HIGH_BYTE p -> is_byte hi -> is_byte lo ->
  be16 hi lo + 2 < 2 ^ 16 ->
  exists p', append_all (escape_all [hi; lo]) p = Ok ([], p') /\ receiving [0xfd; hi; lo] RECEIVE_FRAME_DATA p' /\
    _framePos p' = 0 /\ _frameLength p' = be16 hi lo + 2.
Proof.
  intros R Hh Hl Hs. cbn [escape_all]. rewrite app_nil_r, append_all_app.
  assert (E0 : forall pre st p, receiving pre st p -> st = RECEIVE_LENGTH_HIGH_BYTE \/ st = RECEIVE_LENGTH_LOW_BYTE ->
    _decodeEscaped p = true /\ _isEscaped p = false /\ _state p <> NO_DATA /\ _state p <> FRAME_COMPLETE).
  { intros pre st q [] Hst. split_and!; try done; destruct Hst; congruence. }
  destruct (E0 _ _ _ R) as (A1 & A2 & A3 & A4); [by left|]. rewrite accept_escaped by done.
  destruct (accept_byte _ _ p hi (set_state RECEIVE_LENGTH_LOW_BYTE (set_frame_length (u16 (Z.shiftl hi 8)) p)) R)
    as (f1 & p1 & -> & _ & L1 & M1); [done..| by unfold receive; rewrite A2, (rc_state _ _ _ R) |].
  cbn in L1, M1. destruct M1 as [-> R1]. cbn [exec_bind].
  destruct (E0 _ _ _ R1) as (B1 & B2 & B3 & B4); [by right|]. rewrite accept_escaped by done.
  set (l := u16 (Z.lor (_frameLength p1) lo)).
  destruct (accept_byte _ _ p1 lo (set_state RECEIVE_FRAME_DATA (set_frame_pos 0 (set_frame_length (u16 (l + 2)) p1))) R1)
    as (f2 & p2 & -> & F2 & L2 & M2); [done..| by unfold receive; rewrite B2, (rc_state _ _ _ R1) |].
  cbn in F2, L2, M2. destruct M2 as [-> R2]. exists p2. split; [done|]. split; [done|]. split; [done|].
  rewrite L2. unfold l. rewrite L1, (u16_small (Z.shiftl hi 8)) by (rewrite Z.shiftl_mul_pow2; unfold is_byte in *; lia).
  fold (be16 hi lo). rewrite be16_val in * by done. unfold is_byte in *. rewrite (u16_small (hi * 256 + lo)) by lia. by rewrite u16_small by lia.
Qed.

(** The bytes of a frame as it goes out, received as a whole. *)
Lemma wire_received f p : safe p -> _decodeEscaped p = true -> tool_frame_ok f ->
  HMFrame.data_len f + 8 <= BUFFER_SIZE ->
  exists p', append_all (tool_wire f) p = Ok ([(_buffer p', HMFrame.data_len f + 8)], p') /\
    safe p' /\ _decodeEscaped p' = true /\ take (length (tool_bytes f)) (_buffer p') = tool_bytes f.
Proof.
  intros Hs Hd Hf Hl. assert (HB : BUFFER_SIZE = 2048) by done. pose proof (zlen_tool_bytes f Hf) as Hz. pose proof Hf as [Hn Hm _ _ _ _].
  pose proof (frame_bytes_ok _ (to_kernel_ok f Hf)) as Hby. change (frame_bytes (to_kernel f)) with (tool_bytes f) in Hby.
  destruct (tool_bytes_shape f Hf) as (hi & lo & rest & E & Hbe). rewrite E in Hz, Hby.
  apply bytes_cons in Hby as [_ Hby]. apply bytes_cons in Hby as [Hhi Hby]. apply bytes_cons in Hby as [Hlo Hby].
  rewrite !zlen_cons in Hz. unfold tool_wire. rewrite E. cbn [drop]. change (escape_all (hi :: lo :: rest)) with
    (escape_all ([hi; lo] ++ rest)). rewrite escape_all_app. cbn [append_all].
  destruct (receive_mark p Hs Hd) as (p0 & -> & R0). cbn [exec_bind]. rewrite append_all_app.
  destruct (receive_length hi lo p0 R0 Hhi Hlo) as (p1 & -> & R1 & F1 & L1); [lia|]. cbn [exec_bind].
  destruct (receive_rest rest [0xfd; hi; lo] p1 R1 Hby) as (p2 & -> & R2).
  { intros ->. rewrite zlen_nil in Hz. lia. }
  { by rewrite F1. }
  { lia. }
  { change (zlen [_; _; _]) with 3. lia. }
  cbn [exec_bind app]. change (zlen [_; _; _]) with 3. replace (3 + zlen rest) with (HMFrame.data_len f + 8) by lia.
  destruct R2 as [S2 D2 _ P2 T2 _]. cbn [app] in T2. rewrite <- E in T2.
  exists p2. rewrite <- E. by split_and!.
Qed.

(** C35 (roundtrip). What the tool or a module sends as a frame arrives as
    one: whatever the parser has received before, the bytes of an escaped frame
    that fits into the buffer make it call the processor exactly once, with the
    frame at the beginning of its buffer, in which the fields are found again. *)
Theorem stream_frame_received (f : HMFrame.t) (p : t) : safe p -> _decodeEscaped p = true ->
  tool_frame_ok f -> HMFrame.data_len f + 8 <= BUFFER_SIZE ->
  exists buffer data p', append_all (tool_wire f) p = Ok ([(buffer, HMFrame.data_len f + 8)], p') /\
    safe p' /\ _decodeEscaped p' = true /\
    HMFrame.TryParse buffer (HMFrame.data_len f + 8) =
      Some (HMFrame.Frame (HMFrame.counter f) (HMFrame.destination f) (HMFrame.command f) data (HMFrame.data_len f)) /\
    slice data 0 (HMFrame.data_len f) = slice (HMFrame.data f) 0 (HMFrame.data_len f).
Proof.
  intros Hs Hd Hf Hl. destruct (wire_received f p Hs Hd Hf Hl) as (p' & E & S' & D' & T).
  destruct (tool_parse_bytes f (_buffer p') Hf ltac:(unfold BUFFER_SIZE in *; lia) T) as (data & Ep & Ed).
  exists (_buffer p'), data, p'. by split_and!.
Qed.
End StreamParser.

(** ** The theorems on concrete input *)

Module StreamParserSamples.
Import StreamParser.

(** A parser in the mode it is created in, whose buffer has been filled. *)
Definition full : t := Parser (replicate 2048 0) 2048 3 60000 NO_DATA false false.

Lemma full_safe : safe full.
Proof. split; [split; [done | by apply Forall_replicate] | done | done | done]. Qed.

Lemma stream_parser_memory_witness :
  append 0xfc full = OutOfBounds /\ overruns 0xfc full /\ ~ append 0x20 full = OutOfBounds.
Proof.
  destruct (stream_parser_memory full 0xfc full_safe ltac:(done)) as [H1 _].
  destruct (stream_parser_memory full 0x20 full_safe ltac:(done)) as [H2 _].
  assert (O : overruns 0xfc full) by done.
  split; [exact (proj2 H1 O)|]. split; [exact O|]. intros E. apply H2 in E as (_ & _ & _ & ?). done.
Defined.

(** The state it really gets into: a frame whose announced length is too big. *)
Example full_reached : exists fs p, append_all (0xfd :: 0xff :: replicate 2046 0x20) (create false (replicate 2048 0) 0 0)
  = Ok (fs, p) /\ length fs = 1%nat /\ append 0xfc p = OutOfBounds.
Proof. eexists _, _. split; [vm_compute; reflexivity|]. by split. Qed.

Lemma stream_frame_received_witness : exists buffer data p',
  append_all (tool_wire DetectFrameSamples.identify) (setDecodeEscaped true full) = Ok ([(buffer, 8)], p') /\
  HMFrame.TryParse buffer 8 = Some (HMFrame.Frame 0xfc 0xfe 1 data 0).
Proof.
  destruct (stream_frame_received DetectFrameSamples.identify (setDecodeEscaped true full)) as
    (buffer & data & p' & H1 & _ & _ & H2 & _); [|done|apply DetectFrameSamples.identify_ok|done|].
  { split; [split; [done | by apply Forall_replicate] | done | done | done]. }
  exists buffer, data, p'. split; [exact H1 | exact H2].
Defined.
End StreamParserSamples.
