(* ===== verification/Detector.v ===== *)
(** The radio module detector (src/detect_radio_module/radiomoduledetector.cpp):
    what it has found out, the frames it sends and how it takes the answers.
    The two threads that run it are in [DetectSys]. *)
From stdpp Require Import strings.
From S2P Require Import Prelude Kernel HmFrame FakeHmrf DetectFrame.

(** A text as the bytes of its characters. *)
Definition str (s : string) : list Z := map (fun a => Z.of_N (Ascii.N_of_ascii a)) (String.list_ascii_of_string s).

(** [strncmp(a, text, n) == 0]: both arrays are read up to [n] bytes or the
    first NUL. *)
Fixpoint strncmp_eq (n : nat) (a text : list Z) : bool :=
  match n with
  | O => true
  | S n => let x := hd 0 a in let y := hd 0 text in
           (x =? y) && ((x =? 0) || strncmp_eq n (tail a) (tail text))
  end.

(** What a pointer to a terminated array prints. *)
Fixpoint cstr (l : list Z) : list Z :=
  match l with [] => [] | c :: l => if c =? 0 then [] else c :: cstr l end.

(** [sprintf] and [memcpy] into an array. *)
Definition write_into (array : list Z) (at_ : Z) (d : list Z) : exec (list Z) :=
  if zlen array <? at_ + zlen d then OutOfBounds else Ok (splice array at_ d).

Module RadioModuleDetector.

Definition RADIO_MODULE_NONE : Z := 0.
Definition RADIO_MODULE_HMIP_RFUSB : Z := 1.
Definition RADIO_MODULE_HM_MOD_RPI_PCB : Z := 3.
Definition RADIO_MODULE_RPI_RF_MOD : Z := 4.
Definition RADIO_MODULE_UNKNOWN : Z := 255.

Inductive detect_state :=
| START_BL | START_APP
| GET_MCU_TYPE | GET_VERSION | GET_HMIP_RF_ADDRESS | GET_SGTIN | GET_BIDCOS_RF_ADDRESS | GET_SERIAL
| LEGACY_GET_VERSION | LEGACY_GET_BIDCOS_RF_ADDRESS | LEGACY_GET_SERIAL
| FINISHED.

#[export] Instance detect_state_eq_dec : EqDecision detect_state.
Proof. solve_decision. Defined.

Definition HM_DST_HMSYSTEM : Z := 0x00.
Definition HM_DST_TRX : Z := 0x01.
Definition HM_DST_HMIP : Z := 0x02.
Definition HM_DST_LLMAC : Z := 0x03.
Definition HM_DST_COMMON : Z := 0xfe.
Definition HM_CMD_HMSYSTEM_IDENTIFY : Z := 0x00.
Definition HM_CMD_HMSYSTEM_GET_VERSION : Z := 0x02.
Definition HM_CMD_HMSYSTEM_CHANGE_APP : Z := 0x03.
Definition HM_CMD_HMSYSTEM_ACK : Z := 0x04.
Definition HM_CMD_HMSYSTEM_GET_SERIAL : Z := 0x0b.
Definition HM_CMD_TRX_GET_VERSION : Z := 0x02.
Definition HM_CMD_TRX_ACK : Z := 0x04.
Definition HM_CMD_TRX_GET_MCU_TYPE : Z := 0x09.
Definition HM_CMD_TRX_GET_DEFAULT_RF_ADDR : Z := 0x10.
Definition HM_CMD_HMIP_GET_DEFAULT_RF_ADDR : Z := 0x01.
Definition HM_CMD_HMIP_ACK : Z := 0x06.
Definition HM_CMD_LLMAC_ACK : Z := 0x01.
Definition HM_CMD_LLMAC_GET_SERIAL : Z := 0x07.
Definition HM_CMD_LLMAC_GET_DEFAULT_RF_ADDR : Z := 0x08.
Definition HM_CMD_COMMON_IDENTIFY : Z := 0x01.
Definition HM_CMD_COMMON_START_BL : Z := 0x02.
Definition HM_CMD_COMMON_START_APP : Z := 0x03.
Definition HM_CMD_COMMON_GET_SGTIN : Z := 0x04.
Definition HM_CMD_COMMON_ACK : Z := 0x05.

(** The members of the class, with what has been written to the connector and
    the count of the semaphore, which the handler also changes. *)
Record t := Detector {
  _serial : list Z;
  _bidCosRadioMAC : Z;
  _hmIPRadioMAC : Z;
  _sgtin : list Z;
  _firmwareVersion : list Z;
  _radioModuleType : Z;
  _detectState : detect_state;
  _detectRetryCount : Z;
  _detectMsgCounter : Z;
  out : list (list Z);
  _detectWaitFrameDataSemaphore : Z
}.

(** A new object; the three members without initializer are set before they are
    read. *)
Definition create : t :=
  Detector (replicate 11 0) 0 0 (replicate 25 0) [0; 0; 0] RADIO_MODULE_NONE START_BL 0 0 [] 0.

Definition set_serial (v : list Z) (d : t) : t :=
  Detector v (_bidCosRadioMAC d) (_hmIPRadioMAC d) (_sgtin d) (_firmwareVersion d) (_radioModuleType d)
    (_detectState d) (_detectRetryCount d) (_detectMsgCounter d) (out d) (_detectWaitFrameDataSemaphore d).
Definition set_bidcos (v : Z) (d : t) : t :=
  Detector (_serial d) v (_hmIPRadioMAC d) (_sgtin d) (_firmwareVersion d) (_radioModuleType d)
    (_detectState d) (_detectRetryCount d) (_detectMsgCounter d) (out d) (_detectWaitFrameDataSemaphore d).
Definition set_hmip (v : Z) (d : t) : t :=
  Detector (_serial d) (_bidCosRadioMAC d) v (_sgtin d) (_firmwareVersion d) (_radioModuleType d)
    (_detectState d) (_detectRetryCount d) (_detectMsgCounter d) (out d) (_detectWaitFrameDataSemaphore d).
Definition set_sgtin (v : list Z) (d : t) : t :=
  Detector (_serial d) (_bidCosRadioMAC d) (_hmIPRadioMAC d) v (_firmwareVersion d) (_radioModuleType d)
    (_detectState d) (_detectRetryCount d) (_detectMsgCounter d) (out d) (_detectWaitFrameDataSemaphore d).
Definition set_version (v : list Z) (d : t) : t :=
  Detector (_serial d) (_bidCosRadioMAC d) (_hmIPRadioMAC d) (_sgtin d) v (_radioModuleType d)
    (_detectState d) (_detectRetryCount d) (_detectMsgCounter d) (out d) (_detectWaitFrameDataSemaphore d).
Definition set_type (v : Z) (d : t) : t :=
  Detector (_serial d) (_bidCosRadioMAC d) (_hmIPRadioMAC d) (_sgtin d) (_firmwareVersion d) v
    (_detectState d) (_detectRetryCount d) (_detectMsgCounter d) (out d) (_detectWaitFrameDataSemaphore d).
Definition set_state (v : detect_state) (d : t) : t :=
  Detector (_serial d) (_bidCosRadioMAC d) (_hmIPRadioMAC d) (_sgtin d) (_firmwareVersion d) (_radioModuleType d)
    v (_detectRetryCount d) (_detectMsgCounter d) (out d) (_detectWaitFrameDataSemaphore d).
Definition set_retry (v : Z) (d : t) : t :=
  Detector (_serial d) (_bidCosRadioMAC d) (_hmIPRadioMAC d) (_sgtin d) (_firmwareVersion d) (_radioModuleType d)
    (_detectState d) v (_detectMsgCounter d) (out d) (_detectWaitFrameDataSemaphore d).
Definition set_counter (v : Z) (d : t) : t :=
  Detector (_serial d) (_bidCosRadioMAC d) (_hmIPRadioMAC d) (_sgtin d) (_firmwareVersion d) (_radioModuleType d)
    (_detectState d) (_detectRetryCount d) v (out d) (_detectWaitFrameDataSemaphore d).
Definition set_out (v : list (list Z)) (d : t) : t :=
  Detector (_serial d) (_bidCosRadioMAC d) (_hmIPRadioMAC d) (_sgtin d) (_firmwareVersion d) (_radioModuleType d)
    (_detectState d) (_detectRetryCount d) (_detectMsgCounter d) v (_detectWaitFrameDataSemaphore d).
Definition set_semaphore (v : Z) (d : t) : t :=
  Detector (_serial d) (_bidCosRadioMAC d) (_hmIPRadioMAC d) (_sgtin d) (_firmwareVersion d) (_radioModuleType d)
    (_detectState d) (_detectRetryCount d) (_detectMsgCounter d) (out d) v.

Definition sem_give (d : t) : t := set_semaphore (_detectWaitFrameDataSemaphore d + 1) d.

Definition getSerial (d : t) : list Z := cstr (_serial d).
Definition getBidCosRadioMAC (d : t) : Z := _bidCosRadioMAC d.
Definition getHmIPRadioMAC (d : t) : Z := _hmIPRadioMAC d.
Definition getSGTIN (d : t) : list Z := cstr (_sgtin d).
Definition getFirmwareVersion (d : t) : list Z := _firmwareVersion d.
Definition getRadioModuleType (d : t) : Z := _radioModuleType d.

(** ** Sending *)

(** [sendBuffer] is an uninitialised array on the stack, whose contents are an
    argument; what goes to the connector is the part that [encode] has filled. *)
Definition sendFrame_on (stack : list Z) (counter destination command : Z) (data : list Z) (d : t) : exec t :=
  let frame := HMFrame.Frame (u8 counter) destination command data (u16 (zlen data)) in
  let? (len, sendBuffer) := HMFrame.encode frame stack (u16 (zlen stack)) true in
  Ok (set_out (out d ++ [slice sendBuffer 0 len]) d).

Definition sendFrame (counter destination command : Z) (data : list Z) (d : t) : exec t :=
  sendFrame_on (replicate (Z.to_nat (8 + zlen data + 10)) 0) counter destination command data d.

(** All calls have the form [sendFrame(_detectMsgCounter++, ..., NULL, 0)]. *)
Definition request (destination command : Z) (d : t) : exec t :=
  sendFrame (_detectMsgCounter d) destination command [] (set_counter (_detectMsgCounter d + 1) d).

(** ** Receiving *)

(** The condition that occurs for each module: an acknowledgement that carries
    a code and the name, or the name alone. *)
Definition identified (f : HMFrame.t) (destination ack code : Z) (name : list Z) : bool :=
  ((HMFrame.destination f =? destination) && (HMFrame.command f =? ack) &&
   (HMFrame.data_len f =? zlen name + 1) && (HMFrame.data f @@ 0 =? code) &&
   strncmp_eq (length name) (drop 1 (HMFrame.data f)) name) ||
  ((HMFrame.destination f =? destination) && (HMFrame.command f =? 0) &&
   (HMFrame.data_len f =? zlen name) && strncmp_eq (length name) (HMFrame.data f) name).

Definition trx_bl (f : HMFrame.t) : bool := identified f HM_DST_COMMON HM_CMD_COMMON_ACK 1 (str "HMIP_TRX_Bl").
Definition legacy_bl (f : HMFrame.t) : bool := identified f HM_DST_HMSYSTEM HM_CMD_HMSYSTEM_ACK 2 (str "Co_CPU_BL").
Definition dual_app (f : HMFrame.t) : bool := identified f HM_DST_COMMON HM_CMD_COMMON_ACK 1 (str "DualCoPro_App").
Definition trx_app (f : HMFrame.t) : bool := identified f HM_DST_COMMON HM_CMD_COMMON_ACK 1 (str "HMIP_TRX_App").
Definition legacy_app (f : HMFrame.t) : bool := identified f HM_DST_HMSYSTEM HM_CMD_HMSYSTEM_ACK 2 (str "Co_CPU_App").

(** An acknowledgement with a length and a code. *)
Definition acked (f : HMFrame.t) (destination ack len code : Z) : bool :=
  (HMFrame.destination f =? destination) && (HMFrame.command f =? ack) && (HMFrame.data_len f =? len) &&
  (HMFrame.data f @@ 0 =? code).

(** Three bytes as an address, and those from [i] on. *)
Definition mac24 (m1 m2 m3 : Z) : Z := Z.lor (Z.lor (Z.shiftl m1 16) (Z.shiftl m2 8)) m3.
Definition address (f : HMFrame.t) (i : Z) : Z :=
  mac24 (HMFrame.data f @@ i) (HMFrame.data f @@ (i + 1)) (HMFrame.data f @@ (i + 2)).

Definition start_bl_frame (f : HMFrame.t) (d : t) : exec t :=
  if trx_bl f || legacy_bl f then Ok (sem_give (set_state START_APP (set_type RADIO_MODULE_UNKNOWN d)))
  else if dual_app f || trx_app f then
    request HM_DST_COMMON HM_CMD_COMMON_START_BL (set_type RADIO_MODULE_UNKNOWN d)
  else if legacy_app f then
    request HM_DST_HMSYSTEM HM_CMD_HMSYSTEM_CHANGE_APP (set_type RADIO_MODULE_UNKNOWN d)
  else Ok d.

Definition start_app_frame (f : HMFrame.t) (d : t) : exec t :=
  if trx_bl f then request HM_DST_COMMON HM_CMD_COMMON_START_APP d
  else if legacy_bl f then request HM_DST_HMSYSTEM HM_CMD_HMSYSTEM_CHANGE_APP d
  else if dual_app f || trx_app f then Ok (sem_give (set_state GET_MCU_TYPE d))
  else if legacy_app f then
    let d := set_state LEGACY_GET_VERSION d in
    let? sgtin := write_into (_sgtin d) 0 (str "n/a" ++ [0]) in
    Ok (sem_give (set_type RADIO_MODULE_HM_MOD_RPI_PCB (set_hmip 0 (set_sgtin sgtin d))))
  else Ok d.

(** The serial number and address that a module derives from its SGTIN. *)
Definition derived_serial (f : HMFrame.t) (d : t) : exec t :=
  let? serial := write_into (_serial d) 0 (flat_map hex_byte (slice (HMFrame.data f) 8 5) ++ [0]) in
  Ok (set_serial serial d).

Definition derived_address (f : HMFrame.t) : Z :=
  let mac := Z.lor (Z.lor 0xff0000 (Z.shiftl (HMFrame.data f @@ 11) 8)) (HMFrame.data f @@ 12) in
  if mac =? 0xffffff then 0xfffffe else mac.

Definition sgtin_frame (f : HMFrame.t) (d : t) : exec t :=
  if acked f HM_DST_COMMON HM_CMD_COMMON_ACK 13 1 then
    let? sgtin := write_into (_sgtin d) 0 (flat_map hex_byte (slice (HMFrame.data f) 1 12) ++ [0]) in
    let d := set_sgtin sgtin d in
    let? d :=
      if _radioModuleType d =? RADIO_MODULE_RPI_RF_MOD then
        let? d := derived_serial f d in
        Ok (set_state GET_BIDCOS_RF_ADDRESS (set_bidcos (derived_address f) d))
      else if _radioModuleType d =? RADIO_MODULE_HMIP_RFUSB then
        let? d := derived_serial f d in
        if _firmwareVersion d @@ 0 <? 4 then Ok (set_state FINISHED (set_bidcos 0 d))
        else Ok (set_state GET_BIDCOS_RF_ADDRESS (set_bidcos (derived_address f) d))
      else Ok (set_state GET_BIDCOS_RF_ADDRESS d) in
    Ok (sem_give d)
  else Ok d.

(** Not one of the reserved addresses. *)
Definition usable (radioMac : Z) : bool := negb (radioMac =? 0) && negb (Z.land radioMac 0xffff =? 0xffff).

Definition bidcos_frame (f : HMFrame.t) (d : t) : exec t :=
  if acked f HM_DST_LLMAC HM_CMD_LLMAC_ACK 4 1 then
    let radioMac := address f 1 in
    let d := set_bidcos (if usable radioMac then radioMac else _bidCosRadioMAC d) d in
    Ok (sem_give (set_state (if _radioModuleType d =? RADIO_MODULE_HM_MOD_RPI_PCB then GET_SERIAL else FINISHED) d))
  else if acked f HM_DST_LLMAC HM_CMD_LLMAC_ACK 1 0 then
    Ok (sem_give (if (_radioModuleType d =? RADIO_MODULE_RPI_RF_MOD) || (_radioModuleType d =? RADIO_MODULE_HMIP_RFUSB)
                  then set_state FINISHED d else d))
  else Ok d.

(** [memcpy(_serial, frame.data + 1, 10)] *)
Definition serial_frame (f : HMFrame.t) (d : t) : exec t :=
  let? serial := write_into (_serial d) 0 (slice (HMFrame.data f) 1 10) in
  Ok (sem_give (set_state FINISHED (set_serial serial d))).

(** [memcpy(_firmwareVersion, frame.data + i, 3)] *)
Definition version_frame (f : HMFrame.t) (i : Z) (next : detect_state) (d : t) : exec t :=
  let? version := write_into (_firmwareVersion d) 0 (slice (HMFrame.data f) i 3) in
  Ok (sem_give (set_state next (set_version version d))).

(** The [switch] on the state. *)
Definition handle (f : HMFrame.t) (d : t) : exec t :=
  match _detectState d with
  | START_BL => start_bl_frame f d
  | START_APP => start_app_frame f d
  | GET_MCU_TYPE =>
    if acked f HM_DST_TRX HM_CMD_TRX_ACK 2 1
    then Ok (sem_give (set_state GET_VERSION (set_type (HMFrame.data f @@ 1) d))) else Ok d
  | GET_VERSION =>
    if acked f HM_DST_TRX HM_CMD_TRX_ACK 10 1 then version_frame f 1 GET_HMIP_RF_ADDRESS d else Ok d
  | GET_HMIP_RF_ADDRESS =>
    if acked f HM_DST_HMIP HM_CMD_HMIP_ACK 4 1
    then Ok (sem_give (set_state GET_SGTIN (set_hmip (address f 1) d))) else Ok d
  | GET_SGTIN => sgtin_frame f d
  | GET_BIDCOS_RF_ADDRESS => bidcos_frame f d
  | GET_SERIAL => if acked f HM_DST_LLMAC HM_CMD_LLMAC_ACK 11 1 then serial_frame f d else Ok d
  | LEGACY_GET_VERSION =>
    if acked f HM_DST_HMSYSTEM HM_CMD_HMSYSTEM_ACK 7 2 then version_frame f 4 LEGACY_GET_BIDCOS_RF_ADDRESS d else Ok d
  | LEGACY_GET_BIDCOS_RF_ADDRESS =>
    if (HMFrame.destination f =? HM_DST_TRX) && (HMFrame.command f =? HM_CMD_TRX_ACK) && (HMFrame.data_len f =? 6)
    then Ok (sem_give (set_state LEGACY_GET_SERIAL (set_bidcos (address f 3) d))) else Ok d
  | LEGACY_GET_SERIAL => if acked f HM_DST_HMSYSTEM HM_CMD_HMSYSTEM_ACK 11 2 then serial_frame f d else Ok d
  | FINISHED => Ok d
  end.

Definition handleFrame (buffer : list Z) (len : Z) (d : t) : exec t :=
  match HMFrame.TryParse buffer len with
  | None => Ok d
  | Some f => handle f d
  end.

(** ** Lengths and texts *)

Lemma write_into_ok array d : zlen d <= zlen array -> write_into array 0 d = Ok (splice array 0 d).
Proof. unfold write_into. intros. by rewrite (proj2 (Z.ltb_ge _ _)) by lia. Qed.

(** An array of a given length that is terminated whatever is written before
    its last entry. *)
Definition text_array (n : Z) (l : list Z) : Prop := zlen l = n /\ l @@ (n - 1) = 0.

Lemma text_array_write n l d : 0 < n -> text_array n l ->
  zlen d < n \/ (zlen d = n /\ d @@ (n - 1) = 0) -> text_array n (splice l 0 d).
Proof.
  intros Hn [Hl H0] Hd. pose proof (zlen_nonneg d). split; [rewrite zlen_splice by lia; done|].
  rewrite splice_at by lia. case_decide; [|done]. destruct Hd as [Hd|[Hd E]]; [lia|]. by rewrite Z.sub_0_r.
Qed.

Lemma cstr_app l r : Forall (fun c => c <> 0) l -> cstr (l ++ 0 :: r) = l.
Proof. induction 1 as [|c l Hc H IH]; [done|]. cbn [app cstr]. apply Z.eqb_neq in Hc. by rewrite Hc, IH. Qed.

Lemma cstr_splice l d : Forall (fun c => c <> 0) d -> zlen d + 1 <= zlen l -> cstr (splice l 0 (d ++ [0])) = d.
Proof.
  intros Hd Hl. rewrite splice_prefix by (rewrite zlen_app; done). rewrite <- app_assoc. by apply cstr_app.
Qed.

(** Texts of capital hexadecimal digits. *)
Definition hex_text (l : list Z) : Prop := Forall (fun c => 0x30 <= c <= 0x39 \/ 0x41 <= c <= 0x46) l.

Lemma hex_bytes_text l : bytes l -> hex_text (flat_map hex_byte l) /\ zlen (flat_map hex_byte l) = 2 * zlen l.
Proof.
  induction 1 as [|b l Hb H [IH1 IH2]]; [by split; [constructor|]|]. cbn [flat_map]. split.
  - apply Forall_app. split; [|done]. unfold is_byte in Hb.
    assert (D : forall n, 0 <= n < 16 -> 0x30 <= hex_digit n <= 0x39 \/ 0x41 <= hex_digit n <= 0x46)
      by (intros n ?; unfold hex_digit; destruct (Z.ltb_spec n 10); lia).
    unfold hex_byte. apply Forall_cons. split; [apply D | apply Forall_cons; split; [apply D | constructor]].
    + rewrite Z.shiftr_div_pow2 by lia. zdiv_lia.
    + change 15 with (2 ^ 4 - 1). rewrite land_pred_pow2 by lia. apply Z.mod_pos_bound. lia.
  - rewrite zlen_app, IH2, zlen_cons. change (zlen (hex_byte b)) with 2. lia.
Qed.

Lemma hex_text_nonzero l : hex_text l -> Forall (fun c => c <> 0) l.
Proof. intros H. apply (Forall_impl _ _ _ H). intros; lia. Qed.

(** ** Sending always works *)

Definition ask (counter destination command : Z) : HMFrame.t := HMFrame.Frame (u8 counter) destination command [] 0.

Lemma ask_ok counter destination command : is_byte destination -> is_byte command ->
  tool_frame_ok (ask counter destination command).
Proof. intros. split; try done; [apply u8_byte | constructor]. Qed.

Lemma sendFrame_on_ok stack counter destination command d : is_byte destination -> is_byte command ->
  zlen stack = 18 ->
  sendFrame_on stack counter destination command [] d =
    Ok (set_out (out d ++ [tool_wire (ask counter destination command)]) d).
Proof.
  intros Hd Hc Hs. unfold sendFrame_on. change (u16 (zlen [])) with 0. rewrite Hs. change (u16 18) with 18.
  fold (ask counter destination command). pose proof (ask_ok counter _ _ Hd Hc) as Hf.
  set (f := ask _ _ _) in *. destruct (tool_wire_length f Hf) as [Hw1 Hw2]. change (HMFrame.data_len f) with 0 in *.
  rewrite encode_escapes by (rewrite ?Hs; done || cbn; lia). rewrite Hs.
  destruct (Z.ltb_spec 18 (zlen (tool_wire f))); [lia|]. cbn [exec_bind]. do 4 f_equal.
  rewrite splice_prefix by lia. unfold slice, zlen. rewrite Nat2Z.id. apply (take_app_length (tool_wire f)).
Qed.

Lemma request_ok destination command d : is_byte destination -> is_byte command ->
  request destination command d =
    Ok (set_out (out d ++ [tool_wire (ask (_detectMsgCounter d) destination command)])
         (set_counter (_detectMsgCounter d + 1) d)).
Proof. intros. unfold request, sendFrame. by rewrite sendFrame_on_ok. Qed.

(** ** What has been found out *)

(** The SGTIN of a module, or what stands for it. *)
Definition sgtin_known (d : t) : Prop := hex_text (getSGTIN d) /\ zlen (getSGTIN d) = 24.

Definition derives_serial (type : Z) : Prop := type = RADIO_MODULE_RPI_RF_MOD \/ type = RADIO_MODULE_HMIP_RFUSB.

Definition serial_derived (d : t) : Prop := derives_serial (_radioModuleType d) -> getSerial d = drop 14 (getSGTIN d).

Definition legacy (d : t) : Prop :=
  _radioModuleType d = RADIO_MODULE_HM_MOD_RPI_PCB /\ getSGTIN d = str "n/a" /\ getHmIPRadioMAC d = 0.

(** The answers a module of a supported type has given when it has given all. *)
Definition complete (d : t) : Prop := sgtin_known d /\ serial_derived d \/ legacy d.

(** What each state stands for. *)
Definition phase (d : t) : Prop :=
  match _detectState d with
  | START_BL => _radioModuleType d = RADIO_MODULE_NONE \/ _radioModuleType d = RADIO_MODULE_UNKNOWN
  | START_APP => _radioModuleType d = RADIO_MODULE_UNKNOWN
  | GET_MCU_TYPE | GET_VERSION | GET_HMIP_RF_ADDRESS | GET_SGTIN => True
  | GET_BIDCOS_RF_ADDRESS => sgtin_known d /\ serial_derived d
  | GET_SERIAL => _radioModuleType d = RADIO_MODULE_HM_MOD_RPI_PCB /\ sgtin_known d
  | LEGACY_GET_VERSION | LEGACY_GET_BIDCOS_RF_ADDRESS | LEGACY_GET_SERIAL => legacy d
  | FINISHED => complete d
  end.

Record det_ok (d : t) : Prop := {
  do_serial : text_array 11 (_serial d);
  do_sgtin : text_array 25 (_sgtin d);
  do_version : zlen (_firmwareVersion d) = 3 /\ bytes (_firmwareVersion d);
  do_bidcos : 0 <= _bidCosRadioMAC d < 2 ^ 24;
  do_hmip : 0 <= _hmIPRadioMAC d < 2 ^ 24;
  do_type : is_byte (_radioModuleType d);
  do_semaphore : 0 <= _detectWaitFrameDataSemaphore d
}.

Lemma fresh_detector_ok : det_ok create /\ phase create.
Proof. split; [split; try done; split; [done | by apply bytes_check] | by left]. Qed.

(** How far a state is from the end. *)
Definition rank (s : detect_state) : Z :=
  match s with
  | START_BL => 0 | START_APP => 1 | GET_MCU_TYPE => 2 | GET_VERSION => 3 | GET_HMIP_RF_ADDRESS => 4
  | GET_SGTIN => 5 | GET_BIDCOS_RF_ADDRESS => 6 | GET_SERIAL => 7
  | LEGACY_GET_VERSION => 5 | LEGACY_GET_BIDCOS_RF_ADDRESS => 6 | LEGACY_GET_SERIAL => 7
  | FINISHED => 8
  end.

(** What a frame can do: nothing that counts, with at most one request to the
    boot loader or the application; or an advance with a wake-up; or a wake-up
    without an advance, when the address is refused. *)
Definition nack (f : HMFrame.t) (d : t) : Prop :=
  _detectState d = GET_BIDCOS_RF_ADDRESS /\ acked f HM_DST_LLMAC HM_CMD_LLMAC_ACK 1 0 = true /\
  ~ derives_serial (_radioModuleType d).

Inductive effect (f : HMFrame.t) (d d' : t) : Prop :=
| Quiet : _detectState d' = _detectState d ->
    _detectWaitFrameDataSemaphore d' = _detectWaitFrameDataSemaphore d -> effect f d d'
| Advance : rank (_detectState d) < rank (_detectState d') -> out d' = out d ->
    _detectWaitFrameDataSemaphore d' = _detectWaitFrameDataSemaphore d + 1 -> effect f d d'
| Refused : nack f d -> d' = sem_give d -> effect f d d'.

(** A result as it has to be. *)
Definition handles (f : HMFrame.t) (r : exec t) (d : t) : Prop :=
  exists d', r = Ok d' /\ det_ok d' /\ phase d' /\ effect f d d' /\ _detectRetryCount d' = _detectRetryCount d.

Record parsed (f : HMFrame.t) : Prop := {
  pf_data : bytes (HMFrame.data f);
  pf_len : 0 <= HMFrame.data_len f <= zlen (HMFrame.data f)
}.

Lemma TryParse_parsed buffer len f : bytes buffer -> len <= zlen buffer -> len < 2 ^ 16 ->
  HMFrame.TryParse buffer len = Some f -> parsed f.
Proof.
  intros Hb Hl Hs. unfold HMFrame.TryParse. destruct (Z.ltb_spec len 8); [done|].
  destruct (negb (buffer @@ 0 =? 0xfd)); [done|]. set (n := u16 _). pose proof (u16_range (Z.lor (Z.shiftl (buffer @@ 1) 8) (buffer @@ 2) - 3)).
  fold n in H0. destruct (Z.eqb_spec (n + 8) len); [|done]. cbn [negb]. destruct (negb _); [done|].
  intros [= <-]. split; cbn; [by apply bytes_drop|]. unfold zlen in *. rewrite length_drop. lia.
Qed.

Lemma data_byte f i : parsed f -> 0 <= i < zlen (HMFrame.data f) -> is_byte (HMFrame.data f @@ i).
Proof. intros [Hb _] Hi. apply (byte_at (HMFrame.data f) (zlen (HMFrame.data f)) i); [by apply bytes_take | lia | done]. Qed.

Lemma lor_range a b n : 0 <= n -> 0 <= a < 2 ^ n -> 0 <= b < 2 ^ n -> 0 <= Z.lor a b < 2 ^ n.
Proof.
  intros Hn Ha Hb. split; [apply Z.lor_nonneg; lia|].
  replace (Z.lor a b) with ((Z.lor a b) mod 2 ^ n); [apply Z.mod_pos_bound; lia|].
  rewrite <- Z.land_ones, Z.land_lor_distr_l, !Z.land_ones by done. by rewrite !Z.mod_small.
Qed.

Lemma three_bytes a b c : is_byte a -> is_byte b -> is_byte c -> 0 <= mac24 a b c < 2 ^ 24.
Proof.
  unfold is_byte, mac24. intros. rewrite !Z.shiftl_mul_pow2 by lia. apply lor_range; [lia | apply lor_range | ]; lia.
Qed.

Lemma address_range f i : parsed f -> 0 <= i -> i + 2 < HMFrame.data_len f -> 0 <= address f i < 2 ^ 24.
Proof. intros Hf Hi Hl. pose proof (pf_len f Hf). unfold address. apply three_bytes; apply data_byte; done || lia. Qed.

Lemma derived_address_range f : parsed f -> 12 < HMFrame.data_len f -> 0 <= derived_address f < 2 ^ 24.
Proof.
  intros Hf Hl. pose proof (pf_len f Hf). unfold derived_address.
  pose proof (three_bytes 0xff _ _ ltac:(done) (data_byte f 11 Hf ltac:(lia)) (data_byte f 12 Hf ltac:(lia))) as R.
  unfold mac24 in R. change (Z.shiftl 0xff 16) with 0xff0000 in R. destruct (_ =? _); [lia | exact R].
Qed.

Lemma acked_len f dst ack len code : acked f dst ack len code = true -> HMFrame.data_len f = len.
Proof. unfold acked. rewrite !andb_true_iff, !Z.eqb_eq. tauto. Qed.

(** ** Each state *)

(** The parts of [handles], when the result is known. *)
Ltac handled := eexists; split; [reflexivity|]; split; [|split; [|split; [|reflexivity]]].
Ltac det_fields := match goal with H : det_ok _ |- _ => destruct H; split; cbn in *; try done; try lia end.

Lemma ignored f d : det_ok d -> phase d -> handles f (Ok d) d.
Proof. intros. exists d. split_and!; try done. by apply Quiet. Qed.

Lemma asked f d destination command v : det_ok d -> phase (set_type v d) -> is_byte v -> is_byte destination ->
  is_byte command -> handles f (request destination command (set_type v d)) d.
Proof.
  intros Hd Hp Hv H1 H2. unfold handles. rewrite request_ok by done. handled; [by det_fields | done |].
  by apply Quiet.
Qed.

Lemma start_bl_ok f d : det_ok d -> phase d -> _detectState d = START_BL -> handles f (start_bl_frame f d) d.
Proof.
  intros Hd Hp Hs. unfold start_bl_frame.
  assert (P : phase (set_type RADIO_MODULE_UNKNOWN d)) by (unfold phase; cbn; rewrite Hs; by right).
  unfold handles. destruct (_ || _); [|destruct (_ || _); [|destruct (legacy_app f)]].
  - handled; [by det_fields | done|]. by apply Advance; cbn; rewrite ?Hs.
  - by apply asked.
  - by apply asked.
  - by apply ignored.
Qed.

Lemma start_app_ok f d : det_ok d -> phase d -> _detectState d = START_APP -> handles f (start_app_frame f d) d.
Proof.
  intros Hd Hp Hs. unfold start_app_frame. unfold handles.
  assert (E : set_type (_radioModuleType d) d = d) by (by destruct d).
  assert (A : forall x y, is_byte x -> is_byte y -> handles f (request x y d) d).
  { intros x y Hx Hy. pose proof (asked f d x y (_radioModuleType d)) as A. unfold handles in A.
    rewrite E in A. by apply A; [..|apply Hd| |]. }
  pose proof (do_sgtin d Hd) as [Hg0 Hg].
  destruct (trx_bl f); [by apply A|]. destruct (legacy_bl f); [by apply A|].
  destruct (_ || _).
  { handled; [by det_fields | done|]. by apply Advance; cbn; rewrite ?Hs. }
  destruct (legacy_app f); [|by apply ignored].
  cbn [set_state _sgtin]. rewrite write_into_ok by (rewrite Hg0; done). cbn [exec_bind]. handled.
  - det_fields. apply text_array_write; [done..|]. by left.
  - done.
  - by apply Advance; cbn; rewrite ?Hs.
Qed.

Lemma sgtin_written f d : parsed f -> det_ok d -> HMFrame.data_len f = 13 ->
  let text := flat_map hex_byte (slice (HMFrame.data f) 1 12) in
  write_into (_sgtin d) 0 (text ++ [0]) = Ok (splice (_sgtin d) 0 (text ++ [0])) /\
  text_array 25 (splice (_sgtin d) 0 (text ++ [0])) /\ cstr (splice (_sgtin d) 0 (text ++ [0])) = text /\
  hex_text text /\ zlen text = 24.
Proof.
  intros [Hb Hl] [_ [Hz He] _ _ _ _ _] Hn text.
  destruct (hex_bytes_text (slice (HMFrame.data f) 1 12)) as [Hx Hxl]; [by apply bytes_slice|].
  rewrite zlen_slice in Hxl by lia. fold text in Hx, Hxl.
  assert (L : zlen (text ++ [0]) = 25) by (rewrite zlen_app, Hxl; done).
  split; [apply write_into_ok; lia|]. split.
  - apply text_array_write; [done | by split | right; split; [lia|]]. change (25 - 1) with 24. by rewrite total_middle.
  - split; [|by split]. apply cstr_splice; [by apply hex_text_nonzero | lia].
Qed.

Lemma serial_written f d : parsed f -> det_ok d -> HMFrame.data_len f = 13 ->
  let text := flat_map hex_byte (slice (HMFrame.data f) 8 5) in
  derived_serial f d = Ok (set_serial (splice (_serial d) 0 (text ++ [0])) d) /\
  text_array 11 (splice (_serial d) 0 (text ++ [0])) /\ cstr (splice (_serial d) 0 (text ++ [0])) = text.
Proof.
  intros [Hb Hl] [[Hz He] _ _ _ _ _ _] Hn text.
  destruct (hex_bytes_text (slice (HMFrame.data f) 8 5)) as [Hx Hxl]; [by apply bytes_slice|].
  rewrite zlen_slice in Hxl by lia. fold text in Hx, Hxl.
  assert (L : zlen (text ++ [0]) = 11) by (rewrite zlen_app, Hxl; done).
  split; [unfold derived_serial; fold text; by rewrite write_into_ok by lia|]. split.
  - apply text_array_write; [done | by split | right; split; [lia|]]. change (11 - 1) with 10. by rewrite total_middle.
  - apply cstr_splice; [by apply hex_text_nonzero | lia].
Qed.

(** The serial number is the end of the SGTIN. *)
Lemma serial_of_sgtin l : zlen l >= 13 ->
  flat_map hex_byte (slice l 8 5) = drop 14 (flat_map hex_byte (slice l 1 12)).
Proof.
  intros Hl. assert (E : slice l 1 12 = slice l 1 7 ++ slice l 8 5).
  { unfold slice. change (Z.to_nat 12) with (7 + 5)%nat. change (Z.to_nat 8) with (1 + 7)%nat.
    rewrite <- drop_drop. change (Z.to_nat 1) with 1%nat. symmetry. apply take_take_drop. }
  rewrite E, flat_map_app. assert (L : forall x, length (flat_map hex_byte x) = (2 * length x)%nat).
  { induction x as [|b x IH]; [done|]. cbn [flat_map]. rewrite length_app, IH. cbn [length]. change (length (hex_byte b)) with 2%nat. lia. }
  rewrite drop_app_length'; [done|]. rewrite L, length_slice by lia. done.
Qed.

Lemma sgtin_frame_ok f d : parsed f -> det_ok d -> phase d -> _detectState d = GET_SGTIN ->
  handles f (sgtin_frame f d) d.
Proof.
  intros Hf Hd Hp Hs. unfold sgtin_frame.
  destruct (acked f _ _ 13 1) eqn:Ea; [apply acked_len in Ea | by apply ignored].
  destruct (sgtin_written f d Hf Hd Ea) as (E1 & A1 & C1 & X1 & L1). unfold handles. rewrite E1. cbn [exec_bind].
  set (text := flat_map _ _) in *. set (d1 := set_sgtin _ d).
  assert (Hd1 : det_ok d1) by (by det_fields).
  destruct (serial_written f d1 Hf Hd1 Ea) as (E2 & A2 & C2). set (serial := splice _ _ _) in E2, A2, C2.
  assert (D : cstr serial = drop 14 (getSGTIN d1)).
  { rewrite C2. unfold getSGTIN. cbn [d1 set_sgtin _sgtin]. rewrite C1. unfold text. apply serial_of_sgtin.
    pose proof (pf_len f Hf). lia. }
  assert (Hd2 : det_ok (set_serial serial d1)) by (clear - Hd1 A2; by det_fields).
  assert (K : sgtin_known d1) by (unfold sgtin_known, getSGTIN; cbn [d1 set_sgtin _sgtin]; by rewrite C1).
  pose proof (derived_address_range f Hf ltac:(lia)) as R.
  assert (F : forall d2, det_ok d2 -> phase d2 -> out d2 = out d -> _detectRetryCount d2 = _detectRetryCount d ->
    _detectWaitFrameDataSemaphore d2 = _detectWaitFrameDataSemaphore d -> 5 < rank (_detectState d2) ->
    handles f (let? d := Ok d2 in Ok (sem_give d)) d).
  { intros d2 H1 H2 H3 H4 H5 H6. exists (sem_give d2). split; [done|]. split; [by clear - H1; det_fields|].
    split; [done|]. split; [|done]. apply Advance; cbn; [by rewrite Hs | done | by rewrite H5]. }
  unfold handles in F. destruct (Z.eqb_spec (_radioModuleType d1) RADIO_MODULE_RPI_RF_MOD) as [T|T].
  { rewrite E2. apply F; [by clear - Hd2 R; det_fields | split; [exact K | intros _; exact D] | done..]. }
  destruct (Z.eqb_spec (_radioModuleType d1) RADIO_MODULE_HMIP_RFUSB) as [T'|T'].
  { rewrite E2. cbn [exec_bind]. destruct (_ <? 4).
    - apply F; [by clear - Hd2; det_fields | left; split; [exact K | intros _; exact D] | done..].
    - apply F; [by clear - Hd2 R; det_fields | split; [exact K | intros _; exact D] | done..]. }
  apply F; [by clear - Hd1; det_fields | | done..]. split; [done|]. intros [?|?]; contradiction.
Qed.

Lemma bidcos_frame_ok f d : parsed f -> det_ok d -> phase d -> _detectState d = GET_BIDCOS_RF_ADDRESS ->
  handles f (bidcos_frame f d) d.
Proof.
  intros Hf Hd Hp Hs. pose proof Hp as Hk. unfold phase in Hk. rewrite Hs in Hk. destruct Hk as [K1 K2].
  unfold handles, bidcos_frame. cbv beta zeta. destruct (acked f _ _ 4 1) eqn:Ea.
  - apply acked_len in Ea. pose proof (address_range f 1 Hf ltac:(lia) ltac:(lia)) as R.
    set (mac := if usable _ then _ else _). set (d1 := set_bidcos mac d).
    assert (Hm : 0 <= mac < 2 ^ 24) by (unfold mac; destruct (usable _); [done | apply (do_bidcos d Hd)]).
    clearbody mac. assert (Hd1 : det_ok d1) by (clear - Hd Hm; by det_fields).
    assert (E : _detectState d1 = _detectState d /\ _radioModuleType d1 = _radioModuleType d /\ getSGTIN d1 = getSGTIN d /\
      getSerial d1 = getSerial d /\ out d1 = out d /\ _detectRetryCount d1 = _detectRetryCount d /\
      _detectWaitFrameDataSemaphore d1 = _detectWaitFrameDataSemaphore d) by done.
    clearbody d1. destruct E as (E1 & E2 & E3 & E4 & E5 & E6 & E7).
    assert (C : sgtin_known d1 /\ serial_derived d1) by (unfold sgtin_known, serial_derived; by rewrite E2, E3, E4).
    eexists. split; [done|]. split; [by clear - Hd1; det_fields|]. split; [|split; [|done]].
    + destruct (Z.eqb_spec (_radioModuleType d1) RADIO_MODULE_HM_MOD_RPI_PCB) as [T|T]; [split; [exact T | exact (proj1 C)] | left; exact C].
    + apply Advance; cbn; [rewrite Hs; by destruct (_ =? _) | done | by rewrite E7].
  - destruct (acked f _ _ 1 0) eqn:En; [|by apply ignored].
    destruct ((_ =? RADIO_MODULE_RPI_RF_MOD) || _) eqn:Et.
    + handled; [by det_fields | by left |]. by apply Advance; cbn; rewrite ?Hs.
    + handled; [by det_fields | done |]. apply Refused; [|done]. split; [done|]. split; [done|].
      apply orb_false_iff in Et as [T1%Z.eqb_neq T2%Z.eqb_neq]. by intros [?|?].
Qed.

(** The last answer, of either kind of module. *)
Lemma serial_frame_ok f d : parsed f -> det_ok d -> _detectState d <> FINISHED -> 10 < HMFrame.data_len f ->
  _radioModuleType d = RADIO_MODULE_HM_MOD_RPI_PCB -> sgtin_known d \/ legacy d ->
  handles f (serial_frame f d) d.
Proof.
  intros Hf Hd Hs Hn Ht Hk. pose proof (pf_len f Hf). pose proof (do_serial d Hd) as [Hz He].
  assert (L : zlen (slice (HMFrame.data f) 1 10) = 10) by (apply zlen_slice; lia).
  unfold handles, serial_frame. rewrite write_into_ok by lia. cbn [exec_bind]. handled.
  - det_fields. apply text_array_write; [done | done | lia].
  - destruct Hk as [Hk|Hk]; [left | right; exact Hk]. split; [exact Hk|]. intros [T|T]; cbn in T; by rewrite Ht in T.
  - apply Advance; cbn; [|done..]. by destruct (_detectState d).
Qed.

Lemma version_frame_ok f i next d : parsed f -> det_ok d -> 0 <= i -> i + 3 <= HMFrame.data_len f ->
  rank (_detectState d) < rank next -> phase (set_state next d) ->
  handles f (version_frame f i next d) d.
Proof.
  intros Hf Hd Hi Hn Hr Hp. pose proof (pf_len f Hf). pose proof (do_version d Hd) as [Hz Hby].
  assert (L : zlen (slice (HMFrame.data f) i 3) = 3) by (apply zlen_slice; lia).
  unfold handles, version_frame. rewrite write_into_ok by lia. cbn [exec_bind]. handled.
  - det_fields. split; [rewrite zlen_splice by lia; done|]. rewrite splice_prefix by lia. apply bytes_app.
    split; [apply bytes_slice, (pf_data f Hf) | by apply bytes_drop].
  - done.
  - by apply Advance.
Qed.

Lemma handle_ok f d : parsed f -> det_ok d -> phase d -> handles f (handle f d) d.
Proof.
  intros Hf Hd Hp. pose proof Hp as Hk. pose proof (pf_len f Hf) as Hl. unfold phase in Hk.
  unfold handle. destruct (_detectState d) eqn:Es; try (by apply ignored);
    try (destruct (acked f _ _ _ _) eqn:Ea; [apply acked_len in Ea | by apply ignored]).
  - by apply start_bl_ok.
  - by apply start_app_ok.
  - handled; [by det_fields; apply data_byte; [|lia] | done |]. by apply Advance; cbn; rewrite ?Es.
  - apply version_frame_ok; try done; [lia | by rewrite Es].
  - handled; [by pose proof (address_range f 1 Hf ltac:(lia) ltac:(lia)); det_fields | done |].
    by apply Advance; cbn; rewrite ?Es.
  - by apply sgtin_frame_ok.
  - by apply bidcos_frame_ok.
  - apply serial_frame_ok; try done; [by rewrite Es | lia | apply Hk | left; apply Hk].
  - apply version_frame_ok; try done; [lia | by rewrite Es].
  - destruct (_ && _) eqn:Ea; [|by apply ignored]. rewrite !andb_true_iff, !Z.eqb_eq in Ea.
    handled; [by pose proof (address_range f 3 Hf ltac:(lia) ltac:(lia)); det_fields | done |].
    by apply Advance; cbn; rewrite ?Es.
  - apply serial_frame_ok; try done; [by rewrite Es | lia | apply Hk | by right].
Qed.

Lemma handleFrame_ok buffer len d : det_ok d -> phase d -> bytes buffer -> len <= zlen buffer -> len < 2 ^ 16 ->
  exists d', handleFrame buffer len d = Ok d' /\ det_ok d' /\ phase d' /\ _detectRetryCount d' = _detectRetryCount d /\
    (d' = d \/ exists f, HMFrame.TryParse buffer len = Some f /\ effect f d d').
Proof.
  intros Hd Hp Hb Hl Hs. unfold handleFrame. destruct (HMFrame.TryParse buffer len) as [f|] eqn:E.
  - destruct (handle_ok f d) as (d' & H1 & H2 & H3 & H4 & H5); [by eapply TryParse_parsed | done | done |].
    exists d'. split_and!; try done. right. eauto.
  - exists d. split_and!; try done. by left.
Qed.

(** ** What lies behind the frame does not matter *)

Definition trunc (f : HMFrame.t) : HMFrame.t :=
  HMFrame.Frame (HMFrame.counter f) (HMFrame.destination f) (HMFrame.command f)
    (take (Z.to_nat (HMFrame.data_len f)) (HMFrame.data f)) (HMFrame.data_len f).

Lemma trunc_at f i : 0 <= i < HMFrame.data_len f -> HMFrame.data (trunc f) @@ i = HMFrame.data f @@ i.
Proof. intros. cbn. apply lookup_total_take_lt. lia. Qed.

Lemma trunc_slice f i n : 0 <= i -> 0 <= n -> i + n <= HMFrame.data_len f ->
  slice (HMFrame.data (trunc f)) i n = slice (HMFrame.data f) i n.
Proof.
  intros. cbn. unfold slice. rewrite !take_drop_commute, take_take. f_equal. f_equal. lia.
Qed.

Lemma strncmp_take n a text : strncmp_eq n (take n a) text = strncmp_eq n a text.
Proof.
  revert a text. induction n as [|n IH]; intros a text; [done|]. destruct a as [|x a]; [done|].
  cbn [take strncmp_eq hd tail]. by rewrite IH.
Qed.

Lemma acked_trunc f dst ack len code : 0 < len -> acked (trunc f) dst ack len code = acked f dst ack len code.
Proof.
  intros Hl. unfold acked. cbn [trunc HMFrame.destination HMFrame.command HMFrame.data_len].
  destruct (Z.eqb_spec (HMFrame.data_len f) len); [by rewrite trunc_at by lia | by rewrite !andb_false_r].
Qed.

Lemma identified_trunc f dst ack code name : name <> [] ->
  identified (trunc f) dst ack code name = identified f dst ack code name.
Proof.
  intros Hn. unfold identified. fold (acked (trunc f) dst ack (zlen name + 1) code). fold (acked f dst ack (zlen name + 1) code).
  rewrite acked_trunc by (pose proof (zlen_nonneg name); lia). f_equal.
  - destruct (acked f _ _ _ _) eqn:E; [apply acked_len in E; cbn [andb] | done].
    rewrite <- (strncmp_take _ (drop 1 (HMFrame.data f))). cbn [trunc HMFrame.data]. f_equal.
    rewrite take_drop_commute. do 2 f_equal. unfold zlen in E. lia.
  - cbn [trunc HMFrame.destination HMFrame.command HMFrame.data_len].
    destruct (Z.eqb_spec (HMFrame.data_len f) (zlen name)) as [E|]; [|by rewrite !andb_false_r].
    rewrite <- (strncmp_take _ (HMFrame.data f)). cbn [trunc HMFrame.data]. rewrite E. unfold zlen. by rewrite Nat2Z.id.
Qed.

Lemma address_trunc f i : 0 <= i -> i + 2 < HMFrame.data_len f -> address (trunc f) i = address f i.
Proof. intros. unfold address. by rewrite !trunc_at by lia. Qed.

Lemma handle_trunc f d : handle (trunc f) d = handle f d.
Proof.
  unfold handle. destruct (_detectState d); try done;
    try (rewrite acked_trunc by lia; destruct (acked f _ _ _ _) eqn:E; [apply acked_len in E | done]).
  - unfold start_bl_frame, trx_bl, legacy_bl, dual_app, trx_app, legacy_app. by rewrite !identified_trunc.
  - unfold start_app_frame, trx_bl, legacy_bl, dual_app, trx_app, legacy_app. by rewrite !identified_trunc.
  - by rewrite trunc_at by lia.
  - unfold version_frame. by rewrite trunc_slice by lia.
  - by rewrite address_trunc by lia.
  - unfold sgtin_frame. rewrite acked_trunc by lia. destruct (acked f _ _ _ _) eqn:E; [apply acked_len in E | done].
    unfold derived_serial, derived_address. by rewrite !trunc_slice, !trunc_at by lia.
  - unfold bidcos_frame. rewrite !acked_trunc by lia. destruct (acked f _ _ 4 1) eqn:E; [apply acked_len in E | done].
    by rewrite address_trunc by lia.
  - unfold serial_frame. by rewrite trunc_slice by lia.
  - unfold version_frame. by rewrite trunc_slice by lia.
  - cbn [trunc HMFrame.destination HMFrame.command HMFrame.data_len].
    destruct (_ && _) eqn:E; [|done]. rewrite !andb_true_iff, !Z.eqb_eq in E. by rewrite address_trunc by lia.
  - unfold serial_frame. by rewrite trunc_slice by lia.
Qed.

Lemma TryParse_same buffer buffer' len : len <= zlen buffer -> len <= zlen buffer' ->
  take (Z.to_nat len) buffer' = take (Z.to_nat len) buffer ->
  match HMFrame.TryParse buffer len, HMFrame.TryParse buffer' len with
  | Some f, Some f' => trunc f = trunc f'
  | None, None => True
  | _, _ => False
  end.
Proof.
  intros H1 H2 E. assert (A : forall i, 0 <= i < len -> buffer' @@ i = buffer @@ i).
  { intros i Hi. rewrite <- (lookup_total_take_lt buffer (Z.to_nat len)), <- (lookup_total_take_lt buffer' (Z.to_nat len)) by lia.
    by rewrite E. }
  unfold HMFrame.TryParse. destruct (Z.ltb_spec len 8); [done|]. rewrite !A by lia.
  assert (C : HMFrame.crc buffer' (len - 2) = HMFrame.crc buffer (len - 2)).
  { unfold HMFrame.crc, slice. change (Z.to_nat 0) with 0%nat. rewrite !drop_0. f_equal.
    apply (f_equal (take (Z.to_nat (len - 2)))) in E. rewrite !take_take in E. by rewrite Nat.min_l in E by lia. }
  rewrite C. destruct (negb _); [done|]. destruct (Z.eqb_spec (u16 (Z.lor (Z.shiftl (buffer @@ 1) 8) (buffer @@ 2) - 3) + 8) len) as [L|]; [|done].
  cbn [negb]. destruct (negb _); [done|]. set (n := u16 _) in *. unfold trunc. cbn. f_equal.
  rewrite !take_drop_commute. f_equal. apply (f_equal (take (6 + Z.to_nat n))) in E. rewrite !take_take in E.
  by rewrite Nat.min_l in E by lia.
Qed.

(** C34 (invariant). Whatever frame arrives in whatever state, the detector
    handles it without leaving its arrays, and what it has found out stays well
    formed: terminated texts, addresses of 24 bits, a type of one byte, and in
    each state the answers that belong to it.  In particular a supported module
    with all its answers has an SGTIN of 24 capital hexadecimal digits from
    which the serial number is derived if the module has no other, or it is a
    legacy module.  Only the bytes of the frame count, not what else is in the
    buffer. *)
Theorem frame_handled (buffer : list Z) (len : Z) (d : t) :
  bytes buffer -> len <= zlen buffer -> len < 2 ^ 16 -> det_ok d -> phase d ->
  exists d', handleFrame buffer len d = Ok d' /\ det_ok d' /\ phase d' /\
    (_detectState d' = FINISHED -> complete d') /\
    rank (_detectState d) <= rank (_detectState d') /\
    forall buffer', len <= zlen buffer' -> take (Z.to_nat len) buffer' = take (Z.to_nat len) buffer ->
      handleFrame buffer' len d = Ok d'.
Proof.
  intros Hb Hl Hs Hd Hp. destruct (handleFrame_ok buffer len d Hd Hp Hb Hl Hs) as (d' & E & H1 & H2 & _ & H3).
  exists d'. split; [done|]. split; [done|]. split; [done|]. split.
  { intros F. unfold phase in H2. by rewrite F in H2. }
  split.
  - destruct H3 as [->|(f & _ & [-> _|? _ _|_ ->])]; cbn; lia.
  - intros buffer' Hl' Et. rewrite <- E. pose proof (TryParse_same buffer buffer' len Hl Hl' Et) as P.
    unfold handleFrame. destruct (HMFrame.TryParse buffer len) as [f|], (HMFrame.TryParse buffer' len) as [f'|]; try done.
    by rewrite <- handle_trunc, <- P, handle_trunc.
Qed.
End RadioModuleDetector.

(** ** The theorem on a concrete answer *)

Module DetectorSamples.
Import RadioModuleDetector.

(** The SGTIN of an RPI-RF-MOD. *)
Definition sgtin_answer : HMFrame.t :=
  HMFrame.Frame 7 HM_DST_COMMON HM_CMD_COMMON_ACK
    [1; 0x30; 0x14; 0xF7; 0x11; 0xA0; 0x61; 0xA7; 0xD5; 0x69; 0x9D; 0xAB; 0x52] 13.

Definition asked_sgtin : t := set_state GET_SGTIN (set_type RADIO_MODULE_RPI_RF_MOD create).

Lemma frame_handled_witness : exists d, handleFrame (tool_bytes sgtin_answer) 21 asked_sgtin = Ok d /\
  getSGTIN d = str "3014F711A061A7D5699DAB52" /\ getSerial d = str "D5699DAB52" /\ getBidCosRadioMAC d = 0xffab52 /\
  det_ok d /\ phase d.
Proof.
  destruct (frame_handled (tool_bytes sgtin_answer) 21 asked_sgtin) as (d & E & H1 & H2 & _);
    [by apply bytes_check | done | done | | done |].
  { split; try done. split; [done | by apply bytes_check]. }
  exists d. split; [exact E|]. vm_compute in E. injection E as <-. split_and!; try reflexivity; [exact H1 | exact H2].
Defined.
End DetectorSamples.
