(* ===== verification/DetectSys.v ===== *)
(** The two threads of the detection tool: [detectRadioModule]
    (src/detect_radio_module/radiomoduledetector.cpp), which asks and waits, and
    the reader of the connector (radiomoduleconnector.cpp), which parses what
    arrives and calls the detector.  The steps of the main thread are its
    statements, those of the reader single bytes. *)
From stdpp Require Import strings.
From S2P Require Import Prelude Kernel HmFrame DetectFrame StreamParser Detector.
Import RadioModuleDetector.

(** How [detectRadioModule] came to its end. *)
Inductive ending := Answered | TimedOut | GaveUp.

(** Where the main thread is: at the head of a loop, before a request, at a
    [sem_take], at the [switch], at the condition behind it, before the last
    [setFrameHandler], or at the end. *)
Inductive pc_t :=
| BootLoop | BootSend1 | BootWait1 | BootSend2 | BootWait2
| AppLoop | AppSend1 | AppWait1 | AppSend2 | AppWait2
| Select | CheckFinished (gave_up : bool) | AwaitAnswer
| Leave (e : ending) | Done (e : ending).

#[export] Instance ending_eq_dec : EqDecision ending.
Proof. solve_decision. Defined.
#[export] Instance pc_eq_dec : EqDecision pc_t.
Proof. solve_decision. Defined.

(** The detector, the connector's parser and handler, and the program counter. *)
Record sys := Sys { det : t; parser : StreamParser.t; frameHandler : bool; pc : pc_t }.

Definition goto (c : pc_t) (s : sys) : sys := Sys (det s) (parser s) (frameHandler s) c.
Definition with_det (d : t) (s : sys) : sys := Sys d (parser s) (frameHandler s) (pc s).

Definition setFrameHandler (h decodeEscaped : bool) (s : sys) : sys :=
  Sys (det s) (StreamParser.setDecodeEscaped decodeEscaped (parser s)) h (pc s).

(** ** The main thread *)

(** A wait ends when the semaphore can be taken, or after three seconds. *)
Definition sem_take (taken timeout : pc_t) (s : sys) : sys :=
  let n := _detectWaitFrameDataSemaphore (det s) in
  if 0 <? n then goto taken (with_det (set_semaphore (n - 1) (det s)) s) else goto timeout s.

(** The second wait of a round. *)
Definition sem_take_last (loop : pc_t) (s : sys) : sys :=
  let n := _detectWaitFrameDataSemaphore (det s) in
  if 0 <? n then goto loop (with_det (set_semaphore (n - 1) (det s)) s)
  else goto loop (with_det (set_retry (_detectRetryCount (det s) + 1) (det s)) s).

Definition send (next : pc_t) (destination command : Z) (s : sys) : exec sys :=
  let? d := request destination command (det s) in Ok (goto next (with_det d s)).

Definition select (s : sys) : exec sys :=
  let next := CheckFinished false in
  match _detectState (det s) with
  | START_BL | START_APP => Ok (goto (CheckFinished true) (with_det (set_state FINISHED (det s)) s))
  | GET_MCU_TYPE => send next HM_DST_TRX HM_CMD_TRX_GET_MCU_TYPE s
  | GET_VERSION => send next HM_DST_TRX HM_CMD_TRX_GET_VERSION s
  | GET_HMIP_RF_ADDRESS => send next HM_DST_HMIP HM_CMD_HMIP_GET_DEFAULT_RF_ADDR s
  | GET_SGTIN => send next HM_DST_COMMON HM_CMD_COMMON_GET_SGTIN s
  | GET_BIDCOS_RF_ADDRESS => send next HM_DST_LLMAC HM_CMD_LLMAC_GET_DEFAULT_RF_ADDR s
  | GET_SERIAL => send next HM_DST_LLMAC HM_CMD_LLMAC_GET_SERIAL s
  | LEGACY_GET_VERSION => send next HM_DST_HMSYSTEM HM_CMD_HMSYSTEM_GET_VERSION s
  | LEGACY_GET_BIDCOS_RF_ADDRESS => send next HM_DST_TRX HM_CMD_TRX_GET_DEFAULT_RF_ADDR s
  | LEGACY_GET_SERIAL => send next HM_DST_HMSYSTEM HM_CMD_HMSYSTEM_GET_SERIAL s
  | FINISHED => Ok (goto next s)
  end.

Definition at_loop (st : detect_state) (s : sys) : bool :=
  bool_decide (_detectState (det s) = st) && (_detectRetryCount (det s) <? 3).

(** A step of the main thread; a wait with nothing to take runs into its
    timeout. *)
Definition main_step (s : sys) : exec sys :=
  match pc s with
  | BootLoop =>
    Ok (if at_loop START_BL s then goto BootSend1 (with_det (set_type RADIO_MODULE_NONE (det s)) s)
        else goto AppLoop (with_det (set_retry 0 (det s)) s))
  | BootSend1 => send BootWait1 HM_DST_COMMON HM_CMD_COMMON_IDENTIFY s
  | BootWait1 => Ok (sem_take BootLoop BootSend2 s)
  | BootSend2 => send BootWait2 HM_DST_HMSYSTEM HM_CMD_HMSYSTEM_IDENTIFY s
  | BootWait2 => Ok (sem_take_last BootLoop s)
  | AppLoop => Ok (if at_loop START_APP s then goto AppSend1 s else goto Select s)
  | AppSend1 => send AppWait1 HM_DST_COMMON HM_CMD_COMMON_IDENTIFY s
  | AppWait1 => Ok (sem_take AppLoop AppSend2 s)
  | AppSend2 => send AppWait2 HM_DST_HMSYSTEM HM_CMD_HMSYSTEM_IDENTIFY s
  | AppWait2 => Ok (sem_take_last AppLoop s)
  | Select => select s
  | CheckFinished gave_up =>
    Ok (if decide (_detectState (det s) = FINISHED) then goto (Leave (if gave_up then GaveUp else Answered)) s
        else goto AwaitAnswer s)
  | AwaitAnswer => Ok (sem_take Select (Leave TimedOut) s)
  | Leave e => Ok (goto (Done e) (setFrameHandler false false s))
  | Done _ => Ok s
  end.

(** The beginning: the members are set, the semaphore is empty, and frames are
    handled from now on. *)
Definition detectRadioModule (d : t) (p : StreamParser.t) : sys :=
  setFrameHandler true true
    (Sys (set_semaphore 0 (set_counter 0 (set_retry 0 (set_state START_BL d)))) p false BootLoop).

(** ** The reader *)

Definition _handleFrame (f : StreamParser.frame) (s : sys) : exec sys :=
  if frameHandler s then let? d := handleFrame f.1 f.2 (det s) in Ok (with_det d s) else Ok s.

(** [readThreadProc]: a byte has been read. *)
Definition reader_step (chr : Z) (s : sys) : exec sys :=
  let? (f, p) := StreamParser.append chr (parser s) in
  let s := Sys (det s) p (frameHandler s) (pc s) in
  match f with Some f => _handleFrame f s | None => Ok s end.

(** ** Runs *)

Inductive action := Main | Byte (b : Z).

#[export] Instance action_eq_dec : EqDecision action.
Proof. solve_decision. Defined.

Definition step (a : action) (s : sys) : exec sys :=
  match a with Main => main_step s | Byte b => reader_step b s end.

Fixpoint run (l : list action) (s : sys) : exec sys :=
  match l with
  | [] => Ok s
  | a :: l => let? s := step a s in run l s
  end.

Lemma run_app l1 l2 s : run (l1 ++ l2) s = let? s := run l1 s in run l2 s.
Proof.
  revert s. induction l1 as [|a l1 IH]; intros s; [done|]. cbn [run app].
  destruct (step a s); cbn [exec_bind]; [apply IH | done..].
Qed.

Definition action_ok (a : action) : Prop := match a with Main => True | Byte b => is_byte b end.

(** The actions of the main thread, and the refusals that wake it up. *)
Definition mains (l : list action) : Z := zlen (filter (fun a => a = Main) l).

Definition wakes_in_vain (s s' : sys) : bool :=
  (_detectWaitFrameDataSemaphore (det s) <? _detectWaitFrameDataSemaphore (det s')) &&
  (rank (_detectState (det s)) =? rank (_detectState (det s'))).

Fixpoint refusals (l : list action) (s : sys) : Z :=
  match l with
  | [] => 0
  | a :: l => match step a s with Ok s' => b2z (wakes_in_vain s s') + refusals l s' | _ => 0 end
  end.

(** ** The invariant *)

(** What is known where. *)
Definition where_ok (s : sys) : Prop :=
  match pc s with
  | CheckFinished true | Leave GaveUp | Done GaveUp =>
    _detectState (det s) = FINISHED /\
    (_radioModuleType (det s) = RADIO_MODULE_NONE \/ _radioModuleType (det s) = RADIO_MODULE_UNKNOWN)
  | Leave Answered | Done Answered => _detectState (det s) = FINISHED /\ complete (det s)
  | BootSend1 | BootWait1 | BootSend2 | BootWait2 | AppSend1 | AppWait1 | AppSend2 | AppWait2 =>
    phase (det s) /\ _detectRetryCount (det s) < 3
  | _ => phase (det s)
  end.

Definition is_done (s : sys) : bool := match pc s with Done _ => true | _ => false end.

Record inv (s : sys) : Prop := {
  iv_det : det_ok (det s);
  iv_parser : StreamParser.safe (parser s);
  iv_retry : 0 <= _detectRetryCount (det s) <= 3;
  iv_handler : frameHandler s = negb (is_done s);
  iv_decode : StreamParser._decodeEscaped (parser s) = negb (is_done s);
  iv_where : where_ok s
}.

(** What is left to do: wake-ups that may still come, and the way of the main
    thread without them. *)
Definition way (c : pc_t) (retry : Z) : Z :=
  match c with
  | BootLoop => 21 + 5 * (3 - retry)
  | BootSend1 => 20 + 5 * (3 - retry)
  | BootWait1 => 19 + 5 * (3 - retry)
  | BootSend2 => 18 + 5 * (3 - retry)
  | BootWait2 => 17 + 5 * (3 - retry)
  | AppLoop => 5 + 5 * (3 - retry)
  | AppSend1 => 4 + 5 * (3 - retry)
  | AppWait1 => 3 + 5 * (3 - retry)
  | AppSend2 => 2 + 5 * (3 - retry)
  | AppWait2 => 1 + 5 * (3 - retry)
  | Select => 4 | CheckFinished _ => 3 | AwaitAnswer => 2 | Leave _ => 1 | Done _ => 0
  end.

Definition pot (s : sys) : Z :=
  5 * (_detectWaitFrameDataSemaphore (det s) + 8 - rank (_detectState (det s))) + way (pc s) (_detectRetryCount (det s)).

Lemma rank_bounds st : 0 <= rank st <= 8.
Proof. by destruct st. Qed.

Lemma pot_nonneg s : inv s -> 0 <= way (pc s) (_detectRetryCount (det s)) /\ 0 <= pot s.
Proof.
  intros [Hd _ Hr _ _ _]. unfold pot. pose proof (rank_bounds (_detectState (det s))). pose proof (do_semaphore _ Hd).
  unfold way. destruct (pc s); lia.
Qed.

Lemma send_ok next destination command s : is_byte destination -> is_byte command -> exists o c,
  send next destination command s = Ok (goto next (with_det (set_out o (set_counter c (det s))) s)).
Proof. intros H1 H2. unfold send. rewrite request_ok by done. eexists _, _. by cbn. Qed.

(** The parts of the invariant that a change of the detector does not touch. *)
Ltac inv_fields := match goal with
  | H : inv ?s |- inv _ =>
    let D := fresh in destruct H as [D ? ? ? ? ?]; split; cbn in *;
      [destruct D; split; cbn in *; try done; try lia | try done; try lia ..]
  end.

(** A step of the main thread succeeds, keeps the invariant and gets nearer to
    the end. *)
Definition advances (r : exec sys) (s : sys) : Prop := exists s', r = Ok s' /\ inv s' /\ pot s' < pot s.

Lemma goto_advances c d s : inv s -> pc s <> c -> det_ok d -> 0 <= _detectRetryCount d <= 3 ->
  where_ok (goto c (with_det d s)) -> is_done s = is_done (goto c s) ->
  pot (goto c (with_det d s)) < pot s -> advances (Ok (goto c (with_det d s))) s.
Proof.
  intros [? ? ? ? ? ?] Hc Hd Hr Hw E Hp. eexists. split; [done|]. split; [|done].
  assert (E' : is_done (goto c (with_det d s)) = is_done s) by (by rewrite E).
  by split; rewrite ?E'.
Qed.

(** Consuming a wake-up pays for going back. *)
Lemma sem_take_advances taken timeout s : inv s -> pc s <> taken -> pc s <> timeout -> is_done s = false ->
  is_done (goto taken s) = false -> is_done (goto timeout s) = false ->
  where_ok (goto timeout s) ->
  (forall n, where_ok (goto taken (with_det (set_semaphore n (det s)) s))) ->
  way taken (_detectRetryCount (det s)) < way (pc s) (_detectRetryCount (det s)) + 5 ->
  way timeout (_detectRetryCount (det s)) < way (pc s) (_detectRetryCount (det s)) ->
  advances (Ok (sem_take taken timeout s)) s.
Proof.
  intros Hi H1 H2 D D1 D2 W1 W2 L1 L2. pose proof Hi as [Hd _ Hr _ _ _]. unfold sem_take.
  destruct (Z.ltb_spec 0 (_detectWaitFrameDataSemaphore (det s))).
  - apply goto_advances; try done; [by clear - Hd H; det_fields | by rewrite D, D1 | unfold pot; cbn; lia].
  - apply (goto_advances timeout (det s)); try done; [by rewrite D, D2 | unfold pot; cbn; lia].
Qed.

Lemma sem_take_last_advances loop s : inv s -> pc s <> loop -> is_done s = false -> is_done (goto loop s) = false ->
  _detectRetryCount (det s) < 3 ->
  (forall d, _detectState d = _detectState (det s) -> _radioModuleType d = _radioModuleType (det s) ->
     _serial d = _serial (det s) -> _sgtin d = _sgtin (det s) -> _hmIPRadioMAC d = _hmIPRadioMAC (det s) ->
     where_ok (goto loop (with_det d s))) ->
  way loop (_detectRetryCount (det s)) < way (pc s) (_detectRetryCount (det s)) + 5 ->
  way loop (_detectRetryCount (det s) + 1) < way (pc s) (_detectRetryCount (det s)) ->
  advances (Ok (sem_take_last loop s)) s.
Proof.
  intros Hi H1 D D1 R W L1 L2. pose proof Hi as [Hd _ Hr _ _ _]. unfold sem_take_last.
  destruct (Z.ltb_spec 0 (_detectWaitFrameDataSemaphore (det s))).
  - apply goto_advances; try done; [by clear - Hd H; det_fields | by apply W | by rewrite D, D1 | unfold pot; cbn; lia].
  - apply goto_advances; try done; [by clear - Hd; det_fields | cbn; lia | by apply W | by rewrite D, D1 | unfold pot; cbn; lia].
Qed.

Lemma send_advances next destination command s : inv s -> pc s <> next -> is_byte destination -> is_byte command ->
  is_done s = false -> is_done (goto next s) = false ->
  (forall o c, where_ok (goto next (with_det (set_out o (set_counter c (det s))) s))) ->
  way next (_detectRetryCount (det s)) < way (pc s) (_detectRetryCount (det s)) ->
  advances (send next destination command s) s.
Proof.
  intros Hi H1 B1 B2 D D1 W L. pose proof Hi as [Hd _ Hr _ _ _].
  destruct (send_ok next destination command s B1 B2) as (o & c & ->).
  apply goto_advances; try done; [by clear - Hd; det_fields | by rewrite D, D1 | unfold pot; cbn; lia].
Qed.

Lemma select_advances s : inv s -> pc s = Select -> advances (select s) s.
Proof.
  intros Hi Hc. pose proof Hi as [Hd _ Hr _ _ Hw]. unfold where_ok in Hw. rewrite Hc in Hw.
  assert (D : is_done s = false) by (unfold is_done; by rewrite Hc).
  assert (S : forall x y, is_byte x -> is_byte y -> advances (send (CheckFinished false) x y s) s).
  { intros x y Hx Hy. apply send_advances; try done; [by rewrite Hc | by rewrite Hc]. }
  unfold select. assert (N : pc s <> CheckFinished true /\ pc s <> CheckFinished false) by (by rewrite Hc).
  destruct N as [N1 N2]. pose proof Hw as Hw'. unfold phase in Hw.
  destruct (_detectState (det s)) eqn:Es; try (by apply S).
  - apply goto_advances; try done; [by clear - Hd; det_fields | unfold pot; cbn; rewrite Es, Hc; cbn; lia].
  - apply goto_advances; try done; [by clear - Hd; det_fields | by split; [|right] | unfold pot; cbn; rewrite Es, Hc; cbn; lia].
  - apply (goto_advances _ (det s)); try done; [unfold pot; cbn; rewrite Hc; cbn; lia].
Qed.

Lemma at_loop_spec st s : at_loop st s = true <-> _detectState (det s) = st /\ _detectRetryCount (det s) < 3.
Proof. unfold at_loop. by rewrite andb_true_iff, bool_decide_eq_true, Z.ltb_lt. Qed.

(** Until the end every step of the main thread is possible, keeps the
    invariant and gets nearer to the end. *)
Lemma main_step_advances s : inv s -> is_done s = false -> advances (main_step s) s.
Proof.
  intros Hi D. pose proof Hi as [Hd _ Hr _ _ Hw]. unfold where_ok in Hw. unfold main_step.
  assert (P : forall d, _detectState d = _detectState (det s) -> _radioModuleType d = _radioModuleType (det s) ->
     _serial d = _serial (det s) -> _sgtin d = _sgtin (det s) -> _hmIPRadioMAC d = _hmIPRadioMAC (det s) ->
     phase (det s) -> phase d).
  { intros d E1 E2 E3 E4 E5. unfold phase, complete, legacy, serial_derived, sgtin_known, getSGTIN, getSerial, getHmIPRadioMAC.
    by rewrite E1, E2, E3, E4, E5. }
  destruct (pc s) eqn:Hc; try destruct Hw as [Hw1 Hw2].
  - destruct (at_loop START_BL s) eqn:L.
    + apply at_loop_spec in L as [L1 L2]. apply goto_advances; rewrite ?Hc; try done;
        [by clear - Hd; det_fields | by split; [unfold phase; cbn; rewrite L1; left|] | unfold pot; cbn; rewrite Hc; cbn; lia].
    + apply goto_advances; rewrite ?Hc; try done;
        [by clear - Hd; det_fields | unfold pot; cbn; rewrite Hc; cbn; lia].
  - apply send_advances; rewrite ?Hc; try done; cbn; lia.
  - apply sem_take_advances; rewrite ?Hc; try done; cbn; lia.
  - apply send_advances; rewrite ?Hc; try done; cbn; lia.
  - apply sem_take_last_advances; rewrite ?Hc; try done; [intros; by apply P | cbn; lia..].
  - destruct (at_loop START_APP s) eqn:L.
    + apply at_loop_spec in L as [L1 L2]. apply (goto_advances _ (det s)); rewrite ?Hc; try done;
        [unfold pot; cbn; rewrite Hc; cbn; lia].
    + apply (goto_advances _ (det s)); rewrite ?Hc; try done; [unfold pot; cbn; rewrite Hc; cbn; lia].
  - apply send_advances; rewrite ?Hc; try done; cbn; lia.
  - apply sem_take_advances; rewrite ?Hc; try done; cbn; lia.
  - apply send_advances; rewrite ?Hc; try done; cbn; lia.
  - apply sem_take_last_advances; rewrite ?Hc; try done; [intros; by apply P | cbn; lia..].
  - by apply select_advances.
  - destruct (decide _) as [F|F].
    + apply (goto_advances _ (det s)); rewrite ?Hc; try done; [| unfold pot; cbn; rewrite Hc; cbn; lia].
      destruct gave_up; [exact Hw|]. split; [done|]. unfold phase in Hw. by rewrite F in Hw.
    + apply (goto_advances _ (det s)); rewrite ?Hc; try done; [| unfold pot; cbn; rewrite Hc; cbn; lia].
      destruct gave_up; [by destruct Hw | exact Hw].
  - apply sem_take_advances; rewrite ?Hc; try done; cbn; lia.
  - eexists. split; [done|]. split; [|unfold pot; cbn; rewrite Hc; cbn; lia].
    pose proof (iv_parser s Hi) as [? ? ? ?]. split; cbn; try done.
  - unfold is_done in D. by rewrite Hc in D.
Qed.

(** ** The reader *)

Lemma finished_ignores buffer len d : _detectState d = FINISHED -> handleFrame buffer len d = Ok d.
Proof. intros H. unfold handleFrame, handle. rewrite H. by destruct (HMFrame.TryParse buffer len). Qed.

Lemma where_phase s : where_ok s -> _detectState (det s) <> FINISHED -> phase (det s).
Proof.
  intros H F. unfold where_ok in H.
  destruct (pc s) as [| | | | | | | | | | |[]| |[]|[]]; try done; try apply H; by destruct H.
Qed.

Lemma where_frame d s : where_ok s -> _detectRetryCount d = _detectRetryCount (det s) -> phase d ->
  _detectState (det s) <> FINISHED -> where_ok (with_det d s).
Proof.
  intros H R P F. unfold where_ok in *. cbn.
  destruct (pc s) as [| | | | | | | | | | |[]| |[]|[]]; try done; rewrite ?R; try (by split; [|apply H]); by destruct H.
Qed.

Lemma frame_arrives buffer len s : inv s -> bytes buffer -> len <= zlen buffer -> len < 2 ^ 16 ->
  exists d, handleFrame buffer len (det s) = Ok d /\ inv (with_det d s) /\
    pot (with_det d s) <= pot s + 5 * b2z (wakes_in_vain s (with_det d s)).
Proof.
  intros Hi Hb Hl Hs. assert (B : forall x, 0 <= b2z x) by (by intros []).
  assert (U : exists d, d = det s /\ inv (with_det d s) /\ pot (with_det d s) <= pot s + 5 * b2z (wakes_in_vain s (with_det d s))).
  { exists (det s). split; [done|]. split; [by destruct s|]. pose proof (B (wakes_in_vain s (with_det (det s) s))).
    unfold pot in *. cbn. lia. }
  destruct (decide (_detectState (det s) = FINISHED)) as [F|F].
  { rewrite finished_ignores by done. destruct U as (d & -> & U). by exists (det s). }
  pose proof Hi as [Hd ? Hr ? ? Hw].
  destruct (handleFrame_ok buffer len (det s) Hd (where_phase s Hw F) Hb Hl Hs) as (d & E & D1 & D2 & D3 & D4).
  exists d. split; [done|]. split; [split; cbn; try done; [lia | by apply where_frame]|].
  destruct D4 as [->|(f & _ & D4)]; [destruct U as (d & -> & _ & U); exact U|].
  pose proof (B (wakes_in_vain s (with_det d s))). unfold pot. cbn. rewrite D3.
  destruct D4 as [E1 E2|E1 E2 E3|E1 E2].
  - rewrite E1, E2. lia.
  - rewrite E3. lia.
  - subst d. unfold wakes_in_vain. cbn. rewrite (proj2 (Z.ltb_lt _ _)), Z.eqb_refl by lia. cbn. lia.
Qed.

(** While frames are handled every byte can be received. *)
Lemma reader_step_ok b s : inv s -> is_byte b -> is_done s = false ->
  exists s', reader_step b s = Ok s' /\ inv s' /\ pot s' <= pot s + 5 * b2z (wakes_in_vain s s').
Proof.
  intros Hi Hb D. pose proof Hi as [Hd Hp Hr Hh Hc Hw]. unfold reader_step.
  destruct (StreamParser.append_cases (parser s) b Hp Hb) as [[_ (O & _)]|[_ (f & p & -> & S & C & M)]].
  { by rewrite Hc, D in O. }
  cbn [exec_bind]. set (s1 := Sys (det s) p (frameHandler s) (pc s)).
  assert (Hi1 : inv s1) by (split; cbn; try done; by rewrite C).
  assert (E : pot s1 = pot s) by done.
  destruct f as [f|].
  - unfold _handleFrame. change (frameHandler s1) with (frameHandler s). rewrite Hh, D. cbn [negb].
    destruct M as (M1 & M2 & M3). unfold StreamParser.BUFFER_SIZE in *.
    destruct (frame_arrives f.1 f.2 s1 Hi1 M2 ltac:(lia) ltac:(lia)) as (d & -> & Hi2 & P).
    exists (with_det d s1). split; [done|]. split; [done|]. rewrite <- E. exact P.
  - exists s1. split; [done|]. split; [done|]. rewrite E. unfold b2z. destruct (wakes_in_vain s s1); lia.
Qed.

(** Afterwards the detector is left alone. *)
Lemma reader_step_done b s s' : inv s -> is_byte b -> is_done s = true -> reader_step b s = Ok s' ->
  inv s' /\ det s' = det s /\ pc s' = pc s.
Proof.
  intros Hi Hb D. pose proof Hi as [Hd Hp Hr Hh Hc Hw]. unfold reader_step.
  destruct (StreamParser.append_cases (parser s) b Hp Hb) as [[-> _]|[_ (f & p & -> & S & C & M)]]; [done|].
  cbn [exec_bind]. unfold _handleFrame. cbn [frameHandler]. rewrite Hh, D. cbn [negb].
  intros E. assert (s' = Sys (det s) p (frameHandler s) (pc s)) as -> by (rewrite Hh, D; destruct f; by injection E).
  split; [|done]. split; cbn; try done. by rewrite C.
Qed.

(** ** Runs *)

Lemma detection_start_inv p : StreamParser.safe p -> inv (detectRadioModule create p) /\ pot (detectRadioModule create p) = 76.
Proof.
  intros [? ? ? ?]. split; [|done]. destruct fresh_detector_ok as [C1 C2]. split; try done.
Qed.

Lemma step_inv a s s' : inv s -> action_ok a -> step a s = Ok s' ->
  inv s' /\ (is_done s = true -> det s' = det s /\ pc s' = pc s).
Proof.
  intros Hi Ha E. destruct (is_done s) eqn:D.
  - destruct a as [|b]; [|by destruct (reader_step_done b s s' Hi Ha D E) as (H1 & H2 & H3)].
    cbn [step] in E. unfold main_step in E. unfold is_done in D. destruct (pc s) eqn:Ec; try done. by injection E as <-.
  - split; [|done]. destruct a as [|b]; cbn [step] in E.
    + destruct (main_step_advances s Hi D) as (s1 & E1 & H & _). congruence.
    + destruct (reader_step_ok b s Hi Ha D) as (s1 & E1 & H & _). congruence.
Qed.

Lemma run_inv l : forall s s', inv s -> Forall action_ok l -> run l s = Ok s' -> inv s'.
Proof.
  induction l as [|a l IH]; intros s s' Hi Hl E; [by injection E as <-|]. cbn [run] in E. inversion_clear Hl as [|? ? Ha Hl'].
  destruct (step a s) as [s1| | | |] eqn:E1; try done. apply (IH s1); [by eapply step_inv | done | done].
Qed.

Lemma run_done l : forall s s', inv s -> Forall action_ok l -> run l s = Ok s' -> is_done s = true ->
  is_done s' = true.
Proof.
  induction l as [|a l IH]; intros s s' Hi Hl E D; [by injection E as <-|]. cbn [run] in E.
  inversion_clear Hl as [|? ? Ha Hl']. destruct (step a s) as [s1| | | |] eqn:E1; try done.
  destruct (step_inv a s s1 Hi Ha E1) as [Hi1 Hd]. apply (IH s1); try done.
  unfold is_done in *. by rewrite (proj2 (Hd D)).
Qed.


Lemma run_pot l : forall s s', inv s -> Forall action_ok l -> run l s = Ok s' ->
  is_done s' = true \/ mains l + pot s' <= pot s + 5 * refusals l s.
Proof.
  induction l as [|a l IH]; intros s s' Hi Hl E.
  { injection E as <-. right. change (mains []) with 0. cbn [refusals]. lia. }
  destruct (is_done s) eqn:D; [left; by eapply run_done|].
  cbn [run refusals] in *. inversion_clear Hl as [|? ? Ha Hl'].
  destruct (step a s) as [s1| | | |] eqn:E1; try done. cbn [exec_bind] in E.
  destruct (step_inv a s s1 Hi Ha E1) as [Hi1 _].
  destruct (IH s1 s' Hi1 Hl' E) as [H|H]; [by left|right]. unfold mains in *. rewrite filter_cons.
  destruct a as [|b]; cbn [step] in E1.
  - rewrite decide_True by done. rewrite zlen_cons. destruct (main_step_advances s Hi D) as (s2 & E2 & _ & P).
    assert (s2 = s1) as -> by congruence. destruct (wakes_in_vain s s1); cbn [b2z]; lia.
  - rewrite decide_False by done. destruct (reader_step_ok b s Hi Ha D) as (s2 & E2 & _ & P).
    assert (s2 = s1) as -> by congruence. lia.
Qed.

(** C32 (termination). The detection comes to an end: the main thread takes at
    most 76 steps, and 5 more for each time the module refuses to tell its
    address and is asked again, whatever else arrives.  Each step takes at most
    the three seconds of its wait. *)
Theorem detection_terminates (l : list action) (p : StreamParser.t) (s : sys) :
  StreamParser.safe p -> Forall action_ok l -> run l (detectRadioModule create p) = Ok s ->
  76 + 5 * refusals l (detectRadioModule create p) < mains l -> exists e, pc s = Done e.
Proof.
  intros Hp Hl E Hm. destruct (detection_start_inv p Hp) as [Hi P]. pose proof (run_inv l _ s Hi Hl E) as Hs.
  destruct (run_pot l _ s Hi Hl E) as [D|H].
  - unfold is_done in D. destruct (pc s); try done. eauto.
  - pose proof (proj2 (pot_nonneg s Hs)). lia.
Qed.

(** ** Whole frames *)

Fixpoint handle_all (fs : list StreamParser.frame) (d : t) : exec t :=
  match fs with
  | [] => Ok d
  | f :: fs => let? d := handleFrame f.1 f.2 d in handle_all fs d
  end.

(** Bytes that the parser can take lead to the frames being handled. *)
Lemma run_bytes l : forall s fs p, frameHandler s = true -> StreamParser.append_all l (parser s) = Ok (fs, p) ->
  run (map Byte l) s = let? d := handle_all fs (det s) in Ok (Sys d p true (pc s)).
Proof.
  induction l as [|b l IH]; intros s fs p Hh E; cbn [map run StreamParser.append_all] in *.
  { injection E as <- <-. cbn. destruct s. cbn in *. by subst. }
  cbn [step]. unfold reader_step. destruct (StreamParser.append b (parser s)) as [[f p1]| | | |]; try done.
  cbn [exec_bind] in *. destruct (StreamParser.append_all l p1) as [[fs1 p2]| | | |] eqn:E1; try done.
  cbn [exec_bind] in E. injection E as <- <-. destruct f as [f|].
  - unfold _handleFrame. cbn [frameHandler]. rewrite Hh. cbn [handle_all det]. destruct (handleFrame f.1 f.2 (det s)) as [d| | | |]; try done.
    cbn [exec_bind with_det det parser frameHandler pc]. by rewrite (IH _ fs1 p2).
  - cbn [exec_bind]. by rewrite (IH _ fs1 p2).
Qed.

(** A frame that arrives in one piece is handled. *)
Lemma frame_delivered f s : inv s -> is_done s = false -> tool_frame_ok f ->
  HMFrame.data_len f + 8 <= StreamParser.BUFFER_SIZE ->
  exists p, run (map Byte (tool_wire f)) s = (let? d := handle f (det s) in Ok (Sys d p true (pc s))) /\
    StreamParser.safe p /\ StreamParser._decodeEscaped p = true.
Proof.
  intros Hi D Hf Hl. pose proof (iv_handler s Hi) as Hh. pose proof (iv_decode s Hi) as Hc. rewrite D in Hh, Hc.
  destruct (StreamParser.wire_received f (parser s) (iv_parser s Hi) Hc Hf Hl) as (p & E & S & C & T).
  exists p. split; [|done]. rewrite (run_bytes _ s _ p Hh E). cbn [handle_all fst snd].
  destruct (tool_parse_bytes f (StreamParser._buffer p) Hf ltac:(unfold StreamParser.BUFFER_SIZE in *; lia) T)
    as (data & Ep & Ed).
  unfold handleFrame. rewrite Ep. rewrite <- (handle_trunc f), <- handle_trunc. unfold trunc at 1.
  cbn [HMFrame.counter HMFrame.destination HMFrame.command HMFrame.data HMFrame.data_len].
  unfold slice in Ed. change (Z.to_nat 0) with 0%nat in Ed. rewrite !drop_0 in Ed. rewrite Ed. fold (trunc f).
  by destruct (handle (trunc f) (det s)).
Qed.

(** ** A module that refuses its address *)

(** The main thread is about to ask a module for its address that has no other. *)
Definition asking (s : sys) : Prop :=
  inv s /\ pc s = Select /\ _detectState (det s) = GET_BIDCOS_RF_ADDRESS /\
  _detectWaitFrameDataSemaphore (det s) = 0 /\ ~ derives_serial (_radioModuleType (det s)).

Definition refusal : HMFrame.t := HMFrame.Frame 0 HM_DST_LLMAC HM_CMD_LLMAC_ACK [0] 1.

Definition round : list action := [Main; Main] ++ map Byte (tool_wire refusal) ++ [Main].

Lemma round_ok : Forall action_ok round.
Proof.
  apply Forall_app. split; [by repeat constructor|]. apply Forall_app. split; [|by repeat constructor].
  apply Forall_map. change (bytes (tool_wire refusal)). by apply bytes_check.
Qed.

Lemma refusal_handled d : _detectState d = GET_BIDCOS_RF_ADDRESS -> ~ derives_serial (_radioModuleType d) ->
  handle refusal d = Ok (sem_give d).
Proof.
  intros Hs Ht. unfold handle. rewrite Hs. unfold bidcos_frame.
  change (acked refusal HM_DST_LLMAC HM_CMD_LLMAC_ACK 4 1) with false.
  change (acked refusal HM_DST_LLMAC HM_CMD_LLMAC_ACK 1 0) with true. cbv iota.
  destruct (Z.eqb_spec (_radioModuleType d) RADIO_MODULE_RPI_RF_MOD), (Z.eqb_spec (_radioModuleType d) RADIO_MODULE_HMIP_RFUSB);
    try done; exfalso; apply Ht; unfold derives_serial; tauto.
Qed.

Lemma one_round s : asking s -> exists s', run round s = Ok s' /\ asking s' /\
  length (out (det s')) = S (length (out (det s))).
Proof.
  intros (Hi & Hc & Hs & Hn & Ht). unfold round. rewrite run_app. cbn [run step].
  unfold main_step at 1. rewrite Hc. unfold select. rewrite Hs. unfold send. rewrite request_ok by done. cbn [exec_bind].
  set (d := set_out _ _). set (s1 := goto (CheckFinished false) (with_det d s)).
  assert (Hm : main_step s1 = Ok (goto AwaitAnswer s1)).
  { unfold main_step. change (pc s1) with (CheckFinished false). cbv iota.
    rewrite decide_False; [done|]. change (_detectState (det s1)) with (_detectState (det s)). by rewrite Hs. }
  rewrite Hm. cbn [exec_bind]. set (s2 := goto AwaitAnswer s1).
  assert (Hi2 : inv s2).
  { destruct Hi as [Hd Hp Hr Hh Hdec Hw]. assert (D : is_done s = false) by (unfold is_done; by rewrite Hc).
    rewrite D in Hh, Hdec. split; try done; [by clear - Hd; det_fields|]. unfold where_ok in *. rewrite Hc in Hw. exact Hw. }
  rewrite run_app. destruct (frame_delivered refusal s2 Hi2 eq_refl) as (p & E & S & C); [|done|].
  { split; try done. by apply bytes_check. }
  rewrite E, refusal_handled by done. cbn [exec_bind run step]. unfold main_step. cbn [pc]. change (pc s2) with AwaitAnswer.
  cbv iota. unfold sem_take. cbn [det]. change (_detectWaitFrameDataSemaphore (sem_give (det s2))) with
    (_detectWaitFrameDataSemaphore (det s) + 1). rewrite Hn. change (0 <? 0 + 1) with true. cbv iota. cbn [exec_bind].
  eexists. split; [done|]. split.
  - split; [|by split_and!]. destruct Hi2 as [Hd Hp Hr Hh Hdec Hw]. split; try done. by clear - Hd; det_fields.
  - cbn. rewrite length_app. cbn. lia.
Qed.

(** A module whose type has no address of its own making, and
    that always refuses to tell its address, keeps the detection busy for ever:
    the request is repeated at once after each refusal, any number of times. *)
Theorem refused_for_ever (n : nat) (s : sys) : asking s ->
  let l := concat (repeat round n) in
  Forall action_ok l /\ mains l = 3 * Z.of_nat n /\
  exists s', run l s = Ok s' /\ asking s' /\ length (out (det s')) = (n + length (out (det s)))%nat.
Proof.
  revert s. induction n as [|n IH]; intros s Ha; cbv zeta; cbn [repeat concat].
  { split; [constructor|]. split; [done|]. by exists s. }
  destruct (one_round s Ha) as (s1 & E1 & A1 & L1). destruct (IH s1 A1) as (F & M & s2 & E2 & A2 & L2).
  split; [apply Forall_app; split; [apply round_ok | exact F]|]. split.
  - unfold mains in *. rewrite filter_app, zlen_app, M.
    change (zlen (filter (fun a => a = Main) round)) with 3. lia.
  - exists s2. rewrite run_app, E1. cbn [exec_bind]. split; [exact E2|]. split; [exact A2|]. lia.
Qed.

(** ** The theorems on concrete runs *)

Module DetectSysSamples.
Definition fresh : StreamParser.t := StreamParser.create false (replicate 2048 0) 0 0.

Lemma fresh_safe : StreamParser.safe fresh.
Proof. split; [split; [done | by apply Forall_replicate] | done | done | done]. Qed.

(** A module in its boot loader answers the first request. *)
Definition boot_answer : HMFrame.t := HMFrame.Frame 0 HM_DST_COMMON HM_CMD_COMMON_ACK (1 :: str "HMIP_TRX_Bl") 12.

Definition booting : list action := [Main; Main] ++ map Byte (tool_wire boot_answer).

Lemma booting_ok : Forall action_ok booting.
Proof.
  apply Forall_app. split; [by repeat constructor|]. apply Forall_map. change (bytes (tool_wire boot_answer)).
  by apply bytes_check.
Qed.


Lemma detection_terminates_witness : exists s e,
  run (repeat Main 77) (detectRadioModule create fresh) = Ok s /\ pc s = Done e.
Proof.
  destruct (run (repeat Main 77) (detectRadioModule create fresh)) as [s| | | |] eqn:E; [|by vm_compute in E..].
  exists s. destruct (detection_terminates (repeat Main 77) fresh s fresh_safe) as [e He];
    [by repeat constructor | exact E | by vm_compute |].
  exists e. by split.
Defined.

(** A module of the first kind that has told its SGTIN. *)
Definition silent : t :=
  set_state GET_BIDCOS_RF_ADDRESS (set_type RADIO_MODULE_HM_MOD_RPI_PCB
    (set_sgtin (str "3014F711A061A7D5699DAB52" ++ [0]) create)).

Lemma silent_asking : asking (Sys silent (StreamParser.setDecodeEscaped true fresh) true Select).
Proof.
  split; [|split_and!; try done; by intros [?|?]]. split; try done.
  - split; try done. split; [done | by apply bytes_check].
  - split; [split; [done | by apply Forall_replicate] | done | done | done].
  - split; [split; [|done] | by intros [?|?]]. unfold hex_text.
    assert (H : forallb (fun c => ((0x30 <=? c) && (c <=? 0x39)) || ((0x41 <=? c) && (c <=? 0x46))) (getSGTIN silent) = true)
      by (by vm_compute).
    apply Forall_forall. intros c Hc. rewrite forallb_forall in H. apply list_elem_of_In, H in Hc. lia.
Qed.

Lemma refused_for_ever_witness : exists l s', mains l = 3000 /\
  run l (Sys silent (StreamParser.setDecodeEscaped true fresh) true Select) = Ok s' /\ asking s' /\
  length (out (det s')) = 1000%nat.
Proof.
  destruct (refused_for_ever 1000 _ silent_asking) as (_ & M & s' & E & A & L). eexists _, s'. split_and!; [exact M | exact E | exact A | exact L].
Defined.
End DetectSysSamples.
