(* ===== verification/DetectFake.v ===== *)
(** The detection tool talking to the fake radio module: [detectRadioModule]
    (src/detect_radio_module) at one end of a wire that has [fake_hmrf]
    (src/kernel/fake_hmrf.c) at the other.  A timeout passes only when nothing
    is on the way any more. *)
From stdpp Require Import strings.
From S2P Require Import Prelude Kernel Ring HmFrame FakeHmrf DetectFrame StreamParser Detector DetectSys.
Import RadioModuleDetector.

(** ** The wire *)

Section Wire.
Context `{CB : CircBuf}.

(** The reader of the tool takes single bytes. *)
Fixpoint drain (fuel : nat) (k : hmrf) : list Z * hmrf :=
  match fuel with
  | O => ([], k)
  | S fuel =>
    match fake_hmrf_read true false 1 k with
    | (Ret r, d, k') => if r <? 0 then ([], k) else let (l, k') := drain fuel k' in (d ++ l, k')
    | (Wait, _, _) => ([], k)
    end
  end.

(** What the tool has written goes to the module, and its answer back. *)
Fixpoint serve (fuel : nat) (s : sys) (k : hmrf) : exec (sys * hmrf) :=
  match fuel with
  | O => NoFuel
  | S fuel =>
    match out (det s) with
    | [] => Ok (s, k)
    | w :: ws =>
      let? (_, k) := fake_hmrf_write false Copied w k in
      let (l, k) := drain (Z.to_nat RX_BUF_SIZE) k in
      let? s := run (map Byte l) (with_det (set_out ws (det s)) s) in
      serve fuel s k
    end
  end.

(** The main thread, with each of its requests served before it goes on. *)
Fixpoint dialogue (fuel : nat) (s : sys) (k : hmrf) : exec (sys * hmrf) :=
  match fuel with
  | O => NoFuel
  | S fuel =>
    let? s := main_step s in
    if is_done s then Ok (s, k) else
    let? (s, k) := serve 4 s k in
    dialogue fuel s k
  end.
End Wire.

(** ** The same in terms of frames *)

Definition from_kernel (a : hm_frame) : HMFrame.t :=
  HMFrame.Frame (cnt a) (dst a) (cmd a @@ 0) (drop 1 (cmd a)) (cmdlen a - 1).

(** The request a written packet is. *)
Definition requested (w : list Z) : option hm_frame :=
  match unescape w with
  | Some b =>
    let f := HmFrame (b @@ 3) (b @@ 4) [b @@ 5] 1 in
    if (zlen w <=? BUF_SIZE) && bool_decide (frame_bytes f = b) && forallb (fun b => (0 <=? b) && (b <? 256)) [dst f; cnt f; b @@ 5]
    then Some f else None
  | None => None
  end.

(** The fake module as the parameters it has been loaded with, its mode, and
    the answers it has given. *)
Fixpoint talk_serve (fuel : nat) (k0 : hmrf) (bl : bool) (s : sys) : exec (sys * bool * list hm_frame) :=
  match fuel with
  | O => NoFuel
  | S fuel =>
    match out (det s) with
    | [] => Ok (s, bl, [])
    | w :: ws =>
      let? f := entry (requested w) in
      let s := with_det (set_out ws (det s)) s in
      let (response, bl) := fake_hmrf_dispatch (set_in_bl bl k0) (dst f) (cmd f @@ 0) in
      match response with
      | None => talk_serve fuel k0 bl s
      | Some r =>
        let a := answer f r in
        let? d := handle (from_kernel a) (det s) in
        let? (s, bl, tr) := talk_serve fuel k0 bl (with_det d s) in
        Ok (s, bl, a :: tr)
      end
    end
  end.

Fixpoint talk (fuel : nat) (k0 : hmrf) (bl : bool) (s : sys) : exec (sys * list hm_frame) :=
  match fuel with
  | O => NoFuel
  | S fuel =>
    let? s := main_step s in
    if is_done s then Ok (s, []) else
    let? (s, bl, tr) := talk_serve 4 k0 bl s in
    let? (s, tr') := talk fuel k0 bl s in
    Ok (s, tr ++ tr')
  end.

(** An answer that the module escapes as its reader expects it. *)
Definition clean (a : hm_frame) : Prop := wire a = tool_wire (from_kernel a).

(** The module with some parameters, in the middle of a talk. *)
Record serves (k0 : hmrf) (bl : bool) (k : hmrf) : Prop := {
  sv_ok : hmrf_ok k;
  sv_empty : contents RX_BUF_SIZE (fake_hmrf_rxbuf k) = [];
  sv_bl : is_in_bl k = bl;
  sv_version : trx_get_version_response k = trx_get_version_response k0;
  sv_llmac : llmac_get_default_rf_address_response k = llmac_get_default_rf_address_response k0;
  sv_serial : llmac_get_serial_response k = llmac_get_serial_response k0;
  sv_hmip : hmip_get_default_rf_address_response k = hmip_get_default_rf_address_response k0
}.

Lemma unescape_escape_all l : unescape (escape_all l) = Some l.
Proof.
  induction l as [|b l IH]; [done|]. cbn [escape_all]. unfold special.
  destruct (Z.eqb_spec b 0xfc) as [->|H1]; [cbn; by rewrite IH|].
  destruct (Z.eqb_spec b 0xfd) as [->|H2]; [cbn; by rewrite IH|].
  cbn. apply Z.eqb_neq in H1. by rewrite H1, IH.
Qed.

Lemma requested_spec w f : requested w = Some f -> frame_ok f /\ unescape w = Some (frame_bytes f) /\ zlen w <= BUF_SIZE.
Proof.
  unfold requested. destruct (unescape w) as [b|]; [|done].
  destruct (Z.leb_spec (zlen w) BUF_SIZE) as [Hw|]; [|done].
  destruct (bool_decide _) eqn:E; [|done]. cbn [andb]. apply bool_decide_eq_true in E.
  destruct (forallb _ _) eqn:Eb; [|done]. cbn [dst cnt] in Eb. intros [= <-]. apply bytes_check in Eb.
  apply bytes_cons in Eb as [B1 Eb]. apply bytes_cons in Eb as [B2 Eb].
  split; [by split|]. split; [by rewrite E | exact Hw].
Qed.

Lemma from_kernel_ok a : frame_ok a -> tool_frame_ok (from_kernel a) /\ to_kernel (from_kernel a) = a.
Proof.
  intros [H1 H2 H3 H4 H5]. destruct a as [d c cm n]. cbn in *.
  destruct cm as [|x cm]; [change (zlen []) with 0 in H1; lia|]. rewrite zlen_cons in H1.
  apply bytes_cons in H5 as [H5 H6]. split.
  - split; cbn; rewrite ?drop_0; try done; lia.
  - unfold to_kernel, from_kernel. cbn. f_equal. lia.
Qed.

Lemma tool_wire_bytes f : tool_frame_ok f -> bytes (tool_wire f).
Proof.
  intros Hf. pose proof (frame_bytes_ok _ (to_kernel_ok f Hf)) as H. fold (tool_bytes f) in H.
  unfold tool_wire. apply bytes_cons. split; [done|]. apply (bytes_drop 1) in H. revert H. generalize (drop 1 (tool_bytes f)).
  intros l H. induction H as [|b l Hb H IH]; [constructor|]. cbn [escape_all]. apply bytes_app. split; [|done].
  destruct (special b) eqn:E; [|by apply bytes_cons; split; [|constructor]]. unfold special in E.
  apply orb_true_iff in E as [->%Z.eqb_eq | ->%Z.eqb_eq]; by apply bytes_check.
Qed.

Lemma dispatch_serves k0 bl k d c : serves k0 bl k ->
  fake_hmrf_dispatch k d c = fake_hmrf_dispatch (set_in_bl bl k0) d c.
Proof. intros [_ _ E1 E2 E3 E4 E5]. unfold fake_hmrf_dispatch. cbn. by rewrite E1, E2, E3, E4, E5. Qed.

(** ** One request *)

Section Simulation.
Context `{CB : CircBuf}.

Lemma read_byte b l k : hmrf_ok k -> contents RX_BUF_SIZE (fake_hmrf_rxbuf k) = b :: l ->
  exists rx, fake_hmrf_read true false 1 k = (Ret 1, [b], set_hmrf_rx rx k) /\ ring_ok RX_BUF_SIZE rx /\
    contents RX_BUF_SIZE rx = l.
Proof.
  intros Hk E. pose proof (hmrf_ring k Hk) as Hr. set (r := fake_hmrf_rxbuf k) in *.
  pose proof (zlen_contents _ r Hr) as Hz. rewrite E, zlen_cons in Hz. pose proof (zlen_nonneg l).
  pose proof Hr as [Hp Hl Hh Ht]. unfold fake_hmrf_read. fold r.
  rewrite circ_cnt_law, circ_cnt_to_end_law by done. fold (used RX_BUF_SIZE r).
  destruct (Z.eqb_spec (used RX_BUF_SIZE r) 0); [lia|]. change (s32 1) with 1.
  rewrite Z.min_l by lia. change (u64 1) with 1. cbv zeta.
  rewrite wrap_mod by lia. rewrite (read_run_spec RX_BUF_SIZE) by (done || lia). rewrite E.
  eexists. split; [reflexivity|]. split; [apply set_tail_ok; [done | by apply (ring_mod_range RX_BUF_SIZE r)]|].
  rewrite contents_advance by (done || lia). by rewrite E.
Qed.

Lemma drain_all l : forall fuel k, hmrf_ok k -> contents RX_BUF_SIZE (fake_hmrf_rxbuf k) = l -> (length l < fuel)%nat ->
  exists rx, drain fuel k = (l, set_hmrf_rx rx k) /\ ring_ok RX_BUF_SIZE rx /\ contents RX_BUF_SIZE rx = [].
Proof.
  induction l as [|b l IH]; intros fuel k Hk E Hf; (destruct fuel as [|fuel]; [simpl in Hf; lia|]); cbn [drain].
  - exists (fake_hmrf_rxbuf k). pose proof (hmrf_ring k Hk) as Hr. unfold fake_hmrf_read.
    pose proof Hr as [Hp Hl Hh Ht]. rewrite circ_cnt_law by done. fold (used RX_BUF_SIZE (fake_hmrf_rxbuf k)).
    rewrite (proj2 (contents_empty _ _ Hr) E). cbn. split; [by destruct k | done].
  - destruct (read_byte b l k Hk E) as (rx & -> & R1 & R2). change (1 <? 0) with false. cbv iota.
    destruct (IH fuel (set_hmrf_rx rx k)) as (rx' & -> & R3 & R4); [by destruct Hk | done | simpl in Hf; lia|].
    exists rx'. by split.
Qed.

(** A request is written, and its answer read. *)
Lemma request_served k0 bl k w f : serves k0 bl k -> requested w = Some f ->
  exists k1 k2 l, fake_hmrf_write false Copied w k = Ok (zlen w, k1) /\
    drain (Z.to_nat RX_BUF_SIZE) k1 = (l, k2) /\
    let (response, bl) := fake_hmrf_dispatch (set_in_bl bl k0) (dst f) (cmd f @@ 0) in
    serves k0 bl k2 /\ l = match response with Some r => wire (answer f r) | None => [] end /\
    match response with Some r => frame_ok (answer f r) /\ 1 <= zlen r <= 68 | None => True end.
Proof.
  intros Hs Hr. destruct (requested_spec w f Hr) as (Hf & Hu & Hw). pose proof Hs as [Hk He Hb E1 E2 E3 E4].
  pose proof (any_request_answered f w k Hk Hf Hu Hw) as A. rewrite (dispatch_serves k0 bl) in A by done.
  pose proof (proj2 (contents_empty RX_BUF_SIZE _ (hmrf_ring k Hk)) He) as H0.
  assert (D : forall response bl', fake_hmrf_dispatch (set_in_bl bl k0) (dst f) (cmd f @@ 0) = (response, bl') ->
    match response with Some r => frame_ok (answer f r) /\ 1 <= zlen r <= 68 | None => True end).
  { intros [r|] bl' E; [|done]. rewrite <- (dispatch_serves k0 bl k) in E by done.
    destruct (dispatch_response _ _ _ _ _ Hk E) as [Hz Hby]. split; [by apply answer_ok | done]. }
  destruct (fake_hmrf_dispatch _ _ _) as [response bl'].
  destruct A as (rx & -> & R1 & R2); [rewrite H0; done|]. rewrite He in R2. cbn [app] in R2.
  set (k1 := lose_buffers _). assert (Hk1 : hmrf_ok k1) by (by destruct Hk).
  specialize (D response bl' eq_refl).
  destruct (drain_all _ (Z.to_nat RX_BUF_SIZE) k1 Hk1 R2) as (rx' & Ed & R3 & R4).
  { change (Z.to_nat RX_BUF_SIZE) with 1024%nat. destruct response as [r|]; [|cbn [length]; lia].
    destruct D as [_ D]. pose proof (zlen_wire_answer f r Hf D). unfold zlen in *. lia. }
  exists k1. eexists _, _. split; [done|]. split; [exact Ed|]. split; [|by split].
  split; try done. by destruct Hk1.
Qed.

(** ** The talk is the dialogue *)

Definition same (s s0 : sys) : Prop := det s = det s0 /\ pc s = pc s0.

Lemma serve_talk k0 fuel : forall bl s s0 k s0' bl' tr, inv s -> is_done s = false -> same s s0 -> serves k0 bl k ->
  talk_serve fuel k0 bl s0 = Ok (s0', bl', tr) -> Forall clean tr ->
  exists s' k', serve fuel s k = Ok (s', k') /\ inv s' /\ is_done s' = false /\ same s' s0' /\ serves k0 bl' k'.
Proof.
  induction fuel as [|fuel IH]; intros bl s s0 k s0' bl' tr Hi D [Ed Ec] Hk E Ht; [done|].
  cbn [talk_serve serve] in *. rewrite <- Ed in E. destruct (out (det s)) as [|w ws] eqn:Eo.
  { injection E as <- <- <-. by exists s, k. }
  destruct (requested w) as [f|] eqn:Er; [|done]. cbn [entry exec_bind] in E.
  destruct (request_served k0 bl k w f Hk Er) as (k1 & k2 & l & -> & Hd & A). cbn [exec_bind]. rewrite Hd.
  set (s1 := with_det (set_out ws (det s)) s). set (s01 := with_det (set_out ws (det s)) s0) in E.
  assert (Hi1 : inv s1) by (clear - Hi; destruct Hi as [Hd]; split; try done; by det_fields).
  assert (S1 : same s1 s01) by done.
  destruct (fake_hmrf_dispatch _ _ _) as [[r|] bl1]; destruct A as (Hk2 & -> & A).
  - destruct A as [Ha Hz]. destruct (handle (from_kernel (answer f r)) (det s01)) as [d| | | |] eqn:Eh; try done.
    cbn [exec_bind] in E. destruct (talk_serve fuel k0 bl1 (with_det d s01)) as [[[s02 bl2] tr2]| | | |] eqn:Es; try done.
    cbn [exec_bind] in E. injection E as <- <- <-. inversion_clear Ht as [|? ? Hc Ht2]. rewrite Hc.
    destruct (from_kernel_ok _ Ha) as [Hf' _].
    destruct (frame_delivered (from_kernel (answer f r)) s1 Hi1 D Hf') as (p & Erun & _).
    { cbn. unfold StreamParser.BUFFER_SIZE. lia. }
    assert (Hok : Forall action_ok (map Byte (tool_wire (from_kernel (answer f r))))) by (by apply Forall_map, tool_wire_bytes).
    pose proof (fun s' => run_inv _ s1 s' Hi1 Hok) as Hinv. rewrite Erun in *. change (det s1) with (det s01) in *. rewrite Eh in *.
    cbn [exec_bind] in *. specialize (Hinv _ eq_refl). apply (IH bl1 (Sys d p true (pc s1)) (with_det d s01) k2 s02 bl2 tr2 Hinv); try done.
  - cbn [map run exec_bind]. by apply (IH bl1 s1 s01 k2 _ _ tr Hi1).
Qed.

(** The main thread does not look at the parser. *)
Definition alike (r r0 : exec sys) : Prop :=
  match r, r0 with Ok s, Ok s0 => same s s0 | Ok _, _ => False | _, Ok _ => False | _, _ => True end.

Lemma send_alike next x y s s0 : same s s0 -> alike (send next x y s) (send next x y s0).
Proof. intros [E _]. unfold send. rewrite E. by destruct (request x y (det s0)). Qed.

Lemma sem_take_alike a b s s0 : same s s0 -> same (sem_take a b s) (sem_take a b s0).
Proof. intros [E _]. unfold sem_take. rewrite E. by destruct (0 <? _). Qed.

Lemma sem_take_last_alike a s s0 : same s s0 -> same (sem_take_last a s) (sem_take_last a s0).
Proof. intros [E _]. unfold sem_take_last. rewrite E. by destruct (0 <? _). Qed.

Lemma main_step_alike s s0 : same s s0 -> alike (main_step s) (main_step s0).
Proof.
  intros S. pose proof S as [Ed Ec]. unfold main_step. rewrite Ec.
  assert (Sd : forall n x y, alike (send n x y s) (send n x y s0)) by (intros; by apply send_alike).
  assert (G : forall c d d0, d = d0 -> same (goto c (with_det d s)) (goto c (with_det d0 s0))) by (by intros c d d0 ->).
  assert (G' : forall c, same (goto c s) (goto c s0)) by (intros c; split; [exact Ed | done]).
  destruct (pc s0); [| apply Sd | by apply sem_take_alike | apply Sd | by apply sem_take_last_alike
    | | apply Sd | by apply sem_take_alike | apply Sd | by apply sem_take_last_alike | | | by apply sem_take_alike | |].
  - cbn [alike]. unfold at_loop. rewrite Ed. destruct (_ && _); by apply G.
  - cbn [alike]. unfold at_loop. rewrite Ed. destruct (_ && _); apply G'.
  - unfold select. rewrite Ed. destruct (_detectState (det s0)); [cbn [alike]; by apply G | cbn [alike]; by apply G | apply Sd.. | cbn [alike]; apply G'].
  - cbn [alike]. rewrite Ed. destruct (decide _); apply G'.
  - cbn [alike]. split; [exact Ed | done].
  - exact S.
Qed.

Lemma main_step_same s s0 s0' : inv s -> is_done s = false -> same s s0 -> main_step s0 = Ok s0' ->
  exists s', main_step s = Ok s' /\ same s' s0' /\ inv s'.
Proof.
  intros Hi D S E. destruct (main_step_advances s Hi D) as (s' & E' & Hi' & _).
  pose proof (main_step_alike s s0 S) as A. rewrite E, E' in A. by exists s'.
Qed.

(** What the talk shows is what the dialogue does, if the answers are escaped
    as they should be. *)
Lemma dialogue_talk k0 fuel : forall bl s s0 k s0' tr, inv s -> is_done s = false -> same s s0 -> serves k0 bl k ->
  talk fuel k0 bl s0 = Ok (s0', tr) -> Forall clean tr ->
  exists s' k', dialogue fuel s k = Ok (s', k') /\ inv s' /\ same s' s0'.
Proof.
  induction fuel as [|fuel IH]; intros bl s s0 k s0' tr Hi D S Hk E Ht; [done|]. cbn [talk dialogue] in *.
  destruct (main_step s0) as [s01| | | |] eqn:E0; try done. cbn [exec_bind] in E.
  destruct (main_step_same s s0 s01 Hi D S E0) as (s1 & -> & S1 & Hi1). cbn [exec_bind].
  assert (D1 : is_done s1 = is_done s01) by (unfold is_done; by rewrite (proj2 S1)).
  rewrite D1. destruct (is_done s01) eqn:D2.
  { injection E as <- <-. by exists s1, k. }
  destruct (talk_serve 4 k0 bl s01) as [[[s02 bl2] tr1]| | | |] eqn:E1; try done. cbn [exec_bind] in E.
  destruct (talk fuel k0 bl2 s02) as [[s03 tr2]| | | |] eqn:E2; try done. cbn [exec_bind] in E. injection E as <- <-.
  apply Forall_app in Ht as [Ht1 Ht2].
  destruct (serve_talk k0 4 bl s1 s01 k s02 bl2 tr1 Hi1 D1 S1 Hk E1 Ht1) as (s2 & k2 & -> & Hi2 & D3 & S2 & Hk2).
  cbn [exec_bind]. by apply (IH bl2 s2 s02 k2 s03 tr2).
Qed.
End Simulation.

(** ** Answers without stray marks *)

(** The module escapes a mark only in the high byte of the checksum. *)
Definition no_stray (a : hm_frame) : Prop :=
  Forall (fun b => b <> 0xfd) (drop 1 (frame_body a)) /\ Z.land (crc_of (frame_body a)) 0xff <> 0xfd.

#[export] Instance no_stray_dec a : Decision (no_stray a).
Proof. unfold no_stray. apply _. Defined.

Lemma escape_no_stray l h lo : Forall (fun b => b <> 0xfd) l -> lo <> 0xfd ->
  escape (l ++ [h; lo]) = escape_all (l ++ [h; lo]).
Proof.
  intros Hl Hlo. induction Hl as [|b l Hb Hl IH].
  - cbn. apply Z.eqb_neq in Hlo. unfold special. rewrite Hlo. by destruct (h =? 0xfc), (h =? 0xfd), (lo =? 0xfc).
  - cbn [app escape escape_all]. rewrite IH. unfold special. apply Z.eqb_neq in Hb. by rewrite Hb, andb_false_l, !orb_false_r.
Qed.

Lemma no_stray_clean a : frame_ok a -> no_stray a -> clean a.
Proof.
  intros Ha [H1 H2]. destruct (from_kernel_ok a Ha) as [_ E]. unfold clean, tool_wire, tool_bytes. rewrite E.
  unfold wire, frame_bytes, crc_bytes. set (h := Z.land (Z.shiftr _ 8) 0xff). set (lo := Z.land (crc_of _) 0xff) in *.
  change (frame_body a) with (0xfd :: drop 1 (frame_body a)). cbn [app drop escape].
  rewrite escape_no_stray by done. rewrite zlen_app. change (zlen [h; lo]) with 2.
  pose proof (zlen_nonneg (drop 1 (frame_body a))).
  by rewrite (proj2 (Z.eqb_neq (zlen (drop 1 (frame_body a)) + 2) 1)) by lia.
Qed.

(** ** The module with its parameters *)

(** The module as it is loaded with a version, a radio address and a serial
    number. *)
Definition device (v1 v2 v3 m1 m2 m3 : Z) (serial : list Z) : hmrf :=
  Hmrf (fake_hmrf_rxbuf initial_hmrf) false [0x04; 0x01; v1; v2; v3; 0x01; 0x00; 0x03; 0x01; 0x14; 0x03]
    [0x01; 0x01; m1; m2; m3] (0x01 :: 0x01 :: serial) [0x06; 0x01; m1; m2; m3] 0.

Lemma device_initial : initial_hmrf =
  device 2 8 6 0x4F 0x68 0xF1 [0x46; 0x4B; 0x45; 0x31; 0x32; 0x33; 0x34; 0x35; 0x36; 0x37].
Proof. done. Qed.

Lemma device_serial v1 v2 v3 m1 m2 m3 old serial : zlen serial = 10 -> zlen old = 10 ->
  fake_hmrf_set_serial serial (device v1 v2 v3 m1 m2 m3 old) = (10, device v1 v2 v3 m1 m2 m3 serial).
Proof.
  intros H1 H2. unfold fake_hmrf_set_serial. rewrite H1. cbn [Z.eqb Pos.eqb negb].
  unfold device. cbn [llmac_get_serial_response]. do 3 f_equal. unfold splice. change (Z.to_nat 2) with 2%nat.
  cbn [take app plus]. rewrite drop_ge by (cbn; unfold zlen in *; lia). by rewrite app_nil_r.
Qed.

Lemma device_mac v1 v2 v3 m1 m2 m3 o1 o2 o3 serial val : zlen val = 8 -> val @@ 0 = 0x30 -> val @@ 1 = 0x78 ->
  parse_mac_loop 3 (drop 2 val) = Some [m1; m2; m3] ->
  fake_hmrf_set_radio_mac val (device v1 v2 v3 o1 o2 o3 serial) = (8, device v1 v2 v3 m1 m2 m3 serial).
Proof. intros H1 H2 H3 H4. unfold fake_hmrf_set_radio_mac. by rewrite H1, H2, H3, H4. Qed.

(** The answers in their order, with the counters the tool gives them; four of
    them carry parameters. *)
Definition fixed_answers : list hm_frame :=
  [HmFrame HM_DST_COMMON 0 common_identify_response 15; HmFrame HM_DST_COMMON 1 common_start_bl_response 2;
   HmFrame HM_DST_HMSYSTEM 2 system_identify_response 11; HmFrame HM_DST_HMSYSTEM 4 system_identify_response 11;
   HmFrame HM_DST_HMSYSTEM 5 system_start_app_response 2; HmFrame HM_DST_COMMON 6 common_identify_response 15;
   HmFrame HM_DST_TRX 7 trx_get_mcu_type_response 3].
Definition sgtin_answer : hm_frame := HmFrame HM_DST_COMMON 10 common_get_sgtin_response 14.
Definition version_answer (k : hmrf) : hm_frame := HmFrame HM_DST_TRX 8 (trx_get_version_response k) 11.
Definition hmip_answer (k : hmrf) : hm_frame := HmFrame HM_DST_HMIP 9 (hmip_get_default_rf_address_response k) 5.
Definition bidcos_answer (k : hmrf) : hm_frame := HmFrame HM_DST_LLMAC 11 (llmac_get_default_rf_address_response k) 5.
Definition serial_answer (k : hmrf) : hm_frame := HmFrame HM_DST_LLMAC 12 (llmac_get_serial_response k) 12.

Definition parameter_answers (k : hmrf) : list hm_frame :=
  [version_answer k; hmip_answer k; bidcos_answer k; serial_answer k].

Definition all_answers (k : hmrf) : list hm_frame :=
  fixed_answers ++ [version_answer k; hmip_answer k; sgtin_answer; bidcos_answer k; serial_answer k].

(** What the tool ends with. *)
Definition sgtin : list Z := str "3014F711A061A7D5699DAB52".

Definition number (m1 m2 m3 : Z) : Z := m1 * 2 ^ 16 + m2 * 2 ^ 8 + m3.

(** The address for BidCoS: none when the bytes are one of the reserved
    addresses. *)
Definition bidcos (mac : Z) : Z := if decide (mac = 0 \/ mac mod 2 ^ 16 = 0xffff) then 0 else mac.

Definition result (v1 v2 v3 m1 m2 m3 : Z) (serial : list Z) : t :=
  Detector (serial ++ [0]) (if usable (mac24 m1 m2 m3) then mac24 m1 m2 m3 else 0) (mac24 m1 m2 m3) (sgtin ++ [0]) [v1; v2; v3]
    RADIO_MODULE_HM_MOD_RPI_PCB FINISHED 1 13 [] 1.

Lemma ten_entries (l : list Z) : zlen l = 10 -> exists a b c d e f g h i j, l = [a; b; c; d; e; f; g; h; i; j].
Proof.
  unfold zlen. intros H. do 10 (destruct l as [|? l]; [simpl in H; lia|]). destruct l; [|simpl in H; lia].
  by do 10 eexists.
Qed.

Lemma device_talk v1 v2 v3 m1 m2 m3 serial : zlen serial = 10 ->
  let k := device v1 v2 v3 m1 m2 m3 serial in let p := StreamParser.create false [] 0 0 in
  talk 76 k false (detectRadioModule create p) =
    Ok (Sys (result v1 v2 v3 m1 m2 m3 serial) p false (Done Answered), all_answers k).
Proof.
  intros H. apply ten_entries in H as (a & b & c & d & e & f & g & h & i & j & ->).
  cbv -[mac24 usable]. reflexivity.
Qed.

Lemma fixed_no_stray : Forall no_stray (sgtin_answer :: fixed_answers) /\ Forall frame_ok (sgtin_answer :: fixed_answers).
Proof.
  split; [apply (bool_decide_unpack _); vm_compute; exact I|]. unfold fixed_answers, sgtin_answer.
  repeat (apply Forall_cons; split; [split; cbn [cmd cmdlen dst cnt]; try done; by apply bytes_check|]). constructor.
Qed.

Lemma mac24_number m1 m2 m3 : is_byte m1 -> is_byte m2 -> is_byte m3 -> mac24 m1 m2 m3 = number m1 m2 m3.
Proof.
  unfold is_byte, mac24, number. intros. rewrite !Z.shiftl_mul_pow2 by lia.
  rewrite (lor_add m1 (m2 * 2 ^ 8) 16) by lia.
  replace (m1 * 2 ^ 16 + m2 * 2 ^ 8) with ((m1 * 2 ^ 8 + m2) * 2 ^ 8) by lia. rewrite lor_add by lia. lia.
Qed.

Lemma usable_bidcos mac : (if usable mac then mac else 0) = bidcos mac.
Proof.
  unfold usable, bidcos. change (Z.land mac 0xffff) with (Z.land mac (2 ^ 16 - 1)). rewrite land_pred_pow2 by lia.
  destruct (Z.eqb_spec mac 0) as [->|]; [by rewrite decide_True by auto|]. destruct (Z.eqb_spec (mac mod 2 ^ 16) 0xffff).
  - by rewrite decide_True by auto.
  - by rewrite decide_False by tauto.
Qed.

Lemma device_ok v1 v2 v3 m1 m2 m3 serial : bytes [v1; v2; v3; m1; m2; m3] -> bytes serial -> zlen serial = 10 ->
  hmrf_ok (device v1 v2 v3 m1 m2 m3 serial) /\
  Forall frame_ok (parameter_answers (device v1 v2 v3 m1 m2 m3 serial)).
Proof.
  intros Hb Hs Hz. unfold bytes in Hb. rewrite !Forall_cons in Hb. destruct Hb as (? & ? & ? & ? & ? & ? & _).
  assert (B : bytes [0x04; 0x01; v1; v2; v3; 0x01; 0x00; 0x03; 0x01; 0x14; 0x03] /\ bytes [0x01; 0x01; m1; m2; m3] /\
    bytes [0x06; 0x01; m1; m2; m3] /\ bytes (0x01 :: 0x01 :: serial)).
  { unfold bytes. rewrite !Forall_cons. by split_and!. }
  destruct B as (B1 & B2 & B3 & B4). assert (L : zlen (0x01 :: 0x01 :: serial) = 12) by (rewrite !zlen_cons; lia).
  split; [split; try done; apply (hmrf_ring _ initial_hmrf_ok)|]. unfold parameter_answers, version_answer, hmip_answer,
    bidcos_answer, serial_answer, device. cbn [trx_get_version_response hmip_get_default_rf_address_response
    llmac_get_default_rf_address_response llmac_get_serial_response].
  repeat (apply Forall_cons; split; [split; cbn [cmd cmdlen dst cnt]; try done; rewrite L; lia|]). constructor.
Qed.

Lemma answers_clean v1 v2 v3 m1 m2 m3 serial : bytes [v1; v2; v3; m1; m2; m3] -> bytes serial -> zlen serial = 10 ->
  let k := device v1 v2 v3 m1 m2 m3 serial in
  Forall no_stray (parameter_answers k) -> Forall clean (all_answers k).
Proof.
  intros Hb Hs Hz k Hn. destruct (device_ok v1 v2 v3 m1 m2 m3 serial Hb Hs Hz) as [_ Ho]. fold k in Ho.
  destruct fixed_no_stray as [F1 F2]. apply Forall_forall. intros a Ha.
  assert (E : a ∈ (sgtin_answer :: fixed_answers) ++ parameter_answers k).
  { unfold all_answers in Ha. unfold parameter_answers. rewrite elem_of_app, !elem_of_cons in Ha.
    rewrite elem_of_app, !elem_of_cons. tauto. }
  rewrite Forall_forall in F1, F2, Ho, Hn. apply elem_of_app in E as [E|E]; apply no_stray_clean; auto.
Qed.

(** C31 (functional). The tool detects the fake module.  Whatever version,
    address and serial number it is loaded with, if no answer has a mark in it
    that the module does not escape, the dialogue ends with all questions
    answered: the tool has started the boot loader and the application again,
    and has found a HM-MOD-RPI-PCB with the parameters of the module.  The
    address for BidCoS is left out when it is one of the reserved ones. *)
Theorem fake_module_detected `{CB : CircBuf} (v1 v2 v3 m1 m2 m3 : Z) (serial : list Z) (p : StreamParser.t) :
  bytes [v1; v2; v3; m1; m2; m3] -> bytes serial -> zlen serial = 10 -> StreamParser.safe p ->
  let k := device v1 v2 v3 m1 m2 m3 serial in
  Forall no_stray (parameter_answers k) ->
  exists s k', dialogue 76 (detectRadioModule create p) k = Ok (s, k') /\ pc s = Done Answered /\
    getRadioModuleType (det s) = RADIO_MODULE_HM_MOD_RPI_PCB /\ getSerial (det s) = cstr serial /\
    getSGTIN (det s) = sgtin /\ getHmIPRadioMAC (det s) = number m1 m2 m3 /\
    getBidCosRadioMAC (det s) = bidcos (number m1 m2 m3) /\ getFirmwareVersion (det s) = [v1; v2; v3].
Proof.
  intros Hb Hs Hz Hp k Hn. pose proof (answers_clean v1 v2 v3 m1 m2 m3 serial Hb Hs Hz Hn) as Hc. fold k in Hc.
  destruct (device_ok v1 v2 v3 m1 m2 m3 serial Hb Hs Hz) as [Hk _]. fold k in Hk.
  assert (Sv : serves k false k) by (split; [exact Hk | by vm_compute | reflexivity..]).
  destruct (detection_start_inv p Hp) as [Hi _]. set (p0 := StreamParser.create false [] 0 0).
  destruct (dialogue_talk k 76 false (detectRadioModule create p) (detectRadioModule create p0) k _ _ Hi eq_refl
    (conj eq_refl eq_refl) Sv (device_talk v1 v2 v3 m1 m2 m3 serial Hz) Hc) as (s & k' & E & _ & Ed & Ec).
  exists s, k'. split; [exact E|]. split; [exact Ec|]. rewrite Ed.
  unfold bytes in Hb. rewrite !Forall_cons in Hb. destruct Hb as (_ & _ & _ & B1 & B2 & B3 & _).
  rewrite <- usable_bidcos, <- (mac24_number _ _ _ B1 B2 B3).
  split; [reflexivity|]. split; [|split_and!; reflexivity].
  unfold getSerial. cbn [det result _serial]. clear. induction serial as [|b l IH]; [done|]. cbn [app cstr].
  by destruct (b =? 0); [|rewrite IH].
Qed.

(** ** The theorem on the module as it is loaded without parameters *)

Module DetectFakeSamples.
Lemma fake_module_detected_witness : exists s k',
  dialogue (CB := linux_circ) 76 (detectRadioModule create DetectSysSamples.fresh) initial_hmrf = Ok (s, k') /\
  pc s = Done Answered /\ getSerial (det s) = str "FKE1234567" /\ getBidCosRadioMAC (det s) = 0x4F68F1.
Proof.
  destruct (fake_module_detected (CB := linux_circ) 2 8 6 0x4F 0x68 0xF1
    [0x46; 0x4B; 0x45; 0x31; 0x32; 0x33; 0x34; 0x35; 0x36; 0x37] DetectSysSamples.fresh) as
    (s & k' & E & H1 & _ & H2 & _ & _ & H3 & _);
    [by apply bytes_check | by apply bytes_check | done | apply DetectSysSamples.fresh_safe
    | apply (bool_decide_unpack _); vm_compute; exact I |].
  exists s, k'. split; [exact E|]. split; [exact H1|]. split; [exact H2 | exact H3].
Defined.
End DetectFakeSamples.
