(* ===== verification/DetectMain.v ===== *)
(** The program around the detection (src/detect_radio_module/main.cpp): its
    arguments, the device it opens and resets, and the line it prints for the
    scripts that start it. *)
From stdpp Require Import strings.
From S2P Require Import Prelude Kernel HmFrame FakeHmrf DetectFrame StreamParser Detector DetectSys DetectFake.
Import RadioModuleDetector.

(** ** The serial line

    The constructor of [RadioModuleConnector] (radiomoduleconnector.cpp) sets the
    terminal up.  The flags are those of Linux. *)
Module RadioModuleConnector.
Definition PARENB : Z := 0x100.
Definition CSTOPB : Z := 0x40.
Definition CS8 : Z := 0x30.
Definition CRTSCTS : Z := 0x80000000.
Definition CREAD : Z := 0x80.
Definition CLOCAL : Z := 0x800.
Definition ICANON : Z := 0x2.
Definition ECHO : Z := 0x8.
Definition ECHOE : Z := 0x10.
Definition ECHONL : Z := 0x40.
Definition ISIG : Z := 0x1.
Definition IXON : Z := 0x400.
Definition IXOFF : Z := 0x1000.
Definition IXANY : Z := 0x800.
Definition IGNBRK : Z := 0x1.
Definition BRKINT : Z := 0x2.
Definition PARMRK : Z := 0x8.
Definition ISTRIP : Z := 0x20.
Definition INLCR : Z := 0x40.
Definition IGNCR : Z := 0x80.
Definition ICRNL : Z := 0x100.
Definition OPOST : Z := 0x1.
Definition ONLCR : Z := 0x4.
Definition VTIME : nat := 5.
Definition VMIN : nat := 6.

(** [v &= ~(masks)], one after the other. *)
Definition clear (v : Z) (masks : list Z) : Z := fold_left Z.ldiff masks v.

Definition raw_mode (tty : termios) : termios :=
  let cflag := clear (c_cflag tty) [PARENB; CSTOPB] in
  let cflag := Z.lor cflag CS8 in
  let cflag := clear cflag [CRTSCTS] in
  let cflag := Z.lor cflag (Z.lor CREAD CLOCAL) in
  let lflag := clear (c_lflag tty) [ICANON; ECHO; ECHOE; ECHONL; ISIG] in
  let iflag := clear (c_iflag tty) [Z.lor (Z.lor IXON IXOFF) IXANY;
    Z.lor (Z.lor (Z.lor (Z.lor (Z.lor (Z.lor IGNBRK BRKINT) PARMRK) ISTRIP) INLCR) IGNCR) ICRNL] in
  let oflag := clear (c_oflag tty) [OPOST; ONLCR] in
  Termios iflag oflag cflag lflag (c_line tty) (<[VMIN := 0]> (<[VTIME := 1]> (c_cc tty))).

(** [tcgetattr], the two speeds that the library sets, and [tcsetattr]: what the
    terminal is set to, if it is one. *)
Definition create (set_speeds : termios -> termios) (tty : option termios) : option termios :=
  (fun tty => set_speeds (raw_mode tty)) <$> tty.

Lemma clear_bit v masks i : 0 <= i -> Z.testbit (clear v masks) i =
  Z.testbit v i && forallb (fun m => negb (Z.testbit m i)) masks.
Proof.
  intros Hi. unfold clear. revert v. induction masks as [|m masks IH]; intros v; cbn [fold_left forallb]; [by rewrite andb_true_r|].
  by rewrite IH, Z.ldiff_spec, andb_assoc.
Qed.

(** Two numbers that agree in their first 32 bits and have no others. *)
Lemma mask_eq v0 v m r (f : bool -> Z -> bool) : 0 <= m < 2 ^ 32 -> 0 <= r < 2 ^ 32 ->
  (forall i, 0 <= i -> Z.testbit v i = f (Z.testbit v0 i) i) ->
  all_below 32 (fun i => forallb (fun b => Bool.eqb (f b i && Z.testbit m i) (Z.testbit r i)) [true; false]) = true ->
  Z.land v m = r.
Proof.
  intros Hm Hr Hf H. apply Z.bits_inj'. intros i Hi. rewrite Z.land_spec.
  destruct (Z.lt_ge_cases i 32) as [L|L].
  - pose proof (all_below_spec _ _ H i ltac:(lia)) as E. cbv beta in E. cbn [forallb] in E.
    rewrite !andb_true_iff, !Bool.eqb_true_iff in E. destruct E as (E1 & E2 & _). rewrite Hf by done.
    by destruct (Z.testbit v0 i).
  - assert (Hb : forall x, 0 <= x < 2 ^ 32 -> Z.testbit x i = false).
    { intros x Hx. destruct (decide (x = 0)) as [->|]; [apply Z.testbit_0_l|]. apply Z.bits_above_log2; [lia|].
      apply (Z.lt_le_trans _ 32); [apply Z.log2_lt_pow2; lia | lia]. }
    by rewrite (Hb m), (Hb r), andb_false_r by done.
Qed.

Lemma clear_masks v masks m : 0 <= m < 2 ^ 32 ->
  all_below 32 (fun i => forallb (fun b => Bool.eqb (b && forallb (fun k => negb (Z.testbit k i)) masks && Z.testbit m i)
    (Z.testbit 0 i)) [true; false]) = true ->
  Z.land (clear v masks) m = 0.
Proof.
  intros Hm H. apply (mask_eq v _ _ _ (fun b i => b && forallb (fun k => negb (Z.testbit k i)) masks)); [done|lia| |exact H].
  intros i Hi. by rewrite clear_bit.
Qed.

(** Bytes go through the terminal as they are: no flag that changes, drops or
    interprets one is left, and characters have eight bits and no parity. *)
Lemma raw_mode_raw tty : Z.land (c_iflag (raw_mode tty)) 0x1deb = 0 /\ Z.land (c_oflag (raw_mode tty)) 0x5 = 0 /\
  Z.land (c_lflag (raw_mode tty)) 0x5b = 0 /\ Z.land (c_cflag (raw_mode tty)) 0x800009f0 = 0x8b0.
Proof.
  unfold raw_mode. cbn [c_iflag c_oflag c_lflag c_cflag]. split_and!; [by apply clear_masks; [|vm_compute]..|].
  apply (mask_eq (c_cflag tty) _ _ _ (fun b i => (b && forallb (fun k => negb (Z.testbit k i)) [PARENB; CSTOPB] || Z.testbit CS8 i)
    && forallb (fun k => negb (Z.testbit k i)) [CRTSCTS] || Z.testbit (Z.lor CREAD CLOCAL) i)); [done | done | | by vm_compute].
  intros i Hi. by rewrite Z.lor_spec, clear_bit, Z.lor_spec, clear_bit.
Qed.
End RadioModuleConnector.

(** ** printf *)

(** The digits of a number that is not negative. *)
Fixpoint digits (fuel : nat) (base n : Z) (acc : list Z) : list Z :=
  match fuel with
  | O => acc
  | S fuel =>
    let acc := hex_digit (n mod base) :: acc in
    if n / base =? 0 then acc else digits fuel base (n / base) acc
  end.

Definition pad (width : nat) (l : list Z) : list Z := replicate (width - length l) 0x30 ++ l.

(** [%d] of what is not negative, [0x%06X] and [0x%02X]. *)
Definition print_d (n : Z) : list Z := digits 20 10 n [].
Definition print_06X (n : Z) : list Z := str "0x" ++ pad 6 (digits 20 16 n []).
Definition print_02X (n : Z) : list Z := str "0x" ++ pad 2 (digits 20 16 n []).

Definition newline : list Z := [10].

(** ** The report *)

Definition starts_with (prefix l : list Z) : bool := bool_decide (take (length prefix) l = prefix).

Definition module_name (d : t) : option (list Z) :=
  let type := getRadioModuleType d in
  if type =? RADIO_MODULE_HMIP_RFUSB then
    Some (if starts_with (str "3014F5AC") (getSGTIN d) then str "HMIP-RFUSB-TK" else str "HMIP-RFUSB")
  else if type =? RADIO_MODULE_HM_MOD_RPI_PCB then Some (str "HM-MOD-RPI-PCB")
  else if type =? RADIO_MODULE_RPI_RF_MOD then Some (str "RPI-RF-MOD")
  else None.

Definition complaint (d : t) : list Z :=
  let type := getRadioModuleType d in
  if type =? RADIO_MODULE_NONE then str "Error: Radio module was not detected" ++ newline
  else if type =? RADIO_MODULE_UNKNOWN then
    str "Error: Radio module was found, but did not respond correctly (maybe bricked App in flashrom)" ++ newline
  else str "Error: Radio module was found, but type is unknown or not supported (" ++ print_02X type ++ str ")" ++ newline.

Definition version_text (v : list Z) : list Z :=
  print_d (v @@ 0) ++ str "." ++ print_d (v @@ 1) ++ str "." ++ print_d (v @@ 2).

Definition info_line (name : list Z) (d : t) : list Z :=
  name ++ str " " ++ getSerial d ++ str " " ++ getSGTIN d ++ str " " ++ print_06X (getBidCosRadioMAC d) ++ str " " ++
  print_06X (getHmIPRadioMAC d) ++ str " " ++ version_text (getFirmwareVersion d) ++ newline.

(** The exit code and what is printed. *)
Definition report (d : t) : Z * list Z :=
  match module_name d with
  | Some name => (0, info_line name d)
  | None => (- 1, complaint d)
  end.

(** ** The program *)

(** What the calls of the system return: a descriptor, and for each [ioctl] its
    result and [errno]; the text the first one fills in; and how the detection
    leaves the detector. *)
Record world := World {
  opened : Z;
  devinfo : Z * Z;
  device_type : list Z;
  first_reset : Z * Z;
  second_reset : Z;
  detection : t
}.

Inductive event :=
| Print (text : list Z) | Log (text : list Z)
| Open (path : list Z) | IocgDevInfo | IocReset | Detect | Close.

#[export] Instance event_eq_dec : EqDecision event.
Proof. solve_decision. Defined.

(** [log] prints with [--debug] only. *)
Definition log (debug : bool) (text : list Z) : list event := if debug then [Log text] else [].

Definition reset_message (errno : Z) : list Z :=
  if errno =? ENOTTY then str "Resetting radio module via current device is not supported."
  else if errno =? ENOSYS then str "Resetting radio module is not supported."
  else str "Reset of radio module failed (" ++ print_d errno ++ str ").".

(** What the arguments say. *)
Definition debugging (argv : list (list Z)) : bool := bool_decide (nth_error argv 1 = Some (str "--debug")).
Definition usable_arguments (argv : list (list Z)) : bool :=
  (length argv =? if debugging argv then 3 else 2)%nat.

(** The first reset has failed because the device is open elsewhere. *)
Definition in_use (w : world) : bool := negb ((first_reset w).1 =? 0) && ((first_reset w).2 =? EBUSY).

Definition main (argv : list (list Z)) (w : world) : Z * list event :=
  let debug := debugging argv in
  if negb (usable_arguments argv) then
    (- 1, [Print (str "Usage: " ++ nth 0 argv [] ++ str " [--debug] <path>" ++ newline)]) else
  let path := nth (if debug then 2 else 1)%nat argv [] in
  if opened w <? 0 then (- 1, [Open path; Close; Print (path ++ str " could not be opened" ++ newline)]) else
  let info := if (devinfo w).1 =? 0 then log debug (str "Raw UART device: " ++ device_type w)
              else if (devinfo w).2 =? ENOTTY then [] else log debug (str "Raw UART device: unknown") in
  let begin := [Open path; IocgDevInfo] ++ info ++ [IocReset] in
  if in_use w then
    (- 1, begin ++ [Close; Print (str "Raw UART device is in use, aborting." ++ newline)]) else
  let reset := if (first_reset w).1 =? 0 then log debug (str "Sucessfully resetted radio module.")
               else log debug (reset_message (first_reset w).2) in
  let again := if second_reset w =? 0 then log debug (str "Sucessfully resetted radio module.") else [] in
  let (code, text) := report (detection w) in
  (code, begin ++ reset ++ [Detect; IocReset] ++ again ++ [Close; Print text]).

(** ** Numbers *)

(** Exactly [k] digits. *)
Fixpoint fixed (base : Z) (k : nat) (n : Z) : list Z :=
  match k with O => [] | S k => fixed base k (n / base) ++ [hex_digit (n mod base)] end.

Lemma fixed_zero base k : 1 < base -> fixed base k 0 = replicate k 0x30.
Proof.
  intros Hb. induction k as [|k IH]; [done|]. cbn [fixed]. rewrite Z.div_0_l, Z.mod_0_l, IH by lia.
  change [hex_digit 0] with (replicate 1 0x30). by rewrite <- replicate_add, Nat.add_1_r.
Qed.

Lemma digits_fixed base fuel : 1 < base -> forall k n acc, 0 <= n < base ^ Z.of_nat k -> (0 < k <= fuel)%nat ->
  exists j, (j < k)%nat /\ length (digits fuel base n acc) = (k - j + length acc)%nat /\
    replicate j 0x30 ++ digits fuel base n acc = fixed base k n ++ acc.
Proof.
  intros Hb. induction fuel as [|fuel IH]; intros k n acc Hn Hk; [lia|]. destruct k as [|k]; [lia|].
  cbn [digits fixed]. rewrite <- app_assoc. cbn [app].
  assert (Hd : 0 <= n / base < base ^ Z.of_nat k).
  { split; [apply Z.div_pos; lia|]. apply Z.div_lt_upper_bound; [lia|].
    rewrite Nat2Z.inj_succ, Z.pow_succ_r in Hn by lia. lia. }
  destruct (Z.eqb_spec (n / base) 0) as [E|E].
  - exists k. split; [lia|]. split; [cbn [length]; lia|]. by rewrite E, fixed_zero.
  - destruct k as [|k]; [cbn in Hd; lia|].
    destruct (IH (S k) (n / base) (hex_digit (n mod base) :: acc) Hd ltac:(lia)) as (j & J1 & J2 & J3).
    exists j. split; [lia|]. split; [rewrite J2; cbn [length]; lia | exact J3].
Qed.

Lemma pad_digits base k n : 1 < base -> 0 <= n < base ^ Z.of_nat k -> (0 < k <= 20)%nat ->
  pad k (digits 20 base n []) = fixed base k n.
Proof.
  intros Hb Hn Hk. destruct (digits_fixed base 20 Hb k n [] Hn Hk) as (j & J1 & J2 & J3).
  unfold pad. cbn [length] in J2. rewrite J2. replace (k - (k - j + 0))%nat with j by lia. by rewrite J3, app_nil_r.
Qed.

(** An address as the three bytes that it has. *)
Lemma print_06X_bytes mac : 0 <= mac < 2 ^ 24 ->
  print_06X mac = str "0x" ++ hex_byte (mac / 2 ^ 16) ++ hex_byte (mac / 2 ^ 8 mod 2 ^ 8) ++ hex_byte (mac mod 2 ^ 8).
Proof.
  intros Hm. unfold print_06X. rewrite pad_digits by lia. f_equal. cbn [fixed app].
  assert (B : forall b, 0 <= b < 2 ^ 8 -> hex_byte b = [hex_digit (b / 16); hex_digit (b mod 16)]).
  { intros b Hb. unfold hex_byte. rewrite Z.shiftr_div_pow2 by lia. change 15 with (2 ^ 4 - 1). by rewrite land_pred_pow2 by lia. }
  change (2 ^ 16) with 65536. change (2 ^ 8) with 256 in *. change (2 ^ 24) with 16777216 in Hm.
  rewrite (B (mac / 65536)), (B (mac / 256 mod 256)), (B (mac mod 256)) by zdiv_lia. cbn [app]. rewrite !Z.div_div by lia.
  change (16 * (16 * (16 * (16 * 16)))) with 1048576. change (16 * (16 * (16 * 16))) with 65536.
  change (16 * (16 * 16)) with 4096. change (16 * 16) with 256. change (65536 * 16) with 1048576.
  assert (E : (mac / 1048576) mod 16 = mac / 1048576 /\ (mac / 4096) mod 16 = mac / 256 mod 256 / 16 /\
    (mac / 256) mod 16 = mac / 256 mod 256 mod 16 /\ (mac / 16) mod 16 = mac mod 256 / 16 /\
    mac mod 16 = mac mod 256 mod 16) by (split_and!; zdiv_lia).
  by destruct E as (-> & -> & -> & -> & ->).
Qed.

(** ** Reading the line again *)

Definition blank (c : Z) : bool := (c =? 32) || (c =? 10).

(** The words of a line, between runs of blanks: what [echo] and [cut] make of
    it in the script that detects the hardware. *)
Fixpoint words_from (cur l : list Z) : list (list Z) :=
  match l with
  | [] => match cur with [] => [] | _ => [cur] end
  | c :: l =>
    if blank c then match cur with [] => words_from [] l | _ => cur :: words_from [] l end
    else words_from (cur ++ [c]) l
  end.
Definition words (l : list Z) : list (list Z) := words_from [] l.

Definition word (l : list Z) : Prop := l <> [] /\ Forall (fun c => blank c = false) l.

Lemma words_from_app cur w c l : Forall (fun c => blank c = false) w -> blank c = true -> cur ++ w <> [] ->
  words_from cur (w ++ c :: l) = (cur ++ w) :: words l.
Proof.
  intros Hw Hc. revert cur. induction Hw as [|b w Hb Hw IH]; intros cur Hn; cbn [app words_from].
  - rewrite Hc, app_nil_r in *. by destruct cur.
  - rewrite Hb, (IH (cur ++ [b])); rewrite <- app_assoc; done.
Qed.

Lemma words_word_cons w c l : word w -> blank c = true -> words (w ++ c :: l) = w :: words l.
Proof. intros [Hn Hw] Hc. by apply (words_from_app []). Qed.

Lemma six_words a b c d e f : word a -> word b -> word c -> word d -> word e -> word f ->
  words (a ++ 32 :: b ++ 32 :: c ++ 32 :: d ++ 32 :: e ++ 32 :: f ++ [10]) = [a; b; c; d; e; f].
Proof. intros. by rewrite !words_word_cons by done. Qed.

Lemma hex_text_word l : hex_text l -> l <> [] -> word l.
Proof. intros H Hn. split; [done|]. apply (Forall_impl _ _ _ H). unfold blank. intros c Hc. lia. Qed.

Lemma word_app l1 l2 : word l1 -> word l2 -> word (l1 ++ l2).
Proof. intros [H1 H2] [H3 H4]. split; [by destruct l1 | by apply Forall_app]. Qed.

Lemma print_06X_word mac : 0 <= mac < 2 ^ 24 -> word (print_06X mac).
Proof.
  intros Hm. rewrite print_06X_bytes by done. change (2 ^ 24) with 16777216 in Hm.
  apply word_app; [by split; [|repeat constructor]|]. apply hex_text_word; [|done].
  destruct (hex_bytes_text [mac / 65536; mac / 256 mod 256; mac mod 256]) as [H _].
  - unfold bytes, is_byte. rewrite !Forall_cons. split_and!; try zdiv_lia. constructor.
  - cbn [flat_map] in H. by rewrite app_nil_r in H.
Qed.

Lemma print_d_word b : is_byte b -> word (print_d b).
Proof.
  intros Hb. apply hex_text_word.
  - assert (H : all_below 256 (fun b => forallb (fun c => (48 <=? c) && (c <=? 57)) (print_d b)) = true) by (by vm_compute).
    pose proof (all_below_spec _ _ H b Hb) as E. cbv beta in E. rewrite forallb_forall in E.
    apply Forall_forall. intros c Hc. apply list_elem_of_In, E in Hc. lia.
  - intros E. assert (H : all_below 256 (fun b => 0 <? zlen (print_d b)) = true) by (by vm_compute).
    pose proof (all_below_spec _ _ H b Hb) as E'. cbv beta in E'. by rewrite E in E'.
Qed.

Lemma version_word v : bytes v -> zlen v = 3 -> word (version_text v).
Proof.
  unfold zlen. intros Hv Hz. destruct v as [|a [|b [|c [|]]]]; simpl in Hz; try lia. unfold bytes in Hv.
  rewrite !Forall_cons in Hv. destruct Hv as (Ha & Hb & Hc & _). unfold version_text.
  assert (D : word (str ".")) by (by split; [|repeat constructor]).
  repeat apply word_app; try done; by apply print_d_word.
Qed.

Lemma module_name_word d name : module_name d = Some name -> word name.
Proof.
  unfold module_name. intros H.
  assert (N : name = str "HMIP-RFUSB-TK" \/ name = str "HMIP-RFUSB" \/ name = str "HM-MOD-RPI-PCB" \/ name = str "RPI-RF-MOD").
  { repeat case_match; simplify_eq; tauto. }
  destruct N as [-> | [-> | [-> | -> ]]]; (split; [done | by repeat constructor]).
Qed.

(** ** Addresses go into the parameters of the fake module *)

Lemma parse_hex_byte b n l : is_byte b ->
  parse_mac_loop (S n) (hex_byte b ++ l) = (fun rest => b :: rest) <$> parse_mac_loop n l.
Proof.
  intros Hb. assert (H : all_below 256 (fun b =>
    let hi := fake_hmrf_parse_hex_char (hex_byte b @@ 0) in let lo := fake_hmrf_parse_hex_char (hex_byte b @@ 1) in
    negb (hi =? - 1) && negb (lo =? - 1) && (Z.lor (u8 (Z.shiftl hi 4)) lo =? b)) = true) by (by vm_compute).
  pose proof (all_below_spec _ _ H b Hb) as E. cbv zeta in E. rewrite !andb_true_iff, !negb_true_iff in E.
  destruct E as [[E1 E2] E3%Z.eqb_eq]. unfold hex_byte in *. cbn [app] in *. cbn [parse_mac_loop].
  change ((hex_digit (Z.shiftr b 4) :: hex_digit (Z.land b 15) :: l) @@ 0) with ([hex_digit (Z.shiftr b 4); hex_digit (Z.land b 15)] @@ 0).
  change ((hex_digit (Z.shiftr b 4) :: hex_digit (Z.land b 15) :: l) @@ 1) with ([hex_digit (Z.shiftr b 4); hex_digit (Z.land b 15)] @@ 1).
  rewrite E1, E2, E3. change (drop 2 (hex_digit (Z.shiftr b 4) :: hex_digit (Z.land b 15) :: l)) with l.
  destruct (parse_mac_loop n l); reflexivity.
Qed.

Lemma address_accepted mac s : 0 <= mac < 2 ^ 24 -> hmrf_ok s ->
  exists s', fake_hmrf_set_radio_mac (print_06X mac) s = (8, s') /\ fake_hmrf_get_radio_mac s' = print_06X mac.
Proof.
  intros Hm [_ _ [L1 _] _ _]. rewrite print_06X_bytes by done. change (2 ^ 24) with 16777216 in Hm.
  assert (B : is_byte (mac / 2 ^ 16) /\ is_byte (mac / 2 ^ 8 mod 2 ^ 8) /\ is_byte (mac mod 2 ^ 8)).
  { unfold is_byte. change (2 ^ 16) with 65536. change (2 ^ 8) with 256. split_and!; zdiv_lia. }
  destruct B as (B1 & B2 & B3). set (b1 := mac / _) in *. set (b2 := mac / _ mod _) in *. set (b3 := mac mod _) in *.
  unfold fake_hmrf_set_radio_mac. set (val := str "0x" ++ _).
  change (zlen val =? 8) with true. change (val @@ 0 =? 0x30) with true. change (val @@ 1 =? 0x78) with true.
  cbn [negb orb]. change (drop 2 val) with (hex_byte b1 ++ hex_byte b2 ++ hex_byte b3).
  assert (P : parse_mac_loop 3 (hex_byte b1 ++ hex_byte b2 ++ hex_byte b3) = Some [b1; b2; b3]).
  { rewrite !parse_hex_byte by done. rewrite <- (app_nil_r (hex_byte b3)). by rewrite parse_hex_byte. }
  rewrite P. eexists. split; [done|]. unfold fake_hmrf_get_radio_mac. cbn [llmac_get_default_rf_address_response].
  destruct (five_entries _ L1) as (a0 & a1 & a2 & a3 & a4 & ->). done.
Qed.

(** C38 (roundtrip). What has been found out can be read from the line that is
    printed: for a module of a supported type with all its answers, whose
    serial number is a word, the six words of the line are the type, the
    serial number, the SGTIN, the two addresses and the version.  And an
    address as it is printed can be given to the fake module, which then
    prints the same. *)
Theorem detection_reported (d : t) (name : list Z) (s : hmrf) : det_ok d -> complete d ->
  module_name d = Some name -> word (getSerial d) -> hmrf_ok s ->
  exists line, report d = (0, line) /\
    words line = [name; getSerial d; getSGTIN d; print_06X (getBidCosRadioMAC d); print_06X (getHmIPRadioMAC d);
                  version_text (getFirmwareVersion d)] /\
    exists s', fake_hmrf_set_radio_mac (print_06X (getBidCosRadioMAC d)) s = (8, s') /\
      fake_hmrf_get_radio_mac s' = print_06X (getBidCosRadioMAC d).
Proof.
  intros Hd Hc Hn Hs Hk. unfold report. rewrite Hn. eexists. split; [done|].
  split; [|apply address_accepted; [apply (do_bidcos d Hd) | done]].
  assert (W : word (getSGTIN d)).
  { destruct Hc as [[[K L] _]|(_ & -> & _)]; [|by split; [|repeat constructor]].
    apply hex_text_word; [done|]. intros E. by rewrite E in L. }
  pose proof (module_name_word d name Hn) as W1. pose proof (print_06X_word _ (do_bidcos d Hd)) as W2.
  pose proof (print_06X_word _ (do_hmip d Hd)) as W3. destruct (do_version d Hd) as [V1 V2].
  pose proof (version_word _ V2 V1) as W4. unfold info_line. change (str " ") with [32]. unfold newline. cbn [app].
  exact (six_words _ _ _ _ _ _ W1 Hs W W2 W3 W4).
Qed.

(** The calls for the device among what the program does. *)
Definition resets (tr : list event) : nat := length (filter (fun e => e = IocReset) tr).

Lemma resets_app t1 t2 : resets (t1 ++ t2) = (resets t1 + resets t2)%nat.
Proof. unfold resets. by rewrite filter_app, length_app. Qed.

Definition quiet (tr : list event) : Prop := Forall (fun e => exists text, e = Log text) tr.

Lemma log_quiet debug text : quiet (log debug text).
Proof. destruct debug; repeat constructor. by exists text. Qed.

Lemma quiet_resets tr : quiet tr -> resets tr = 0%nat /\ (Close ∉ tr) /\ (Detect ∉ tr).
Proof.
  induction 1 as [|e tr [text ->] H (IH1 & IH2 & IH3)]; [split; [done|]; split; apply not_elem_of_nil|].
  split; [exact IH1|]. by rewrite !not_elem_of_cons.
Qed.

(** The parts of [main] between the system calls only log. *)
Lemma main_quiet debug w :
  quiet (if (devinfo w).1 =? 0 then log debug (str "Raw UART device: " ++ device_type w)
         else if (devinfo w).2 =? ENOTTY then [] else log debug (str "Raw UART device: unknown")) /\
  quiet (if (first_reset w).1 =? 0 then log debug (str "Sucessfully resetted radio module.")
         else log debug (reset_message (first_reset w).2)) /\
  quiet (if second_reset w =? 0 then log debug (str "Sucessfully resetted radio module.") else []).
Proof. split_and!; repeat case_match; try apply log_quiet; constructor. Qed.

(** However the calls of the system turn out, the program ends
    with 0 or -1, and with 0 exactly when it has a path, the device could be
    opened and was not in use, and a module of a supported type has been found.
    When the detection has run, the module has been reset once before it and
    once after it; and a descriptor it has got is closed at the end, once. *)
Theorem program_outcome (argv : list (list Z)) (w : world) :
  let (code, tr) := main argv w in
  code = (if usable_arguments argv && (0 <=? opened w) && negb (in_use w) then (report (detection w)).1 else - 1) /\
  ((report (detection w)).1 = 0 <-> exists name, module_name (detection w) = Some name) /\
  ((report (detection w)).1 = 0 \/ (report (detection w)).1 = - 1) /\
  (usable_arguments argv && (0 <=? opened w) = true ->
     exists tr1 text, tr = tr1 ++ [Close; Print text] /\ (Close ∉ tr1) /\
       (if in_use w then Detect ∉ tr1
        else exists before after, tr1 = before ++ Detect :: after /\ resets before = 1%nat /\ resets after = 1%nat /\
               Detect ∉ (before ++ after))).
Proof.
  unfold main. set (debug := debugging argv).
  destruct (main_quiet debug w) as (Q1 & Q2 & Q3). set (i := if (devinfo w).1 =? 0 then _ else _) in *.
  set (r := if (first_reset w).1 =? 0 then _ else _) in *. set (a := if second_reset w =? 0 then _ else _) in *.
  assert (R : ((report (detection w)).1 = 0 <-> exists name, module_name (detection w) = Some name) /\
    ((report (detection w)).1 = 0 \/ (report (detection w)).1 = - 1)).
  { unfold report. destruct (module_name (detection w)) as [name|]; cbn [fst]; split; [|by left| |by right]; split; try done; [by exists name | by intros []]. }
  destruct R as [R1 R2]. apply quiet_resets in Q1 as (A1 & A2 & A3), Q2 as (B1 & B2 & B3), Q3 as (C1 & C2 & C3).
  destruct (usable_arguments argv) eqn:U; cbn [negb andb]; cbv beta iota;
    [|split; [reflexivity|]; split; [exact R1|]; split; [exact R2 | done]].
  destruct (Z.ltb_spec (opened w) 0), (Z.leb_spec 0 (opened w)); try lia; cbn [andb]; cbv beta iota;
    [split; [reflexivity|]; split; [exact R1|]; split; [exact R2 | done]|].
  destruct (in_use w) eqn:IU; cbn [negb]; cbv beta iota.
  - split; [done|]. split; [exact R1|]. split; [exact R2|]. intros _. eexists _, _. split; [reflexivity|].
    rewrite !not_elem_of_app, !not_elem_of_cons. split_and!; try done; apply not_elem_of_nil.
  - destruct (report (detection w)) as [code text] eqn:Er. cbn [fst] in *. split; [done|]. split; [exact R1|]. split; [exact R2|].
    intros _. exists ((([Open (nth (if debug then 2 else 1)%nat argv []); IocgDevInfo] ++ i ++ [IocReset]) ++ r) ++ Detect :: IocReset :: a), text.
    split; [by rewrite <- !app_assoc|]. split.
    + rewrite !not_elem_of_app, !not_elem_of_cons. split_and!; try done; apply not_elem_of_nil.
    + eexists _, _. split; [done|]. split; [by rewrite !resets_app, A1, B1|]. split.
      { change (IocReset :: a) with ([IocReset] ++ a). by rewrite resets_app, C1. }
      rewrite !not_elem_of_app, !not_elem_of_cons. split_and!; try done; apply not_elem_of_nil.
Qed.

(** A mark in an answer that the module does not escape ends the
    detection with half of the answers, and the program reports success: with
    the radio address 0x12FD34 the tool waits in vain for the HmIP address and
    ends by its timeout; the type is known by then, so the exit code is 0, but
    the two texts are empty, and the line has four words for six. *)
Theorem stray_mark_reported : exists s k' line,
  dialogue (CB := linux_circ) 76 (detectRadioModule create (StreamParser.create false (replicate 2048 0) 0 0))
    (device 2 8 6 0x12 0xfd 0x34 (str "FKE1234567")) = Ok (s, k') /\
  pc s = Done TimedOut /\ report (det s) = (0, line) /\
  words line = [str "HM-MOD-RPI-PCB"; str "0x000000"; str "0x000000"; str "2.8.6"].
Proof.
  set (r := dialogue _ _ _). assert (E : match r with
    | Ok (s, k') => pc s = Done TimedOut /\ (report (det s)).1 = 0 /\
        words (report (det s)).2 = [str "HM-MOD-RPI-PCB"; str "0x000000"; str "0x000000"; str "2.8.6"]
    | _ => False end) by (vm_compute; by split_and!).
  destruct r as [[s k']| | | |]; try done. destruct E as (E1 & E2 & E3).
  exists s, k', (report (det s)).2. split_and!; try done. destruct (report (det s)). cbn in *. by subst.
Qed.

(** ** The theorem on a module that has been detected *)

Module DetectMainSamples.
(** An RPI-RF-MOD with all its answers. *)
Definition found : t :=
  Detector (str "D5699DAB52" ++ [0]) 0xffab52 0x7A2F1 (str "3014F711A061A7D5699DAB52" ++ [0]) [4; 4; 22]
    RADIO_MODULE_RPI_RF_MOD FINISHED 0 9 [] 0.

Lemma found_complete : det_ok found /\ complete found.
Proof.
  split; [split; try done; split; [done | by apply bytes_check]|]. left. split; [|by intros _]. split; [|done].
  destruct (hex_bytes_text [0x30; 0x14; 0xF7; 0x11; 0xA0; 0x61; 0xA7; 0xD5; 0x69; 0x9D; 0xAB; 0x52]) as [H _];
    [by apply bytes_check|]. exact H.
Qed.

Lemma detection_reported_witness : exists line, report found = (0, line) /\
  words line = [str "RPI-RF-MOD"; str "D5699DAB52"; str "3014F711A061A7D5699DAB52"; str "0xFFAB52"; str "0x07A2F1"; str "4.4.22"].
Proof.
  destruct found_complete as [H1 H2].
  destruct (detection_reported found (str "RPI-RF-MOD") initial_hmrf H1 H2) as (line & E & W & _);
    [done | split; [done | by repeat constructor] | apply initial_hmrf_ok |].
  exists line. split; [exact E|]. rewrite W. vm_compute. reflexivity.
Defined.
End DetectMainSamples.
