(* ===== verification/RfLed.v ===== *)
(** The three LEDs of the RPI-RF-MOD (src/kernel/rpi_rf_mod_led.c): LED class
    devices whose GPIO pins are module parameters.  The GPIO and LED cores are
    an environment; what the driver asks of them is recorded as calls. *)
From stdpp Require Import strings.
From S2P Require Import Prelude Kernel Detector.

Definition LED_OFF : Z := 0.
Definition LED_FULL : Z := 255.

Inductive colour := Red | Green | Blue.

#[export] Instance colour_eq_dec : EqDecision colour.
Proof. solve_decision. Defined.

(** [struct rpi_rf_mod_led_led]; [name] and [trigger] are of its [cdev]. *)
Record led := Led { name : list Z; default_trigger : list Z; gpio : Z; brightness : Z }.

(** What is asked of the GPIO and LED cores. *)
Inductive call :=
| led_classdev_register (name : list Z) | led_classdev_unregister (name : list Z)
| gpio_request (pin : Z) (label : list Z) | gpio_free (pin : Z)
| gpio_direction_output (pin value : Z) | gpio_set_value (pin value : Z).

#[export] Instance call_eq_dec : EqDecision call.
Proof. solve_decision. Defined.

(** The static variables: three parameters, three pointers; and the calls so
    far. *)
Record leds := Leds { pin : colour -> Z; led_of : colour -> option led; calls : list call }.

Definition initial_leds : leds := Leds (fun _ => 0) (fun _ => None) [].

Definition upd {A} (f : colour -> A) (c : colour) (v : A) : colour -> A := fun c' => if decide (c' = c) then v else f c'.

Definition set_led (c : colour) (l : led) (s : leds) : leds := Leds (pin s) (upd (led_of s) c (Some l)) (calls s).
Definition drop_led (c : colour) (s : leds) : leds := Leds (pin s) (upd (led_of s) c None) (calls s).
Definition set_pin (c : colour) (g : Z) (s : leds) : leds := Leds (upd (pin s) c g) (led_of s) (calls s).
Definition do_calls (l : list call) (s : leds) : leds := Leds (pin s) (led_of s) (calls s ++ l).

Definition level (b : Z) : Z := if b =? LED_OFF then 0 else 1.

Definition with_brightness (b : Z) (l : led) : led := Led (name l) (default_trigger l) (gpio l) b.
Definition with_gpio (g : Z) (l : led) : led := Led (name l) (default_trigger l) g (brightness l).

(** ** Operations *)

Section Operations.
(** [gpio_is_valid], [kstrtoint] with base 10, and what [%d] prints. *)
Context (gpio_is_valid : Z -> bool) (kstrtoint : list Z -> option Z) (print_d : Z -> list Z).

Definition rpi_rf_mod_led_set_led_brightness (c : colour) (b : Z) (s : leds) : exec leds :=
  let? l := deref (led_of s c) in
  let l := with_brightness b l in
  Ok (do_calls (if negb (gpio l =? 0) then [gpio_set_value (gpio l) (level b)] else []) (set_led c l s)).

Definition rpi_rf_mod_led_get_led_brightness (c : colour) (s : leds) : exec Z :=
  let? l := deref (led_of s c) in Ok (brightness l).

(** [oom]: [kzalloc] returns [NULL], which is not checked. *)
Definition rpi_rf_mod_led_createled (oom : bool) (c : colour) (nm : list Z) (initial : bool) (s : leds) : exec leds :=
  if oom then NullDeref else
  let l := Led nm (if initial then str "default-on" else str "none") 0 (if initial then LED_FULL else LED_OFF) in
  Ok (do_calls [led_classdev_register nm] (set_led c l s)).

Definition rpi_rf_mod_led_set_gpio_pin (c : colour) (g : Z) (s : leds) : leds :=
  match led_of s c with
  | None => s
  | Some l =>
    let s := if negb (gpio l =? 0) then do_calls [gpio_free (gpio l)] s else s in
    if negb (g =? 0) && gpio_is_valid g then
      set_led c (with_gpio g l)
        (do_calls [gpio_request g (name l); gpio_direction_output g 0; gpio_set_value g (level (brightness l))] s)
    else set_led c (with_gpio 0 l) s
  end.

Definition rpi_rf_mod_led_destroyled (c : colour) (s : leds) : exec leds :=
  let? l := deref (led_of s c) in
  let s := do_calls [led_classdev_unregister (name l)] s in
  let s := if negb (gpio l =? 0) then do_calls [gpio_free (gpio l)] s else s in
  Ok (drop_led c s).

Definition led_name (c : colour) : list Z :=
  match c with Red => str "rpi_rf_mod:red" | Green => str "rpi_rf_mod:green" | Blue => str "rpi_rf_mod:blue" end.

Definition rpi_rf_mod_led_init (oom : colour -> bool) (s : leds) : exec leds :=
  let? s := rpi_rf_mod_led_createled (oom Red) Red (led_name Red) true s in
  let? s := rpi_rf_mod_led_createled (oom Green) Green (led_name Green) true s in
  let? s := rpi_rf_mod_led_createled (oom Blue) Blue (led_name Blue) false s in
  let s := rpi_rf_mod_led_set_gpio_pin Red (pin s Red) s in
  let s := rpi_rf_mod_led_set_gpio_pin Green (pin s Green) s in
  Ok (rpi_rf_mod_led_set_gpio_pin Blue (pin s Blue) s).

Definition rpi_rf_mod_led_exit (s : leds) : exec leds :=
  let? s := rpi_rf_mod_led_destroyled Red s in
  let? s := rpi_rf_mod_led_destroyled Green s in
  rpi_rf_mod_led_destroyled Blue s.

(** The three comparisons with [kp->name]. *)
Definition param_colour (kp : list Z) : option colour :=
  if decide (kp = str "red_gpio_pin") then Some Red
  else if decide (kp = str "green_gpio_pin") then Some Green
  else if decide (kp = str "blue_gpio_pin") then Some Blue
  else None.

Definition rpi_rf_mod_led_set_param (val kp : list Z) (s : leds) : Z * leds :=
  match kstrtoint val with
  | None => (- EINVAL, s)
  | Some g =>
    match param_colour kp with
    | None => (- ENODEV, s)
    | Some c => (0, rpi_rf_mod_led_set_gpio_pin c g (set_pin c g s))
    end
  end.

Definition rpi_rf_mod_led_get_param (kp : list Z) (s : leds) : exec (Z * list Z) :=
  match param_colour kp with
  | None => Ok (- ENODEV, [])
  | Some c => let? l := deref (led_of s c) in let text := print_d (gpio l) in Ok (zlen text, text)
  end.

(** ** Pins that are asked for and given back *)

Definition requested (g : Z) (l : list call) : Z :=
  zlen (filter (fun c => match c with gpio_request g' _ => bool_decide (g' = g) | _ => false end = true) l).
Definition freed (g : Z) (l : list call) : Z := zlen (filter (fun c => c = gpio_free g) l).
Definition held (g : Z) (l : list call) : Z := requested g l - freed g l.

Definition uses (g : Z) (o : option led) : Z := match o with Some l => b2z (gpio l =? g) | None => 0 end.
Definition users (g : Z) (s : leds) : Z := uses g (led_of s Red) + uses g (led_of s Green) + uses g (led_of s Blue).

(** Each pin has been asked for once more than given back for each LED that
    uses it, and the parameters read back are valid pins. *)
Record leds_ok (s : leds) : Prop := {
  lo_held : forall g, g <> 0 -> held g (calls s) = users g s;
  lo_valid : forall c l, led_of s c = Some l -> gpio l <> 0 -> gpio_is_valid (gpio l) = true
}.

(** The last level a pin has been set to. *)
Fixpoint pin_level (g : Z) (l : list call) : option Z :=
  match l with
  | [] => None
  | c :: l =>
    match pin_level g l with
    | Some v => Some v
    | None => match c with gpio_set_value g' v => if g' =? g then Some v else None | _ => None end
    end
  end.

Lemma held_app g l1 l2 : held g (l1 ++ l2) = held g l1 + held g l2.
Proof. unfold held, requested, freed. rewrite !filter_app, !zlen_app. lia. Qed.

Lemma pin_level_app g l1 l2 : pin_level g (l1 ++ l2) = match pin_level g l2 with Some v => Some v | None => pin_level g l1 end.
Proof.
  induction l1 as [|c l1 IH]; cbn [app pin_level]; [by destruct (pin_level g l2)|]. rewrite IH.
  by destruct (pin_level g l2).
Qed.

Lemma upd_same {A} (f : colour -> A) c v : upd f c v c = v.
Proof. unfold upd. by rewrite decide_True. Qed.
Lemma upd_other {A} (f : colour -> A) c c' v : c' <> c -> upd f c v c' = f c'.
Proof. intros. unfold upd. by rewrite decide_False. Qed.

(** Changing one LED changes the users by its part. *)
Lemma users_upd g c o p l k : users g (Leds p (upd (led_of l) c o) k) = users g l - uses g (led_of l c) + uses g o.
Proof. unfold users. cbn [led_of]. destruct c; rewrite ?upd_same, ?upd_other by done; lia. Qed.

Lemma leds_ok_upd c o p k s : leds_ok s ->
  (forall g, g <> 0 -> held g k = uses g o - uses g (led_of s c)) ->
  (forall l, o = Some l -> gpio l <> 0 -> gpio_is_valid (gpio l) = true) ->
  leds_ok (Leds p (upd (led_of s) c o) (calls s ++ k)).
Proof.
  intros [H1 H2] Hk Hv. split; cbn [calls led_of].
  - intros g Hg. rewrite held_app, users_upd, H1, Hk by done. lia.
  - intros c' l E. destruct (decide (c' = c)) as [->|Hn]; [rewrite upd_same in E; by apply Hv | rewrite upd_other in E by done; by apply (H2 c')].
Qed.

Lemma initial_leds_ok : leds_ok initial_leds.
Proof. by split. Qed.

(** What single calls contribute. *)
Lemma held_request g g' nm : held g [gpio_request g' nm; gpio_direction_output g' 0] = b2z (g' =? g).
Proof.
  unfold held, requested, freed. rewrite !filter_cons, !filter_nil. rewrite (decide_False (P := gpio_request _ _ = _)) by done.
  rewrite (decide_False (P := gpio_direction_output _ _ = _)) by done. rewrite (decide_False (P := false = true)) by done.
  destruct (Z.eqb_spec g' g) as [->|Hn].
  - by rewrite decide_True by (by rewrite bool_decide_true).
  - by rewrite decide_False by (by rewrite bool_decide_false).
Qed.

Lemma held_free g g' : held g [gpio_free g'] = - b2z (g' =? g).
Proof.
  unfold held, requested, freed. rewrite !filter_cons, !filter_nil. rewrite (decide_False (P := false = true)) by done.
  destruct (Z.eqb_spec g' g) as [->|Hn]; [by rewrite decide_True | rewrite decide_False by congruence; done].
Qed.

Lemma held_other g c : (forall nm, c <> gpio_request g nm) -> c <> gpio_free g -> held g [c] = 0.
Proof.
  intros H1 H2. unfold held, requested, freed. rewrite !filter_cons, !filter_nil. rewrite (decide_False (P := c = _)) by done.
  rewrite decide_False; [done|]. destruct c; try done. case_bool_decide; [by subst; edestruct H1 | done].
Qed.

Lemma set_brightness_ok c b s l : leds_ok s -> led_of s c = Some l ->
  exists s', rpi_rf_mod_led_set_led_brightness c b s = Ok s' /\ leds_ok s' /\
    led_of s' c = Some (with_brightness b l) /\
    (gpio l <> 0 -> pin_level (gpio l) (calls s') = Some (level b)).
Proof.
  intros Hs Hl. unfold rpi_rf_mod_led_set_led_brightness. rewrite Hl. cbn [deref exec_bind]. eexists. split; [done|].
  split; [|split; [apply upd_same|]].
  - unfold do_calls, set_led. cbn [calls led_of pin]. apply leds_ok_upd; [done | |].
    + intros g Hg. rewrite Hl. cbn [uses with_brightness gpio]. rewrite Z.sub_diag.
      destruct (negb _); [by apply held_other | done].
    + intros l' [= <-]. apply (lo_valid s Hs c l Hl).
  - intros Hg. cbn. apply Z.eqb_neq in Hg. rewrite Hg. cbn. by rewrite pin_level_app; cbn; rewrite Z.eqb_refl.
Qed.

Lemma set_gpio_pin_ok c g s : leds_ok s ->
  leds_ok (rpi_rf_mod_led_set_gpio_pin c g s) /\
  forall l, led_of s c = Some l ->
    let g' := if negb (g =? 0) && gpio_is_valid g then g else 0 in
    led_of (rpi_rf_mod_led_set_gpio_pin c g s) c = Some (with_gpio g' l) /\
    (g' <> 0 -> pin_level g' (calls (rpi_rf_mod_led_set_gpio_pin c g s)) = Some (level (brightness l))).
Proof.
  intros Hs. unfold rpi_rf_mod_led_set_gpio_pin. destruct (led_of s c) as [l|] eqn:Hl; [|split; [done | by intros]].
  set (k1 := if negb (gpio l =? 0) then [gpio_free (gpio l)] else []).
  assert (E1 : (if negb (gpio l =? 0) then do_calls [gpio_free (gpio l)] s else s) = do_calls k1 s).
  { unfold k1, do_calls. destruct (negb _); [done|]. rewrite app_nil_r. by destruct s. }
  rewrite E1. assert (K1 : forall g', g' <> 0 -> held g' k1 = - uses g' (Some l)).
  { intros g' Hg'. unfold k1, uses. destruct (Z.eqb_spec (gpio l) 0) as [->|]; cbn [negb]; [|apply held_free].
    by rewrite (proj2 (Z.eqb_neq 0 g')) by done. }
  destruct (negb (g =? 0) && gpio_is_valid g) eqn:V.
  - apply andb_true_iff in V as [V1%negb_true_iff%Z.eqb_neq V2]. split.
    + unfold set_led, do_calls. cbn [calls led_of pin]. rewrite <- app_assoc. apply leds_ok_upd; [done| |by intros l' [= <-]].
      intros g' Hg'. rewrite Hl, !held_app, K1 by done.
      change [gpio_request g (name l); gpio_direction_output g 0; gpio_set_value g (level (brightness l))] with
        ([gpio_request g (name l); gpio_direction_output g 0] ++ [gpio_set_value g (level (brightness l))]).
      rewrite held_app, held_request, (held_other g' (gpio_set_value _ _)) by done. cbn [uses with_gpio gpio]. lia.
    + intros l' [= <-]. split; [apply upd_same|]. intros _. cbn. rewrite pin_level_app. cbn. by rewrite Z.eqb_refl.
  - split.
    + unfold set_led, do_calls. cbn [calls led_of pin]. apply leds_ok_upd; [done| |by intros l' [= <-] ?].
      intros g' Hg'. rewrite Hl, K1 by done. cbn [uses with_gpio gpio]. by rewrite (proj2 (Z.eqb_neq 0 g')) by done.
    + intros l' [= <-]. split; [apply upd_same | done].
Qed.

Lemma destroyled_ok c s l : leds_ok s -> led_of s c = Some l ->
  exists s', rpi_rf_mod_led_destroyled c s = Ok s' /\ leds_ok s' /\ led_of s' c = None /\
    forall c', c' <> c -> led_of s' c' = led_of s c'.
Proof.
  intros Hs Hl. unfold rpi_rf_mod_led_destroyled. rewrite Hl. cbn [deref exec_bind]. eexists. split; [done|].
  set (k := [led_classdev_unregister (name l)] ++ if negb (gpio l =? 0) then [gpio_free (gpio l)] else []).
  assert (E : (if negb (gpio l =? 0) then do_calls [gpio_free (gpio l)] (do_calls [led_classdev_unregister (name l)] s)
    else do_calls [led_classdev_unregister (name l)] s) = do_calls k s).
  { unfold k, do_calls. destruct (negb _); cbn [calls led_of pin]; [by rewrite app_assoc | by rewrite app_nil_r]. }
  rewrite E. split; [|split; [apply upd_same | intros; by apply upd_other]].
  unfold drop_led, do_calls. cbn [calls led_of pin]. apply leds_ok_upd; [done| |done]. intros g Hg. rewrite Hl. unfold k. rewrite held_app, (held_other g (led_classdev_unregister _)) by done.
  cbn [uses]. destruct (Z.eqb_spec (gpio l) 0) as [->|]; cbn [negb]; [by rewrite (proj2 (Z.eqb_neq 0 g)) by done|].
  rewrite held_free. lia.
Qed.

(** ** The life of the module *)

Lemma createled_ok c nm initial s : leds_ok s -> led_of s c = None ->
  exists s' l, rpi_rf_mod_led_createled false c nm initial s = Ok s' /\ leds_ok s' /\ led_of s' c = Some l /\
    (forall c', c' <> c -> led_of s' c' = led_of s c') /\ pin s' = pin s.
Proof.
  intros Hs Hl. unfold rpi_rf_mod_led_createled. eexists _, _. split; [done|].
  split; [|split; [apply upd_same | split; [intros; by apply upd_other | done]]].
  unfold do_calls, set_led. cbn [calls led_of pin]. apply leds_ok_upd; [done| |by intros l [= <-]].
  intros g Hg. rewrite Hl, held_other by done. cbn [uses gpio]. by rewrite (proj2 (Z.eqb_neq 0 g)) by done.
Qed.

Definition all_leds (s : leds) : Prop := forall c, is_Some (led_of s c).

Lemma set_gpio_pin_all c g s : all_leds s -> all_leds (rpi_rf_mod_led_set_gpio_pin c g s).
Proof.
  intros Hs c'. unfold rpi_rf_mod_led_set_gpio_pin. destruct (led_of s c) as [l|] eqn:E; [|apply Hs].
  destruct (negb (gpio l =? 0)), (negb (g =? 0) && gpio_is_valid g); cbn; unfold upd; case_decide; eauto.
Qed.

Lemma init_ok pins : exists s, rpi_rf_mod_led_init (fun _ => false) (Leds pins (fun _ => None) []) = Ok s /\
  leds_ok s /\ all_leds s.
Proof.
  assert (H0 : leds_ok (Leds pins (fun _ => None) [])) by (by split). unfold rpi_rf_mod_led_init.
  destruct (createled_ok Red (led_name Red) true _ H0 eq_refl) as (s1 & l1 & -> & O1 & E1 & F1 & _). cbn [exec_bind].
  destruct (createled_ok Green (led_name Green) true s1 O1) as (s2 & l2 & -> & O2 & E2 & F2 & _); [by rewrite F1|]. cbn [exec_bind].
  destruct (createled_ok Blue (led_name Blue) false s2 O2) as (s3 & l3 & -> & O3 & E3 & F3 & _);
    [by rewrite F2, F1 by done|]. cbn [exec_bind].
  eexists. split; [done|]. split; [by repeat apply set_gpio_pin_ok|]. repeat apply set_gpio_pin_all.
  intros []; [rewrite F3, F2, E1 by done | rewrite F3, E2 by done | rewrite E3]; by eexists.
Qed.

(** What happens to it while it is loaded. *)
Inductive op := SetBrightness (c : colour) (b : Z) | SetParam (val kp : list Z).

Fixpoint operate (l : list op) (s : leds) : exec leds :=
  match l with
  | [] => Ok s
  | SetBrightness c b :: l => let? s := rpi_rf_mod_led_set_led_brightness c b s in operate l s
  | SetParam val kp :: l => operate l (rpi_rf_mod_led_set_param val kp s).2
  end.

Lemma set_param_ok val kp s : leds_ok s -> all_leds s ->
  leds_ok (rpi_rf_mod_led_set_param val kp s).2 /\ all_leds (rpi_rf_mod_led_set_param val kp s).2.
Proof.
  intros Hs Ha. unfold rpi_rf_mod_led_set_param. destruct (kstrtoint val) as [g|]; [|done].
  destruct (param_colour kp) as [c|]; [|done]. cbn [snd].
  assert (Hs' : leds_ok (set_pin c g s)) by (destruct Hs; by split).
  split; [by apply set_gpio_pin_ok | by apply set_gpio_pin_all].
Qed.

Lemma operate_ok l : forall s, leds_ok s -> all_leds s ->
  exists s', operate l s = Ok s' /\ leds_ok s' /\ all_leds s'.
Proof.
  induction l as [|[c b|val kp] l IH]; intros s Hs Ha; cbn [operate].
  - by exists s.
  - destruct (Ha c) as [ld E]. destruct (set_brightness_ok c b s ld Hs E) as (s1 & E1 & O1 & _ & _). rewrite E1. cbn [exec_bind].
    apply IH; [done|]. unfold rpi_rf_mod_led_set_led_brightness in E1. rewrite E in E1. injection E1 as <-.
    intros c'. cbn. unfold upd. case_decide; eauto.
  - destruct (set_param_ok val kp s Hs Ha) as [O1 A1]. by apply IH.
Qed.


(** A pin that is set is read back, and shows the brightness at once. *)
Lemma pin_parameter val kp c g l s : leds_ok s -> kstrtoint val = Some g -> param_colour kp = Some c ->
  led_of s c = Some l ->
  let g' := if negb (g =? 0) && gpio_is_valid g then g else 0 in
  let (ret, s') := rpi_rf_mod_led_set_param val kp s in
  ret = 0 /\ rpi_rf_mod_led_get_param kp s' = Ok (zlen (print_d g'), print_d g') /\
  (g' <> 0 -> pin_level g' (calls s') = Some (level (brightness l))).
Proof.
  intros Hs Hv Hk Hl g'. unfold rpi_rf_mod_led_set_param, rpi_rf_mod_led_get_param. rewrite Hv, Hk.
  assert (Hs' : leds_ok (set_pin c g s)) by (destruct Hs; by split).
  destruct (proj2 (set_gpio_pin_ok c g (set_pin c g s) Hs') l Hl) as [E P]. fold g' in E, P. rewrite E. done.
Qed.
End Operations.

(** ** Two LEDs on one pin

    The pin is asked for twice, which the GPIO core refuses the second time; the
    result is not looked at, and what one LED gives back the other still uses. *)
Example shared_pin : exists s,
  operate (fun _ => true) (fun t => if bool_decide (t = str "17") then Some 17 else Some 0)
    [SetParam (str "17") (str "red_gpio_pin"); SetParam (str "17") (str "green_gpio_pin");
     SetParam (str "0") (str "red_gpio_pin")]
    (Leds (fun _ => 0) (fun c => Some (Led (led_name c) [] 0 LED_FULL)) []) = Ok s /\
  calls s = [gpio_request 17 (str "rpi_rf_mod:red"); gpio_direction_output 17 0; gpio_set_value 17 1;
             gpio_request 17 (str "rpi_rf_mod:green"); gpio_direction_output 17 0; gpio_set_value 17 1;
             gpio_free 17] /\ users 17 s = 1.
Proof. eexists. split; [vm_compute; reflexivity|]. by split. Qed.
