(* ===== verification/LedTimer.v ===== *)
(** The timer trigger for LEDs (src/kernel/led_trigger_timer.c), for kernels
    before and since 4.19: two attributes for the times, and what is set up and
    taken down with the trigger.  The LED core, that blinks, is an interface. *)
From S2P Require Import Prelude Kernel.

Inductive attribute := delay_on | delay_off.

#[export] Instance attribute_eq_dec : EqDecision attribute.
Proof. solve_decision. Defined.

(** What the trigger uses of [struct led_classdev], and the attributes that have
    been created for its device. *)
Record led_classdev := LedClassdev {
  blink_delay_on : Z;
  blink_delay_off : Z;
  led_brightness : Z;
  activated : bool;
  files : list attribute
}.

Definition set_on (v : Z) (l : led_classdev) : led_classdev :=
  LedClassdev v (blink_delay_off l) (led_brightness l) (activated l) (files l).
Definition set_off (v : Z) (l : led_classdev) : led_classdev :=
  LedClassdev (blink_delay_on l) v (led_brightness l) (activated l) (files l).
Definition set_activated (b : bool) (l : led_classdev) : led_classdev :=
  LedClassdev (blink_delay_on l) (blink_delay_off l) (led_brightness l) b (files l).
Definition set_files (fs : list attribute) (l : led_classdev) : led_classdev :=
  LedClassdev (blink_delay_on l) (blink_delay_off l) (led_brightness l) (activated l) fs.

(** The LED core: [led_blink_set] is called with pointers to the two times, may
    write through them, and changes the device; [led_set_brightness].  "If both
    are zero then a sensible default should be chosen"; other times are kept. *)
Class LedCore := {
  led_blink_set : Z -> Z -> led_classdev -> Z * Z * led_classdev;
  led_set_brightness : Z -> led_classdev -> led_classdev;
  blink_keeps on off l : on <> 0 \/ off <> 0 -> (led_blink_set on off l).1 = (on, off);
  blink_default l : 0 < (led_blink_set 0 0 l).1.1 /\ 0 < (led_blink_set 0 0 l).1.2;
  blink_frame on off l : activated (led_blink_set on off l).2 = activated l /\ files (led_blink_set on off l).2 = files l;
  brightness_frame b l : activated (led_set_brightness b l) = activated l /\ files (led_set_brightness b l) = files l
}.

Section Operations.
Context `{LC : LedCore}.
(** [kstrtoul] with base 10: a number, or an error; and what [%lu] prints. *)
Context (kstrtoul : list Z -> Z + Z) (print_lu : Z -> list Z).

Definition led_delay_on_show (l : led_classdev) : list Z := print_lu (blink_delay_on l) ++ [10].
Definition led_delay_off_show (l : led_classdev) : list Z := print_lu (blink_delay_off l) ++ [10].

(** One pointer goes to a local variable, the other into the device. *)
Definition led_delay_on_store (text : list Z) (size : Z) (l : led_classdev) : Z * led_classdev :=
  match kstrtoul text with
  | inr err => (err, l)
  | inl state =>
    let '(state, off, l) := led_blink_set state (blink_delay_off l) l in
    (size, set_on state (set_off off l))
  end.

Definition led_delay_off_store (text : list Z) (size : Z) (l : led_classdev) : Z * led_classdev :=
  match kstrtoul text with
  | inr err => (err, l)
  | inl state =>
    let '(on, state, l) := led_blink_set (blink_delay_on l) state l in
    (size, set_off state (set_on on l))
  end.

(** Both pointers go into the device. *)
Definition blink (l : led_classdev) : led_classdev :=
  let '(on, off, l) := led_blink_set (blink_delay_on l) (blink_delay_off l) l in set_off off (set_on on l).

(** Since 4.19 the core creates the attributes. *)
Definition timer_trig_activate (l : led_classdev) : Z * led_classdev := (0, blink l).
Definition timer_trig_deactivate (l : led_classdev) : led_classdev := led_set_brightness 0 l.

Definition device_create_file (a : attribute) (l : led_classdev) : led_classdev := set_files (files l ++ [a]) l.
Definition device_remove_file (a : attribute) (l : led_classdev) : led_classdev :=
  set_files (filter (fun a' => a' <> a) (files l)) l.

(** Before 4.19; [rc1] and [rc2] are what [device_create_file] returns. *)
Definition timer_trig_activate_4_18 (rc1 rc2 : Z) (l : led_classdev) : led_classdev :=
  if negb (rc1 =? 0) then l else
  let l := device_create_file delay_on l in
  if negb (rc2 =? 0) then device_remove_file delay_on l else
  let l := device_create_file delay_off l in
  set_activated true (blink l).

Definition timer_trig_deactivate_4_18 (l : led_classdev) : led_classdev :=
  let l := if activated l
           then set_activated false (device_remove_file delay_off (device_remove_file delay_on l)) else l in
  led_set_brightness 0 l.

(** ** Attributes *)

(** The attributes are there exactly while the trigger is activated. *)
Definition files_ok (l : led_classdev) : Prop := files l = if activated l then [delay_on; delay_off] else [].

Lemma blink_fields l : activated (blink l) = activated l /\ files (blink l) = files l.
Proof.
  unfold blink. pose proof (blink_frame (blink_delay_on l) (blink_delay_off l) l) as [H1 H2].
  by destruct (led_blink_set _ _ l) as [[on off] l'].
Qed.

Lemma activate_files rc1 rc2 l : files_ok l -> activated l = false ->
  files_ok (timer_trig_activate_4_18 rc1 rc2 l) /\
  (activated (timer_trig_activate_4_18 rc1 rc2 l) = true <-> rc1 = 0 /\ rc2 = 0).
Proof.
  unfold files_ok, timer_trig_activate_4_18. intros Hf Ha. rewrite Ha in Hf.
  destruct (Z.eqb_spec rc1 0); cbn [negb]; [|rewrite Ha, Hf; split; [done | split; [done | tauto]]].
  destruct (Z.eqb_spec rc2 0); cbn [negb]; [|cbn; rewrite Ha, Hf; split; [done | split; [done | tauto]]].
  split; [|done]. cbn. rewrite (proj2 (blink_fields _)). cbn. by rewrite Hf.
Qed.

Lemma deactivate_files l : files_ok l ->
  files (timer_trig_deactivate_4_18 l) = [] /\ activated (timer_trig_deactivate_4_18 l) = false.
Proof.
  unfold files_ok, timer_trig_deactivate_4_18. intros Hf.
  destruct (activated l) eqn:Ha; rewrite (proj1 (brightness_frame _ _)), (proj2 (brightness_frame _ _)); cbn; by rewrite ?Hf.
Qed.

(** ** Times *)

(** A time that is written is read back, and the other one is left alone, unless
    both are zero, for which the core chooses times that are not. *)
Lemma delay_on_stored text size l t : kstrtoul text = inl t ->
  let (ret, l') := led_delay_on_store text size l in
  ret = size /\
  if (t =? 0) && (blink_delay_off l =? 0) then 0 < blink_delay_on l' /\ 0 < blink_delay_off l'
  else led_delay_on_show l' = print_lu t ++ [10] /\ blink_delay_off l' = blink_delay_off l.
Proof.
  intros E. unfold led_delay_on_store, led_delay_on_show. rewrite E.
  destruct (Z.eqb_spec t 0) as [->|H1], (Z.eqb_spec (blink_delay_off l) 0) as [H2|H2]; cbn [andb].
  - rewrite H2. pose proof (blink_default l) as H. destruct (led_blink_set 0 0 l) as [[on off] l']. done.
  - pose proof (blink_keeps 0 (blink_delay_off l) l ltac:(by right)) as H. destruct (led_blink_set _ _ l) as [[on off] l'].
    cbn in *. by injection H as -> ->.
  - pose proof (blink_keeps t (blink_delay_off l) l ltac:(by left)) as H. destruct (led_blink_set _ _ l) as [[on off] l'].
    cbn in *. by injection H as -> ->.
  - pose proof (blink_keeps t (blink_delay_off l) l ltac:(by left)) as H. destruct (led_blink_set _ _ l) as [[on off] l'].
    cbn in *. by injection H as -> ->.
Qed.

Lemma delay_off_stored text size l t : kstrtoul text = inl t ->
  let (ret, l') := led_delay_off_store text size l in
  ret = size /\
  if (blink_delay_on l =? 0) && (t =? 0) then 0 < blink_delay_on l' /\ 0 < blink_delay_off l'
  else led_delay_off_show l' = print_lu t ++ [10] /\ blink_delay_on l' = blink_delay_on l.
Proof.
  intros E. unfold led_delay_off_store, led_delay_off_show. rewrite E.
  destruct ((blink_delay_on l =? 0) && (t =? 0)) eqn:B.
  - apply andb_true_iff in B as [H1%Z.eqb_eq H2%Z.eqb_eq]. rewrite H1, H2. pose proof (blink_default l) as H.
    by destruct (led_blink_set 0 0 l) as [[on off] l'].
  - assert (N : blink_delay_on l <> 0 \/ t <> 0) by (apply andb_false_iff in B as [?%Z.eqb_neq|?%Z.eqb_neq]; auto).
    pose proof (blink_keeps (blink_delay_on l) t l N) as H. destruct (led_blink_set _ _ l) as [[on off] l'].
    cbn in *. by injection H as -> ->.
Qed.

(** The times of the timer trigger: what is written to an
    attribute is read back from it and leaves the other one alone, a text that
    is not a number changes nothing; and on kernels before 4.19 the attributes
    exist from a successful activation to the deactivation, and an activation
    that fails half-way leaves none behind. *)
Theorem timer_attributes (text : list Z) (size t rc1 rc2 : Z) (l : led_classdev) :
  files_ok l -> activated l = false -> t <> 0 ->
  (kstrtoul text = inl t -> exists l', led_delay_on_store text size l = (size, l') /\
     led_delay_on_show l' = print_lu t ++ [10] /\ led_delay_off_show l' = led_delay_off_show l) /\
  (kstrtoul text = inl t -> exists l', led_delay_off_store text size l = (size, l') /\
     led_delay_off_show l' = print_lu t ++ [10] /\ led_delay_on_show l' = led_delay_on_show l) /\
  (forall err, kstrtoul text = inr err ->
     led_delay_on_store text size l = (err, l) /\ led_delay_off_store text size l = (err, l)) /\
  let l' := timer_trig_activate_4_18 rc1 rc2 l in
  (files l' = if (rc1 =? 0) && (rc2 =? 0) then [delay_on; delay_off] else []) /\
  files (timer_trig_deactivate_4_18 l') = [].
Proof.
  intros Hf Ha Ht. apply Z.eqb_neq in Ht. split; [|split; [|split]].
  - intros E. pose proof (delay_on_stored text size l t E) as H. rewrite Ht in H. cbn [andb] in H.
    destruct (led_delay_on_store text size l) as [ret l']. destruct H as (-> & H1 & H2). exists l'.
    unfold led_delay_off_show. by rewrite H2.
  - intros E. pose proof (delay_off_stored text size l t E) as H. rewrite Ht, andb_false_r in H.
    destruct (led_delay_off_store text size l) as [ret l']. destruct H as (-> & H1 & H2). exists l'.
    unfold led_delay_on_show. by rewrite H2.
  - intros err E. unfold led_delay_on_store, led_delay_off_store. by rewrite E.
  - destruct (activate_files rc1 rc2 l Hf Ha) as [F A]. cbv zeta. split; [|apply deactivate_files; exact F].
    unfold files_ok in F. rewrite F. destruct (Z.eqb_spec rc1 0) as [E1|E1], (Z.eqb_spec rc2 0) as [E2|E2]; cbn [andb];
      destruct (activated (timer_trig_activate_4_18 rc1 rc2 l)); try done; exfalso; destruct A as [A1 A2];
      first [by destruct (A1 eq_refl) | discriminate (A2 (conj E1 E2))].
Qed.
End Operations.

(** ** The theorem with a concrete core *)

Module LedTimerSamples.
(** The core's own blinking. *)
Definition software_blink (on off : Z) (l : led_classdev) : Z * Z * led_classdev :=
  let '(on, off) := if (on =? 0) && (off =? 0) then (500, 500) else (on, off) in
  (on, off, set_off off (set_on on l)).

#[program] Definition core : LedCore := {|
  led_blink_set := software_blink;
  led_set_brightness b l := LedClassdev (blink_delay_on l) (blink_delay_off l) b (activated l) (files l)
|}.
Next Obligation.
  intros on off l H. unfold software_blink. destruct (Z.eqb_spec on 0), (Z.eqb_spec off 0); cbn; try done. lia.
Qed.
Next Obligation. by intros. Qed.
Next Obligation. intros on off l. unfold software_blink. by destruct (_ && _). Qed.
Next Obligation. by intros. Qed.

Definition off_led : led_classdev := LedClassdev 0 0 0 false [].

Lemma timer_attributes_witness : exists l',
  led_delay_on_store (LC := core) (fun _ => inl 250) [0x32; 0x35; 0x30] 3 off_led = (3, l') /\
  led_delay_on_show (fun t => [t]) l' = [250; 10].
Proof.
  destruct (timer_attributes (LC := core) (fun _ => inl 250) (fun t => [t]) [0x32; 0x35; 0x30] 3 250 0 0 off_led)
    as (H & _); [done | done | lia |].
  destruct (H eq_refl) as (l' & E & S & _). exists l'. split; [exact E | exact S].
Defined.
End LedTimerSamples.
