(* ===== verification/WaitNotify.v ===== *)
(** The program that waits for a change of an attribute
    (src/wait_sysfs_notify/main.cpp): it reads the file once, waits for its
    notification, and prints what it reads then. *)
From stdpp Require Import strings.
From S2P Require Import Prelude Kernel HmFrame DetectFrame Detector.

(** What the calls of the system return.  A read gives the bytes it has put at
    the beginning of the buffer, or nothing for an error. *)
Record world := World {
  opened : Z;
  first_read : option (list Z);
  polled : Z;
  sought : Z;
  second_read : option (list Z)
}.

(** [read] gives at most as many bytes as there is room for. *)
Definition reads_ok (w : world) : Prop :=
  (forall l, first_read w = Some l -> zlen l <= 1024) /\ (forall l, second_read w = Some l -> zlen l <= 1023).

Inductive event := Print (text : list Z) | Close.

(** [buffer] is the array on the stack. *)
Definition main (argv : list (list Z)) (buffer : list Z) (w : world) : exec (Z * list event) :=
  if negb (length argv =? 2)%nat then Ok (- 1, [Print (str "Usage: " ++ nth 0 argv [] ++ str " <path>" ++ [10])]) else
  let path := nth 1 argv [] in
  if opened w <? 0 then Ok (- 1, [Close; Print (path ++ str " could not be opened" ++ [10])]) else
  match first_read w with
  | None => Ok (- 1, [Print (path ++ str " could is not readable" ++ [10])])
  | Some l =>
    let? buffer := write_into buffer 0 l in
    if polled w <=? 0 then Ok (- 1, []) else
    if sought w =? - 1 then Ok (- 1, []) else
    match second_read w with
    | None => Ok (- 1, [])
    | Some l =>
      let cnt := zlen l in
      if cnt <=? 0 then Ok (- 1, []) else
      let? buffer := write_into buffer 0 l in
      if zlen buffer <=? cnt then OutOfBounds else
      let buffer := put buffer cnt 0 in
      Ok (0, [Close; Print (cstr buffer)])
    end
  end.

(** Whether all calls succeed. *)
Definition notified (argv : list (list Z)) (w : world) : option (list Z) :=
  match first_read w, second_read w with
  | Some _, Some (b :: l) =>
    if (length argv =? 2)%nat && (0 <=? opened w) && (0 <? polled w) && negb (sought w =? - 1) then Some (b :: l) else None
  | _, _ => None
  end.

Lemma cstr_put l d i : zlen d = i -> i < zlen l -> cstr (put (splice l 0 d) i 0) = cstr d.
Proof.
  intros Hd Hi. rewrite splice_prefix by lia. destruct (drop (length d) l) as [|x r] eqn:E.
  - apply (f_equal length) in E. rewrite length_drop in E. unfold zlen in *. simpl in E. lia.
  - rewrite put_middle by done. clear. induction d as [|c d IH]; [done|]. cbn [app cstr]. by rewrite IH.
Qed.

(** The program stays within its buffer, whatever it reads,
    and ends with 0 when all calls succeed and the second read is not empty, and
    with -1 otherwise; with 0 it prints what has been read, up to the first NUL. *)
Theorem notification_printed (argv : list (list Z)) (buffer : list Z) (w : world) :
  zlen buffer = 1024 -> reads_ok w ->
  exists code tr, main argv buffer w = Ok (code, tr) /\
    match notified argv w with
    | Some l => code = 0 /\ tr = [Close; Print (cstr l)]
    | None => code = - 1
    end.
Proof.
  intros Hb [H1 H2]. unfold main, notified.
  assert (N : (match first_read w, second_read w with Some _, Some (_ :: _) => None | _, _ => None end : option (list Z)) = None)
    by (by repeat case_match).
  destruct (length argv =? 2)%nat; cbn [negb andb]; [|eexists _, _; split; [reflexivity|]; by rewrite N].
  destruct (Z.ltb_spec (opened w) 0), (Z.leb_spec 0 (opened w)); try lia; cbn [andb];
    [eexists _, _; split; [reflexivity|]; by rewrite N|].
  destruct (first_read w) as [l1|]; [|by eexists _, _].
  specialize (H1 l1 eq_refl). rewrite RadioModuleDetector.write_into_ok by lia. cbn [exec_bind].
  destruct (Z.leb_spec (polled w) 0), (Z.ltb_spec 0 (polled w)); try lia; cbn [andb];
    [eexists _, _; split; [reflexivity|]; by destruct (second_read w) as [[|]|]|].
  destruct (sought w =? - 1); cbn [negb];
    [eexists _, _; split; [reflexivity|]; by destruct (second_read w) as [[|]|]|].
  destruct (second_read w) as [[|b l2]|]; [by eexists _, _| |by eexists _, _].
  specialize (H2 (b :: l2) eq_refl). set (d := b :: l2) in *.
  assert (0 < zlen d) by (unfold d; rewrite zlen_cons; pose proof (zlen_nonneg l2); lia).
  destruct (Z.leb_spec (zlen d) 0); [lia|]. assert (L1 : zlen (splice buffer 0 l1) = 1024) by (rewrite zlen_splice; lia).
  rewrite RadioModuleDetector.write_into_ok by lia. cbn [exec_bind].
  assert (L2 : zlen (splice (splice buffer 0 l1) 0 d) = 1024) by (rewrite zlen_splice; lia). rewrite L2.
  destruct (Z.leb_spec 1024 (zlen d)); [lia|]. eexists _, _. split; [reflexivity|]. split; [done|].
  by rewrite cstr_put by lia.
Qed.

Lemma notification_printed_witness : exists code tr,
  main [str "wait_sysfs_notify"; str "/sys/x"] (replicate 1024 0) (World 3 (Some (str "old")) 1 0 (Some (str "new"))) =
    Ok (code, tr) /\ code = 0 /\ tr = [Close; Print (str "new")].
Proof.
  destruct (notification_printed [str "wait_sysfs_notify"; str "/sys/x"] (replicate 1024 0)
    (World 3 (Some (str "old")) 1 0 (Some (str "new")))) as (code & tr & E & H); [done | |].
  { split; cbn; intros l [= <-]; done. }
  exists code, tr. split; [exact E | exact H].
Defined.
