(* ===== verification/ModuleInit.v ===== *)
(** Loading and unloading of four modules: eq3_char_loop.c, fake_hmrf.c,
    generic_raw_uart.c and hb_rf_eth.c.

    What a module gets from the kernel it has to give back, in the middle of a
    load that fails as well as when it is unloaded.  [kernel] keeps the books:
    what is held, and everything that happened.  Giving back what is not held
    is an error of the run. *)
From S2P Require Import Prelude Kernel Ring RawUart HbRfEth.

(** ** Resources *)

Inductive allocation := control_data | rxbuf_buf | send_msg_queue | send_msg_queue_entries.

Inductive resource :=
| ChrdevRegion | Cdev | DevClass | ClassDevice | GpioChip | RawUart | SysfsFile (is_connected : bool)
| Memory (a : allocation).

#[export] Instance allocation_eq_dec : EqDecision allocation.
Proof. solve_decision. Defined.
#[export] Instance resource_eq_dec : EqDecision resource.
Proof. solve_decision. Defined.

(** [Ready]: locks, wait queues and buffers the handlers use are set up;
    [RequestModule]: another module is asked for. *)
Inductive event := Got (r : resource) | Gave (r : resource) | Ready | RequestModule (name : list Z).

#[export] Instance event_eq_dec : EqDecision event.
Proof. solve_decision. Defined.

Record kernel := Kernel { held : list resource; trace : list event }.

Definition empty : kernel := Kernel [] [].

Definition note (e : event) (k : kernel) : kernel := Kernel (held k) (trace k ++ [e]).
Definition got (r : resource) (k : kernel) : kernel := note (Got r) (Kernel (r :: held k) (trace k)).

Fixpoint remove_one (r : resource) (l : list resource) : list resource :=
  match l with
  | [] => []
  | x :: l => if decide (x = r) then l else x :: remove_one r l
  end.

Definition gave (r : resource) (k : kernel) : kernel :=
  note (Gave r) (Kernel (remove_one r (held k)) (trace k)).

Definition give (r : resource) (k : kernel) : exec kernel :=
  if decide (r ∈ held k) then Ok (gave r k) else UseAfterFree.

(** [kfree], [device_destroy] and [sysfs_remove_file] do nothing when there is
    nothing. *)
Definition give_any (r : resource) (k : kernel) : kernel :=
  if decide (r ∈ held k) then gave r k else k.

(** ** eq3_char_loop.c *)

(** Error numbers, 0 for success; for [class_create] and [device_create] those
    of the error pointer. *)
Record eq3_answers := Eq3Answers {
  eq3_kzalloc : bool; eq3_region : Z; eq3_cdev : Z; eq3_class : Z; eq3_device : Z
}.

Definition out_free (ret : Z) (k : kernel) : exec (Z * kernel) :=
  let? k := give (Memory control_data) k in Ok (ret, k).
Definition out_unregister_chrdev_region (ret : Z) (k : kernel) : exec (Z * kernel) :=
  let? k := give ChrdevRegion k in out_free ret k.
Definition out_cdev_del (ret : Z) (k : kernel) : exec (Z * kernel) :=
  let? k := give Cdev k in out_unregister_chrdev_region ret k.

(** The result of [device_create] is not looked at. *)
Definition eq3loop_init (e : eq3_answers) (k : kernel) : exec (Z * kernel) :=
  if negb (eq3_kzalloc e) then Ok (- ENOMEM, k) else
  let k := got (Memory control_data) k in
  if negb (eq3_region e =? 0) then out_free (eq3_region e) k else
  let k := got ChrdevRegion k in
  if negb (eq3_cdev e =? 0) then out_unregister_chrdev_region (eq3_cdev e) k else
  let k := got Cdev k in
  if negb (eq3_class e =? 0) then out_cdev_del (- EIO) k else
  let k := note Ready (got DevClass k) in
  Ok (0, if eq3_device e =? 0 then got ClassDevice k else k).

Definition eq3loop_exit (k : kernel) : exec kernel :=
  let? k := give ChrdevRegion k in
  let k := give_any ClassDevice k in
  let? k := give DevClass k in
  let? k := give Cdev k in
  give (Memory control_data) k.

(** ** fake_hmrf.c *)

Record hmrf_answers := HmrfAnswers {
  hmrf_region : Z; hmrf_cdev : Z; hmrf_class : Z; hmrf_device : Z; hmrf_kmalloc : bool
}.

Definition failed_cdev_add (err : Z) (k : kernel) : exec (Z * kernel) :=
  let? k := give ChrdevRegion k in Ok (err, k).
Definition failed_class_create (ptr_err : Z) (k : kernel) : exec (Z * kernel) :=
  let? k := give Cdev k in failed_cdev_add ptr_err k.
Definition failed_device_create (ptr_err : Z) (k : kernel) : exec (Z * kernel) :=
  let? k := give DevClass k in failed_class_create ptr_err k.

(** The result of [kmalloc] is not looked at. *)
Definition fake_hmrf_init (e : hmrf_answers) (k : kernel) : exec (Z * kernel) :=
  if negb (hmrf_region e =? 0) then Ok (hmrf_region e, k) else
  let k := got ChrdevRegion k in
  if negb (hmrf_cdev e =? 0) then failed_cdev_add (hmrf_cdev e) k else
  let k := got Cdev k in
  if negb (hmrf_class e =? 0) then failed_class_create (hmrf_class e) k else
  let k := got DevClass k in
  if negb (hmrf_device e =? 0) then failed_device_create (hmrf_device e) k else
  let k := got ClassDevice k in
  Ok (0, if hmrf_kmalloc e then note Ready (got (Memory rxbuf_buf) k) else k).

Definition fake_hmrf_exit (k : kernel) : exec kernel :=
  let k := give_any (Memory rxbuf_buf) k in
  let? k := give ClassDevice k in
  let? k := give DevClass k in
  let? k := give Cdev k in
  give ChrdevRegion k.

(** ** generic_raw_uart.c *)

Definition generic_raw_uart_init (region_err class_err : Z) (k : kernel) : Z * kernel :=
  if negb (region_err =? 0) then (region_err, k) else
  let k := got ChrdevRegion k in
  if negb (class_err =? 0) then (class_err, k) else
  (0, note Ready (got DevClass k)).

Definition generic_raw_uart_exit (k : kernel) : exec kernel :=
  let? k := give ChrdevRegion k in
  give DevClass k.

(** [load]: what [kstrtobool] makes of the text, if anything; [err]: what
    [request_module] answers. *)
Definition generic_raw_uart_set_dummy_rx8130_loader (load : option bool) (name : list Z) (err : Z) (k : kernel)
    : Z * kernel :=
  match load with
  | Some false => (- EINVAL, k)
  | _ => (err, note (RequestModule name) k)
  end.

(** ** hb_rf_eth.c *)

(** A pointer the code keeps: none, an error, or the instance with its number. *)
Inductive pointer := Null | ErrPtr (err : Z) | Instance_ (dev_no : nat).

(** The books, the variables of the module, [raw_uart], and the devices of the
    generic driver. *)
Record eth_module := EthModule { kern : kernel; vars : eth; raw_uart : pointer; devices : registry }.

(** [kcalloc] of the entries, whose failure is not checked, succeeds;
    [eth_dev]: the address [device_create] returns. *)
Record eth_answers := EthAnswers {
  eth_kzalloc : bool; eth_class : Z; eth_device : Z; eth_dev : Z; eth_gpiochip : Z;
  eth_is_connected : Z; eth_connect : Z
}.

Definition empty_queue : list entry := replicate (Z.to_nat QUEUE_LENGTH) (Entry (replicate (Z.to_nat BUFFER_SIZE) 0) 0).

(** The variables before the module is loaded. *)
Definition unloaded : eth := Eth false 0 0 [] 0 0 0 false false None [].

Definition failed_dev_create (err : Z) (k : kernel) : exec (Z * kernel) :=
  let? k := give DevClass k in Ok (err, k).
Definition failed_gc_create (err : Z) (k : kernel) : exec (Z * kernel) :=
  let? k := give ClassDevice k in failed_dev_create err k.
Definition failed_raw_uart_probe (err : Z) (k : kernel) : exec (Z * kernel) :=
  let? k := give GpioChip k in failed_gc_create err k.

Definition create_file (file : bool) (err : Z) (k : kernel) : kernel :=
  if err =? 0 then got (SysfsFile file) k else k.

Section Load.
Context `{CB : CircBuf}.

(** [probe]: [generic_raw_uart_probe] with the rest of its arguments. *)
Definition hb_rf_eth_init (probe : eth -> registry -> probe_result (D := eth) * registry) (e : eth_answers) (m : eth_module)
    : exec (Z * eth_module) :=
  if negb (eth_kzalloc e) then NullDeref else
  let k := got (Memory send_msg_queue_entries) (got (Memory send_msg_queue) (kern m)) in
  let v := set_queue empty_queue 0 0 (vars m) in
  let fail v p g (r : exec (Z * kernel)) := let? (err, k) := r in Ok (err, EthModule k v p g) in
  if negb (eth_class e =? 0) then fail v (raw_uart m) (devices m) (Ok (eth_class e, k)) else
  let k := got DevClass k in
  if negb (eth_device e =? 0) then fail v (raw_uart m) (devices m) (failed_dev_create (eth_device e) k) else
  let k := got ClassDevice k in
  let v := set_gpio_value 0 v in
  if negb (eth_gpiochip e =? 0) then fail v (raw_uart m) (devices m) (failed_gc_create (eth_gpiochip e) k) else
  let k := got GpioChip k in
  match probe v (devices m) with
  | (ProbeErr err, g) => fail v (ErrPtr err) g (failed_raw_uart_probe (s32 (eth_dev e)) k)
  | (Probed dev_no u, g) =>
    let? v := generic_raw_uart_set_connection_state false (set_uart (Some true) (drv u)) in
    let k := create_file false (eth_connect e) (create_file true (eth_is_connected e) (got RawUart k)) in
    Ok (0, EthModule (note Ready k) v (Instance_ dev_no) g)
  end.

(** [generic_raw_uart_remove] through [raw_uart]. *)
Definition remove_raw_uart (m : eth_module) : exec eth_module :=
  match raw_uart m with
  | Null => Ok m
  | ErrPtr _ => NullDeref
  | Instance_ dev_no =>
    let? v := generic_raw_uart_set_connection_state false (vars m) in
    let? k := give RawUart (kern m) in
    Ok (EthModule k (set_uart None v) (raw_uart m) (generic_raw_uart_remove dev_no (devices m)))
  end.

Definition hb_rf_eth_exit_module (m : eth_module) : exec eth_module :=
  let? m := remove_raw_uart m in
  let k := give_any (SysfsFile false) (give_any (SysfsFile true) (kern m)) in
  let? k := give GpioChip k in
  let? v := hb_rf_eth_disconnect (vars m) in
  let? k := give ClassDevice k in
  let? k := give DevClass k in
  let? k := give (Memory send_msg_queue_entries) k in
  let? k := give (Memory send_msg_queue) k in
  Ok (EthModule k v (raw_uart m) (devices m)).

(** [val]: the text of the parameter [connect], if any. *)
Definition hb_rf_eth_connect_set (val : option (list Z)) (sock_err conn_err : Z) (rs : list recv_result)
    (recv_err send_err : Z) (s : eth) : exec (Z * eth) :=
  let? s := hb_rf_eth_disconnect s in
  match val with
  | None => Ok (0, s)
  | Some b => if (b @@ 0 =? 0) || (b @@ 0 =? 0x2d) then Ok (0, s)
              else hb_rf_eth_connect b sock_err conn_err rs recv_err send_err s
  end.
End Load.

(** The kernel keeps a module whose init function does not return an error
    number. *)
Definition stays (ret : Z) : bool := 0 <=? ret.

(** ** What stays behind *)

(** [a] happens, and [b] not before it. *)
Definition before (a b : event) (tr : list event) : Prop := exists tr1 tr2, tr = tr1 ++ a :: tr2 /\ b ∉ tr1.

Lemma before_bool a b tr :
  (fix go tr := match tr with [] => false | x :: tr => bool_decide (x = a) || negb (bool_decide (x = b)) && go tr end) tr
    = true -> before a b tr.
Proof.
  induction tr as [|x tr IH]; [done|]. intros [->%bool_decide_eq_true|[H1%negb_true_iff%bool_decide_eq_false H2]%andb_prop]%orb_prop.
  - exists [], tr. split; [done | apply not_elem_of_nil].
  - destruct (IH H2) as (tr1 & tr2 & -> & N). exists (x :: tr1), tr2. split; [done|]. by apply not_elem_of_cons.
Qed.

(** Go on when the call that answers [r] has succeeded; otherwise the load ends
    with [r]. *)
Ltac granted r :=
  destruct (Z.eqb_spec r 0) as [_|N];
  [|eexists _, _; split; [reflexivity|]; by rewrite (proj2 (Z.eqb_neq _ _) N)].

(** Loading eq3_char_loop, fake_hmrf and generic_raw_uart, whatever
    the kernel answers.  A load that fails gives back everything, except that
    generic_raw_uart keeps its device numbers when the class is refused; a
    module that was loaded gives back everything when it is unloaded, and never
    something it does not hold.  The device of eq3_char_loop appears after its
    lock has been set up, that of fake_hmrf before its lock and its buffer. *)
Theorem char_modules_loaded (e : eq3_answers) (f : hmrf_answers) (region_err class_err : Z) :
  (exists r k, eq3loop_init e empty = Ok (r, k) /\
     if r =? 0 then before Ready (Got ClassDevice) (trace k) /\ exists k', eq3loop_exit k = Ok k' /\ held k' = []
     else held k = []) /\
  (exists r k, fake_hmrf_init f empty = Ok (r, k) /\
     if r =? 0 then before (Got ClassDevice) Ready (trace k) /\ exists k', fake_hmrf_exit k = Ok k' /\ held k' = []
     else held k = []) /\
  (let (r, k) := generic_raw_uart_init region_err class_err empty in
   if r =? 0 then exists k', generic_raw_uart_exit k = Ok k' /\ held k' = []
   else held k = if region_err =? 0 then [ChrdevRegion] else []).
Proof.
  split; [|split].
  - destruct e as [mem r1 r2 r3 r4]. unfold eq3loop_init. cbn [eq3_kzalloc eq3_region eq3_cdev eq3_class eq3_device].
    destruct mem; [|by eexists _, _].
    granted r1. granted r2.
    destruct (Z.eqb_spec r3 0) as [_|N]; [|by eexists _, _].
    eexists _, _. split; [reflexivity|]. cbn [Z.eqb].
    destruct (r4 =? 0); (split; [by apply before_bool | by eexists]).
  - destruct f as [r1 r2 r3 r4 mem]. unfold fake_hmrf_init. cbn [hmrf_region hmrf_cdev hmrf_class hmrf_device hmrf_kmalloc].
    granted r1. granted r2. granted r3. granted r4.
    eexists _, _. split; [reflexivity|]. cbn [Z.eqb]. destruct mem; (split; [by apply before_bool | by eexists]).
  - unfold generic_raw_uart_init. destruct (Z.eqb_spec region_err 0) as [_|N]; cbn [negb].
    + destruct (Z.eqb_spec class_err 0) as [_|N2]; cbn [negb]; [by eexists|]. by rewrite (proj2 (Z.eqb_neq _ _) N2).
    + by rewrite (proj2 (Z.eqb_neq _ _) N).
Qed.

Section LoadEth.
Context `{CB : CircBuf} (gpio_reset gpio_led : Z -> Z) (gpio_base : Z) (remote_ip : list Z).

Lemma queue_msg_sock cmd b len v :
  sock (hb_rf_eth_queue_msg cmd b len v) = sock v /\ uart (hb_rf_eth_queue_msg cmd b len v) = uart v.
Proof. unfold hb_rf_eth_queue_msg. by destruct (1 <=? _). Qed.

(** Probing the instance puts at most a message into the queue, and frees or
    takes a slot. *)
Lemma probe_sock rtc oom ce de intr refs v g n u :
  (generic_raw_uart_probe (DR := hb_rf_eth gpio_base remote_ip) gpio_reset gpio_led rtc oom ce de intr refs v g).1 = Probed n u ->
  sock (drv u) = sock v.
Proof.
  unfold generic_raw_uart_probe. destruct (generic_raw_uart_probe_rtc_device rtc) as [err alt].
  destruct (negb _); [done|]. destruct (take_slot _ _) as [[dev_no|] active]; [|done].
  destruct oom; [done|]. destruct (negb _); [done|]. destruct (negb _); [done|].
  set (u0 := Uart _ _ _ _). destruct (generic_raw_uart_reset_radio_module _ _ _) as [[r a] u'] eqn:E.
  intros [= <- <-]. cbn [on_inst drv]. revert E. unfold generic_raw_uart_reset_radio_module.
  cbn [reset_radio_module hb_rf_eth]. destruct intr; [by intros [= _ _ <-]|]. destruct (_ <? _); [by intros [= _ _ <-]|].
  intros [= _ _ <-]. apply queue_msg_sock.
Qed.

(** What a failed load leaves behind. *)
Definition leaked : list resource := [Memory send_msg_queue_entries; Memory send_msg_queue].

(** Disconnecting once the instance has been freed. *)
Lemma freed_exit v : exists v', hb_rf_eth_disconnect (set_uart None v) = (if sock v then UseAfterFree else Ok v') /\
  uart v' = None.
Proof.
  unfold hb_rf_eth_disconnect. cbn [set_threads set_uart sock]. destruct (sock v); [|by eexists].
  exists (set_uart None v). split; [|done]. by destruct (hb_rf_eth_send_msg _ _ _ _) eqn:E; unfold hb_rf_eth_send_msg in E; injection E as _ <-.
Qed.

(** The end of a module that was loaded, from the books of its load. *)
Lemma loaded_exit (f1 f2 : Z) n g :
  let k := note Ready (create_file false f2 (create_file true f1 (got RawUart (got GpioChip (got ClassDevice
             (got DevClass (got (Memory send_msg_queue_entries) (got (Memory send_msg_queue) empty)))))))) in
  forall v, uart v <> None ->
  if sock v then hb_rf_eth_exit_module (EthModule k v (Instance_ n) g) = UseAfterFree
  else exists m', hb_rf_eth_exit_module (EthModule k v (Instance_ n) g) = Ok m' /\ held (kern m') = [] /\ uart (vars m') = None.
Proof.
  intros k v Hu. unfold hb_rf_eth_exit_module, remove_raw_uart. cbn [raw_uart vars kern devices].
  unfold generic_raw_uart_set_connection_state. destruct (uart v); [|done]. cbn [deref exec_bind].
  destruct (freed_exit (set_uart (Some false) v)) as (v' & E & U). revert E.
  set (w := set_uart None _). clearbody w. change (sock (set_uart (Some false) v)) with (sock v).
  set (f := hb_rf_eth_disconnect). clearbody f. intros E.
  unfold k, create_file. destruct (f1 =? 0), (f2 =? 0), (sock v); vm_compute; rewrite E; try done;
    (eexists; split; [reflexivity | by split]).
Qed.

End LoadEth.

(** ** The theorem on concrete loads *)

Module LoadSamples.

Definition no_rtc : rtc_env := Build_rtc_env false false false false false.
Definition no_devices : registry := Registry (replicate 5 false) 0.
Definition all_granted : eth_answers := EthAnswers true 0 0 0xffff888012345678 0 0 0.

Definition probe (oom : bool) (v : eth) (g : registry) : probe_result (D := eth) * registry :=
  generic_raw_uart_probe (DR := HbRfEth.hb_rf_eth (CB := linux_circ) 400 []) (fun _ => 0) (fun _ => 0)
    no_rtc oom 0 0 false 0 v g.

Definition fresh : eth_module := EthModule empty unloaded Null no_devices.

Definition pointer_of (r : exec (Z * eth_module)) : pointer := match r with Ok (_, m) => raw_uart m | _ => Null end.

End LoadSamples.
