(* ===== verification/EthThreads.v ===== *)
(** The threads of the HB-RF-ETH driver (src/kernel/hb_rf_eth.c).

    [HbRfEth] has what each thread does with the messages; here is how the
    threads share the socket and one another.  The sender and the receiver load
    the pointer [_sock] and use what they have loaded; the receiver also
    releases the socket and makes a new one when nothing arrives any more; a
    third party connects, disconnects and unloads.  Nothing is locked.  A step
    is one access to what is shared, with the local work around it. *)
From S2P Require Import Prelude Kernel.

(** ** State *)

(** The sender: [SSend] and [SSendKeep] hold the argument of
    [hb_rf_eth_send_msg]. *)
Inductive send_pc :=
| SGone | STest | SQueue | SSend (p : option nat) | SKeep | SSendKeep (p : option nat).

(** The receiver: [RRecv] holds the argument of [hb_rf_eth_recv_packet];
    [RClear] is between the release of the socket and the assignment of
    [NULL]; [RRetry] is the head of the loop that reconnects, [RTry] is in
    [hb_rf_eth_try_connect]. *)
Inductive recv_pc :=
| RGone | RTest | RRecv (p : option nat) | RData | RWatch | RClear | RNotify | RRetry | RTry | RConnected | RExit.

(** Why a connection is closed. *)
Inductive purpose := ToRest | ToConnect | ToUnload.

(** Whoever writes to the attribute or unloads the module; [D...] are the
    statements of [hb_rf_eth_disconnect], [C...] those of
    [hb_rf_eth_connect]. *)
Inductive ctl_pc :=
| CIdle | CUnloaded
| DSend (g : purpose) | DStopSend (g : purpose) | DWaitSend (g : purpose) | DClearSend (g : purpose)
| DRecv (g : purpose) | DStopRecv (g : purpose) | DWaitRecv (g : purpose) | DClearRecv (g : purpose)
| DClose (g : purpose)
| CTry | CRunRecv | CRunSend | CAbortStop | CAbortWait | CAbortClear.

#[export] Instance send_pc_eq_dec : EqDecision send_pc.
Proof. solve_decision. Defined.
#[export] Instance recv_pc_eq_dec : EqDecision recv_pc.
Proof. solve_decision. Defined.
#[export] Instance purpose_eq_dec : EqDecision purpose.
Proof. solve_decision. Defined.
#[export] Instance ctl_pc_eq_dec : EqDecision ctl_pc.
Proof. solve_decision. Defined.

(** Sockets are numbered; [live] are those that exist, [fresh] is the next
    number.  [k_send_thread] and [k_recv_thread]: not [NULL]; [stop_send] and
    [stop_recv]: what [kthread_should_stop] says; [raw_uart]: the instance has
    not been freed. *)
Record threads := Threads {
  _sock : option nat;
  live : list nat;
  fresh : nat;
  k_send_thread : bool;
  k_recv_thread : bool;
  stop_send : bool;
  stop_recv : bool;
  raw_uart : bool;
  sender : send_pc;
  receiver : recv_pc;
  control : ctl_pc
}.

Definition set_sock (p : option nat) (s : threads) : threads :=
  Threads p (live s) (fresh s) (k_send_thread s) (k_recv_thread s) (stop_send s) (stop_recv s) (raw_uart s)
    (sender s) (receiver s) (control s).
Definition set_live (l : list nat) (n : nat) (s : threads) : threads :=
  Threads (_sock s) l n (k_send_thread s) (k_recv_thread s) (stop_send s) (stop_recv s) (raw_uart s)
    (sender s) (receiver s) (control s).
Definition set_send (k stop : bool) (s : threads) : threads :=
  Threads (_sock s) (live s) (fresh s) k (k_recv_thread s) stop (stop_recv s) (raw_uart s)
    (sender s) (receiver s) (control s).
Definition set_recv (k stop : bool) (s : threads) : threads :=
  Threads (_sock s) (live s) (fresh s) (k_send_thread s) k (stop_send s) stop (raw_uart s)
    (sender s) (receiver s) (control s).
Definition free_raw_uart (s : threads) : threads :=
  Threads (_sock s) (live s) (fresh s) (k_send_thread s) (k_recv_thread s) (stop_send s) (stop_recv s) false
    (sender s) (receiver s) (control s).
Definition send_at (pc : send_pc) (s : threads) : threads :=
  Threads (_sock s) (live s) (fresh s) (k_send_thread s) (k_recv_thread s) (stop_send s) (stop_recv s) (raw_uart s)
    pc (receiver s) (control s).
Definition recv_at (pc : recv_pc) (s : threads) : threads :=
  Threads (_sock s) (live s) (fresh s) (k_send_thread s) (k_recv_thread s) (stop_send s) (stop_recv s) (raw_uart s)
    (sender s) pc (control s).
Definition ctl_at (pc : ctl_pc) (s : threads) : threads :=
  Threads (_sock s) (live s) (fresh s) (k_send_thread s) (k_recv_thread s) (stop_send s) (stop_recv s) (raw_uart s)
    (sender s) (receiver s) pc.

(** The module as it is loaded. *)
Definition loaded : threads := Threads None [] 0 false false false false true SGone RGone CIdle.

(** ** Sockets and the instance *)

(** [kernel_sendmsg] and [kernel_recvmsg] behind the test for [NULL]. *)
Definition use_socket (p : option nat) (s : threads) : exec threads :=
  match p with
  | None => Ok s
  | Some i => if decide (i ∈ live s) then Ok s else UseAfterFree
  end.

Definition sock_release (p : option nat) (s : threads) : exec threads :=
  match p with
  | None => NullDeref
  | Some i => if decide (i ∈ live s) then Ok (set_live (filter (fun j => j <> i) (live s)) (fresh s) s)
              else UseAfterFree
  end.

(** A successful [hb_rf_eth_try_connect] up to [_sock = sock]; one that fails
    releases its socket itself. *)
Definition new_socket (s : threads) : threads :=
  set_sock (Some (fresh s)) (set_live (fresh s :: live s) (S (fresh s)) s).

(** Any call of the generic driver with the instance. *)
Definition use_raw_uart (s : threads) : exec threads := if raw_uart s then Ok s else UseAfterFree.

(** [sock_release(_sock); _sock = NULL; ...set_connection_state(raw_uart, false)] *)
Definition drop_socket (s : threads) : exec threads :=
  let? s := sock_release (_sock s) s in use_raw_uart (set_sock None s).

(** ** The threads

    [None]: there is no thread, or it waits.  [b] is the answer to the one
    question a statement asks: is there a message, is a keep-alive due, has
    payload arrived, has the time run out, may it reconnect, did the call
    succeed. *)

Definition send_step (b : bool) (s : threads) : option (exec threads) :=
  match sender s with
  | SGone => None
  | STest => Some (Ok (send_at (if stop_send s then SGone else SQueue) s))
  | SQueue => Some (Ok (send_at (if b then SSend (_sock s) else SKeep) s))
  | SSend p => Some (let? s := use_socket p s in Ok (send_at SKeep s))
  | SKeep => Some (Ok (send_at (if b then SSendKeep (_sock s) else STest) s))
  | SSendKeep p => Some (let? s := use_socket p s in Ok (send_at STest s))
  end.

Definition recv_step (b : bool) (s : threads) : option (exec threads) :=
  match receiver s with
  | RGone => None
  | RTest => Some (Ok (recv_at (if stop_recv s then RExit else RRecv (_sock s)) s))
  | RRecv p => Some (let? s := use_socket p s in Ok (recv_at (if b && bool_decide (is_Some p) then RData else RWatch) s))
  | RData => Some (let? s := use_raw_uart s in Ok (recv_at RWatch s))
  | RWatch => Some (if b then let? s := sock_release (_sock s) s in Ok (recv_at RClear s) else Ok (recv_at RTest s))
  | RClear => Some (Ok (recv_at RNotify (set_sock None s)))
  | RNotify => Some (let? s := use_raw_uart s in Ok (recv_at (if b then RRetry else RExit) s))
  | RRetry => Some (Ok (recv_at (if stop_recv s then RTest else RTry) s))
  | RTry => Some (Ok (if b then recv_at RConnected (new_socket s) else recv_at RRetry s))
  | RConnected => Some (let? s := use_raw_uart s in Ok (recv_at RTest s))
  | RExit => Some (Ok (recv_at RGone (set_recv false (stop_recv s) s)))
  end.

(** After the connection has been closed. *)
Definition resume (g : purpose) : ctl_pc :=
  match g with ToRest => CIdle | ToConnect => CTry | ToUnload => CUnloaded end.

(** [g]: what is begun. *)
Definition ctl_step (g : purpose) (b : bool) (s : threads) : option (exec threads) :=
  match control s with
  | CIdle => Some (Ok (ctl_at (DSend g) (if decide (g = ToUnload) then free_raw_uart s else s)))
  | CUnloaded => None
  | DSend g => Some (Ok (ctl_at (if k_send_thread s then DStopSend g else DRecv g) s))
  | DStopSend g => Some (if k_send_thread s then Ok (ctl_at (DWaitSend g) (set_send true true s)) else NullDeref)
  | DWaitSend g => if decide (sender s = SGone) then Some (Ok (ctl_at (DClearSend g) s)) else None
  | DClearSend g => Some (Ok (ctl_at (DRecv g) (set_send false (stop_send s) s)))
  | DRecv g => Some (Ok (ctl_at (if k_recv_thread s then DStopRecv g else DClose g) s))
  | DStopRecv g => Some (if k_recv_thread s then Ok (ctl_at (DWaitRecv g) (set_recv true true s)) else NullDeref)
  | DWaitRecv g => if decide (receiver s = RGone) then Some (Ok (ctl_at (DClearRecv g) s)) else None
  | DClearRecv g => Some (Ok (ctl_at (DClose g) (set_recv false (stop_recv s) s)))
  | DClose g =>
    Some (match _sock s with
          | None => Ok (ctl_at (resume g) s)
          | Some i => let? s := use_socket (Some i) s in let? s := drop_socket s in Ok (ctl_at (resume g) s)
          end)
  | CTry => Some (if b then let? s := use_raw_uart (new_socket s) in Ok (ctl_at CRunRecv s) else Ok (ctl_at CIdle s))
  | CRunRecv =>
    Some (if b then Ok (ctl_at CRunSend (recv_at RTest (set_recv true false s)))
          else let? s := drop_socket (set_recv false (stop_recv s) s) in Ok (ctl_at CIdle s))
  | CRunSend =>
    Some (Ok (if b then ctl_at CIdle (send_at STest (set_send true false s))
              else ctl_at CAbortStop (set_send false (stop_send s) s)))
  | CAbortStop => Some (if k_recv_thread s then Ok (ctl_at CAbortWait (set_recv true true s)) else NullDeref)
  | CAbortWait => if decide (receiver s = RGone) then Some (Ok (ctl_at CAbortClear s)) else None
  | CAbortClear => Some (let? s := drop_socket (set_recv false (stop_recv s) s) in Ok (ctl_at CIdle s))
  end.

Inductive action := Send (b : bool) | Recv (b : bool) | Control (g : purpose) (b : bool).

Inductive step (s : threads) : action -> exec threads -> Prop :=
| step_send b r : send_step b s = Some r -> step s (Send b) r
| step_recv b r : recv_step b s = Some r -> step s (Recv b) r
| step_control g b r : ctl_step g b s = Some r -> step s (Control g b) r.

(** ** Runs without a race *)

Definition holds (pc : send_pc) : option nat :=
  match pc with SSend p | SSendKeep p => p | _ => None end.

Definition loads (pc : send_pc) (b : bool) : bool :=
  b && match pc with SQueue | SKeep => true | _ => false end.

Definition connecting (c : ctl_pc) : bool :=
  match c with CRunSend | CAbortStop | CAbortWait => true | _ => false end.

Definition stopping_recv (c : ctl_pc) : bool := match c with DStopRecv _ => true | _ => false end.

(** A step that is none of four: the sender picks up the socket between its
    release and the assignment of [NULL]; the watch-dog releases the socket
    while the sender holds it, or while the connection is being made; the
    receiver ends by itself between the test of its pointer and the call of
    [kthread_stop]; the module is unloaded while it is connected. *)
Definition calm (s : threads) (a : action) : Prop :=
  match a with
  | Send b => receiver s = RClear -> loads (sender s) b = false
  | Recv b =>
    (receiver s = RWatch -> b = true -> holds (sender s) = None /\ connecting (control s) = false) /\
    (receiver s = RExit -> stopping_recv (control s) = false)
  | Control g b => control s = CIdle -> g = ToUnload -> _sock s = None /\ receiver s = RGone
  end.

Inductive calm_step (s s' : threads) : Prop :=
| calm_step_intro a : calm s a -> step s a (Ok s') -> calm_step s s'.

(** ** The invariant of these runs *)

Definition recv_ok (s : threads) : Prop :=
  match receiver s with
  | RGone => True
  | RTest => is_Some (_sock s) \/ stop_recv s = true
  | RRecv p => p = _sock s /\ is_Some p
  | RData | RWatch | RClear | RConnected => is_Some (_sock s)
  | RNotify | RRetry | RTry => _sock s = None
  | RExit => stop_recv s = true \/ _sock s = None
  end.

(** A receiver that has been started and has not met the watch-dog. *)
Definition young (pc : recv_pc) : bool :=
  match pc with RTest | RRecv _ | RData | RWatch => true | _ => false end.

Definition ctl_ok (s : threads) : Prop :=
  match control s with
  | CIdle | CUnloaded | DSend _ => True
  | DWaitSend _ => stop_send s = true
  | DStopSend _ => k_send_thread s = true
  | DClearSend _ => sender s = SGone
  | DRecv _ => sender s = SGone
  | DStopRecv _ => sender s = SGone /\ k_recv_thread s = true
  | DWaitRecv _ => sender s = SGone /\ stop_recv s = true
  | DClearRecv _ | DClose _ => sender s = SGone /\ receiver s = RGone
  | CTry => sender s = SGone /\ receiver s = RGone /\ _sock s = None
  | CRunRecv | CAbortClear => sender s = SGone /\ receiver s = RGone /\ is_Some (_sock s)
  | CRunSend | CAbortStop => sender s = SGone /\ stop_recv s = false /\ young (receiver s) = true /\ is_Some (_sock s)
  | CAbortWait =>
    sender s = SGone /\ stop_recv s = true /\ is_Some (_sock s) /\
    (young (receiver s) || bool_decide (receiver s = RExit) || bool_decide (receiver s = RGone) = true)
  end.

(** The module is being unloaded. *)
Definition unloading (c : ctl_pc) : bool :=
  match c with
  | CUnloaded => true
  | DSend g | DStopSend g | DWaitSend g | DClearSend g | DRecv g | DStopRecv g | DWaitRecv g | DClearRecv g | DClose g =>
    bool_decide (g = ToUnload)
  | _ => false
  end.

Record inv (s : threads) : Prop := {
  inv_recv : recv_ok s;
  inv_ctl : ctl_ok s;
  inv_k_recv : k_recv_thread s = negb (bool_decide (receiver s = RGone));
  inv_k_send : k_send_thread s = false -> sender s = SGone;
  inv_held : holds (sender s) = None \/ holds (sender s) = _sock s /\ receiver s <> RClear;
  inv_live : live s = if decide (receiver s = RClear) then [] else option_list (_sock s);
  inv_raw_uart : raw_uart s = negb (unloading (control s));
  inv_unloading : unloading (control s) = true -> _sock s = None /\ receiver s = RGone
}.

(** What the sender holds is alive. *)
Lemma held_usable s : inv s -> use_socket (holds (sender s)) s = Ok s.
Proof.
  intros Hi. destruct (inv_held s Hi) as [->|[-> N]]; [done|]. unfold use_socket. rewrite (inv_live s Hi).
  rewrite decide_False by done. destruct (_sock s) as [i|]; [|done]. by rewrite decide_True by constructor.
Qed.

Lemma send_moves s pc : inv s -> sender s <> SGone ->
  holds pc = None \/ holds pc = _sock s /\ receiver s <> RClear -> inv (send_at pc s).
Proof.
  intros [Hr Hc Hkr Hks Hh Hl Hu Hn] N Hp. split; try done.
  - revert Hc. unfold ctl_ok. cbn. destruct (control s); try done; tauto.
  - intros K. by destruct N; apply Hks.
Qed.

Lemma send_calm b s r : inv s -> calm s (Send b) -> send_step b s = Some r -> exists s', r = Ok s' /\ inv s'.
Proof.
  intros Hi Hq. pose proof (held_usable s Hi) as U. unfold send_step, calm in *.
  assert (M : forall pc, sender s <> SGone -> holds pc = None \/ (holds pc = _sock s /\ receiver s <> RClear) ->
    exists s', Ok (send_at pc s) = Ok s' /\ inv s') by (intros; eexists; split; [done | by apply send_moves]).
  destruct (sender s) as [| | |p| |p]; cbn [holds loads andb] in *; intros [= <-];
    rewrite ?U; cbn [exec_bind]; apply M; try done; try (by left).
  - left. by destruct (stop_send s).
  - destruct b; [right | by left]. split; [done|]. intros R. by specialize (Hq R).
  - destruct b; [right | by left]. split; [done|]. intros R. by specialize (Hq R).
Qed.

(** While the receiver lives, the instance does, and only a stop or its own end
    concerns whoever connects. *)
Lemma receiver_alive s : inv s -> receiver s <> RGone -> unloading (control s) = false /\ use_raw_uart s = Ok s.
Proof.
  intros Hi N. assert (E : unloading (control s) = false).
  { destruct (unloading (control s)) eqn:E; [|done]. by destruct (inv_unloading s Hi E). }
  split; [done|]. unfold use_raw_uart. by rewrite (inv_raw_uart s Hi), E.
Qed.

Lemma ctl_recv_moves s pc : ctl_ok s -> receiver s <> RGone ->
  young pc = true \/ connecting (control s) = false \/ (pc = RExit /\ stop_recv s = true) -> ctl_ok (recv_at pc s).
Proof.
  unfold ctl_ok. cbn. intros Hc N Hp. destruct (control s); cbn in *; try done; try tauto.
  - destruct Hc as (? & ? & ? & ?). destruct Hp as [Hp|[Hp|[_ Hp]]]; [by split_and!|done|congruence].
  - destruct Hc as (? & ? & ? & ?). destruct Hp as [Hp|[Hp|[_ Hp]]]; [by split_and!|done|congruence].
  - destruct Hc as (? & ? & ? & ?). split_and!; try done. destruct Hp as [->|[Hp|[-> _]]]; done.
Qed.

Lemma recv_moves s pc : inv s -> receiver s <> RGone -> receiver s <> RClear -> pc <> RGone -> pc <> RClear ->
  recv_ok (recv_at pc s) ->
  young pc = true \/ connecting (control s) = false \/ (pc = RExit /\ stop_recv s = true) -> inv (recv_at pc s).
Proof.
  intros Hi N1 N2 P1 P2 Hr Hp. destruct (receiver_alive s Hi N1) as [Eu _]. destruct Hi as [_ Hc Hkr Hks Hh Hl Hu Hn].
  split; cbn; try done.
  - by apply ctl_recv_moves.
  - rewrite Hkr. by rewrite !bool_decide_eq_false_2.
  - tauto.
  - rewrite Hl. by rewrite !decide_False.
  - by rewrite Eu.
Qed.

(** The receiver is past the watch-dog: nobody is connecting. *)
Lemma old_receiver s : inv s -> receiver s <> RGone -> young (receiver s) = false -> receiver s <> RExit ->
  connecting (control s) = false.
Proof.
  intros Hi N1 Y N2. pose proof (inv_ctl s Hi) as Hc. unfold ctl_ok in Hc.
  destruct (control s); cbn in *; try done; destruct Hc as (? & ? & ? & H); try congruence.
  rewrite Y in H. rewrite !bool_decide_eq_false_2 in H by done. done.
Qed.

Lemma watchdog_calm s : inv s -> receiver s = RWatch -> holds (sender s) = None -> connecting (control s) = false ->
  exists s1, sock_release (_sock s) s = Ok s1 /\ inv (recv_at RClear s1).
Proof.
  intros Hi Er Hh Hc. pose proof (inv_recv s Hi) as Hr. unfold recv_ok in Hr. rewrite Er in Hr. destruct Hr as [i Es].
  assert (Hl : live s = [i]) by (by rewrite (inv_live s Hi), Er, Es).
  unfold sock_release. rewrite Es, Hl. rewrite decide_True by constructor. eexists; split; [done|].
  assert (E : filter (fun j => j <> i) [i] = []) by (cbn; by rewrite decide_False by tauto). rewrite E.
  assert (N : receiver s <> RGone) by congruence. destruct (receiver_alive s Hi N) as [Eu _].
  pose proof (ctl_recv_moves s RClear (inv_ctl s Hi) N (or_intror (or_introl Hc))) as C.
  destruct Hi as [_ _ Hkr Hks _ _ Hu Hn]. split; cbn; try done.
  - rewrite Hkr. by rewrite !bool_decide_eq_false_2.
  - by left.
  - by rewrite Eu.
Qed.

Lemma ctl_ok_sock s t : ctl_ok s -> receiver s <> RGone -> connecting (control s) = false ->
  control t = control s -> sender t = sender s -> k_send_thread t = k_send_thread s ->
  k_recv_thread t = k_recv_thread s -> stop_send t = stop_send s -> stop_recv t = stop_recv s -> ctl_ok t.
Proof.
  unfold ctl_ok. intros Hc N C -> -> -> -> -> ->. destruct (control s); cbn in *; try done; tauto.
Qed.

(** [_sock = NULL] after the release. *)
Lemma cleared_calm s : inv s -> receiver s = RClear -> inv (recv_at RNotify (set_sock None s)).
Proof.
  intros Hi Er. assert (N : receiver s <> RGone) by congruence. destruct (receiver_alive s Hi N) as [Eu _].
  assert (C : connecting (control s) = false) by (apply old_receiver; try done; by rewrite Er).
  pose proof (ctl_ok_sock s (recv_at RNotify (set_sock None s)) (inv_ctl s Hi) N C eq_refl eq_refl eq_refl eq_refl eq_refl eq_refl) as Ok'.
  destruct Hi as [_ _ Hkr Hks Hh Hl Hu Hn]. split; cbn; try done.
  - rewrite Hkr, Er. done.
  - left. tauto.
  - rewrite Hl, Er. done.
  - by rewrite Eu.
Qed.

(** The receiver has a new socket. *)
Lemma reconnected_calm s : inv s -> receiver s = RTry -> inv (recv_at RConnected (new_socket s)).
Proof.
  intros Hi Er. assert (N : receiver s <> RGone) by congruence. destruct (receiver_alive s Hi N) as [Eu _].
  assert (C : connecting (control s) = false) by (apply old_receiver; try done; by rewrite Er).
  pose proof (ctl_ok_sock s (recv_at RConnected (new_socket s)) (inv_ctl s Hi) N C eq_refl eq_refl eq_refl eq_refl eq_refl eq_refl) as Ok'.
  destruct Hi as [Hr _ Hkr Hks Hh Hl Hu Hn]. unfold recv_ok in Hr. rewrite Er in Hr.
  split; cbn; try done.
  - rewrite Hkr, Er. done.
  - left. rewrite Hr in Hh. tauto.
  - rewrite Hl, Er, Hr. done.
  - by rewrite Eu.
Qed.

(** The receiver has ended. *)
Lemma ended_calm s : inv s -> receiver s = RExit -> stopping_recv (control s) = false ->
  inv (recv_at RGone (set_recv false (stop_recv s) s)).
Proof.
  intros Hi Er Q. assert (N : receiver s <> RGone) by congruence. destruct (receiver_alive s Hi N) as [Eu _].
  destruct Hi as [Hr Hc Hkr Hks Hh Hl Hu Hn]. split; cbn; try done.
  - revert Hc Q. unfold ctl_ok. cbn. rewrite Er. destruct (control s); cbn; try done; try tauto; intros (? & ? & ? & ?) _; try done; by split_and!.
  - rewrite Er in Hh. destruct Hh as [Hh|[Hh _]]; [by left | right; by split].
  - rewrite Hl, Er. done.
  - by rewrite Eu.
Qed.

Lemma recv_calm b s r : inv s -> calm s (Recv b) -> recv_step b s = Some r -> exists s', r = Ok s' /\ inv s'.
Proof.
  intros Hi [Qw Qe]. pose proof (inv_recv s Hi) as Hr. unfold recv_step, recv_ok in *.
  assert (M : forall pc, receiver s <> RGone -> receiver s <> RClear -> pc <> RGone -> pc <> RClear ->
    recv_ok (recv_at pc s) -> young pc = true \/ connecting (control s) = false \/ (pc = RExit /\ stop_recv s = true) ->
    exists s', Ok (recv_at pc s) = Ok s' /\ inv s') by (intros; eexists; split; [done | by apply recv_moves]).
  pose proof (receiver_alive s Hi) as A. pose proof (old_receiver s Hi) as O.
  destruct (receiver s) as [| |p| | | | | | | |] eqn:Er; [done|..]; destruct (A ltac:(done)) as [_ U]; rewrite ?U;
    cbn [exec_bind]; try (intros [= <-]).
  - apply M; try done; destruct (stop_recv s) eqn:Es; try done; unfold recv_ok; cbn.
    + by left.
    + destruct Hr; [by split | done].
    + by right; right.
    + by left.
  - destruct Hr as [-> [i Ei]]. assert (V : use_socket (_sock s) s = Ok s).
    { unfold use_socket. rewrite Ei. rewrite decide_True; [done|]. rewrite (inv_live s Hi), Er, Ei. constructor. }
    rewrite V. cbn [exec_bind]. apply M; try done; destruct (b && _); try done; unfold recv_ok; cbn; eauto.
  - apply M; try done. by left.
  - destruct b.
    + destruct (Qw eq_refl eq_refl) as [Q1 Q2]. destruct (watchdog_calm s Hi Er Q1 Q2) as (s1 & -> & I1).
      cbn [exec_bind]. by eexists.
    + apply M; try done; by left.
  - eexists; split; [done | by apply cleared_calm].
  - specialize (O ltac:(done) eq_refl ltac:(done)). apply M; try done; destruct b; try done; [by right | by right; left | by right; left].
  - specialize (O ltac:(done) eq_refl ltac:(done)). apply M; try done; destruct (stop_recv s) eqn:Es; try done.
    + by right.
    + by left.
    + by right; left.
  - specialize (O ltac:(done) eq_refl ltac:(done)). destruct b; [eexists; split; [done | by apply reconnected_calm]|].
    apply M; try done. by right; left.
  - apply M; try done; by left.
  - eexists; split; [done | apply ended_calm; auto].
Qed.

(** ** Whoever connects and disconnects *)

Lemma ctl_moves s c : inv s -> ctl_ok (ctl_at c s) -> unloading c = unloading (control s) -> inv (ctl_at c s).
Proof. intros [Hr Hc Hkr Hks Hh Hl Hu Hn] C E. split; cbn; try done; by rewrite E. Qed.

(** Setting a thread's pointer or flag and going on. *)
Lemma ctl_flags s c ks ss : inv s -> (ks = false -> sender s = SGone) -> unloading c = unloading (control s) ->
  ctl_ok (ctl_at c (set_send ks ss s)) -> inv (ctl_at c (set_send ks ss s)).
Proof. intros [Hr Hc Hkr Hks Hh Hl Hu Hn] K E C. split; cbn; try done; by rewrite E. Qed.

Lemma recv_cleared s : inv s -> receiver s = RGone -> set_recv false (stop_recv s) s = s.
Proof. intros Hi Er. pose proof (inv_k_recv s Hi) as K. rewrite Er in K. destruct s. cbn in *. by subst. Qed.

(** With both threads gone the socket can be dropped, or a new one made. *)
Lemma drop_calm s c : inv s -> sender s = SGone -> receiver s = RGone -> is_Some (_sock s) -> c = CIdle \/ c = CTry ->
  use_socket (_sock s) s = Ok s /\ exists s1, drop_socket s = Ok s1 /\ inv (ctl_at c s1).
Proof.
  intros Hi Es Er [i Ei] Hc. assert (Hl : live s = [i]) by (by rewrite (inv_live s Hi), Er, Ei).
  assert (Eu : unloading (control s) = false).
  { destruct (unloading (control s)) eqn:E; [|done]. destruct (inv_unloading s Hi E). congruence. }
  pose proof (inv_raw_uart s Hi) as Hu. rewrite Eu in Hu.
  unfold drop_socket, sock_release, use_socket. rewrite Ei, Hl. rewrite !decide_True by constructor. split; [done|].
  cbn [exec_bind]. assert (E : filter (fun j => j <> i) [i] = []) by (cbn; by rewrite decide_False by tauto). rewrite E.
  unfold use_raw_uart. cbn [raw_uart set_sock set_live]. rewrite Hu. eexists; split; [done|].
  destruct Hi as [_ _ Hkr Hks _ _ _ _]. assert (U : unloading c = false) by (by destruct Hc as [-> | ->]).
  split; cbn; try done; unfold recv_ok, ctl_ok; cbn; rewrite ?Er, ?Es, ?U; try done; [|by left].
  by destruct Hc as [-> | ->].
Qed.

Lemma connected_calm s : inv s -> sender s = SGone -> receiver s = RGone -> _sock s = None ->
  unloading (control s) = false -> use_raw_uart (new_socket s) = Ok (new_socket s) /\ inv (ctl_at CRunRecv (new_socket s)).
Proof.
  intros Hi Es Er Ek Eu. unfold use_raw_uart. cbn [raw_uart new_socket set_sock set_live].
  rewrite (inv_raw_uart s Hi), Eu. split; [done|]. pose proof (inv_live s Hi) as Hl. rewrite Er, Ek in Hl.
  destruct Hi as [_ _ Hkr Hks _ _ Hu _].
  split; cbn; try done; unfold recv_ok, ctl_ok; cbn; rewrite ?Er, ?Es, ?Hl; try done.
  - by left.
  - by rewrite Hu, Eu.
Qed.

Lemma started_calm s : inv s -> sender s = SGone -> receiver s = RGone -> is_Some (_sock s) ->
  unloading (control s) = false -> inv (ctl_at CRunSend (recv_at RTest (set_recv true false s))).
Proof.
  intros [Hr Hc Hkr Hks Hh Hl Hu Hn] Es Er Ek Eu. split; cbn; try done.
  - by left.
  - rewrite Es. by left.
  - by rewrite Hl, Er.
  - by rewrite Hu, Eu.
Qed.

Lemma sending_calm s : inv s -> sender s = SGone -> unloading (control s) = false ->
  inv (ctl_at CIdle (send_at STest (set_send true false s))).
Proof.
  intros [Hr Hc Hkr Hks Hh Hl Hu Hn] Es Eu. split; cbn; try done.
  - by left.
  - by rewrite Hu, Eu.
Qed.

Lemma stopping_calm s c : inv s -> receiver s <> RGone -> unloading c = unloading (control s) ->
  ctl_ok (ctl_at c (set_recv true true s)) -> inv (ctl_at c (set_recv true true s)).
Proof.
  intros [Hr Hc Hkr Hks Hh Hl Hu Hn] N E C. split; cbn; try done; try by rewrite E.
  - revert Hr. unfold recv_ok. cbn. destruct (receiver s); try done; by (left + right).
  - by rewrite bool_decide_eq_false_2.
Qed.

Lemma close_calm s g : inv s -> sender s = SGone /\ receiver s = RGone -> control s = DClose g ->
  exists s', match _sock s with
             | None => Ok (ctl_at (resume g) s)
             | Some i => let? s := use_socket (Some i) s in let? s := drop_socket s in Ok (ctl_at (resume g) s)
             end = Ok s' /\ inv s'.
Proof.
  intros Hi [Es Er] Ec. pose proof (inv_unloading s Hi) as Hn. rewrite Ec in Hn. cbn [unloading] in Hn.
  destruct (_sock s) as [i|] eqn:Ek.
  - destruct (drop_calm s (resume g) Hi Es Er ltac:(by rewrite Ek)) as [U (s1 & E & I1)].
    { destruct g; [by left | by right |]. by destruct (Hn eq_refl). }
    rewrite Ek in U. rewrite U. cbn [exec_bind]. rewrite E. by eexists.
  - eexists; split; [done|]. apply ctl_moves; [done| |by rewrite Ec; destruct g].
    destruct g; unfold ctl_ok; cbn; try done; by repeat split.
Qed.

Lemma ctl_calm g b s r : inv s -> calm s (Control g b) -> ctl_step g b s = Some r -> exists s', r = Ok s' /\ inv s'.
Proof.
  intros Hi Hq. pose proof (inv_ctl s Hi) as Hc. pose proof (inv_k_recv s Hi) as Hkr.
  pose proof (inv_k_send s Hi) as Hks. pose proof (inv_unloading s Hi) as Hn.
  assert (M : forall c, ctl_ok (ctl_at c s) -> unloading c = unloading (control s) ->
    exists s', Ok (ctl_at c s) = Ok s' /\ inv s') by (intros; eexists; split; [done | by apply ctl_moves]).
  pose proof (fun c ks ss => ctl_flags s c ks ss Hi) as F.
  unfold ctl_step, ctl_ok, calm in *.
  destruct (control s) as [| |h|h|h|h|h|h|h|h|h| | | | | |] eqn:Ec; cbn [unloading] in *.
  - intros [= <-]. destruct (decide (g = ToUnload)) as [->|N].
    + destruct (Hq eq_refl eq_refl) as [Q1 Q2]. eexists; split; [done|]. destruct Hi as [Hr' _ _ _ Hh Hl _ _]. by split.
    + eexists; split; [done|]. apply ctl_moves; [done|done|]. cbn. rewrite Ec. by rewrite bool_decide_eq_false_2.
  - done.
  - intros [= <-]. destruct (k_send_thread s) eqn:Ek; apply M; try done. by apply Hks.
  - rewrite Hc. intros [= <-]. eexists; split; [done|]. by apply F.
  - destruct (decide (sender s = SGone)) as [Es|]; [|done]. intros [= <-]. by apply M.
  - intros [= <-]. eexists; split; [done|]. by apply F.
  - intros [= <-]. destruct (k_recv_thread s) eqn:Ek; apply M; try done.
    cbn. symmetry in Hkr. by apply negb_false_iff, bool_decide_eq_true in Hkr.
  - destruct Hc as [Es Ek]. rewrite Ek. rewrite Ek in Hkr. intros [= <-]. eexists; split; [done|].
    apply stopping_calm; [done| |by rewrite Ec|done]. intros N. by rewrite N in Hkr.
  - destruct (decide (receiver s = RGone)) as [Er|]; [|done]. intros [= <-]. apply M; try done. by destruct Hc.
  - destruct Hc as [Es Er]. rewrite recv_cleared by done. intros [= <-]. by apply M.
  - intros [= <-]. by apply close_calm; rewrite ?Ec.
  - destruct Hc as (Es & Er & Ek). destruct b; intros [= <-]; [|by apply M].
    destruct (connected_calm s Hi Es Er Ek) as [-> I1]; [by rewrite Ec|]. by eexists.
  - destruct Hc as (Es & Er & Ek). rewrite recv_cleared by done. destruct b; intros [= <-].
    + eexists; split; [done|]. apply started_calm; [done..|by rewrite Ec].
    + destruct (drop_calm s CIdle Hi Es Er Ek) as [_ (s1 & -> & I1)]; [by left|]. by eexists.
  - destruct Hc as (Es & Er & Y & Ek). intros [= <-]. destruct b; eexists; (split; [done|]).
    + apply sending_calm; [done|done|by rewrite Ec].
    + by apply F.
  - destruct Hc as (Es & Er & Y & Ek). assert (N : receiver s <> RGone) by (intros N; by rewrite N in Y).
    rewrite Hkr. rewrite bool_decide_eq_false_2 by done. intros [= <-]. eexists; split; [done|].
    apply stopping_calm; [done..|by rewrite Ec|]. unfold ctl_ok. cbn. by rewrite Y.
  - destruct (decide (receiver s = RGone)) as [Er|]; [|done]. intros [= <-]. apply M; try done. destruct Hc as (? & ? & ? & _). by split_and!.
  - destruct Hc as (Es & Er & Ek). rewrite recv_cleared by done. intros [= <-].
    destruct (drop_calm s CIdle Hi Es Er Ek) as [_ (s1 & -> & I1)]; [by left|]. by eexists.
Qed.

Lemma calm_preserves s a r : inv s -> calm s a -> step s a r -> exists s', r = Ok s' /\ inv s'.
Proof.
  intros Hi Hq Hs. destruct Hs as [b r E|b r E|g b r E].
  - by apply (send_calm b s r).
  - by apply (recv_calm b s r).
  - by apply (ctl_calm g b s r).
Qed.

Lemma loaded_inv : inv loaded.
Proof. split; try done. by left. Qed.

Lemma calm_inv s : star calm_step loaded s -> inv s.
Proof.
  intros H. refine (star_invariant calm_step inv _ _ _ H loaded_inv). intros s1 s2 Hi [a Hq Hs].
  destruct (calm_preserves s1 a (Ok s2) Hi Hq Hs) as (s' & [= <-] & I2). done.
Qed.

(** C19 (safety). In every run of the threads, of connecting, disconnecting,
    reconnecting and unloading, in any order and any number of times, in which
    none of the named races happens: nothing that has been freed is used, no
    error of a pointer occurs, and the sockets that exist are the one [_sock]
    points to and no other, or none while the watch-dog replaces it. *)
Theorem threads_safe (s : threads) (a : action) (r : exec threads) :
  star calm_step loaded s -> calm s a -> step s a r ->
  exists s', r = Ok s' /\
    (forall i, i ∈ live s' -> _sock s' = Some i) /\
    (receiver s' <> RClear -> live s' = option_list (_sock s')) /\
    (raw_uart s' = false -> _sock s' = None /\ receiver s' = RGone).
Proof.
  intros H Hq Hs. destruct (calm_preserves s a r (calm_inv s H) Hq Hs) as (s' & -> & Hi). exists s'. split; [done|].
  pose proof (inv_live s' Hi) as Hl. split; [|split].
  - intros i Hin. rewrite Hl in Hin. destruct (decide _); [by apply not_elem_of_nil in Hin|].
    destruct (_sock s'); [|by apply not_elem_of_nil in Hin]. by apply list_elem_of_singleton in Hin as ->.
  - intros N. by rewrite Hl, decide_False.
  - intros Hu. rewrite (inv_raw_uart s' Hi) in Hu. apply (inv_unloading s' Hi). by destruct (unloading _).
Qed.

(** ** The races *)

Definition do_step (a : action) (s : threads) : option (exec threads) :=
  match a with Send b => send_step b s | Recv b => recv_step b s | Control g b => ctl_step g b s end.

Lemma do_step_iff a s r : do_step a s = Some r <-> step s a r.
Proof. split; [destruct a; by constructor | by intros []]. Qed.

(** The steps [l] one after the other. *)
Fixpoint run (l : list action) (s : threads) : option (exec threads) :=
  match l with
  | [] => Some (Ok s)
  | a :: l => match do_step a s with
              | None => None
              | Some (Ok s') => run l s'
              | Some r => Some r
              end
  end.

(** Connecting, up to the threads and altogether. *)
Definition connect_receiver : list action := replicate 6 (Control ToConnect true).
Definition connect_all : list action := replicate 7 (Control ToConnect true).

(** The sender takes the socket for a message; the watch-dog fires and, without
    [autoreconnect], ends the receiver. *)
Definition take_socket : list action := [Send true; Send true].
Definition watchdog : list action := [Recv false; Recv false; Recv true].
Definition stay_away : list action := [Recv false; Recv false; Recv false].

(** The watch-dog while the sender holds the socket. *)
Definition race_send : list action := connect_all ++ take_socket ++ watchdog ++ [Send false].
(** The sender takes the socket between its release and [NULL]. *)
Definition race_clear : list action := connect_all ++ watchdog ++ take_socket ++ [Send false].
(** The receiver ends while it is being stopped. *)
Definition race_stop : list action :=
  connect_all ++ watchdog ++ [Recv false; Recv false] ++ replicate 3 (Control ToRest false) ++ [Send false] ++
  replicate 3 (Control ToRest false) ++ [Recv false; Control ToRest false].
(** The watch-dog while the connection is made, whose second thread fails. *)
Definition race_connect : list action :=
  connect_receiver ++ watchdog ++ stay_away ++ [Control ToConnect false; Control ToConnect false].
(** Unloading while payload arrives. *)
Definition race_unload : list action :=
  connect_all ++ [Recv false; Recv true; Control ToUnload false; Recv false].

(** Each of the races that [threads_safe] leaves out happens in a
    run from the load of the module, and ends with the use of a freed socket,
    of a freed instance, or of a [NULL] pointer. *)
Theorem threads_race :
  run race_send loaded = Some UseAfterFree /\ run race_clear loaded = Some UseAfterFree /\
  run race_stop loaded = Some NullDeref /\ run race_connect loaded = Some NullDeref /\
  run race_unload loaded = Some UseAfterFree.
Proof. by vm_compute. Qed.

(** ** Stopping a thread comes to an end *)

(** Steps a stopped thread still takes, at most. *)
Definition send_left (pc : send_pc) : Z :=
  match pc with SGone => 0 | STest => 1 | SSendKeep _ => 2 | SKeep => 3 | SSend _ => 4 | SQueue => 5 end.
Definition recv_left (pc : recv_pc) : Z :=
  match pc with
  | RGone => 0 | RExit => 1 | RTest => 2 | RRetry | RConnected => 3 | RTry | RNotify => 4 | RClear => 5 | RWatch => 6
  | RData => 7 | RRecv _ => 8
  end.

Definition by_thread (a : action) : bool := match a with Control _ _ => false | _ => true end.
Definition sends (l : list action) : Z := zlen (filter (fun a => match a with Send _ => true | _ => false end = true) l).
Definition recvs (l : list action) : Z := zlen (filter (fun a => match a with Recv _ => true | _ => false end = true) l).

Lemma use_socket_same p s : use_socket p s = Ok s \/ use_socket p s = UseAfterFree.
Proof. unfold use_socket. destruct p; [|by left]. destruct (decide _); [by left | by right]. Qed.

(** What a step of a thread leaves alone, and what is left once it is to stop. *)
Lemma send_counts b s s' : send_step b s = Some (Ok s') ->
  (stop_send s = true -> send_left (sender s') + 1 <= send_left (sender s)) /\ receiver s' = receiver s /\
  stop_send s' = stop_send s /\ stop_recv s' = stop_recv s /\ control s' = control s.
Proof.
  intros E. unfold send_step in E. destruct (sender s) as [| | |p| |p]; [done|..]; cbn [send_left].
  - injection E as <-. cbn. split_and!; try done. intros ->. cbn. lia.
  - destruct b; injection E as <-; cbn; split_and!; done || lia.
  - destruct (use_socket_same p s) as [U|U]; rewrite U in E; [|done]; injection E as <-; cbn; split_and!; done || lia.
  - destruct b; injection E as <-; cbn; split_and!; done || lia.
  - destruct (use_socket_same p s) as [U|U]; rewrite U in E; [|done]; injection E as <-; cbn; split_and!; done || lia.
Qed.

Lemma recv_counts b s s' : recv_step b s = Some (Ok s') ->
  (stop_recv s = true -> recv_left (receiver s') + 1 <= recv_left (receiver s)) /\ sender s' = sender s /\
  stop_send s' = stop_send s /\ stop_recv s' = stop_recv s /\ control s' = control s.
Proof.
  intros E. unfold recv_step, use_raw_uart in E. destruct (receiver s) as [| |p| | | | | | | |]; [done|..]; cbn [recv_left].
  - injection E as <-. cbn. split_and!; try done. intros ->. cbn. lia.
  - destruct (use_socket_same p s) as [U|U]; rewrite U in E; [|done]. injection E as <-.
    destruct (b && _); cbn; split_and!; done || lia.
  - destruct (raw_uart s); [|done]. injection E as <-. cbn. split_and!; done || lia.
  - destruct b; [|injection E as <-; cbn; split_and!; done || lia].
    destruct (sock_release (_sock s) s) as [s1| | | |] eqn:R; try done. injection E as <-.
    unfold sock_release in R. destruct (_sock s); [|done]. destruct (decide _); [|done]. injection R as <-.
    cbn. split_and!; done || lia.
  - injection E as <-. cbn. split_and!; done || lia.
  - destruct (raw_uart s); [|done]. injection E as <-. destruct b; cbn; split_and!; done || lia.
  - injection E as <-. cbn. split_and!; try done. intros ->. cbn. lia.
  - destruct b; injection E as <-; cbn; split_and!; done || lia.
  - destruct (raw_uart s); [|done]. injection E as <-. cbn. split_and!; done || lia.
  - injection E as <-. cbn. split_and!; done || lia.
Qed.

Lemma left_nonneg s : 0 <= send_left (sender s) <= 5 /\ 0 <= recv_left (receiver s) <= 8.
Proof. split; [destruct (sender s) | destruct (receiver s)]; cbn; lia. Qed.

Lemma run_counts l s s' : run l s = Some (Ok s') -> Forall (fun a => by_thread a = true) l ->
  (stop_send s = true -> send_left (sender s') + sends l <= send_left (sender s)) /\
  (stop_recv s = true -> recv_left (receiver s') + recvs l <= recv_left (receiver s)) /\ control s' = control s.
Proof.
  intros E Hl. revert s E. induction Hl as [|a l Ha Hl IH]; intros s; cbn [run].
  { intros [= <-]. change (sends []) with 0. change (recvs []) with 0. split_and!; intros; done || lia. }
  destruct (do_step a s) as [[s1| | | |]|] eqn:Es; try done. intros E. destruct (IH s1 E) as (H1 & H2 & H3).
  unfold sends, recvs in *. destruct a as [b|b|g b]; [| |done]; cbn [do_step] in Es.
  - destruct (send_counts b s s1 Es) as (C1 & C2 & C3 & C4 & C5). rewrite C3, C4 in *.
    rewrite filter_cons_True, filter_cons_False, zlen_cons by done. rewrite C2 in H2.
    split_and!; [intros S; specialize (H1 S); specialize (C1 S); lia | done | congruence].
  - destruct (recv_counts b s s1 Es) as (C1 & C2 & C3 & C4 & C5). rewrite C3, C4 in *.
    rewrite filter_cons_False, filter_cons_True, zlen_cons by done. rewrite C2 in H1.
    split_and!; [done | intros S; specialize (H2 S); specialize (C1 S); lia | congruence].
Qed.

(** A thread that is there can always go on. *)
Lemma send_goes_on b s : sender s <> SGone -> exists r, send_step b s = Some r.
Proof. unfold send_step. destruct (sender s); eauto; done. Qed.
Lemma recv_goes_on b s : receiver s <> RGone -> exists r, recv_step b s = Some r.
Proof. unfold recv_step. destruct (receiver s); eauto; done. Qed.

(** C20 (liveness). Stopping ends.  Whoever waits for the sender waits for at
    most five of its steps, and whoever waits for the receiver for at most
    eight of its own, whatever the other thread does and whatever the network
    answers; until then the thread that is waited for can go on, and after it
    the one who waits.  All other statements go on by themselves. *)
Theorem stopping_ends (s s' : threads) (l : list action) (g : purpose) :
  star calm_step loaded s -> run l s = Some (Ok s') -> Forall (fun a => by_thread a = true) l ->
  match control s with
  | DWaitSend _ => sends l <= 5 /\
      if decide (sender s' = SGone) then exists r, ctl_step g true s' = Some r
      else forall b, exists r, send_step b s' = Some r
  | DWaitRecv _ | CAbortWait => recvs l <= 8 /\
      if decide (receiver s' = RGone) then exists r, ctl_step g true s' = Some r
      else forall b, exists r, recv_step b s' = Some r
  | CUnloaded => True
  | _ => exists r, ctl_step g true s' = Some r
  end.
Proof.
  intros H E Hl. pose proof (inv_ctl s (calm_inv s H)) as Hc. destruct (run_counts l s s' E Hl) as (H1 & H2 & H3).
  pose proof (left_nonneg s) as [L1 L2]. pose proof (left_nonneg s') as [L3 L4].
  unfold ctl_ok in Hc. unfold ctl_step. rewrite H3.
  destruct (control s) as [| |h|h|h|h|h|h|h|h|h| | | | | |]; eauto.
  - specialize (H1 Hc). split; [lia|]. destruct (decide (sender s' = SGone)) as [_|N]; [by eexists | intros; by apply send_goes_on].
  - destruct Hc as [_ Hc]. specialize (H2 Hc). split; [lia|].
    destruct (decide (receiver s' = RGone)) as [_|N]; [by eexists | intros; by apply recv_goes_on].
  - destruct Hc as (_ & Hc & _). specialize (H2 Hc). split; [lia|].
    destruct (decide (receiver s' = RGone)) as [_|N]; [by eexists | intros; by apply recv_goes_on].
Qed.

(** ** The theorems on concrete runs *)

Module ThreadSamples.

(** Connected, with the sender about to send and the receiver waiting. *)
Definition busy : list action := connect_all ++ take_socket ++ [Recv false].

Lemma run_star l : forall s s', run l s = Some (Ok s') ->
  (fix quiet (l : list action) (s : threads) : Prop := match l with
    | [] => True
    | a :: l => calm s a /\ match do_step a s with Some (Ok s1) => quiet l s1 | _ => True end
    end) l s -> star calm_step s s'.
Proof.
  induction l as [|a l IH]; intros s s'; cbn [run].
  - intros [= <-] _. apply star_refl.
  - destruct (do_step a s) as [[s1| | | |]|] eqn:E; try done. intros R [C Q].
    apply (star_step calm_step _ s1); [|by apply IH]. exists a; [done | by apply do_step_iff].
Qed.

Lemma busy_reached : exists s, run busy loaded = Some (Ok s) /\ star calm_step loaded s /\
  _sock s = Some 0%nat /\ sender s = SSend (Some 0%nat) /\ receiver s = RRecv (Some 0%nat) /\ control s = CIdle.
Proof.
  eexists. split; [vm_compute; reflexivity|]. split; [|done].
  apply (run_star busy); [vm_compute; reflexivity|]. vm_compute. repeat split; done.
Qed.

Lemma threads_safe_witness : exists s s', run busy loaded = Some (Ok s) /\ step s (Send false) (Ok s') /\
  live s' = [0%nat] /\ sender s' = SKeep.
Proof.
  destruct busy_reached as (s & E & H & E1 & E2 & E3 & E4).
  assert (Hs : exists r, step s (Send false) r) by (eexists; constructor; unfold send_step; rewrite E2; reflexivity).
  destruct Hs as [r Hs]. assert (Hq : calm s (Send false)) by (intros N; congruence).
  destruct (threads_safe s (Send false) r H Hq Hs) as (s' & -> & _ & L & _). exists s, s'. split; [exact E|]. split; [exact Hs|].
  apply do_step_iff in Hs. cbn in Hs. unfold send_step in Hs. rewrite E2 in Hs. cbn [use_socket] in Hs.
  destruct (decide _); [|done]. injection Hs as <-. cbn in *. split; [|done]. rewrite L by congruence. by rewrite E1.
Defined.

(** Connected, and asked to disconnect: waiting for the sender. *)
Definition waiting : list action := connect_all ++ replicate 3 (Control ToRest false).

Lemma waiting_reached : exists s, run waiting loaded = Some (Ok s) /\ star calm_step loaded s /\
  control s = DWaitSend ToRest /\ exists s', run [Send false] s = Some (Ok s') /\ sender s' = SGone.
Proof.
  eexists. split; [vm_compute; reflexivity|]. split; [|split; [done|by eexists]].
  apply (run_star waiting); [vm_compute; reflexivity|]. vm_compute. repeat split; done.
Qed.

Lemma stopping_ends_witness : exists s s' r, run waiting loaded = Some (Ok s) /\ run [Send false] s = Some (Ok s') /\
  sends [Send false] <= 5 /\ ctl_step ToRest true s' = Some r.
Proof.
  destruct waiting_reached as (s & E & H & Ec & s' & E' & Es).
  pose proof (stopping_ends s s' [Send false] ToRest H E' ltac:(by repeat constructor)) as T.
  rewrite Ec in T. destruct T as [T1 T2]. rewrite decide_True in T2 by exact Es. destruct T2 as [r T2].
  by exists s, s', r.
Defined.
End ThreadSamples.
